(* ===== verification/_CoqProject ===== *)
-Q . S2P
Prelude.v
JsString.v
JsNumber.v
Controls.v
JsValue.v
JsJson.v
Uri.v
Html.v
QueueBoard.v
LogFilters.v
Forms.v
BackendKind.v
Pwa.v
AliasDialog.v
ModelDialog.v
Catalog.v
KeyPicker.v
Jobs.v
ChatSink.v
MediaPoll.v
ChatStream.v
ChatParams.v
ChatRefs.v
ChatMode.v
ChatStore.v
ChatInv.v
ChatControls.v
ChatProps.v
ChatPanels.v
ChatSave.v
MediaRequest.v
DialogJobs.v
