(* ===== verification/Prelude.v ===== *)
(** * The MikroLLM admin front end: a verification library

    MikroLLM is a gateway for language models.  Its Go server (proxy, queue,
    guard, store, hub client) serves an admin interface whose program is
    src/internal/web/static/app.js, with pwa.js beside it.  This library models
    that program and proves what makes its parts correct; line numbers without
    a file name are lines of app.js.  The server is another program: what it
    answers is an argument of the definitions.

    ** How the program is put together, and where each part is

    app.js is one function that looks for the elements of the page it runs on
    and binds handlers to them.  The handlers of a page share that page's
    controls and a few variables; the pages share [escHtml] and the catalog
    filters.  A part is modelled by the record of the variables, attributes and
    controls its handlers touch, one definition per handler, and, where the
    order of events matters, a step function or relation over them.

    - [Prelude], [JsString], [JsNumber], [JsValue], [JsJson], [Uri], [Controls]:
      the parts of JavaScript and of the browser the code relies on: strings as
      UTF-16 code units, doubles as the rationals they denote, values with
      [JSON.parse] and [JSON.stringify], URL encoding, and what form controls
      keep of a value.
    - [Html] (2-18, 730): escaping and CSRF fields, with a tokenizer that says
      which tags a markup string has and which text it shows.
    - [QueueBoard] (721-769): the dashboard's live board.
    - [Catalog] (111-290): filters, hub ranks and pages of the model catalog;
      [KeyPicker] (45-55, 94-109, 293-346): the key form, which uses the
      catalog's filters.
    - [LogFilters] (348-433): the log page and its address; the key list.
    - [Forms] (20-92), [BackendKind] (435-536), [AliasDialog] (1918-2068),
      [ModelDialog] (2070-2185): the forms and dialogs.
    - [Jobs] (538-719): load, unload, delete and pull jobs, their polling and
      the banner.  [DialogJobs] composes them with [ModelDialog], whose buttons
      they serve.
    - the playground (771-1915).  [ChatMode]: the mode and model selects.
      [ChatStore]: the tabs, their shared message arrays (addresses in a heap),
      sending, regenerating, what is stored; [ChatSave]: reading it back;
      [ChatPanels]: tab bar, queue panel, history; [ChatControls]: clicks,
      keys, scrolling, downloads; [ChatParams]: the parameter panel; [ChatRefs]:
      attached images.  [ChatStream]: a streamed answer from bytes to message.
      [MediaPoll]: image and video generations as runs against a network that
      answers over time; [MediaRequest]: what such a request carries of the
      parameter panel.  [ChatInv]: the page's events as one step function, and
      its invariant; [ChatProps]: what follows for the operations.
    - [Pwa] (pwa.js): the install button.

    [ChatSink] is the interface between generations and the chats: a class with
    the two operations a generation may perform and their laws.  [MediaPoll] is
    verified against it, [ChatInv.page_sink] implements it, and
    [MediaPoll.generation_leaves_chat_idle] holds of every implementation.

    ** What the theorems show

    - Termination and time: every generation ends ([generation_finishes]), an
      abort ends it at once ([abort_stops]), polling of jobs lives exactly as
      long as a job is believed to run ([polling_survives], [polling_stops]).
    - Consistency of state: tabs, arrays, busy flags and the view
      ([chats_stay_consistent], [no_crosstalk], [close_ends_generation]); picks
      and chips of the key form ([picker_stays_in_step]); the server form
      ([kind_form_follows]); the parameter panel ([panel_follows_selection]).
    - Round trips: escaping, JSON, URL encoding, the log page's address
      ([reload_keeps_filters]), stored chats ([reload_restores]), parameter
      defaults ([defaults_round_trip]), an alias's settings
      ([settings_round_trip]).
    - Streams: a streamed answer is delivered whole however it is cut
      ([stream_delivers], [chunking_invariant]).
    - Function: filters, pages and ranks of the catalog, the dialogs, sending,
      and components composed: from the panel to the request
      ([panel_reaches_request]), from the dialog's buttons to the jobs
      ([dialog_buttons_post]).
    - Safety of markup: the tags of the board, banner and tab bar are fixed
      whatever the data ([escHtml_round_trip], [board_safe], [banner_safe],
      [tab_bar_safe]).
    - Errors: the places where the code does not do what it means to, each as a
      theorem about the model: [regenerate_sends_caption],
      [stream_lost_after_switch], [cached_model_overtaken],
      [video_limit_overrun], [load_button_stays_disabled],
      [unterminated_line_dropped], [refs_overrun], [reload_leaves_phantom],
      [toggle_out_of_step], [other_provider_replaces_upstream],
      [copy_label_stuck], [late_offer_lost].

    ** Bounds and fuel

    [MediaPoll.poll_fuel] is 602 requests: the requests for a video are at
    least 5 s apart for 45 minutes, those for an image 2 s for 20 minutes, so
    no poller makes more than 601 ([MediaPoll.poll_bound]).
    [JsValue.JSON_parse] takes two
    calls per code unit and two more; [JsJson.parse_fuel_enough] shows that this
    never runs out.  Digit printing has one step more than the number has
    binary digits ([JsString.nat_digits_value]).  Everything else is structural
    recursion.  Numbers are doubles where the code computes with them
    ([ChatRefs.canvas_bounds] proves the bounds through the roundings) and
    integers where they only come from the server's integers; printed integers
    are exact up to 2^53, which the theorems that print them assume.

    ** What is left to parameters

    Unicode case folding (class [CaseFold]), the order of names of an engine's
    built-in functions ([builtin]), the browser's rounding of a slider and its
    image decoder and encoder, the storage quota, and the network.  Each
    theorem that uses one holds for every choice of it or states what it needs,
    and is witnessed with a concrete one.

    ** Not modelled

    - The Go server, its templates and its tests: another program.  The
      templates are read as the initial state of the controls.
    - sw.js and the registration in pwa.js: calls of the browser only.
      swagger/: a vendored bundle and its configuration literal.
    - Layout: focus, class names that only style, the appearance of dialogs.
    - JSON the page never wrote in [localStorage], and server answers of
      another type than the server's own encoder produces, where the code would
      throw a TypeError; the order of the keys of a chat request's body.
    - Elements a template always provides are taken to be there; the code's
      tests for their absence are then true. *)

From stdpp Require Export base tactics list numbers option sorting sets gmap.
From stdpp Require Export strings.
From Stdlib Require Export ZArith Lia.

#[global] Set Default Proof Using "Type".

(** ** Strings

    A JavaScript string is a finite sequence of UTF-16 code units.  A code unit
    is a [Z] between 0 and 65535. *)

Abbreviation jstr := (list Z).

Declare Scope js_scope.
Delimit Scope js_scope with js.

(** String literals of the source are written [js "..."]: the UTF-8 bytes of
    the Rocq literal are decoded into UTF-16 code units. *)
Fixpoint utf16_of_utf8 (l : list Z) : jstr :=
  match l with
  | [] => []
  | b0 :: l1 =>
    if Z.ltb b0 128 then b0 :: utf16_of_utf8 l1 else
    match l1 with
    | [] => []
    | b1 :: l2 =>
      if Z.ltb b0 224 then ((b0 - 192) * 64 + (b1 - 128))%Z :: utf16_of_utf8 l2 else
      match l2 with
      | [] => []
      | b2 :: l3 =>
        if Z.ltb b0 240
        then ((b0 - 224) * 4096 + (b1 - 128) * 64 + (b2 - 128))%Z :: utf16_of_utf8 l3
        else
        match l3 with
        | [] => []
        | b3 :: l4 =>
          let cp := ((b0 - 240) * 262144 + (b1 - 128) * 4096
                     + (b2 - 128) * 64 + (b3 - 128) - 65536)%Z in
          (55296 + cp / 1024)%Z :: (56320 + cp mod 1024)%Z :: utf16_of_utf8 l4
        end
      end
    end
  end.

Definition js (s : string) : jstr :=
  utf16_of_utf8 ((λ a, Z.of_N (Ascii.N_of_ascii a)) <$> String.list_ascii_of_string s).
Arguments js s%_string : simpl never.

(** Code units that a Rocq string cannot hold comfortably. *)
Definition cQuote : Z := 34.
Definition cApos : Z := 39.
Definition cNL : Z := 10.
Definition cCR : Z := 13.

(** [==] between strings as a boolean. *)
Notation "s =s t" := (bool_decide (s = t)) (at level 70, no associativity) : js_scope.
Open Scope js_scope.

(** JavaScript's [a || b] on strings: the empty string is falsy. *)
Definition s_or (a b : jstr) : jstr := match a with [] => b | _ => a end.
Definition truthy_s (a : jstr) : bool := match a with [] => false | _ => true end.

Lemma truthy_s_spec a : truthy_s a = true ↔ a ≠ [].
Proof. destruct a; naive_solver. Qed.

Lemma s_or_nonempty a b : a ≠ [] → s_or a b = a.
Proof. by destruct a. Qed.

Lemma s_or_empty b : s_or [] b = b.
Proof. done. Qed.

(** ** Automation *)

(** Decide the equalities between string literals in the goal. *)
Ltac js_decide :=
  repeat match goal with
  | |- context [bool_decide (js ?a = js ?b)] =>
    let r := eval vm_compute in (bool_decide (js a = js b)) in
    change (bool_decide (js a = js b)) with r
  | |- context [bool_decide (js ?a = [])] =>
    let r := eval vm_compute in (bool_decide (js a = [])) in
    change (bool_decide (js a = [])) with r
  end; cbv beta iota.

Lemma bool_decide_neq {A} `{EqDecision A} (a b : A) :
  a ≠ b → bool_decide (a = b) = false.
Proof. intros H. by apply bool_decide_false. Qed.

Lemma last_cons_eq {A} (x y : A) l k : x :: l = y :: k → x = y ∧ l = k.
Proof. by intros [= -> ->]. Qed.

(** ** Lists *)

(** Mapping a function the selection does not see changes no selection. *)
Lemma omap_fmap_same {A B} (g : A → option B) (f : A → A) (l : list A) :
  (∀ x, g (f x) = g x) → omap g (f <$> l) = omap g l.
Proof.
  intros Hf. induction l as [|x l IH]; [done|]. cbn. rewrite Hf.
  destruct (g x); [f_equal|]; exact IH.
Qed.

Lemma omap_fmap_none {A B} (g : A → option B) (f : A → A) (l : list A) :
  (∀ x, g (f x) = None) → omap g (f <$> l) = [].
Proof. intros Hf. induction l as [|x l IH]; [done|]. cbn. rewrite Hf. exact IH. Qed.

(** Mapping a function that can only drop from the selection filters it. *)
Lemma omap_fmap_filter {A B} (P : B → Prop) `{!∀ y, Decision (P y)}
    (g : A → option B) (f : A → A) (l : list A) :
  (∀ x, g (f x) = y ← g x; if decide (P y) then Some y else None) →
  omap g (f <$> l) = filter P (omap g l).
Proof.
  intros Hf. induction l as [|x l IH]; [done|]. cbn. rewrite Hf.
  destruct (g x) as [y|]; simpl; [|exact IH].
  rewrite filter_cons. destruct (decide (P y)); [f_equal|]; exact IH.
Qed.

(** Mapping a function that only adds to the selection, and adds somewhere,
    makes it longer. *)
Lemma omap_fmap_grows {A B} (g : A → option B) (f : A → A) (l : list A) :
  (∀ x, is_Some (g x) → is_Some (g (f x))) →
  (length (omap g l) ≤ length (omap g (f <$> l)))%nat ∧
  ((∃ x, x ∈ l ∧ g x = None ∧ is_Some (g (f x))) →
   (length (omap g l) < length (omap g (f <$> l)))%nat).
Proof.
  intros Hf. induction l as [|x l [IH1 IH2]].
  { split; [done|]. by intros (x & Hx%elem_of_nil & _). }
  cbn. pose proof (Hf x) as Hx. split.
  - destruct (g x) as [y|]; [destruct Hx as [z ->]; [done|]; cbn; apply le_n_S; exact IH1|].
    destruct (g (f x)); cbn; [apply le_S|]; exact IH1.
  - intros (y & [-> | Hy]%elem_of_cons & H1 & H2).
    + rewrite H1. destruct H2 as [z ->]. cbn. apply Nat.lt_succ_r. exact IH1.
    + assert (∃ y, y ∈ l ∧ g y = None ∧ is_Some (g (f y))) as Hex by eauto.
      specialize (IH2 Hex).
      destruct (g x) as [z|]; [destruct Hx as [w ->]; [done|]; cbn; apply -> Nat.succ_lt_mono; exact IH2|].
      destruct (g (f x)); cbn; [apply Nat.lt_lt_succ_r|]; exact IH2.
Qed.

Lemma filter_id {A} (P : A → Prop) `{!∀ x, Decision (P x)} (l : list A) :
  Forall P l → filter P l = l.
Proof. induction 1 as [|x l Hx _ IH]; [done|]. by rewrite filter_cons_True, IH. Qed.
