(* ===== verification/JsString.v ===== *)
(** * JavaScript strings, as the front end uses them

    The string methods app.js calls, on UTF-16 code units: [trim], [indexOf],
    [split], [join], [slice] and the digit strings of integers.  Case folding
    needs the Unicode tables and is the class [CaseFold]. *)

From S2P Require Import Prelude.
Open Scope Z_scope.

(** ** ASCII case *)

Definition ascii_lower (s : jstr) : jstr :=
  map (λ c, if (65 <=? c) && (c <=? 90) then c + 32 else c) s.

(** ** White space and [trim] *)

Definition is_ws (c : Z) : bool :=
  ((9 <=? c) && (c <=? 13)) || (c =? 32) || (c =? 160) || (c =? 5760)
  || ((8192 <=? c) && (c <=? 8202)) || (c =? 8232) || (c =? 8233)
  || (c =? 8239) || (c =? 8287) || (c =? 12288) || (c =? 65279).

Fixpoint trim_start (s : jstr) : jstr :=
  match s with
  | [] => []
  | c :: t => if is_ws c then trim_start t else s
  end.

Definition trim_end (s : jstr) : jstr := reverse (trim_start (reverse s)).
Definition trim (s : jstr) : jstr := trim_end (trim_start s).

(** ** Searching *)

Fixpoint starts_with (p s : jstr) : bool :=
  match p, s with
  | [], _ => true
  | a :: p', b :: s' => (a =? b) && starts_with p' s'
  | _ :: _, [] => false
  end.

(** [s.indexOf(p)], [None] for -1. *)
Fixpoint index_of (p s : jstr) : option nat :=
  if starts_with p s then Some 0%nat else
  match s with
  | [] => None
  | _ :: s' => S <$> index_of p s'
  end.

(** [s.indexOf(p) >= 0]. *)
Definition includes (p s : jstr) : bool := bool_decide (is_Some (index_of p s)).

(** ** Splitting and joining *)

(** [s.split(c)] for a one-unit separator. *)
Fixpoint split_on (c : Z) (s : jstr) : list jstr :=
  match s with
  | [] => [[]]
  | x :: t =>
    if x =? c then [] :: split_on c t
    else match split_on c t with
         | [] => [[x]]
         | w :: ws => (x :: w) :: ws
         end
  end.

(** [s.split(/\s+/)]: a run of white space is one separator. *)
Fixpoint split_ws_aux (in_ws : bool) (s : jstr) : list jstr :=
  match s with
  | [] => [[]]
  | x :: t =>
    if is_ws x then
      if in_ws then split_ws_aux true t else [] :: split_ws_aux true t
    else match split_ws_aux false t with
         | [] => [[x]]
         | w :: ws => (x :: w) :: ws
         end
  end.
Definition split_ws (s : jstr) : list jstr := split_ws_aux false s.

(** [l.join(sep)]. *)
Fixpoint js_join (sep : jstr) (l : list jstr) : jstr :=
  match l with
  | [] => []
  | [w] => w
  | w :: ws => w ++ sep ++ js_join sep ws
  end.

(** [s.slice(0, n)]. *)
Definition slice0 (n : nat) (s : jstr) : jstr := take n s.

(** [s.replace(/c$/, "")] for one code unit. *)
Definition strip_last (c : Z) (s : jstr) : jstr :=
  match last s with
  | Some d => if d =? c then take (pred (length s)) s else s
  | None => s
  end.

(** [s.replace(/^p/, "")] for a literal prefix. *)
Definition strip_prefix (p s : jstr) : jstr :=
  if starts_with p s then drop (length p) s else s.

(** ** Case folding

    [String.prototype.toLowerCase] depends on the Unicode character database,
    which is data outside the repository: it is a parameter of the
    definitions that use it. *)
Class CaseFold := toLowerCase : jstr → jstr.

(** A concrete folding (ASCII and Cyrillic) for evaluation. *)
Definition lower_unit (c : Z) : Z :=
  if (65 <=? c) && (c <=? 90) then c + 32
  else if (1040 <=? c) && (c <=? 1071) then c + 32
  else if (1024 <=? c) && (c <=? 1039) then c + 80
  else c.
Definition AsciiCyrillicFold : CaseFold := fmap lower_unit.

(** ** Integers as strings *)

Fixpoint digits_go (fuel : nat) (n : Z) (acc : jstr) : jstr :=
  match fuel with
  | O => acc
  | S f =>
    let acc' := (48 + n mod 10) :: acc in
    if n <? 10 then acc' else digits_go f (n / 10) acc'
  end.

(** [String(n)] for an integer [n] (JavaScript prints integers below 10^21
    in plain decimal). *)
Definition nat_digits (n : Z) : jstr := digits_go (S (Z.to_nat (Z.log2 n))) n [].
Definition of_int (z : Z) : jstr :=
  if z <? 0 then 45 :: nat_digits (- z) else nat_digits z.

Definition is_digit (c : Z) : bool := (48 <=? c) && (c <=? 57).
Definition digit_val (c : Z) : Z := c - 48.

(** The longest prefix of decimal digits, and what follows. *)
Fixpoint span_digits (s : jstr) : jstr * jstr :=
  match s with
  | c :: t => if is_digit c then let (d, r) := span_digits t in (c :: d, r) else ([], s)
  | [] => ([], [])
  end.

Definition digits_value (ds : jstr) : Z := foldl (λ a c, 10 * a + digit_val c) 0 ds.

(** ** Lemmas *)

Lemma trim_start_no_ws s : Forall (λ c, is_ws c = false) s → trim_start s = s.
Proof. destruct s as [|c s]; [done|]. intros [Hc _]%Forall_cons. simpl. by rewrite Hc. Qed.

Lemma trim_no_ws s : Forall (λ c, is_ws c = false) s → trim s = s.
Proof.
  intros H. unfold trim, trim_end. rewrite (trim_start_no_ws s) by done.
  rewrite trim_start_no_ws by (by apply Forall_reverse).
  apply reverse_involutive.
Qed.

Lemma trim_start_head s c t : trim_start s = c :: t → is_ws c = false.
Proof.
  induction s as [|d s IH]; [done|]. simpl. destruct (is_ws d) eqn:Hd; [done|].
  by intros [= -> _].
Qed.

Lemma trim_start_idem s : trim_start (trim_start s) = trim_start s.
Proof.
  destruct (trim_start s) as [|c t] eqn:E; [done|].
  simpl. by rewrite (trim_start_head _ _ _ E).
Qed.

Lemma trim_start_app_nws s c : is_ws c = false → trim_start (s ++ [c]) = trim_start s ++ [c].
Proof.
  intros Hc. induction s as [|d s IH]; simpl; [by rewrite Hc|].
  destruct (is_ws d); [done|]. done.
Qed.

Lemma trim_end_cons_nws c s : is_ws c = false → trim_end (c :: s) = c :: trim_end s.
Proof.
  intros Hc. unfold trim_end. rewrite reverse_cons, trim_start_app_nws by done.
  by rewrite reverse_app.
Qed.

Lemma trim_end_idem s : trim_end (trim_end s) = trim_end s.
Proof. unfold trim_end. by rewrite reverse_involutive, trim_start_idem. Qed.

Lemma trim_idem s : trim (trim s) = trim s.
Proof.
  unfold trim. destruct (trim_start s) as [|c t] eqn:E; [done|].
  pose proof (trim_start_head _ _ _ E) as Hc.
  rewrite trim_end_cons_nws by done. simpl. rewrite Hc.
  rewrite trim_end_cons_nws by done. by rewrite trim_end_idem.
Qed.

Lemma starts_with_app p s : starts_with p (p ++ s) = true.
Proof. induction p as [|a p IH]; [done|]. simpl. by rewrite Z.eqb_refl. Qed.

Lemma starts_with_spec p s : starts_with p s = true ↔ ∃ t, s = p ++ t.
Proof.
  split; [|intros [t ->]; apply starts_with_app].
  revert s. induction p as [|a p IH]; intros s; simpl; [eauto|].
  destruct s as [|b s]; [done|]. rewrite andb_true_iff, Z.eqb_eq.
  intros [-> [t ->]%IH]. by exists t.
Qed.

Lemma index_of_spec p s : is_Some (index_of p s) ↔ ∃ a b, s = a ++ p ++ b.
Proof.
  induction s as [|c s IH]; simpl.
  - destruct (starts_with p []) eqn:E.
    + apply starts_with_spec in E as [t Ht]. split; [|eauto]. intros _. by exists [], t.
    + split; [by intros []|]. intros (a & b & Hab).
      symmetry in Hab. apply app_eq_nil in Hab as [-> Hab].
      apply app_eq_nil in Hab as [-> ->]. done.
  - destruct (starts_with p (c :: s)) eqn:E.
    + apply starts_with_spec in E as [t Ht]. split; [|eauto]. intros _. by exists [], t.
    + rewrite fmap_is_Some, IH. split.
      * intros (a & b & ->). by exists (c :: a), b.
      * intros (a & b & Hab). destruct a as [|c' a].
        { simpl in Hab. rewrite Hab, starts_with_app in E. done. }
        simpl in Hab. injection Hab as -> ->. eauto.
Qed.

Lemma includes_spec p s : includes p s = true ↔ ∃ a b, s = a ++ p ++ b.
Proof. unfold includes. rewrite bool_decide_eq_true. apply index_of_spec. Qed.

Lemma split_on_nonempty c s : split_on c s ≠ [].
Proof.
  destruct s as [|x t]; simpl; [done|]. destruct (x =? c); [done|]. by destruct (split_on c t).
Qed.

Lemma split_on_no_sep c s : Forall (λ x, x ≠ c) s → split_on c s = [s].
Proof.
  induction 1 as [|x t Hx _ IH]; [done|]. simpl.
  apply Z.eqb_neq in Hx. by rewrite Hx, IH.
Qed.

(** Splitting a concatenation: the last piece of the left part and the first
    piece of the right part are one piece. *)
Lemma split_on_app c s t :
  ∃ ini w v rest, split_on c s = ini ++ [w] ∧ split_on c t = v :: rest ∧
                  split_on c (s ++ t) = ini ++ [w ++ v] ++ rest.
Proof.
  destruct (split_on c t) as [|v rest] eqn:Et; [by destruct (split_on_nonempty c t)|].
  induction s as [|x s IH]; simpl.
  - exists [], [], v, rest. by rewrite Et.
  - destruct IH as (ini & w & v' & rest' & E1 & [= <- <-] & E2).
    rewrite E1, E2. destruct (x =? c).
    + by exists ([] :: ini), w, v, rest.
    + destruct ini as [|i ini].
      * by exists [], (x :: w), v, rest.
      * by exists ((x :: i) :: ini), w, v, rest.
Qed.

Lemma join_split c s : js_join [c] (split_on c s) = s.
Proof.
  induction s as [|x t IH]; [done|]. simpl.
  destruct (Z.eqb_spec x c) as [->|Hne].
  - destruct (split_on c t) as [|w ws] eqn:E; [by destruct (split_on_nonempty c t)|].
    by rewrite <- IH.
  - destruct (split_on c t) as [|w ws] eqn:E; [by destruct (split_on_nonempty c t)|].
    rewrite <- IH. by destruct ws.
Qed.

Lemma split_on_cons_piece c w s :
  c ∉ w → split_on c (w ++ c :: s) = w :: split_on c s.
Proof.
  induction w as [|x w IH]; intros Hw; simpl; [by rewrite Z.eqb_refl|].
  rewrite (proj2 (Z.eqb_neq x c)) by set_solver. by rewrite IH by set_solver.
Qed.

Lemma split_join c ws : ws ≠ [] → Forall (λ w, c ∉ w) ws → split_on c (js_join [c] ws) = ws.
Proof.
  intros Hne. induction 1 as [|w ws Hw Hws IH]; [done|].
  assert (Hnw : Forall (λ x, x ≠ c) w) by (apply Forall_forall; intros x Hx Hxc; by subst x).
  destruct ws as [|v ws]; simpl; [by rewrite split_on_no_sep|].
  rewrite split_on_cons_piece by done. f_equal. by apply IH.
Qed.

Lemma split_on_pieces c s w : w ∈ split_on c s → c ∉ w.
Proof.
  revert w. induction s as [|x t IH]; intros w; simpl.
  - intros ->%list_elem_of_singleton. set_solver.
  - destruct (Z.eqb_spec x c) as [->|Hne].
    + intros [->|Hin]%elem_of_cons; [set_solver|eauto].
    + destruct (split_on c t) as [|v ws] eqn:E; [by destruct (split_on_nonempty c t)|].
      intros [->|H]%elem_of_cons.
      * specialize (IH v ltac:(set_solver)). set_solver.
      * apply IH. set_solver.
Qed.

Lemma strip_prefix_app p s : strip_prefix p (p ++ s) = s.
Proof. unfold strip_prefix. rewrite starts_with_app. by rewrite drop_app_length. Qed.

(** *** Digit strings *)

Lemma digits_go_app fuel n acc : digits_go fuel n acc = digits_go fuel n [] ++ acc.
Proof.
  revert n acc. induction fuel as [|f IH]; intros n acc; [done|]. simpl.
  destruct (n <? 10); [done|]. rewrite IH, (IH _ [_]). by rewrite <- app_assoc.
Qed.

Lemma digits_value_snoc ds c : digits_value (ds ++ [c]) = 10 * digits_value ds + digit_val c.
Proof. unfold digits_value. by rewrite foldl_app. Qed.

Lemma digits_go_value fuel n :
  0 <= n → n < 2 ^ Z.of_nat fuel → digits_value (digits_go fuel n []) = n.
Proof.
  revert n. induction fuel as [|f IH]; intros n H0 Hn.
  { simpl in Hn. unfold digits_value. simpl. lia. }
  simpl. destruct (Z.ltb_spec n 10) as [Hlt|Hge].
  - unfold digits_value, digit_val. simpl. rewrite Z.mod_small by lia. lia.
  - rewrite digits_go_app, digits_value_snoc, IH.
    + unfold digit_val. pose proof (Z.div_mod n 10). lia.
    + apply Z.div_pos; lia.
    + rewrite Nat2Z.inj_succ, Z.pow_succ_r in Hn by lia.
      apply Z.div_lt_upper_bound; lia.
Qed.

Lemma digits_go_digits fuel n acc :
  Forall (λ c, is_digit c = true) acc → 0 <= n →
  Forall (λ c, is_digit c = true) (digits_go fuel n acc).
Proof.
  revert n acc. induction fuel as [|f IH]; intros n acc Hacc Hn; [done|]. simpl.
  assert (is_digit (48 + n mod 10) = true) as Hd.
  { pose proof (Z.mod_pos_bound n 10). unfold is_digit. lia. }
  assert (Forall (λ c, is_digit c = true) ((48 + n mod 10) :: acc)) by (by constructor).
  destruct (n <? 10); [done|]. apply IH; [done|]. apply Z.div_pos; lia.
Qed.

Lemma nat_digits_value n : 0 <= n → digits_value (nat_digits n) = n.
Proof.
  intros Hn. apply digits_go_value; [done|].
  rewrite Nat2Z.inj_succ, Z2Nat.id by apply Z.log2_nonneg.
  destruct (decide (n = 0)) as [->|]; [done|]. apply Z.log2_spec. lia.
Qed.

Lemma nat_digits_digits n : 0 <= n → Forall (λ c, is_digit c = true) (nat_digits n).
Proof. intros. by apply digits_go_digits. Qed.

Lemma digits_go_nonempty fuel n acc : fuel ≠ O → digits_go fuel n acc ≠ [].
Proof.
  intros Hf. destruct fuel as [|f]; [done|]. simpl. destruct (n <? 10); [done|].
  rewrite digits_go_app. by destruct (digits_go f (n / 10) []).
Qed.

Lemma nat_digits_nonempty n : nat_digits n ≠ [].
Proof. by apply digits_go_nonempty. Qed.

(** Leading digit: zero only for the number zero. *)
Lemma digits_go_head fuel n c t :
  0 < n → n < 2 ^ Z.of_nat fuel → digits_go fuel n [] = c :: t → c ≠ 48.
Proof.
  revert n c t. induction fuel as [|f IH]; intros n c t H0 Hn; [done|]. simpl.
  destruct (Z.ltb_spec n 10) as [Hlt|Hge].
  - rewrite Z.mod_small by lia. intros [= <- _]. lia.
  - rewrite digits_go_app. destruct (digits_go f (n / 10) []) as [|d ds] eqn:E.
    { exfalso. destruct f as [|f]; [simpl in Hn; lia|].
      by apply (digits_go_nonempty (S f) (n / 10) []) in E. }
    intros [= <- _]. eapply IH, E.
    + apply Z.div_str_pos. lia.
    + rewrite Nat2Z.inj_succ, Z.pow_succ_r in Hn by lia.
      apply Z.div_lt_upper_bound; lia.
Qed.

Lemma nat_digits_head n c t : 0 < n → nat_digits n = c :: t → c ≠ 48.
Proof.
  intros Hn. apply digits_go_head; [done|].
  rewrite Nat2Z.inj_succ, Z2Nat.id by apply Z.log2_nonneg. by apply Z.log2_spec.
Qed.

Lemma span_digits_app ds r :
  Forall (λ c, is_digit c = true) ds →
  match r with c :: _ => is_digit c = false | [] => True end →
  span_digits (ds ++ r) = (ds, r).
Proof.
  intros Hds Hr. induction Hds as [|c ds Hc _ IH]; simpl.
  - destruct r as [|c r]; [done|]. simpl. by rewrite Hr.
  - by rewrite Hc, IH.
Qed.

Lemma of_int_inj : Inj (=) (=) of_int.
Proof.
  assert (∀ z, 0 <= z → ∃ c t, nat_digits z = c :: t ∧ is_digit c = true) as Hd.
  { intros z Hz. destruct (nat_digits z) as [|c t] eqn:E; [by destruct (nat_digits_nonempty z)|].
    exists c, t. split; [done|]. pose proof (nat_digits_digits z Hz) as H.
    rewrite E in H. by apply Forall_cons in H as [? _]. }
  intros x y. unfold of_int.
  destruct (Z.ltb_spec x 0), (Z.ltb_spec y 0); intros Heq.
  - injection Heq as Heq. apply (f_equal digits_value) in Heq.
    rewrite !nat_digits_value in Heq by lia. lia.
  - destruct (Hd y) as (c & t & E & Hc); [lia|]. rewrite E in Heq. injection Heq as <- _. done.
  - destruct (Hd x) as (c & t & E & Hc); [lia|]. rewrite E in Heq. injection Heq as -> _. done.
  - apply (f_equal digits_value) in Heq. by rewrite !nat_digits_value in Heq by lia.
Qed.
