(* ===== verification/JsNumber.v ===== *)
(** * JavaScript numbers

    A number is NaN, an infinity or a finite double.  A finite double is kept
    as the reduced rational it denotes; conversions round to the nearest
    double, ties to even ([to_double]).  Negative zero is not distinguished
    from zero: nothing in app.js can observe it. *)

From Stdlib Require Import QArith Qabs Qround.
From S2P Require Import Prelude JsString.
Open Scope Z_scope.

Inductive num : Type :=
  | NaN
  | Inf (neg : bool)
  | Fin (q : Q).

#[export] Instance Q_eq_decision : EqDecision Q.
Proof. intros [a b] [c d]. destruct (decide (a = c)), (decide (b = d)); [left|right..]; congruence. Defined.
#[export] Instance num_eq_dec : EqDecision num.
Proof. solve_decision. Defined.

(** ** Rounding to a double *)

(** [n/d] rounded to an integer, ties to even. *)
Definition round_half_even (n d : Z) : Z :=
  let q := n / d in
  let r := n mod d in
  match 2 * r ?= d with
  | Lt => q
  | Gt => q + 1
  | Eq => if Z.even q then q else q + 1
  end.

Definition max_safe : Z := 2 ^ 53.

(** The binary exponent of the last place of [n/d > 0] as a double. *)
Definition ulp_exp (n d : Z) : Z :=
  let e0 := Z.log2 n - Z.log2 d in
  let e1 := if 0 <=? e0 then (if n <? d * 2 ^ e0 then e0 - 1 else e0)
            else (if n * 2 ^ (- e0) <? d then e0 - 1 else e0) in
  Z.max (e1 - 52) (-1074).

Definition round_pos (n d : Z) : Q :=
  let e := ulp_exp n d in
  if 0 <=? e then inject_Z (round_half_even n (d * 2 ^ e) * 2 ^ e)
  else Qred (Qmake (round_half_even (n * 2 ^ (- e)) d) (Z.to_pos (2 ^ (- e)))).

Definition to_double (q0 : Q) : num :=
  let q := Qred q0 in
  let n := Qnum q in
  let d := Zpos (Qden q) in
  if (d =? 1) && (Z.abs n <=? max_safe) then Fin q else
  let a := round_pos (Z.abs n) d in
  if Qle_bool (inject_Z (2 ^ 1024)) a then Inf (n <? 0)
  else Fin (if n <? 0 then Qopp a else a).

Definition num_of_Z (z : Z) : num := to_double (inject_Z z).

(** ** Comparisons and truthiness *)

Definition num_ltb (a b : num) : bool :=
  match a, b with
  | NaN, _ | _, NaN => false
  | Fin p, Fin q => negb (Qle_bool q p)
  | Inf true, Inf true => false
  | Inf true, _ => true
  | _, Inf true => false
  | Inf false, _ => false
  | Fin _, Inf false => true
  end.

Definition num_leb (a b : num) : bool :=
  match a, b with
  | NaN, _ | _, NaN => false
  | _, _ => negb (num_ltb b a)
  end.

Definition num_truthy (a : num) : bool :=
  match a with
  | NaN => false
  | Inf _ => true
  | Fin q => negb (Qnum q =? 0)
  end.

(** [a || 0]. *)
Definition num_or0 (a : num) : num := if num_truthy a then a else Fin 0.

(** ** Reading decimals *)

Definition pow10Q (e : Z) : Q :=
  if 0 <=? e then inject_Z (10 ^ e) else Qmake 1 (Z.to_pos (10 ^ (- e))).

Definition num_of_decimal (neg : bool) (m e : Z) : num :=
  to_double (Qmult (inject_Z (if neg then - m else m)) (pow10Q e)).

(** [(sign, rest)]. *)
Definition read_sign (s : jstr) : bool * jstr :=
  match s with
  | c :: t => if c =? 45 then (true, t) else if c =? 43 then (false, t) else (false, s)
  | [] => (false, [])
  end.

(** An exponent part [e±ddd]; absent or malformed, nothing is consumed. *)
Definition read_exp (s : jstr) : Z * jstr :=
  match s with
  | c :: t =>
    if (c =? 101) || (c =? 69) then
      let (neg, t1) := read_sign t in
      let (ds, r) := span_digits t1 in
      match ds with
      | [] => (0, s)
      | _ => ((if neg : bool then - digits_value ds else digits_value ds), r)
      end
    else (0, s)
  | [] => (0, [])
  end.

(** [ddd.ddd e±ddd], at least one digit before or after the point. *)
Definition read_decimal (s : jstr) : option (Z * Z * jstr) :=
  let (ip, r) := span_digits s in
  let (fp, r2) := match r with
                  | c :: r' => if c =? 46 then span_digits r' else ([], r)
                  | [] => ([], [])
                  end in
  match ip ++ fp with
  | [] => None
  | ds => let (e, r3) := read_exp r2 in
          Some (digits_value ds, e - Z.of_nat (length fp), r3)
  end.

(** [parseFloat(s)]. *)
Definition parseFloat (s : jstr) : num :=
  let (neg, r) := read_sign (trim_start s) in
  if starts_with (js "Infinity") r then Inf neg else
  match read_decimal r with
  | None => NaN
  | Some (m, e, _) => num_of_decimal neg m e
  end.

(** An integer rounded to the nearest double (the identity up to 2^53). *)
Definition round53 (z : Z) : Z :=
  if Z.abs z <=? max_safe then z else
  match to_double (inject_Z z) with
  | Fin q => Qnum q / Zpos (Qden q)
  | _ => z
  end.

(** [parseInt(s, 10)], [None] for NaN.  (A numeral of more than 308 digits
    would be Infinity; here it stays an integer.) *)
Definition parseInt (s : jstr) : option Z :=
  let (neg, r) := read_sign (trim_start s) in
  match span_digits r with
  | ([], _) => None
  | (ds, _) => Some (round53 (if neg : bool then - digits_value ds else digits_value ds))
  end.

(** [Number(s)] on a decimal string (StringToNumber without the 0x, 0o and 0b forms). *)
Definition num_of_string (s : jstr) : num :=
  match trim s with
  | [] => Fin 0
  | t =>
    let (neg, r) := read_sign t in
    if bool_decide (r = js "Infinity") then Inf neg else
    match read_decimal r with
    | Some (m, e, []) => num_of_decimal neg m e
    | _ => NaN
    end
  end.

(** ** Printing: Number::toString *)

Definition shortest_at (x : Q) (n k : Z) : option Z :=
  let y := Qred (Qmult x (pow10Q (k - n))) in
  let s := round_half_even (Qnum y) (Zpos (Qden y)) in
  if bool_decide (to_double (Qmult (inject_Z s) (pow10Q (n - k))) = Fin x) then Some s else None.

Fixpoint shortest_from (x : Q) (n k : Z) (fuel : nat) : Z * Z :=
  match fuel with
  | O => (0, k)
  | S f => match shortest_at x n k with
           | Some s => (s, k)
           | None => shortest_from x n (k + 1) f
           end
  end.

(** The [n] with [10^(n-1) <= x < 10^n], for [x > 0]. *)
Fixpoint scale_down (x : Q) (n : Z) (fuel : nat) : Z :=
  match fuel with
  | O => n
  | S f => if Qle_bool (pow10Q (n - 1)) x then n else scale_down x (n - 1) f
  end.
Definition decimal_exponent (x : Q) : Z :=
  let fl := Qnum x / Zpos (Qden x) in
  if 0 <? fl then Z.of_nat (length (nat_digits fl)) else scale_down x 0 400.

Definition zeros (n : Z) : jstr := replicate (Z.to_nat n) 48.

Definition print_exponent (e : Z) : jstr :=
  [101; if e <? 0 then 45 else 43] ++ nat_digits (Z.abs e).

Definition print_pos (x : Q) : jstr :=
  let n0 := decimal_exponent x in
  let (s0, k0) := shortest_from x n0 1 17 in
  let '(s, n) := if s0 =? 10 ^ k0 then (10 ^ (k0 - 1), n0 + 1) else (s0, n0) in
  let ds := nat_digits s in
  let k := Z.of_nat (length ds) in
  if (k <=? n) && (n <=? 21) then ds ++ zeros (n - k)
  else if (0 <? n) && (n <=? 21) then take (Z.to_nat n) ds ++ [46] ++ drop (Z.to_nat n) ds
  else if (-6 <? n) && (n <=? 0) then [48; 46] ++ zeros (- n) ++ ds
  else match ds with
       | [d] => [d] ++ print_exponent (n - 1)
       | d :: rest => [d; 46] ++ rest ++ print_exponent (n - 1)
       | [] => []
       end.

Definition num_to_string (a : num) : jstr :=
  match a with
  | NaN => js "NaN"
  | Inf neg => if neg then js "-Infinity" else js "Infinity"
  | Fin q =>
    if (Zpos (Qden q) =? 1) && (Z.abs (Qnum q) <=? max_safe) then of_int (Qnum q)
    else if Qnum q <? 0 then 45 :: print_pos (Qopp q) else print_pos q
  end.

(** ** Lemmas *)

Lemma num_of_Z_safe z : Z.abs z ≤ max_safe → num_of_Z z = Fin (inject_Z z).
Proof.
  intros Hz. unfold num_of_Z, to_double.
  replace (Qred (inject_Z z)) with (inject_Z z).
  2:{ unfold inject_Z, Qred. pose proof (Z.ggcd_correct_divisors z 1) as Hc.
      pose proof (Z.ggcd_gcd z 1) as Hg. rewrite Z.gcd_1_r in Hg.
      destruct (Z.ggcd z 1) as [g [a b]]. simpl in *. destruct Hc as [-> Hb]. subst g.
      rewrite Z.mul_1_l in *. by subst b. }
  simpl. apply Z.leb_le in Hz. by rewrite Hz.
Qed.

Lemma num_to_string_Z z : Z.abs z ≤ max_safe → num_to_string (num_of_Z z) = of_int z.
Proof.
  intros Hz. rewrite num_of_Z_safe by done. simpl.
  by rewrite (proj2 (Z.leb_le _ _) Hz).
Qed.

Lemma num_leb_total a b : a ≠ NaN → b ≠ NaN → num_leb a b = negb (num_ltb b a).
Proof. by destruct a, b. Qed.

Lemma num_ltb_leb_trans a b c : num_ltb a b = true → num_leb b c = true → num_ltb a c = true.
Proof.
  destruct a as [|[]|p], b as [|[]|q], c as [|[]|r]; simpl; try done.
  rewrite !negb_true_iff. intros H1 H2%negb_false_iff%Qle_bool_iff.
  apply not_true_iff_false. intros H3%Qle_bool_iff.
  apply not_true_iff_false in H1. apply H1. apply Qle_bool_iff. by eapply Qle_trans.
Qed.

Lemma parseInt_of_int z : Z.abs z ≤ max_safe → parseInt (of_int z) = Some z.
Proof.
  intros Hz.
  assert (∀ n, 0 ≤ n → ∃ c t, nat_digits n = c :: t ∧ 48 ≤ c ≤ 57) as Hd.
  { intros n Hn. pose proof (nat_digits_digits n Hn) as H. pose proof (nat_digits_nonempty n).
    destruct (nat_digits n) as [|c t]; [done|]. exists c, t. split; [done|].
    apply Forall_cons in H as [Hc _]. unfold is_digit in Hc. lia. }
  assert (∀ n, 0 ≤ n → span_digits (nat_digits n) = (nat_digits n, [])) as Hs.
  { intros n Hn. rewrite <- (app_nil_r (nat_digits n)) at 1.
    by rewrite span_digits_app by (done || by apply nat_digits_digits). }
  assert (round53 z = z) as Hr by (unfold round53; apply Z.leb_le in Hz; by rewrite Hz).
  unfold parseInt, of_int. destruct (Z.ltb_spec z 0).
  - simpl. rewrite Hs by lia. destruct (Hd (- z)) as (c & t & E & _); [lia|].
    rewrite E, <- E, nat_digits_value by lia. by rewrite Z.opp_involutive, Hr.
  - destruct (Hd z) as (c & t & E & Hc); [lia|].
    assert (trim_start (nat_digits z) = nat_digits z) as ->.
    { rewrite E. simpl. unfold is_ws.
      repeat match goal with
      | |- context [?a <=? ?b] => destruct (Z.leb_spec a b); try lia
      | |- context [?a =? ?b] => destruct (Z.eqb_spec a b); try lia
      end; done. }
    assert (read_sign (nat_digits z) = (false, nat_digits z)) as ->.
    { rewrite E. simpl. destruct (Z.eqb_spec c 45), (Z.eqb_spec c 43); (lia || done). }
    rewrite Hs by lia. rewrite E, <- E, nat_digits_value by lia. by rewrite Hr.
Qed.

(** *** The error of rounding *)

Lemma round_half_even_near n d : 0 < d → 2 * Z.abs (round_half_even n d * d - n) ≤ d.
Proof.
  intros Hd. unfold round_half_even. pose proof (Z.div_mod n d ltac:(lia)) as E.
  pose proof (Z.mod_pos_bound n d Hd) as Hr. set (q := n / d) in *. set (r := n mod d) in *.
  destruct (Z.compare_spec (2 * r) d); [destruct (Z.even q)|..]; nia.
Qed.

(** The exponent chosen is that of the leading bit. *)
Definition lead_exp (n d : Z) : Z :=
  let e0 := Z.log2 n - Z.log2 d in
  if 0 <=? e0 then (if n <? d * 2 ^ e0 then e0 - 1 else e0)
  else (if n * 2 ^ (- e0) <? d then e0 - 1 else e0).

Lemma pow_split a b : 0 ≤ b ≤ a → 2 ^ a = 2 ^ b * 2 ^ (a - b).
Proof. intros H. rewrite <- Z.pow_add_r by lia. f_equal. lia. Qed.

Lemma lead_exp_below n d k :
  0 < n → 0 < d → 0 ≤ k → 0 ≤ k + lead_exp n d → d * 2 ^ (k + lead_exp n d) ≤ n * 2 ^ k.
Proof.
  intros Hn Hd Hk Hl. unfold lead_exp in *. cbv zeta in *.
  pose proof (Z.log2_spec n Hn) as [Hn1 Hn2]. pose proof (Z.log2_spec d Hd) as [Hd1 Hd2].
  pose proof (Z.log2_nonneg n). pose proof (Z.log2_nonneg d).
  set (a := Z.log2 n) in *. set (b := Z.log2 d) in *. rewrite Z.pow_succ_r in * by lia.
  assert (∀ e, e ≤ a - b - 1 → 0 ≤ k + e → d * 2 ^ (k + e) ≤ n * 2 ^ k) as Hlow.
  { intros e He Hke.
    assert (2 * 2 ^ b * 2 ^ (k + e) ≤ 2 ^ a * 2 ^ k) as Hp.
    { rewrite <- Z.pow_succ_r, <- !Z.pow_add_r by lia. apply Z.pow_le_mono_r; lia. }
    assert (0 < 2 ^ (k + e)) by (apply Z.pow_pos_nonneg; lia).
    assert (0 < 2 ^ k) by (apply Z.pow_pos_nonneg; lia). nia. }
  destruct (Z.leb_spec 0 (a - b)).
  - destruct (Z.ltb_spec n (d * 2 ^ (a - b))); [apply Hlow; lia|].
    rewrite Z.pow_add_r by lia. assert (0 < 2 ^ k) by (apply Z.pow_pos_nonneg; lia). nia.
  - destruct (Z.ltb_spec (n * 2 ^ (- (a - b))) d); [apply Hlow; lia|].
    assert (0 < 2 ^ (k + (a - b))) by (apply Z.pow_pos_nonneg; lia).
    assert (2 ^ k = 2 ^ (- (a - b)) * 2 ^ (k + (a - b))) as -> by (rewrite <- Z.pow_add_r by lia; f_equal; lia).
    nia.
Qed.

Lemma lead_exp_range n d a b :
  0 < n → 0 < d → 0 ≤ a → 0 ≤ b → d ≤ n * 2 ^ a → n ≤ d * 2 ^ b → - a - 2 ≤ lead_exp n d ≤ b + 1.
Proof.
  intros Hn Hd Ha Hb H1 H2. unfold lead_exp. cbv zeta.
  assert (Z.log2 d ≤ Z.log2 n + a + 1) as L1.
  { apply Z.log2_le_mono in H1. pose proof (Z.log2_mul_above n (2 ^ a) ltac:(lia) ltac:(apply Z.pow_nonneg; lia)) as H.
    rewrite Z.log2_pow2 in H by lia. lia. }
  assert (Z.log2 n ≤ Z.log2 d + b + 1) as L2.
  { apply Z.log2_le_mono in H2. pose proof (Z.log2_mul_above d (2 ^ b) ltac:(lia) ltac:(apply Z.pow_nonneg; lia)) as H.
    rewrite Z.log2_pow2 in H by lia. lia. }
  repeat match goal with |- context [if ?c then _ else _] => destruct c end; lia.
Qed.

(** A number of moderate size is changed by at most its 2^53rd part. *)
Lemma to_double_near (q : Q) :
  ((1 # 2 ^ 30) <= q)%Q → (q <= inject_Z (2 ^ 30))%Q →
  ∃ x, to_double q = Fin x ∧ (q * (1 - (1 # 2 ^ 53)) <= x)%Q ∧ (x <= q * (1 + (1 # 2 ^ 53)))%Q.
Proof.
  intros Hlo Hhi. unfold to_double. rewrite <- (Qred_correct q) in Hlo, Hhi.
  match goal with |- ∃ x, ?body = _ ∧ _ =>
    enough (∃ x, body = Fin x ∧ (Qred q * (1 - (1 # 2 ^ 53)) <= x)%Q ∧
                 (x <= Qred q * (1 + (1 # 2 ^ 53)))%Q) as (x & E & H1 & H2) end.
  { exists x. split; [exact E|]. rewrite Qred_correct in H1, H2. done. }
  set (r := Qred q) in *. clearbody r. destruct r as [n d]. cbn [Qnum Qden].
  destruct ((Z.pos d =? 1) && (Z.abs n <=? max_safe)) eqn:Eint.
  { exists (n # d). split; [done|]. split; unfold Qle in *; cbn in *; lia. }
  assert (0 < n) as Hn by (unfold Qle in Hlo; cbn in Hlo; lia).
  rewrite Z.abs_eq by lia. rewrite (proj2 (Z.ltb_ge n 0)) by lia.
  pose proof (lead_exp_range n (Z.pos d) 30 30 Hn ltac:(lia) ltac:(lia) ltac:(lia)) as Hr.
  assert (- 32 ≤ lead_exp n (Z.pos d) ≤ 31) as Hr' by
    (destruct Hr; unfold Qle in Hlo, Hhi; cbn in Hlo, Hhi; lia).
  assert (ulp_exp n (Z.pos d) = lead_exp n (Z.pos d) - 52) as Eu.
  { unfold ulp_exp. fold (lead_exp n (Z.pos d)). unfold lead_exp in *. cbv zeta in *. lia. }
  unfold round_pos. rewrite Eu. cbv zeta.
  rewrite (proj2 (Z.leb_gt _ _)) by lia. set (k := - (lead_exp n (Z.pos d) - 52)).
  assert (k = 52 - lead_exp n (Z.pos d)) as Ek by (unfold k; lia). clearbody k.
  pose proof (lead_exp_below n (Z.pos d) k Hn ltac:(lia) ltac:(lia) ltac:(lia)) as Hb.
  replace (k + lead_exp n (Z.pos d)) with 52 in Hb by lia.
  pose proof (round_half_even_near (n * 2 ^ k) (Z.pos d) ltac:(lia)) as He.
  set (x := round_half_even (n * 2 ^ k) (Z.pos d)) in *.
  assert (0 < 2 ^ k) as Hk by (apply Z.pow_pos_nonneg; lia).
  assert (2 ^ k ≤ 2 ^ 84) as Hk2 by (apply Z.pow_le_mono_r; lia).
  set (K := 2 ^ k) in *.
  assert (Qle_bool (inject_Z (2 ^ 1024)) (Qred (x # Z.to_pos K)) = false) as ->.
  { apply not_true_iff_false. intros Hle%Qle_bool_iff. rewrite Qred_correct in Hle.
    unfold Qle in Hle. cbn [Qnum Qden inject_Z] in Hle. rewrite Z2Pos.id in Hle by lia.
    unfold Qle in Hhi. cbn [Qnum Qden inject_Z] in Hhi.
    assert (2 ^ 40 ≤ 2 ^ 1024) by (apply Z.pow_le_mono_r; lia). nia. }
  exists (Qred (x # Z.to_pos K)). split; [done|]. rewrite Qred_correct.
  clearbody x K. clear Hhi Hlo Eint Eu Hr Hr'. split; unfold Qle, Qmult, Qplus, Qminus, Qopp; cbn [Qnum Qden];
    rewrite ?Pos2Z.inj_mul, Z2Pos.id by lia; change (Z.pos (2 ^ 53)) with (2 ^ 53);
    change (2 ^ 52) with 4503599627370496 in *; change (2 ^ 53) with 9007199254740992.
  - assert (2 * (x * Z.pos d) >= 2 * (n * K) - Z.pos d) as E1 by lia. 
    change (Qnum (1 + (- (1) # 2 ^ 53))) with 9007199254740991. change (QDen (1 + (- (1) # 2 ^ 53))) with 9007199254740992. lia.
  - assert (2 * (x * Z.pos d) <= 2 * (n * K) + Z.pos d) as E1 by lia.
    change (Qnum (1 + (1 # 2 ^ 53))) with 9007199254740993. change (QDen (1 + (1 # 2 ^ 53))) with 9007199254740992. lia.
Qed.
