(* ===== verification/Controls.v ===== *)
(** * Values of form controls

    What an HTML control keeps of a value that a script puts into it: number
    fields, one-line texts, text areas, and selects. *)

From S2P Require Import Prelude JsString JsNumber.
Open Scope Z_scope.

(** What the browser keeps of a text set on a number input: a floating-point
    number of the HTML syntax, else nothing. *)
Definition exponent_ok (s : jstr) : bool :=
  match s with
  | [] => true
  | c :: t => ((c =? 101) || (c =? 69)) &&
      match span_digits (read_sign t).2 with (_ :: _, []) => true | _ => false end
  end.
Definition valid_float (s : jstr) : bool :=
  let s := match s with c :: t => if c =? 45 then t else s | [] => [] end in
  let '(ip, r) := span_digits s in
  match r with
  | c :: t =>
    if c =? 46 then match span_digits t with (_ :: _, r2) => exponent_ok r2 | _ => false end
    else match ip with [] => false | _ => exponent_ok r end
  | [] => match ip with [] => false | _ => true end
  end.
Definition number_value (s : jstr) : jstr :=
  if valid_float s && match num_of_string s with Fin _ => true | _ => false end then s else [].

(** A one-line text field drops line breaks. *)
Definition text_value (s : jstr) : jstr := List.filter (λ c, negb ((c =? 10) || (c =? 13))) s.

(** A text area turns every line break into a line feed. *)
Fixpoint area_value (s : jstr) : jstr :=
  match s with
  | [] => []
  | c :: t =>
    if c =? 13 then 10 :: match t with d :: t' => if d =? 10 then area_value t' else area_value t | [] => [] end
    else c :: area_value t
  end.

(** The first option with the value. *)
Fixpoint option_index (v : jstr) (l : list jstr) : option nat :=
  match l with
  | [] => None
  | o :: t => if bool_decide (o = v) then Some 0%nat else S <$> option_index v t
  end.

(** [select.value = v] on a select whose options have the values [l]: the value
    afterwards chosen, [None] when no option has it. *)
Definition choose_value (v : jstr) (l : list jstr) : option jstr :=
  if bool_decide (v ∈ l) then Some v else None.

(** ** Lemmas *)

Lemma option_index_lookup v l i : NoDup l → l !! i = Some v → option_index v l = Some i.
Proof.
  revert i. induction l as [|o l IH]; intros i Hnd Hi; [done|]. simpl.
  apply NoDup_cons in Hnd as [Ho Hnd]. destruct i as [|i]; simpl in Hi.
  - injection Hi as ->. by rewrite bool_decide_true.
  - rewrite bool_decide_false by (intros ->; apply Ho; eauto using list_elem_of_lookup_2).
    by rewrite (IH i).
Qed.

Lemma text_value_id s : 10 ∉ s → 13 ∉ s → text_value s = s.
Proof.
  induction s as [|c s IH]; intros H1 H2; [done|]. unfold text_value. cbn [List.filter].
  rewrite !(proj2 (Z.eqb_neq _ _)) by set_solver. cbn. f_equal. apply IH; set_solver.
Qed.

Lemma area_value_id s : 13 ∉ s → area_value s = s.
Proof.
  induction s as [|c s IH]; intros H; [done|]. cbn [area_value].
  rewrite (proj2 (Z.eqb_neq c 13)) by set_solver. f_equal. apply IH. set_solver.
Qed.

Lemma option_index_Some v l i : option_index v l = Some i → l !! i = Some v.
Proof.
  revert i. induction l as [|o l IH]; intros i; [done|]. cbn [option_index].
  destruct (bool_decide_reflect (o = v)) as [->|Hne]; [by intros [= <-]|].
  intros (j & Hj & ->)%fmap_Some. by apply IH.
Qed.

Lemma option_index_elem v l : v ∈ l → is_Some (option_index v l).
Proof.
  induction l as [|o l IH]; [by intros ?%elem_of_nil|]. cbn [option_index].
  destruct (bool_decide_reflect (o = v)) as [->|Hne]; [by eexists|].
  intros [->|Hin]%elem_of_cons; [done|]. destruct (IH Hin) as [i ->]. by eexists.
Qed.
