(* ===== verification/JsValue.v ===== *)
(** * JavaScript values and JSON

    Dynamically typed values as [JSON.parse] builds them (with [undefined] for
    absent properties), the conversions app.js applies to them, and
    [JSON.parse] / [JSON.stringify] with their round trip. *)

From S2P Require Import Prelude JsString JsNumber.
Open Scope Z_scope.

(** ** Values *)

Unset Elimination Schemes.
Inductive val : Type :=
  | VUndef
  | VNull
  | VBool (b : bool)
  | VNum (n : num)
  | VStr (s : jstr)
  | VArr (l : list val)
  | VObj (kv : list (jstr * val)).
Set Elimination Schemes.

Section val_induction.
Context (P : val → Prop).
Context (PU : P VUndef) (PN : P VNull) (PB : ∀ b, P (VBool b)).
Context (PNum : ∀ n, P (VNum n)) (PS : ∀ s, P (VStr s)).
Context (PA : ∀ l, Forall P l → P (VArr l)).
Context (PO : ∀ kv, Forall (λ e, P (e.2)) kv → P (VObj kv)).

Fixpoint val_ind (v : val) : P v :=
  match v with
  | VUndef => PU
  | VNull => PN
  | VBool b => PB b
  | VNum n => PNum n
  | VStr s => PS s
  | VArr l => PA l ((fix go l : Forall P l :=
      match l with
      | [] => Forall_nil_2 _
      | x :: t => Forall_cons_2 _ x t (val_ind x) (go t)
      end) l)
  | VObj kv => PO kv ((fix go l : Forall (λ e, P (e.2)) l :=
      match l with
      | [] => Forall_nil_2 _
      | x :: t => Forall_cons_2 _ x t (val_ind (x.2)) (go t)
      end) kv)
  end.
End val_induction.

(** ** Conversions *)

Definition truthy (v : val) : bool :=
  match v with
  | VUndef | VNull => false
  | VBool b => b
  | VNum n => num_truthy n
  | VStr s => truthy_s s
  | VArr _ | VObj _ => true
  end.

(** [a || b]. *)
Definition v_or (a b : val) : val := if truthy a then a else b.

Definition is_nullish (v : val) : bool :=
  match v with VUndef | VNull => true | _ => false end.

(** [String(v)]: arrays join their elements with commas, with nothing for
    [undefined] and [null]. *)
Fixpoint to_str (v : val) : jstr :=
  match v with
  | VUndef => js "undefined"
  | VNull => js "null"
  | VBool true => js "true"
  | VBool false => js "false"
  | VNum n => num_to_string n
  | VStr s => s
  | VArr l => js_join [44] (map (λ x, if is_nullish x then [] else to_str x) l)
  | VObj _ => js "[object Object]"
  end.

(** ** Properties *)

Fixpoint assoc {A} (k : jstr) (kv : list (jstr * A)) : option A :=
  match kv with
  | [] => None
  | (k', a) :: t => if bool_decide (k = k') then Some a else assoc k t
  end.

(** Creating or overwriting an own property: an existing key keeps its place. *)
Fixpoint obj_set {A} (k : jstr) (a : A) (kv : list (jstr * A)) : list (jstr * A) :=
  match kv with
  | [] => [(k, a)]
  | (k', a') :: t => if bool_decide (k = k') then (k, a) :: t else (k', a') :: obj_set k a t
  end.

(** The key of an array element: a canonical decimal below 2^32 - 1. *)
Definition array_index (k : jstr) : option Z :=
  match span_digits k with
  | (d :: ds, []) =>
    let n := digits_value (d :: ds) in
    if bool_decide (nat_digits n = k) && (n <? 4294967295) then Some n else None
  | _ => None
  end.

(** [v.k], [None] for the TypeError of reading a property of [undefined] or
    [null].  The names app.js reads ([error], [data], ...) are not properties
    of the built-in prototypes. *)
Definition get (k : jstr) (v : val) : option val :=
  match v with
  | VUndef | VNull => None
  | VObj kv => Some (default VUndef (assoc k kv))
  | VArr l => Some (match array_index k with
                    | Some n => default VUndef (l !! Z.to_nat n)
                    | None => VUndef
                    end)
  | VStr s => Some (match array_index k with
                    | Some n => match s !! Z.to_nat n with
                                | Some c => VStr [c]
                                | None => VUndef
                                end
                    | None => VUndef
                    end)
  | VBool _ | VNum _ => Some VUndef
  end.

(** [a && a.k]: no error on a falsy [a]. *)
Definition get_guard (k : jstr) (v : val) : option val :=
  if truthy v then get k v else Some v.

(** *** Object literals used as maps

    Reading [o[k]] finds an own property, or one [Object.prototype] provides,
    or nothing. *)
Inductive slot (A : Type) : Type :=
  | Own (a : A)
  | Inherited
  | Absent.
Arguments Own {A} a.
Arguments Inherited {A}.
Arguments Absent {A}.

Definition proto_names : list jstr :=
  map js ["constructor"; "__defineGetter__"; "__defineSetter__"; "hasOwnProperty";
          "__lookupGetter__"; "__lookupSetter__"; "isPrototypeOf";
          "propertyIsEnumerable"; "toString"; "valueOf"; "__proto__";
          "toLocaleString"]%string.

Definition obj_get {A} (k : jstr) (kv : list (jstr * A)) : slot A :=
  match assoc k kv with
  | Some a => Own a
  | None => if bool_decide (k ∈ proto_names) then Inherited else Absent
  end.

(** Enumeration order of own properties: array indices ascending, then the
    other keys in creation order. *)
Definition index_le {A} (x y : Z * (jstr * A)) : Prop := x.1 ≤ y.1.
#[export] Instance index_le_dec {A} : RelDecision (@index_le A).
Proof. intros x y. unfold index_le. apply _. Defined.

Definition own_entries {A} (kv : list (jstr * A)) : list (jstr * A) :=
  map snd (merge_sort index_le
    (omap (λ e, match array_index (e.1) with Some n => Some (n, e) | None => None end) kv))
  ++ filter (λ e, array_index (e.1) = None) kv.

Definition own_keys {A} (kv : list (jstr * A)) : list jstr := map fst (own_entries kv).

(** ** JSON.stringify *)

Definition is_high (c : Z) : bool := (55296 <=? c) && (c <=? 56319).
Definition is_low (c : Z) : bool := (56320 <=? c) && (c <=? 57343).

Definition hex_digit (n : Z) : Z := if n <? 10 then 48 + n else 87 + n.
Definition u_escape (c : Z) : jstr :=
  [92; 117; hex_digit (c / 4096 mod 16); hex_digit (c / 256 mod 16);
   hex_digit (c / 16 mod 16); hex_digit (c mod 16)].

Definition quote_unit (c : Z) : jstr :=
  if c =? 8 then [92; 98] else if c =? 9 then [92; 116]
  else if c =? 10 then [92; 110] else if c =? 12 then [92; 102]
  else if c =? 13 then [92; 114] else if c =? 34 then [92; 34]
  else if c =? 92 then [92; 92]
  else if (c <? 32) || is_low c then u_escape c else [c].

Fixpoint quote_body (s : jstr) : jstr :=
  match s with
  | [] => []
  | c :: t =>
    if is_high c then
      match t with
      | d :: t' => if is_low d then c :: d :: quote_body t' else u_escape c ++ quote_body t
      | [] => u_escape c
      end
    else quote_unit c ++ quote_body t
  end.
Definition quote (s : jstr) : jstr := [34] ++ quote_body s ++ [34].

Definition is_undef (v : val) : bool := match v with VUndef => true | _ => false end.

(** [JSON.stringify(v)] of a value other than [undefined]; an [undefined]
    member is left out of an object and printed [null] in an array. *)
Fixpoint JSON_stringify (v : val) : jstr :=
  match v with
  | VUndef | VNull => js "null"
  | VBool true => js "true"
  | VBool false => js "false"
  | VNum n => match n with Fin _ => num_to_string n | _ => js "null" end
  | VStr s => quote s
  | VArr l => [91] ++ js_join [44] (map JSON_stringify l) ++ [93]
  | VObj kv =>
    let members := map (λ e, (e.1, (is_undef (e.2), JSON_stringify (e.2)))) kv in
    let shown := filter (λ e, e.2.1 = false) (own_entries members) in
    [123] ++ js_join [44] (map (λ e, quote (e.1) ++ [58] ++ e.2.2) shown) ++ [125]
  end.

(** ** JSON.parse *)

Definition is_json_ws (c : Z) : bool := (c =? 32) || (c =? 9) || (c =? 10) || (c =? 13).
Fixpoint skip_ws (s : jstr) : jstr :=
  match s with
  | c :: t => if is_json_ws c then skip_ws t else s
  | [] => []
  end.

Definition hex_val (c : Z) : option Z :=
  if (48 <=? c) && (c <=? 57) then Some (c - 48)
  else if (97 <=? c) && (c <=? 102) then Some (c - 87)
  else if (65 <=? c) && (c <=? 70) then Some (c - 55)
  else None.

Definition hex4 (a b c d : Z) : option Z :=
  a ← hex_val a; b ← hex_val b; c ← hex_val c; d ← hex_val d;
  Some (a * 4096 + b * 256 + c * 16 + d).

Definition simple_escape (e : Z) : option Z :=
  if e =? 34 then Some 34 else if e =? 92 then Some 92 else if e =? 47 then Some 47
  else if e =? 98 then Some 8 else if e =? 102 then Some 12 else if e =? 110 then Some 10
  else if e =? 114 then Some 13 else if e =? 116 then Some 9 else None.

Definition cons_fst {A B} (a : A) (p : list A * B) : list A * B := (a :: p.1, p.2).

(** A string literal after its opening quote: its value and what follows. *)
Fixpoint parse_str (s : jstr) : option (jstr * jstr) :=
  match s with
  | [] => None
  | c :: t =>
    if c =? 34 then Some ([], t)
    else if c <? 32 then None
    else if c =? 92 then
      match t with
      | e :: t1 =>
        if e =? 117 then
          match t1 with
          | h1 :: h2 :: h3 :: h4 :: t2 =>
            u ← hex4 h1 h2 h3 h4; p ← parse_str t2; Some (cons_fst u p)
          | _ => None
          end
        else x ← simple_escape e; p ← parse_str t1; Some (cons_fst x p)
      | [] => None
      end
    else p ← parse_str t; Some (cons_fst c p)
  end.

(** A number; a leading zero stands alone, a fraction and an exponent have digits. *)
Definition parse_frac (s : jstr) : option (jstr * jstr) :=
  match s with
  | c :: t => if c =? 46 then
                match span_digits t with
                | ([], _) => None
                | p => Some p
                end
              else Some ([], s)
  | [] => Some ([], [])
  end.

Definition parse_exp (s : jstr) : option (Z * jstr) :=
  match s with
  | c :: t => if (c =? 101) || (c =? 69) then
                match read_exp s with
                | (e, r) => if bool_decide (r = s) then None else Some (e, r)
                end
              else Some (0, s)
  | [] => Some (0, [])
  end.

Definition parse_num (s : jstr) : option (num * jstr) :=
  let '(neg, r) := match s with
                   | c :: t => if c =? 45 then (true, t) else (false, s)
                   | [] => (false, [])
                   end in
  match span_digits r with
  | ([], _) => None
  | (d :: ds, r1) =>
    if (d =? 48) && negb (bool_decide (ds = [])) then None else
    '(fp, r2) ← parse_frac r1;
    '(e, r3) ← parse_exp r2;
    Some (num_of_decimal neg (digits_value (d :: ds ++ fp)) (e - Z.of_nat (length fp)), r3)
  end.

Definition lit (w : jstr) (v : val) (s : jstr) : option (val * jstr) :=
  if starts_with w s then Some (v, drop (length w) s) else None.

Fixpoint parse_value (fuel : nat) (s0 : jstr) {struct fuel} : option (val * jstr) :=
  match fuel with
  | O => None
  | S f =>
    match skip_ws s0 with
    | [] => None
    | c :: t =>
      if c =? 34 then p ← parse_str t; Some (VStr (p.1), p.2)
      else if c =? 91 then
        match skip_ws t with
        | [] => None
        | d :: r => if d =? 93 then Some (VArr [], r)
                    else p ← parse_elements f (d :: r); Some (VArr (p.1), p.2)
        end
      else if c =? 123 then
        match skip_ws t with
        | [] => None
        | d :: r => if d =? 125 then Some (VObj [], r)
                    else p ← parse_members f (d :: r) [];  Some (VObj (p.1), p.2)
        end
      else if c =? 110 then lit (js "null") VNull (c :: t)
      else if c =? 116 then lit (js "true") (VBool true) (c :: t)
      else if c =? 102 then lit (js "false") (VBool false) (c :: t)
      else p ← parse_num (c :: t); Some (VNum (p.1), p.2)
    end
  end
with parse_elements (fuel : nat) (s : jstr) {struct fuel} : option (list val * jstr) :=
  match fuel with
  | O => None
  | S f =>
    '(v, r) ← parse_value f s;
    match skip_ws r with
    | c :: r' =>
      if c =? 44 then p ← parse_elements f r'; Some (cons_fst v p)
      else if c =? 93 then Some ([v], r') else None
    | [] => None
    end
  end
with parse_members (fuel : nat) (s : jstr) (acc : list (jstr * val)) {struct fuel}
    : option (list (jstr * val) * jstr) :=
  match fuel with
  | O => None
  | S f =>
    match skip_ws s with
    | c :: t =>
      if c =? 34 then
        '(k, r) ← parse_str t;
        match skip_ws r with
        | c1 :: r1 =>
          if c1 =? 58 then
            '(v, r2) ← parse_value f r1;
            match skip_ws r2 with
            | c2 :: r3 =>
              if c2 =? 44 then parse_members f r3 (obj_set k v acc)
              else if c2 =? 125 then Some (obj_set k v acc, r3) else None
            | [] => None
            end
          else None
        | [] => None
        end
      else None
    | [] => None
    end
  end.

(** [JSON.parse(s)], [None] for the SyntaxError.  At most two nested calls are
    made per code unit, so the fuel is enough ([JsJson.parse_fuel_enough]). *)
Definition JSON_parse (s : jstr) : option val :=
  p ← parse_value (2 * length s + 2) s;
  match skip_ws (p.2) with [] => Some (p.1) | _ => None end.

(** ** Lemmas on own properties *)

Lemma assoc_elem {A} k (a : A) kv : assoc k kv = Some a → (k, a) ∈ kv.
Proof.
  induction kv as [|[k' a'] kv IH]; [done|]. simpl.
  case_bool_decide; [intros [= ->]; subst; left|]. intros Ha%IH. by right.
Qed.

Lemma own_entries_perm {A} (kv : list (jstr * A)) : own_entries kv ≡ₚ kv.
Proof.
  unfold own_entries. rewrite (merge_sort_Permutation index_le).
  induction kv as [|[k a] kv IH]; [done|]. simpl omap.
  destruct (array_index k) as [n|] eqn:E; simpl map.
  - rewrite filter_cons_False by (simpl; by rewrite E). rewrite <- app_comm_cons. by f_equiv.
  - rewrite filter_cons_True by done. rewrite <- Permutation_middle. by f_equiv.
Qed.

Lemma own_entries_elem {A} (e : jstr * A) kv : e ∈ own_entries kv → e ∈ kv.
Proof. by rewrite own_entries_perm. Qed.

Lemma assoc_elem_iff {A} k (a : A) kv : NoDup kv.*1 → assoc k kv = Some a ↔ (k, a) ∈ kv.
Proof.
  intros Hnd. split; [apply assoc_elem|]. induction kv as [|[k' a'] kv IH]; [by intros ?%elem_of_nil|].
  cbn in Hnd. apply NoDup_cons in Hnd as [Hk Hnd]. cbn. intros [[= -> ->]|Hin]%elem_of_cons.
  - by rewrite bool_decide_true.
  - rewrite bool_decide_false; [by apply IH|]. intros ->. apply Hk.
    apply list_elem_of_fmap. by exists (k', a).
Qed.

Lemma assoc_None {A} k (kv : list (jstr * A)) : assoc k kv = None ↔ k ∉ kv.*1.
Proof.
  induction kv as [|[k' a'] kv IH]; [set_solver|]. simpl.
  case_bool_decide; set_solver.
Qed.

Lemma assoc_perm {A} k (l l' : list (jstr * A)) : NoDup l.*1 → l ≡ₚ l' → assoc k l = assoc k l'.
Proof.
  intros Hnd Hp. assert (NoDup l'.*1) as Hnd' by (by rewrite <- Hp).
  destruct (assoc k l') as [a|] eqn:E.
  - apply assoc_elem_iff; [done|]. rewrite Hp. by apply assoc_elem_iff.
  - apply assoc_None in E. apply assoc_None. by rewrite Hp.
Qed.

Lemma assoc_obj_set {A} k k' (a : A) kv :
  assoc k (obj_set k' a kv) = if bool_decide (k = k') then Some a else assoc k kv.
Proof.
  induction kv as [|[k2 a2] kv IH]; simpl; [done|].
  destruct (decide (k' = k2)) as [->|Hne].
  - rewrite bool_decide_true by done. simpl. by destruct (bool_decide (k = k2)).
  - rewrite (bool_decide_false (k' = k2)) by done. simpl. rewrite IH.
    repeat case_bool_decide; congruence.
Qed.

Lemma obj_set_keys {A} k (a : A) kv :
  (obj_set k a kv).*1 = if bool_decide (k ∈ kv.*1) then kv.*1 else kv.*1 ++ [k].
Proof.
  induction kv as [|[k' a'] kv IH]; simpl; [done|].
  destruct (decide (k = k')) as [->|Hne].
  - rewrite bool_decide_true by done. rewrite bool_decide_true by set_solver. done.
  - rewrite (bool_decide_false (k = k')) by done. csimpl. rewrite IH.
    destruct (decide (k ∈ kv.*1)); [rewrite !bool_decide_true by set_solver; done|].
    by rewrite !bool_decide_false by set_solver.
Qed.

Lemma obj_set_NoDup {A} k (a : A) kv : NoDup kv.*1 → NoDup (obj_set k a kv).*1.
Proof.
  intros Hnd. rewrite obj_set_keys. case_bool_decide; [done|].
  apply NoDup_app. split; [done|]. split; [set_solver|apply NoDup_singleton].
Qed.

