(* ===== verification/JsJson.v ===== *)
(** * JSON: fuel and round trip

    [JSON_parse] never fails for want of fuel, and it inverts
    [JSON_stringify] on the values the front end stores. *)

From S2P Require Import Prelude JsString JsNumber JsValue.
Open Scope Z_scope.

(** ** What a parser leaves is shorter than what it read *)

Lemma skip_ws_length s : (length (skip_ws s) ≤ length s)%nat.
Proof. induction s as [|c s IH]; simpl; [lia|]. destruct (is_json_ws c); simpl; lia. Qed.

Lemma span_digits_length s : (length (span_digits s).1 + length (span_digits s).2 = length s)%nat.
Proof.
  induction s as [|c s IH]; simpl; [done|].
  destruct (is_digit c); [|done]. destruct (span_digits s). simpl in *. lia.
Qed.

Lemma read_sign_length s : (length (read_sign s).2 ≤ length s)%nat.
Proof. destruct s as [|c s]; simpl; [lia|]. repeat case_match; simpl; lia. Qed.

Lemma read_exp_length s : (length (read_exp s).2 ≤ length s)%nat.
Proof.
  destruct s as [|c s]; simpl; [lia|]. destruct (_ || _); [|done].
  pose proof (read_sign_length s) as H1. destruct (read_sign s) as [neg t1]. simpl in H1.
  pose proof (span_digits_length t1) as H2. destruct (span_digits t1) as [ds r]. simpl in H2.
  destruct ds; simpl in *; lia.
Qed.

Lemma parse_str_length s x r : parse_str s = Some (x, r) → (length r < length s)%nat.
Proof.
  remember (length s) as n eqn:Hn. revert s x r Hn.
  induction (lt_wf n) as [n _ IH]. intros s x r ->.
  destruct s as [|c t]; simpl; [done|].
  destruct (c =? 34); [intros [= <- <-]; lia|]. destruct (c <? 32); [done|].
  assert (∀ t' (p : jstr * jstr), (length t' ≤ length t)%nat → parse_str t' = Some p →
            (length p.2 < S (length t))%nat) as Hrec.
  { intros t' [y r'] Hlen Hp. pose proof (IH (length t') ltac:(simpl; lia) t' y r' eq_refl Hp).
    simpl. lia. }
  destruct (c =? 92).
  - destruct t as [|e t1]; [done|]. destruct (e =? 117).
    + destruct t1 as [|h1 [|h2 [|h3 [|h4 t2]]]]; try done.
      intros (u & _ & (p & Hp & [= <- <-])%bind_Some)%bind_Some.
      apply (Hrec t2); [simpl; lia|done].
    + intros (u & _ & (p & Hp & [= <- <-])%bind_Some)%bind_Some.
      apply (Hrec t1); [simpl; lia|done].
  - intros (p & Hp & [= <- <-])%bind_Some. by apply (Hrec t).
Qed.

Lemma parse_num_length s x r : parse_num s = Some (x, r) → (length r < length s)%nat.
Proof.
  unfold parse_num.
  set (nr := match s with c :: t => if c =? 45 then (true, t) else (false, s)
             | [] => (false, []) end).
  assert (length nr.2 ≤ length s)%nat as Hnr.
  { unfold nr. destruct s as [|c t]; simpl; [lia|]. destruct (c =? 45); simpl; lia. }
  destruct nr as [neg r0]. simpl in Hnr.
  pose proof (span_digits_length r0) as H1. destruct (span_digits r0) as [[|d ds] r1]; [done|].
  simpl in H1. destruct (_ && _); [done|].
  intros ([fp r2] & Hf & ([e r3] & He & [= <- <-])%bind_Some)%bind_Some.
  assert (length r2 ≤ length r1)%nat.
  { unfold parse_frac in Hf. destruct r1 as [|c t]; [by simplify_eq|].
    destruct (c =? 46); [|by simplify_eq].
    pose proof (span_digits_length t). destruct (span_digits t) as [[|? ?] ?]; [done|].
    simplify_eq. simpl in *. lia. }
  assert (length r3 ≤ length r2)%nat.
  { unfold parse_exp in He. destruct r2 as [|c t]; [by simplify_eq|].
    destruct (_ || _); [|by simplify_eq].
    pose proof (read_exp_length (c :: t)). destruct (read_exp (c :: t)) as [e' r'].
    destruct (bool_decide _); [done|]. simplify_eq. done. }
  lia.
Qed.

Lemma lit_length w v s x r : w ≠ [] → lit w v s = Some (x, r) → (length r < length s)%nat.
Proof.
  intros Hw. unfold lit. destruct (starts_with w s) eqn:E; [|done]. intros [= <- <-].
  apply starts_with_spec in E as [t ->]. rewrite drop_app_length, length_app.
  destruct w; [done|simpl; lia].
Qed.

Definition shrinks {A} (s : jstr) (o : option (A * jstr)) : Prop :=
  ∀ x r, o = Some (x, r) → (length r < length s)%nat.

Lemma parse_length f :
  (∀ s, shrinks s (parse_value f s)) ∧ (∀ s, shrinks s (parse_elements f s)) ∧
  (∀ s acc, shrinks s (parse_members f s acc)).
Proof.
  induction f as [|f (IHv & IHe & IHm)]; [by split_and!; intros|].
  split_and!.
  - intros s x r. simpl. pose proof (skip_ws_length s).
    destruct (skip_ws s) as [|c t] eqn:Es; [done|]. simpl in H.
    destruct (c =? 34).
    { intros ([y r'] & Hp%parse_str_length & [= <- <-])%bind_Some. simpl. lia. }
    destruct (c =? 91).
    { pose proof (skip_ws_length t). destruct (skip_ws t) as [|d r']; [done|]. simpl in *.
      destruct (d =? 93); [intros [= <- <-]; lia|].
      intros ([y r''] & Hp%IHe & [= <- <-])%bind_Some. simpl in *. lia. }
    destruct (c =? 123).
    { pose proof (skip_ws_length t). destruct (skip_ws t) as [|d r']; [done|]. simpl in *.
      destruct (d =? 125); [intros [= <- <-]; lia|].
      intros ([y r''] & Hp%IHm & [= <- <-])%bind_Some. simpl in *. lia. }
    destruct (c =? 110); [intros Hl; apply lit_length in Hl; [simpl in *; lia|done]|].
    destruct (c =? 116); [intros Hl; apply lit_length in Hl; [simpl in *; lia|done]|].
    destruct (c =? 102); [intros Hl; apply lit_length in Hl; [simpl in *; lia|done]|].
    intros ([y r'] & Hp%parse_num_length & [= <- <-])%bind_Some. simpl in *. lia.
  - intros s x r. simpl. intros ([v r0] & Hv%IHv & H)%bind_Some.
    pose proof (skip_ws_length r0). destruct (skip_ws r0) as [|c r']; [done|]. simpl in *.
    destruct (c =? 44).
    + apply bind_Some in H as ([y r''] & Hp%IHe & [= <- <-]). simpl. lia.
    + destruct (c =? 93); [|done]. simplify_eq. lia.
  - intros s acc x r. simpl. pose proof (skip_ws_length s).
    destruct (skip_ws s) as [|c t]; [done|]. simpl in *. destruct (c =? 34); [|done].
    intros ([k r0] & Hk%parse_str_length & H1)%bind_Some.
    pose proof (skip_ws_length r0). destruct (skip_ws r0) as [|c1 r1]; [done|]. simpl in *.
    destruct (c1 =? 58); [|done]. apply bind_Some in H1 as ([v r2] & Hv%IHv & H2).
    pose proof (skip_ws_length r2). destruct (skip_ws r2) as [|c2 r3]; [done|]. simpl in *.
    destruct (c2 =? 44); [apply IHm in H2; lia|].
    destruct (c2 =? 125); [|done]. simplify_eq. lia.
Qed.

(** ** More fuel changes nothing *)

Lemma skip_ws_cons_length s c t : skip_ws s = c :: t → (S (length t) ≤ length s)%nat.
Proof. intros H. pose proof (skip_ws_length s) as Hl. rewrite H in Hl. done. Qed.

Lemma parse_fuel f :
  (∀ s f', (2 * length s + 1 ≤ f)%nat → (2 * length s + 1 ≤ f')%nat →
     parse_value f s = parse_value f' s) ∧
  (∀ s f', (2 * length s + 2 ≤ f)%nat → (2 * length s + 2 ≤ f')%nat →
     parse_elements f s = parse_elements f' s) ∧
  (∀ s acc f', (2 * length s + 1 ≤ f)%nat → (2 * length s + 1 ≤ f')%nat →
     parse_members f s acc = parse_members f' s acc).
Proof.
  induction f as [|f (IHv & IHe & IHm)]; [split_and!; intros; lia|].
  split_and!.
  - intros s [|f'] Hf Hf'; [lia|]. simpl.
    destruct (skip_ws s) as [|c t] eqn:Es; [done|]. apply skip_ws_cons_length in Es.
    destruct (c =? 34); [done|].
    destruct (c =? 91).
    { destruct (skip_ws t) as [|d r] eqn:Et; [done|]. apply skip_ws_cons_length in Et.
      destruct (d =? 93); [done|]. rewrite (IHe _ f'); simpl; [done|lia..]. }
    destruct (c =? 123); [|done].
    destruct (skip_ws t) as [|d r] eqn:Et; [done|]. apply skip_ws_cons_length in Et.
    destruct (d =? 125); [done|]. rewrite (IHm _ _ f'); simpl; [done|lia..].
  - intros s [|f'] Hf Hf'; [lia|]. simpl. rewrite (IHv s f') by lia.
    destruct (parse_value f' s) as [[v r]|] eqn:Ev; [|done]. simpl.
    apply (proj1 (parse_length f')) in Ev.
    destruct (skip_ws r) as [|c r'] eqn:Er; [done|]. apply skip_ws_cons_length in Er.
    destruct (c =? 44); [|done]. rewrite (IHe _ f'); [done|lia..].
  - intros s acc [|f'] Hf Hf'; [lia|]. simpl.
    destruct (skip_ws s) as [|c t] eqn:Es; [done|]. apply skip_ws_cons_length in Es.
    destruct (c =? 34); [|done].
    destruct (parse_str t) as [[k r]|] eqn:Ek; [|done]. simpl. apply parse_str_length in Ek.
    destruct (skip_ws r) as [|c1 r1] eqn:Er; [done|]. apply skip_ws_cons_length in Er.
    destruct (c1 =? 58); [|done]. rewrite (IHv r1 f') by lia.
    destruct (parse_value f' r1) as [[v r2]|] eqn:Ev; [|done]. simpl.
    apply (proj1 (parse_length f')) in Ev.
    destruct (skip_ws r2) as [|c2 r3] eqn:Er2; [done|]. apply skip_ws_cons_length in Er2.
    destruct (c2 =? 44); [|done]. rewrite (IHm _ _ f'); [done|lia..].
Qed.

Lemma parse_fuel_enough s f :
  (2 * length s + 2 ≤ f)%nat → parse_value f s = parse_value (2 * length s + 2) s.
Proof. intros Hf. apply (proj1 (parse_fuel f)); lia. Qed.

(** ** Round trip *)

Definition wf_unit (c : Z) : Prop := 0 ≤ c < 65536.
Abbreviation wf_str := (Forall wf_unit).

Lemma hex_val_digit n : 0 ≤ n < 16 → hex_val (hex_digit n) = Some n.
Proof.
  intros Hn. unfold hex_digit, hex_val.
  destruct (Z.ltb_spec n 10);
  repeat match goal with |- context [?a <=? ?b] => destruct (Z.leb_spec a b); try lia end;
    simpl; f_equal; lia.
Qed.

Lemma hex4_u_escape c : wf_unit c →
  hex4 (hex_digit (c / 4096 mod 16)) (hex_digit (c / 256 mod 16))
       (hex_digit (c / 16 mod 16)) (hex_digit (c mod 16)) = Some c.
Proof.
  intros Hc. unfold wf_unit in Hc. unfold hex4.
  assert (∀ x, 0 ≤ x mod 16 < 16) as Hm by (intros; apply Z.mod_pos_bound; lia).
  rewrite !hex_val_digit by apply Hm. simpl. f_equal.
  Z.div_mod_to_equations. lia.
Qed.

#[local] Arguments u_escape : simpl never.
#[local] Arguments quote_unit : simpl never.

Lemma parse_str_u_escape c r : wf_unit c →
  parse_str (u_escape c ++ r) = (p ← parse_str r; Some (cons_fst c p)).
Proof. intros Hc. unfold u_escape. cbn -[hex4 Z.div Z.modulo]. by rewrite hex4_u_escape. Qed.

Lemma parse_str_plain c r :
  c ≠ 34 → 32 ≤ c → c ≠ 92 → parse_str (c :: r) = (p ← parse_str r; Some (cons_fst c p)).
Proof.
  intros H1 H2 H3. simpl. apply Z.eqb_neq in H1, H3. apply Z.ltb_ge in H2.
  by rewrite H1, H2, H3.
Qed.

Lemma parse_str_quote_unit c r : wf_unit c → is_high c = false →
  parse_str (quote_unit c ++ r) = (p ← parse_str r; Some (cons_fst c p)).
Proof.
  intros Hc Hh. unfold quote_unit.
  repeat match goal with
  | |- context [if ?c =? ?n then _ else _] => destruct (Z.eqb_spec c n); [subst; reflexivity|]
  end.
  destruct (Z.ltb_spec c 32); simpl orb; [by apply parse_str_u_escape|].
  destruct (is_low c); [by apply parse_str_u_escape|].
  simpl app. by apply parse_str_plain.
Qed.

Lemma parse_str_quote s rest :
  wf_str s → parse_str (quote_body s ++ 34 :: rest) = Some (s, rest).
Proof.
  remember (length s) as n eqn:Hn. revert s Hn.
  induction (lt_wf n) as [n _ IH]. intros s -> Hwf.
  destruct s as [|c t]; [done|]. apply Forall_cons in Hwf as [Hc Ht].
  assert (parse_str (quote_body t ++ 34 :: rest) = Some (t, rest)) as IHt.
  { apply (IH (length t)); [simpl; lia|done|done]. }
  cbn [quote_body]. destruct (is_high c) eqn:Hh.
  - destruct t as [|d t'].
    { rewrite parse_str_u_escape by done. done. }
    destruct (is_low d) eqn:Hl.
    + apply Forall_cons in Ht as [Hd Ht'].
      assert (parse_str (quote_body t' ++ 34 :: rest) = Some (t', rest)) as IHt'.
      { apply (IH (length t')); [simpl; lia|done|done]. }
      unfold is_high, is_low in *.
      change ((c :: d :: quote_body t') ++ 34 :: rest)
        with (c :: d :: (quote_body t' ++ 34 :: rest)).
      rewrite parse_str_plain, parse_str_plain by lia. by rewrite IHt'.
    + rewrite <- app_assoc, parse_str_u_escape by done. by rewrite IHt.
  - rewrite <- app_assoc, parse_str_quote_unit by done. by rewrite IHt.
Qed.

(** Numbers: an integer up to 2^53 in absolute value, followed by anything
    that cannot continue it. *)
Definition num_end (rest : jstr) : Prop :=
  match rest with
  | [] => True
  | c :: _ => is_digit c = false ∧ c ≠ 46 ∧ c ≠ 101 ∧ c ≠ 69
  end.

Lemma parse_digits_num neg n rest :
  0 ≤ n ≤ max_safe → num_end rest → (neg = true → n ≠ 0) →
  parse_num ((if neg : bool then [45] else []) ++ nat_digits n ++ rest)
  = Some (num_of_Z (if neg then - n else n), rest).
Proof.
  intros Hn Hr Hneg. unfold parse_num.
  pose proof (nat_digits_digits n ltac:(lia)) as Hdig.
  assert (∀ c t, nat_digits n = c :: t → 48 ≤ c) as Hc45.
  { intros c t E. rewrite E in Hdig. apply Forall_cons in Hdig as [Hc _].
    unfold is_digit in Hc. lia. }
  destruct (nat_digits n) as [|d ds] eqn:E; [by destruct (nat_digits_nonempty n)|].
  specialize (Hc45 d ds eq_refl).
  assert (match (if neg then [45] else []) ++ (d :: ds) ++ rest with
          | c :: t => if c =? 45 then (true, t)
                      else (false, (if neg then [45] else []) ++ (d :: ds) ++ rest)
          | [] => (false, []) end = (neg, (d :: ds) ++ rest)) as ->.
  { destruct neg; simpl; [done|]. destruct (Z.eqb_spec d 45); [lia|done]. }
  rewrite span_digits_app; [|done|by destruct rest; [|destruct Hr]].
  assert ((d =? 48) && negb (bool_decide (ds = [])) = false) as ->.
  { destruct (Z.eqb_spec d 48) as [->|]; [|done]. simpl.
    destruct (decide (n = 0)) as [->|].
    { vm_compute in E. by injection E as <-. }
    exfalso. by apply (nat_digits_head n 48 ds ltac:(lia) E). }
  assert (parse_frac rest = Some ([], rest)) as ->.
  { unfold parse_frac. destruct rest as [|c r]; [done|]. destruct Hr as (_ & H46 & _).
    apply Z.eqb_neq in H46. by rewrite H46. }
  simpl. assert (parse_exp rest = Some (0, rest)) as ->.
  { unfold parse_exp. destruct rest as [|c r]; [done|]. destruct Hr as (_ & _ & H1 & H2).
    apply Z.eqb_neq in H1, H2. by rewrite H1, H2. }
  simpl. rewrite app_nil_r, <- E, nat_digits_value by lia.
  unfold num_of_decimal, pow10Q, num_of_Z. simpl.
  do 4 f_equal. destruct neg; unfold QArith_base.Qmult, QArith_base.inject_Z; simpl;
    f_equal; lia.
Qed.

Lemma parse_num_of_Z z rest :
  Z.abs z ≤ max_safe → num_end rest → parse_num (of_int z ++ rest) = Some (num_of_Z z, rest).
Proof.
  intros Hz Hr. unfold of_int. destruct (Z.ltb_spec z 0).
  - rewrite <- (Z.opp_involutive z) at 2.
    apply (parse_digits_num true (- z)); [lia|done|lia].
  - apply (parse_digits_num false z); [lia|done|done].
Qed.

(** The values whose printed form determines them: no [undefined], integer
    numbers up to 2^53, objects with distinct keys that are not array indices
    (those are enumerated first, so they would move). *)
Inductive wf_json : val → Prop :=
  | wf_null : wf_json VNull
  | wf_bool b : wf_json (VBool b)
  | wf_num z : Z.abs z ≤ max_safe → wf_json (VNum (num_of_Z z))
  | wf_string s : wf_str s → wf_json (VStr s)
  | wf_arr l : Forall wf_json l → wf_json (VArr l)
  | wf_obj kv :
      NoDup kv.*1 → Forall wf_str kv.*1 → Forall (λ k, array_index k = None) kv.*1 →
      Forall wf_json kv.*2 → wf_json (VObj kv).

Lemma own_entries_no_index {A} (kv : list (jstr * A)) :
  Forall (λ k, array_index k = None) kv.*1 → own_entries kv = kv.
Proof.
  intros H. unfold own_entries.
  assert (omap (λ e, match array_index e.1 with Some n => Some (n, e) | None => None end) kv
          = []) as ->.
  { induction kv as [|[k a] kv IH]; [done|]. apply Forall_cons in H as [Hk H].
    simpl in *. rewrite Hk. by apply IH. }
  simpl. induction kv as [|[k a] kv IH]; [done|]. apply Forall_cons in H as [Hk H].
  rewrite filter_cons_True by done. f_equal. by apply IH.
Qed.

Lemma obj_set_fresh {A} k (a : A) kv : k ∉ kv.*1 → obj_set k a kv = kv ++ [(k, a)].
Proof.
  induction kv as [|[k' a'] kv IH]; [done|]. simpl. intros Hk.
  rewrite bool_decide_false by set_solver. rewrite IH by set_solver. done.
Qed.

Lemma wf_json_defined v : wf_json v → is_undef v = false.
Proof. by destruct 1. Qed.

Definition member (e : jstr * val) : jstr := quote (e.1) ++ [58] ++ JSON_stringify (e.2).

Abbreviation comma := [44%Z].

Lemma stringify_obj kv :
  wf_json (VObj kv) →
  JSON_stringify (VObj kv) = [123] ++ js_join comma (map member kv) ++ [125].
Proof.
  inversion 1 as [| | | | |? _ _ Hidx Hv]; subst. simpl.
  rewrite own_entries_no_index.
  2:{ by rewrite <- list_fmap_compose. }
  do 3 f_equal. clear H Hidx.
  induction kv as [|[k v] kv IH]; [done|]. apply Forall_cons in Hv as [Hv Hkv].
  simpl in *. rewrite filter_cons_True by (by apply wf_json_defined).
  simpl. f_equal. by apply IH.
Qed.

(** First code units: enough to dispatch on. *)
Definition value_start (c : Z) : Prop := is_json_ws c = false ∧ c ≠ 93.

Lemma digit_head n : 0 ≤ n → ∃ c t, nat_digits n = c :: t ∧ 48 ≤ c ≤ 57.
Proof.
  intros Hn. pose proof (nat_digits_digits n Hn) as H. pose proof (nat_digits_nonempty n).
  destruct (nat_digits n) as [|c t]; [done|]. exists c, t. split; [done|].
  apply Forall_cons in H as [Hc _]. unfold is_digit in Hc. lia.
Qed.

Lemma of_int_head z : ∃ c t, of_int z = c :: t ∧ (c = 45 ∨ 48 ≤ c ≤ 57).
Proof.
  unfold of_int. destruct (Z.ltb_spec z 0); [by eauto|].
  destruct (digit_head z) as (c & t & -> & Hc); [lia|]. by eauto.
Qed.

Lemma stringify_num z : Z.abs z ≤ max_safe → JSON_stringify (VNum (num_of_Z z)) = of_int z.
Proof.
  intros Hz. rewrite <- num_to_string_Z by done. simpl. by rewrite num_of_Z_safe by done.
Qed.

Lemma stringify_head v : wf_json v → ∃ c t, JSON_stringify v = c :: t ∧ value_start c.
Proof.
  assert (∀ c, c = 45 ∨ 48 ≤ c ≤ 57 → value_start c) as Hn.
  { intros c Hc. unfold value_start, is_json_ws. lia. }
  destruct 1 as [|[]|z Hz|s Hs|l Hl|kv H1 H2 H3 H4]; try by (do 2 eexists; split; [done|]).
  rewrite stringify_num by done. destruct (of_int_head z) as (c & t & -> & Hc). eauto.
Qed.

Lemma skip_ws_start c t : is_json_ws c = false → skip_ws (c :: t) = c :: t.
Proof. intros Hc. simpl. by rewrite Hc. Qed.

Lemma parse_value_string f s rest :
  wf_str s → parse_value (S f) (quote s ++ rest) = Some (VStr s, rest).
Proof.
  intros Hs. unfold quote. cbn -[quote_body app].
  rewrite <- !app_assoc. simpl. by rewrite (parse_str_quote s rest Hs).
Qed.

Lemma parse_value_num f z rest :
  Z.abs z ≤ max_safe → num_end rest →
  parse_value (S f) (of_int z ++ rest) = Some (VNum (num_of_Z z), rest).
Proof.
  intros Hz Hr. pose proof (parse_num_of_Z z rest Hz Hr) as Hp.
  destruct (of_int_head z) as (c & t & E & Hc). rewrite E in *. cbn [app] in *.
  cbn [parse_value]. rewrite skip_ws_start by (unfold is_json_ws; lia).
  repeat match goal with
  | |- context [c =? ?n] => rewrite (proj2 (Z.eqb_neq c n)) by lia
  end.
  by rewrite Hp.
Qed.

(** What the induction proves of a member value, with enough fuel. *)
Definition parses_back (v : val) : Prop :=
  ∀ f rest, (2 * length (JSON_stringify v) + 1 ≤ f)%nat → num_end rest →
    parse_value f (JSON_stringify v ++ rest) = Some (v, rest).

Lemma num_end_sep c rest : c = 44 ∨ c = 93 ∨ c = 125 → num_end (c :: rest).
Proof. intros [->|[->| ->]]; done. Qed.

Lemma parse_elements_join v l f rest :
  Forall parses_back (v :: l) →
  (2 * length (js_join comma (map JSON_stringify (v :: l))) + 2 ≤ f)%nat →
  parse_elements f (js_join comma (map JSON_stringify (v :: l)) ++ 93 :: rest)
  = Some (v :: l, rest).
Proof.
  revert v f. induction l as [|w l IH]; intros v f [Hv Hl]%Forall_cons Hf;
    (destruct f as [|f]; [lia|]).
  - simpl in *. rewrite Hv; [done|lia|]. apply num_end_sep; auto.
  - change (js_join comma (map JSON_stringify (v :: w :: l)))
      with (JSON_stringify v ++ [44] ++ js_join comma (map JSON_stringify (w :: l))) in *.
    rewrite !length_app in Hf. simpl length in Hf. rewrite <- !app_assoc.
    cbn [parse_elements]. rewrite Hv; [|lia|apply num_end_sep; auto].
    cbn -[parse_elements js_join map]. rewrite (IH w f); [done|done|simpl in *; lia].
Qed.

Lemma obj_set_app (acc : list (jstr * val)) k v kv :
  NoDup (acc ++ (k, v) :: kv).*1 → obj_set k v acc = acc ++ [(k, v)].
Proof.
  intros H. apply obj_set_fresh. rewrite fmap_app in H. apply NoDup_app in H as (_ & H & _).
  intros Hk. apply (H _ Hk). simpl. set_solver.
Qed.

Lemma member_app k v r :
  member (k, v) ++ r = 34 :: quote_body k ++ 34 :: 58 :: JSON_stringify v ++ r.
Proof. unfold member, quote. simpl. f_equal. by rewrite <- !app_assoc. Qed.

Lemma member_length k v :
  length (member (k, v)) = (length (quote_body k) + 3 + length (JSON_stringify v))%nat.
Proof. unfold member, quote. rewrite !length_app. simpl. lia. Qed.

Lemma parse_members_step k v c r acc f :
  wf_str k → parses_back v → c = 44 ∨ c = 125 →
  (2 * length (JSON_stringify v) + 1 ≤ f)%nat →
  parse_members (S f) (member (k, v) ++ c :: r) acc =
    (if c =? 44 then parse_members f r (obj_set k v acc) else Some (obj_set k v acc, r)).
Proof.
  intros Hk Hv Hc Hf. rewrite member_app. cbn [parse_members].
  rewrite skip_ws_start by done. rewrite Z.eqb_refl, (parse_str_quote k _ Hk).
  cbn -[parse_value parse_members]. rewrite Hv; [|done|apply num_end_sep; naive_solver].
  destruct Hc as [-> | ->]; done.
Qed.

Lemma parse_members_join k v kv acc f rest :
  Forall (λ e, parses_back (e.2)) ((k, v) :: kv) → Forall wf_str ((k, v) :: kv).*1 →
  NoDup (acc ++ (k, v) :: kv).*1 →
  (2 * length (js_join comma (map member ((k, v) :: kv))) + 1 ≤ f)%nat →
  parse_members f (js_join comma (map member ((k, v) :: kv)) ++ 125 :: rest) acc
  = Some (acc ++ (k, v) :: kv, rest).
Proof.
  revert k v acc f. induction kv as [|[k' v'] kv IH]; intros k v acc f
    [Hv Hl]%Forall_cons [Hk Hks]%Forall_cons Hnd Hf;
    (destruct f as [|f]; [lia|]); simpl in Hv, Hk.
  - cbn [map js_join] in *. rewrite member_length in Hf.
    rewrite parse_members_step by (done || auto || lia). simpl.
    by rewrite (obj_set_app acc k v []).
  - change (js_join comma (map member ((k, v) :: (k', v') :: kv)))
      with (member (k, v) ++ comma ++ js_join comma (map member ((k', v') :: kv))) in *.
    rewrite !length_app, member_length in Hf. rewrite <- !app_assoc.
    cbn [app]. rewrite parse_members_step by (done || auto || lia). simpl Z.eqb. cbv iota.
    rewrite (obj_set_app acc k v ((k', v') :: kv)) by done.
    rewrite IH; [by rewrite <- app_assoc|done|done| |simpl in *; lia].
    by rewrite <- app_assoc.
Qed.

Lemma wf_parses_back v : wf_json v → parses_back v.
Proof.
  induction v as [| |b|n|s|l IH|kv IH] using val_ind; intros Hwf f rest Hf Hr;
    (destruct f as [|f]; [lia|]).
  - inversion Hwf.
  - done.
  - by destruct b.
  - inversion Hwf as [| |z Hz| | |]; subst. rewrite stringify_num by done.
    by apply parse_value_num.
  - inversion Hwf; subst. by apply parse_value_string.
  - inversion Hwf as [| | | |? Hl|]; subst. destruct l as [|v l]; [done|].
    assert (Forall parses_back (v :: l)) as HP.
    { apply Forall_forall. intros x Hx. rewrite Forall_forall in IH, Hl. auto. }
    apply Forall_cons in Hl as [Hv _].
    destruct (stringify_head v Hv) as (c & t & E & Hws & H93).
    assert (∃ t', js_join comma (map JSON_stringify (v :: l)) = c :: t') as [t' Et'].
    { cbn [map js_join]. rewrite E. destruct l; simpl; eauto. }
    pose proof (parse_elements_join v l f rest HP) as Hpe.
    change (JSON_stringify (VArr (v :: l)))
      with (91 :: js_join comma (map JSON_stringify (v :: l)) ++ [93]) in *.
    rewrite Et' in *. cbn [length] in Hf. rewrite length_app in Hf.
    cbn -[parse_elements] in *. rewrite <- app_assoc, Hws, (proj2 (Z.eqb_neq c 93)) by done.
    cbn -[parse_elements]. rewrite Hpe; [done|lia].
  - pose proof (stringify_obj kv Hwf) as Es. rewrite Es in *.
    inversion Hwf as [| | | | |? Hnd Hk _ Hv]; subst.
    assert (Forall (λ e, parses_back (e.2)) kv) as HP.
    { apply Forall_forall. intros x Hx. rewrite Forall_forall in IH.
      apply IH; [done|]. rewrite Forall_forall in Hv. apply Hv. by apply list_elem_of_fmap_2. }
    destruct kv as [|[k v] kv]; [done|].
    rewrite !length_app in Hf. rewrite <- !app_assoc.
    assert (∃ t', js_join comma (map member ((k, v) :: kv)) = 34 :: t') as [t' Et'].
    { unfold member. simpl. destruct kv; simpl; eauto. }
    pose proof (parse_members_join k v kv [] f rest HP Hk Hnd) as Hpm.
    rewrite Et' in *. cbn -[parse_members]. cbn [app] in Hpm.
    rewrite Hpm; [done|]. cbn [length] in *. lia.
Qed.

Theorem JSON_round_trip v : wf_json v → JSON_parse (JSON_stringify v) = Some v.
Proof.
  intros Hwf. unfold JSON_parse.
  rewrite <- (app_nil_r (JSON_stringify v)) at 2.
  rewrite (wf_parses_back v Hwf); [done|lia|done].
Qed.
