(* ===== verification/Uri.v ===== *)
(** * UTF-8 and percent encoding

    What app.js uses of the platform for text in transit: the streaming UTF-8
    decoder of [TextDecoder] (WHATWG Encoding, "utf-8 decoder"), the UTF-8
    encoder, [encodeURIComponent], and the form encoding of
    [URLSearchParams]. *)

From S2P Require Import Prelude JsString JsValue.
Open Scope Z_scope.

(** ** Code points *)

Definition units_of (cp : Z) : jstr :=
  if cp <? 65536 then [cp]
  else [55296 + (cp - 65536) / 1024; 56320 + (cp - 65536) mod 1024].

(** The code points of a string; [None] stands for a lone surrogate. *)
Fixpoint code_points (s : jstr) : list (option Z) :=
  match s with
  | [] => []
  | c :: t =>
    if is_high c then
      match t with
      | d :: t' => if is_low d then Some (65536 + (c - 55296) * 1024 + (d - 56320)) :: code_points t'
                   else None :: code_points t
      | [] => [None]
      end
    else (if is_low c then None else Some c) :: code_points t
  end.

(** ** Encoding *)

Definition utf8_cp (c : Z) : list Z :=
  if c <? 128 then [c]
  else if c <? 2048 then [192 + c / 64; 128 + c mod 64]
  else if c <? 65536 then [224 + c / 4096; 128 + c / 64 mod 64; 128 + c mod 64]
  else [240 + c / 262144; 128 + c / 4096 mod 64; 128 + c / 64 mod 64; 128 + c mod 64].

(** A lone surrogate becomes U+FFFD where a scalar-value string is wanted. *)
Definition utf8 (s : jstr) : list Z :=
  code_points s ≫= λ o, utf8_cp (default 65533 o).

(** ** The streaming decoder *)

(** Bytes still needed, the code point so far, and the range of the next byte. *)
Record dstate := DState { d_need : nat; d_cp : Z; d_lo : Z; d_hi : Z }.
Definition d_init : dstate := DState 0 0 128 191.

Definition in_range (lo hi b : Z) : bool := (lo <=? b) && (b <=? hi).

Definition lead_byte (b : Z) : dstate * jstr :=
  if in_range 0 127 b then (d_init, [b])
  else if in_range 194 223 b then (DState 1 (b mod 32) 128 191, [])
  else if in_range 224 239 b then
    (DState 2 (b mod 16) (if b =? 224 then 160 else 128) (if b =? 237 then 159 else 191), [])
  else if in_range 240 244 b then
    (DState 3 (b mod 8) (if b =? 240 then 144 else 128) (if b =? 244 then 143 else 191), [])
  else (d_init, [65533]).

Definition decode_byte (st : dstate) (b : Z) : dstate * jstr :=
  match d_need st with
  | O => lead_byte b
  | S n =>
    if in_range (d_lo st) (d_hi st) b then
      let cp := d_cp st * 64 + b mod 64 in
      match n with
      | O => (d_init, units_of cp)
      | _ => (DState n cp 128 191, [])
      end
    else let '(st', o) := lead_byte b in (st', 65533 :: o)
  end.

Fixpoint decode_from (st : dstate) (bs : list Z) : dstate * jstr :=
  match bs with
  | [] => (st, [])
  | b :: t => let '(st1, o1) := decode_byte st b in
              let '(st2, o2) := decode_from st1 t in (st2, o1 ++ o2)
  end.

(** Decoding a whole byte sequence: an unfinished character becomes U+FFFD. *)
Definition decode (bs : list Z) : jstr :=
  let '(st, o) := decode_from d_init bs in
  match d_need st with O => o | _ => o ++ [65533] end.

(** ** Percent encoding *)

Definition is_alnum (c : Z) : bool :=
  in_range 48 57 c || in_range 65 90 c || in_range 97 122 c.

Definition HEX (n : Z) : Z := if n <? 10 then 48 + n else 55 + n.
Definition pct (b : Z) : jstr := [37; HEX (b / 16); HEX (b mod 16)].

(** [encodeURIComponent]: alphanumerics and [-_.!~*'()] stay; [None] is the
    URIError of a lone surrogate. *)
Definition uri_keeps (c : Z) : bool :=
  is_alnum c || bool_decide (c ∈ [45; 95; 46; 33; 126; 42; 39; 40; 41]).

Definition uri_unit (b : Z) : jstr := if uri_keeps b then [b] else pct b.

Fixpoint encode_points (l : list (option Z)) : option jstr :=
  match l with
  | [] => Some []
  | None :: _ => None
  | Some c :: t => r ← encode_points t; Some ((utf8_cp c ≫= uri_unit) ++ r)
  end.
Definition encodeURIComponent (s : jstr) : option jstr := encode_points (code_points s).

(** The form encoding of [URLSearchParams.toString]. *)
Definition form_keeps (c : Z) : bool := is_alnum c || bool_decide (c ∈ [42; 45; 46; 95]).
Definition form_unit (b : Z) : jstr :=
  if form_keeps b then [b] else if b =? 32 then [43] else pct b.
Definition form_encode (s : jstr) : jstr := utf8 s ≫= form_unit.

Definition hex_of (c : Z) : option Z :=
  if in_range 48 57 c then Some (c - 48)
  else if in_range 65 70 c then Some (c - 55)
  else if in_range 97 102 c then Some (c - 87) else None.

(** Percent decoding of a byte sequence; a malformed triple stays. *)
Fixpoint percent_decode (l : list Z) : list Z :=
  match l with
  | [] => []
  | c :: t =>
    if c =? 37 then
      match t with
      | a :: b :: t' =>
        match hex_of a, hex_of b with
        | Some x, Some y => (16 * x + y) :: percent_decode t'
        | _, _ => c :: percent_decode t
        end
      | _ => c :: percent_decode t
      end
    else c :: percent_decode t
  end.

Definition form_decode (s : jstr) : jstr :=
  decode (percent_decode (map (λ c, if c =? 43 then 32 else c) (utf8 s))).

(** ** Lemmas *)

Lemma decode_from_app st a b :
  decode_from st (a ++ b) =
  (let '(st1, o1) := decode_from st a in let '(st2, o2) := decode_from st1 b in (st2, o1 ++ o2)).
Proof.
  revert st. induction a as [|c a IH]; intros st; simpl; [by destruct (decode_from st b)|].
  destruct (decode_byte st c) as [st1 o1]. rewrite IH.
  destruct (decode_from st1 a) as [st2 o2]. destruct (decode_from st2 b) as [st3 o3].
  by rewrite <- app_assoc.
Qed.

Lemma in_range_true lo hi b : lo ≤ b ≤ hi → in_range lo hi b = true.
Proof. unfold in_range. lia. Qed.
Lemma in_range_false lo hi b : b < lo ∨ hi < b → in_range lo hi b = false.
Proof. unfold in_range. lia. Qed.

(** A scalar value is neither out of Unicode nor a surrogate. *)
Definition scalar (c : Z) : Prop := 0 ≤ c < 55296 ∨ 57344 ≤ c < 1114112.

Ltac ranges := repeat first
  [ rewrite in_range_true by lia | rewrite in_range_false by lia ].

Lemma decode_cont st n b :
  d_need st = S (S n) → d_lo st ≤ b ≤ d_hi st →
  decode_byte st b = (DState (S n) (d_cp st * 64 + b mod 64) 128 191, []).
Proof. intros E H. unfold decode_byte. by rewrite E, in_range_true. Qed.

Lemma decode_last st b :
  d_need st = 1%nat → d_lo st ≤ b ≤ d_hi st →
  decode_byte st b = (d_init, units_of (d_cp st * 64 + b mod 64)).
Proof. intros E H. unfold decode_byte. by rewrite E, in_range_true. Qed.

Lemma cont_mod x : (128 + x mod 64) mod 64 = x mod 64.
Proof. rewrite Z.add_comm, (Z.add_mod_idemp_l x 128 64) by lia. replace (x + 128) with (x + 2 * 64) by lia. apply Z.mod_add. lia. Qed.

Lemma lead_mod k q m : 0 < m → k mod m = 0 → 0 ≤ q < m → (k + q) mod m = q.
Proof.
  intros Hm Hk Hq. rewrite Z.add_mod, Hk, Z.add_0_l, Z.mod_mod, Z.mod_small by lia. lia.
Qed.

Lemma decode_utf8_cp c : scalar c → decode_from d_init (utf8_cp c) = (d_init, units_of c).
Proof.
  intros Hc. unfold utf8_cp.
  destruct (Z.ltb_spec c 128).
  { assert (0 ≤ c) by (unfold scalar in Hc; lia). simpl. unfold decode_byte, lead_byte. simpl d_need. ranges.
    unfold units_of. by rewrite (proj2 (Z.ltb_lt c 65536)) by lia. }
  destruct (Z.ltb_spec c 2048).
  { assert (2 ≤ c / 64 < 32) by (split; [apply Z.div_le_lower_bound|apply Z.div_lt_upper_bound]; lia).
    pose proof (Z.mod_pos_bound c 64 ltac:(lia)).
    cbn [decode_from]. unfold decode_byte at 1, lead_byte. simpl d_need. ranges.
    rewrite decode_last by (simpl; lia). simpl d_cp. rewrite cont_mod, lead_mod by (try done; lia).
    simpl. rewrite app_nil_r. f_equal. f_equal. pose proof (Z.div_mod c 64). lia. }
  pose proof (Z.mod_pos_bound c 64 ltac:(lia)). pose proof (Z.div_mod c 64 ltac:(lia)).
  pose proof (Z.mod_pos_bound (c / 64) 64 ltac:(lia)).
  pose proof (Z.div_mod (c / 64) 64 ltac:(lia)) as E1. rewrite Z.div_div in E1 by lia.
  change (64 * 64) with 4096 in E1.
  set (r := c / 64 mod 64) in *. set (s := c mod 64) in *. set (h := c / 64) in *.
  destruct (Z.ltb_spec c 65536).
  { set (q := c / 4096) in *. unfold scalar in Hc.
    cbn [decode_from]. unfold decode_byte at 1, lead_byte. simpl d_need. ranges.
    rewrite (decode_cont _ 0) by (first [done | simpl; repeat case_match; lia]).
    rewrite decode_last by (first [done | simpl; lia]).
    simpl d_cp. rewrite (lead_mod 224 q 16) by (try done; lia).
    subst r s. rewrite !cont_mod. simpl. rewrite app_nil_r. do 2 f_equal. lia. }
  unfold scalar in Hc. pose proof (Z.mod_pos_bound (c / 4096) 64 ltac:(lia)).
  pose proof (Z.div_mod (c / 4096) 64 ltac:(lia)) as E2. rewrite Z.div_div in E2 by lia.
  change (4096 * 64) with 262144 in E2. set (q := c / 262144) in *.
  set (p := c / 4096 mod 64) in *.
  cbn [decode_from]. unfold decode_byte at 1, lead_byte. simpl d_need. ranges.
  rewrite (decode_cont _ 1) by (first [done | simpl; repeat case_match; lia]).
  rewrite (decode_cont _ 0) by (first [done | simpl; lia]).
  rewrite decode_last by (first [done | simpl; lia]).
  simpl d_cp. rewrite (lead_mod 240 q 8) by (try done; lia).
  subst r s p. rewrite !cont_mod. simpl. rewrite app_nil_r. do 2 f_equal. lia.
Qed.

(** Strings of code units, and those without a lone surrogate. *)
Definition units (s : jstr) : Prop := Forall (λ c, 0 ≤ c < 65536) s.
Definition paired (s : jstr) : Prop := None ∉ code_points s.

(** What a decoder can give back: lone surrogates replaced. *)
Definition to_well_formed (s : jstr) : jstr :=
  code_points s ≫= λ o, units_of (default 65533 o).

Definition scalar_points (s : jstr) : Prop := Forall (λ o, scalar (default 65533 o)) (code_points s).

(** Induction over the characters of a string. *)
Lemma points_ind (P : jstr → list (option Z) → Prop) :
  P [] [] →
  (∀ c t, 0 ≤ c < 65536 → is_high c = false → is_low c = false → units t →
     P t (code_points t) → P (c :: t) (Some c :: code_points t)) →
  (∀ c d t, is_high c = true → is_low d = true → units t → P t (code_points t) →
     P (c :: d :: t) (Some (65536 + (c - 55296) * 1024 + (d - 56320)) :: code_points t)) →
  (∀ c t, is_high c = true ∨ is_low c = true → units t → P t (code_points t) →
     P (c :: t) (None :: code_points t)) →
  ∀ s, units s → P s (code_points s).
Proof.
  intros H0 H1 H2 H3 s. remember (length s) as n eqn:Hn. revert s Hn.
  induction (lt_wf n) as [n _ IH]. intros s -> Hs. destruct s as [|c t]; [exact H0|].
  apply Forall_cons in Hs as [Hc Ht].
  assert (P t (code_points t)) as Hrec by (apply (IH (length t)); [simpl; lia|done|done]).
  cbn [code_points]. destruct (is_high c) eqn:Eh.
  - destruct t as [|d t]; [by apply (H3 c []); auto|].
    destruct (is_low d) eqn:El; [|by apply H3; auto].
    apply Forall_cons in Ht as [_ Ht].
    apply H2; [done|done|done|]. apply (IH (length t)); [simpl; lia|done|done].
  - destruct (is_low c) eqn:El; [by apply H3; auto|]. by apply H1.
Qed.

Lemma units_scalar s : units s → scalar_points s.
Proof.
  revert s. unfold scalar_points.
  apply (points_ind (λ s l, Forall (λ o, scalar (default 65533 o)) l)).
  - constructor.
  - intros c t Hc Hh Hl _ IH. constructor; [|done]. simpl. unfold scalar, is_high, is_low in *. lia.
  - intros c d t Hc Hd _ IH. constructor; [|done]. simpl. unfold scalar, is_high, is_low in *. lia.
  - intros c t _ _ IH. constructor; [|done]. simpl. unfold scalar. lia.
Qed.

Lemma paired_well_formed s : units s → paired s → to_well_formed s = s.
Proof.
  intros H. unfold paired, to_well_formed.
  refine (points_ind (λ s l, None ∉ l → (l ≫= λ o, units_of (default 65533 o)) = s) _ _ _ _ s H).
  - done.
  - intros c t Hc Hh Hl _ IH Hn. cbn. unfold units_of at 1.
    rewrite (proj2 (Z.ltb_lt c 65536)) by lia. cbn. f_equal. apply IH. set_solver.
  - intros c d t Hc Hd _ IH Hn. cbn. unfold units_of at 1. unfold is_high, is_low in *.
    rewrite (proj2 (Z.ltb_ge _ 65536)) by lia. cbn.
    replace (65536 + (c - 55296) * 1024 + (d - 56320) - 65536)
      with ((d - 56320) + (c - 55296) * 1024) by lia.
    rewrite Z.div_add, Z.div_small, Z.mod_add, Z.mod_small by lia.
    f_equal; [lia|]. f_equal; [lia|]. apply IH. set_solver.
  - intros c t _ _ _ Hn. exfalso. apply Hn. left.
Qed.

Lemma decode_points l :
  Forall (λ o, scalar (default 65533 o)) l →
  decode_from d_init (l ≫= λ o, utf8_cp (default 65533 o)) =
    (d_init, l ≫= λ o, units_of (default 65533 o)).
Proof.
  induction 1 as [|o l Ho _ IH]; [done|]. cbn. rewrite decode_from_app, decode_utf8_cp by done.
  change (mbind (M:=list) (λ o, utf8_cp (default 65533 o)) l) with
    (l ≫= λ o, utf8_cp (default 65533 o)). by rewrite IH.
Qed.

Lemma decode_utf8 s : units s → decode_from d_init (utf8 s) = (d_init, to_well_formed s).
Proof. intros H. by apply decode_points, units_scalar. Qed.

(** *** Percent encoding round trip *)

Definition is_byte (b : Z) : Prop := 0 ≤ b < 256.

Lemma utf8_cp_bytes c : scalar c → Forall is_byte (utf8_cp c).
Proof.
  intros Hc. unfold utf8_cp, scalar, is_byte in *.
  pose proof (Z.mod_pos_bound c 64 ltac:(lia)).
  pose proof (Z.mod_pos_bound (c / 64) 64 ltac:(lia)).
  pose proof (Z.mod_pos_bound (c / 4096) 64 ltac:(lia)).
  destruct (Z.ltb_spec c 128); [repeat constructor; lia|].
  destruct (Z.ltb_spec c 2048).
  { assert (0 ≤ c / 64 < 32) by (split; [apply Z.div_le_lower_bound|apply Z.div_lt_upper_bound]; lia).
    repeat constructor; lia. }
  destruct (Z.ltb_spec c 65536).
  { assert (0 ≤ c / 4096 < 16) by (split; [apply Z.div_le_lower_bound|apply Z.div_lt_upper_bound]; lia).
    repeat constructor; lia. }
  assert (0 ≤ c / 262144 < 8) by (split; [apply Z.div_le_lower_bound|apply Z.div_lt_upper_bound]; lia).
  repeat constructor; lia.
Qed.

Lemma utf8_bytes s : units s → Forall is_byte (utf8 s).
Proof.
  intros H%units_scalar. apply Forall_bind. eapply Forall_impl; [exact H|].
  intros o Ho. by apply utf8_cp_bytes.
Qed.

(** All bytes, for proofs by enumeration. *)
Definition all_bytes : list Z := seqZ 0 256.
Lemma is_byte_elem b : is_byte b → In b all_bytes.
Proof. intros H. apply list_elem_of_In, elem_of_seqZ. unfold is_byte in H. lia. Qed.
Lemma byte_check (f : Z → bool) : forallb f all_bytes = true → ∀ b, is_byte b → f b = true.
Proof. rewrite forallb_forall. intros H b Hb. by apply H, is_byte_elem. Qed.

(** One encoded byte decodes to itself, whatever follows. *)
Definition unit_ok (b : Z) : bool :=
  match form_unit b with
  | [c] => (c =? 43) && (b =? 32) || negb (c =? 43) && negb (c =? 37) && (c =? b)
  | [p; x; y] => (p =? 37) && negb (x =? 43) && negb (y =? 43) &&
                 bool_decide (hex_of x = Some (b / 16)) && bool_decide (hex_of y = Some (b mod 16))
  | _ => false
  end.

Lemma form_unit_ok b : is_byte b → unit_ok b = true.
Proof. revert b. apply byte_check. vm_compute. reflexivity. Qed.

Lemma percent_decode_unit b rest :
  is_byte b →
  percent_decode (map (λ c, if c =? 43 then 32 else c) (form_unit b) ++ rest) =
    b :: percent_decode rest.
Proof.
  intros Hb. pose proof (form_unit_ok b Hb) as H. unfold unit_ok in H.
  destruct (form_unit b) as [|p [|x [|y [|? ?]]]]; try done.
  - assert (p = 43 ∧ b = 32 ∨ p ≠ 43 ∧ p ≠ 37 ∧ p = b) as [[-> ->]|(H1 & H2 & ->)] by lia; [done|].
    cbn. by rewrite (proj2 (Z.eqb_neq b 43)), (proj2 (Z.eqb_neq b 37)).
  - repeat (apply andb_prop in H as [H ?]). cbn.
    assert (p = 37) as -> by lia.
    rewrite (proj2 (Z.eqb_neq x 43)), (proj2 (Z.eqb_neq y 43)) by lia. cbn.
    repeat match goal with E : bool_decide _ = true |- _ => apply bool_decide_eq_true in E; rewrite E end.
    f_equal. rewrite (Z.div_mod b 16) at 3 by lia. done.
Qed.

Definition ascii (s : jstr) : Prop := Forall (λ c, 0 ≤ c < 128) s.

Lemma utf8_ascii s : ascii s → utf8 s = s.
Proof.
  induction 1 as [|c s Hc _ IH]; [done|]. unfold utf8. cbn [code_points].
  assert (is_high c = false ∧ is_low c = false) as [-> ->] by (unfold is_high, is_low; lia).
  cbn. unfold utf8_cp at 1. rewrite (proj2 (Z.ltb_lt c 128)) by lia. cbn. f_equal. exact IH.
Qed.

Lemma form_unit_ascii b : is_byte b → ascii (form_unit b).
Proof.
  intros Hb. pose proof (byte_check (λ b, forallb (λ c, (0 <=? c) && (c <? 128)) (form_unit b))) as H.
  specialize (H ltac:(vm_compute; reflexivity) b Hb). rewrite forallb_forall in H.
  apply Forall_forall. intros c Hc%list_elem_of_In%H. lia.
Qed.

Lemma percent_decode_units bs :
  Forall is_byte bs →
  percent_decode (map (λ c, if c =? 43 then 32 else c) (bs ≫= form_unit)) = bs.
Proof.
  induction 1 as [|b bs Hb _ IH]; [done|]. cbn. rewrite map_app, percent_decode_unit by done.
  f_equal. exact IH.
Qed.

(** The form encoding round trip. *)
Lemma form_round_trip s : units s → form_decode (form_encode s) = to_well_formed s.
Proof.
  intros Hs. pose proof (utf8_bytes s Hs) as Hb. unfold form_decode, form_encode.
  rewrite utf8_ascii.
  - rewrite percent_decode_units by done. unfold decode. by rewrite decode_utf8.
  - apply Forall_bind. eapply Forall_impl; [exact Hb|]. intros b Hb'. by apply form_unit_ascii.
Qed.

(** A text without lone surrogates: it survives encoding and decoding. *)
Definition text_ok (s : jstr) : Prop := units s ∧ paired s.
#[global] Instance text_ok_dec s : Decision (text_ok s).
Proof. unfold text_ok, units, paired. apply _. Defined.

Lemma form_text s : text_ok s → form_decode (form_encode s) = s.
Proof. intros [Hu Hp]. by rewrite form_round_trip, paired_well_formed. Qed.
