(* ===== verification/Html.v ===== *)
(** * HTML: escaping, markup safety, CSRF tokens

    [escHtml] and [csrfToken] of app.js (lines 1-18) and the [esc] of the queue
    board, a small tokenizer that says which tags a string of markup holds and
    which text it shows, and the lemmas that keep data out of the markup. *)

From S2P Require Import Prelude JsString.
Open Scope Z_scope.

(** ** Escaping *)

(** The replacement table of [escHtml]. *)
Definition esc_unit (c : Z) : jstr :=
  if c =? 38 then js "&amp;"
  else if c =? 60 then js "&lt;"
  else if c =? 62 then js "&gt;"
  else if c =? 34 then js "&quot;"
  else if c =? 39 then js "&#39;"
  else [c].

Definition escHtml (s : jstr) : jstr := s ≫= esc_unit.

(** The queue board's [esc]: the apostrophe is left alone. *)
Definition board_esc_unit (c : Z) : jstr := if c =? 39 then [c] else esc_unit c.
Definition board_esc (s : jstr) : jstr := s ≫= board_esc_unit.

(** Markup of the source, its double quotes written as apostrophes. *)
Definition html (s : string) : jstr := map (λ c, if c =? 39 then 34 else c) (js s).

(** ** Reading markup back *)

(** The five character references the two functions write. *)
Fixpoint unescape (s : jstr) : jstr :=
  match s with
  | [] => []
  | c :: t =>
    if c =? 38 then
      match t with
      | 97 :: 109 :: 112 :: 59 :: r => 38 :: unescape r
      | 108 :: 116 :: 59 :: r => 60 :: unescape r
      | 103 :: 116 :: 59 :: r => 62 :: unescape r
      | 113 :: 117 :: 111 :: 116 :: 59 :: r => 34 :: unescape r
      | 35 :: 51 :: 57 :: 59 :: r => 39 :: unescape r
      | _ => c :: unescape t
      end
    else c :: unescape t
  end.

(** A tokenizer: text, inside a tag, inside a quoted attribute value.  A tag is
    reported with its attribute values left out, so two strings have the same
    tags when they differ in text and attribute values only. *)
Inductive mode : Type :=
  | MText
  | MTag (acc : jstr)
  | MQuoted (q : Z) (acc : jstr).

Inductive token : Type :=
  | TChar (c : Z)
  | TTag (t : jstr).

Definition lex_step (m : mode) (c : Z) : mode * list token :=
  match m with
  | MText => if c =? 60 then (MTag [], []) else (MText, [TChar c])
  | MTag acc => if c =? 62 then (MText, [TTag acc])
                else if (c =? 34) || (c =? 39) then (MQuoted c acc, [])
                else (MTag (acc ++ [c]), [])
  | MQuoted q acc => if c =? q then (MTag acc, []) else (m, [])
  end.

Fixpoint lex (m : mode) (s : jstr) : mode * list token :=
  match s with
  | [] => (m, [])
  | c :: t => let '(m1, o1) := lex_step m c in
              let '(m2, o2) := lex m1 t in (m2, o1 ++ o2)
  end.

Definition tags_of (l : list token) : list jstr :=
  omap (λ t, match t with TTag n => Some n | TChar _ => None end) l.
Definition chars_of (l : list token) : jstr :=
  omap (λ t, match t with TChar c => Some c | TTag _ => None end) l.

(** The tags of a piece of markup, and the text it shows. *)
Definition tags (s : jstr) : list jstr := tags_of (lex MText s).2.
Definition shown_text (s : jstr) : jstr := unescape (chars_of (lex MText s).2).

(** ** CSRF tokens (app.js lines 7-18)

    A form of the page: its [method] attribute and its named inputs. *)
Record input := Input { in_name : jstr; in_value : jstr; in_hidden : bool }.
Record form := Form { f_method : jstr; f_inputs : list input }.

Definition csrfToken (meta : option (option jstr)) : jstr :=
  match meta with
  | Some content => match content with Some c => s_or c [] | None => [] end
  | None => []
  end.

(** The values of [method] are compared without case in a selector on an HTML
    page, so the two selectors of the code are one. *)
Definition post_form (f : form) : bool :=
  bool_decide (ascii_lower (f_method f) = js "post").
Definition has_csrf (f : form) : bool :=
  existsb (λ i, bool_decide (in_name i = js "csrf")) (f_inputs f).

Definition add_csrf (token : jstr) (f : form) : form :=
  if post_form f then
    if has_csrf f then f
    else {| f_method := f_method f;
            f_inputs := f_inputs f ++ [Input (js "csrf") token true] |}
  else f.

Definition inject_csrf (meta : option (option jstr)) (forms : list form) : list form :=
  map (add_csrf (csrfToken meta)) forms.

(** ** Lemmas *)

Lemma escHtml_app a b : escHtml (a ++ b) = escHtml a ++ escHtml b.
Proof. apply bind_app. Qed.

Lemma escHtml_cons c s : escHtml (c :: s) = esc_unit c ++ escHtml s.
Proof. done. Qed.

(** The units an escaped string never holds. *)
Definition markup_free (s : jstr) : Prop :=
  Forall (λ c, c ≠ 60 ∧ c ≠ 62 ∧ c ≠ 34) s.

Lemma esc_unit_free c : Forall (λ d, d ≠ 60 ∧ d ≠ 62 ∧ d ≠ 34 ∧ d ≠ 39) (esc_unit c).
Proof.
  unfold esc_unit.
  repeat match goal with
  | |- context [c =? ?n] => destruct (Z.eqb_spec c n); [by repeat constructor|]
  end.
  by repeat constructor.
Qed.

Lemma escHtml_free s : Forall (λ d, d ≠ 60 ∧ d ≠ 62 ∧ d ≠ 34 ∧ d ≠ 39) (escHtml s).
Proof. apply Forall_bind, Forall_forall. intros c _. apply esc_unit_free. Qed.

Lemma escHtml_markup_free s : markup_free (escHtml s).
Proof. eapply Forall_impl; [apply escHtml_free|]. naive_solver. Qed.

Lemma board_esc_markup_free s : markup_free (board_esc s).
Proof.
  apply Forall_bind, Forall_forall. intros c _. unfold compose, board_esc_unit.
  destruct (Z.eqb_spec c 39) as [->|]; [by repeat constructor|].
  eapply Forall_impl; [apply esc_unit_free|]. naive_solver.
Qed.

Lemma unescape_esc_unit c s : unescape (esc_unit c ++ s) = c :: unescape s.
Proof.
  unfold esc_unit.
  repeat match goal with
  | |- context [c =? ?n] => destruct (Z.eqb_spec c n); [by subst|]
  end.
  simpl. by rewrite (proj2 (Z.eqb_neq c 38)).
Qed.

Lemma unescape_escHtml_app a s : unescape (escHtml a ++ s) = a ++ unescape s.
Proof.
  induction a as [|c a IH]; [done|]. rewrite escHtml_cons, <- app_assoc.
  by rewrite unescape_esc_unit, IH.
Qed.

Lemma unescape_board_esc_app a s : unescape (board_esc a ++ s) = a ++ unescape s.
Proof.
  induction a as [|c a IH]; [done|].
  change (board_esc (c :: a)) with (board_esc_unit c ++ board_esc a).
  rewrite <- app_assoc. unfold board_esc_unit.
  destruct (Z.eqb_spec c 39) as [->|]; simpl app.
  - simpl. by rewrite IH.
  - by rewrite unescape_esc_unit, IH.
Qed.

(** Text without an ampersand is read back unchanged. *)
Lemma unescape_plain_app a s : Forall (λ c, c ≠ 38) a → unescape (a ++ s) = a ++ unescape s.
Proof.
  induction 1 as [|c a Hc _ IH]; [done|]. simpl app. simpl unescape.
  by rewrite (proj2 (Z.eqb_neq c 38)), IH.
Qed.

Lemma unescape_literal a s :
  forallb (λ c, negb (c =? 38)) a = true → unescape (a ++ s) = a ++ unescape s.
Proof.
  rewrite forallb_forall. intros H. apply unescape_plain_app, Forall_forall.
  intros c Hc%list_elem_of_In%H. lia.
Qed.

(** *** The tokenizer *)

Lemma lex_app m a b :
  lex m (a ++ b) = let '(m1, o1) := lex m a in let '(m2, o2) := lex m1 b in (m2, o1 ++ o2).
Proof.
  revert m. induction a as [|c a IH]; intros m; simpl.
  - by destruct (lex m b).
  - destruct (lex_step m c) as [m1 o1]. rewrite IH.
    destruct (lex m1 a) as [m2 o2]. destruct (lex m2 b) as [m3 o3].
    by rewrite <- app_assoc.
Qed.

(** Escaped text stays text, whatever it says. *)
Lemma lex_text s : markup_free s → lex MText s = (MText, map TChar s).
Proof.
  induction 1 as [|c s (H1 & _) _ IH]; [done|]. simpl.
  rewrite (proj2 (Z.eqb_neq c 60)) by done. by rewrite IH.
Qed.

(** Inside a double-quoted value it stays inside. *)
Lemma lex_quoted s acc : markup_free s → lex (MQuoted 34 acc) s = (MQuoted 34 acc, []).
Proof.
  induction 1 as [|c s (_ & _ & H1) _ IH]; [done|]. simpl.
  rewrite (proj2 (Z.eqb_neq c 34)) by done. by rewrite IH.
Qed.

Lemma tags_of_app a b : tags_of (a ++ b) = tags_of a ++ tags_of b.
Proof. apply omap_app. Qed.
Lemma chars_of_app a b : chars_of (a ++ b) = chars_of a ++ chars_of b.
Proof. apply omap_app. Qed.
Lemma tags_of_chars s : tags_of (map TChar s) = [].
Proof. by induction s. Qed.
Lemma chars_of_chars s : chars_of (map TChar s) = s.
Proof. induction s as [|c s IH]; [done|]. change (c :: chars_of (map TChar s) = c :: s). by rewrite IH. Qed.

(** *** Fragments of markup

    [markup s ts tx]: read from text, [s] ends in text, holds the tags [ts] and
    the raw characters [tx]. *)
Definition markup (s : jstr) (ts : list jstr) (tx : jstr) : Prop :=
  ∃ toks, lex MText s = (MText, toks) ∧ tags_of toks = ts ∧ chars_of toks = tx.

Lemma markup_app a b ta tb xa xb :
  markup a ta xa → markup b tb xb → markup (a ++ b) (ta ++ tb) (xa ++ xb).
Proof.
  intros (ka & Ea & <- & <-) (kb & Eb & <- & <-). exists (ka ++ kb).
  rewrite lex_app, Ea, Eb. by rewrite tags_of_app, chars_of_app.
Qed.

Lemma markup_nil : markup [] [] [].
Proof. by exists []. Qed.

Lemma markup_text s : markup_free s → markup s [] s.
Proof.
  intros H. exists (map TChar s). by rewrite lex_text, tags_of_chars, chars_of_chars.
Qed.

Lemma markup_esc s : markup (escHtml s) [] (escHtml s).
Proof. apply markup_text, escHtml_markup_free. Qed.

Lemma markup_board_esc s : markup (board_esc s) [] (board_esc s).
Proof. apply markup_text, board_esc_markup_free. Qed.

Lemma markup_tags s ts tx : markup s ts tx → tags s = ts.
Proof. intros (k & E & <- & _). unfold tags. by rewrite E. Qed.

Lemma markup_shown s ts tx : markup s ts tx → shown_text s = unescape tx.
Proof. intros (k & E & _ & <-). unfold shown_text. by rewrite E. Qed.

(** A tag with one data value: [pre"v"post], where [pre] opens the tag and
    [post] closes it. *)
Lemma markup_attr pre v post acc ts tx :
  lex MText pre = (MQuoted 34 acc, []) → markup_free v →
  lex (MQuoted 34 acc) post = (MText, map TTag ts ++ map TChar tx) →
  markup (pre ++ v ++ post) ts tx.
Proof.
  intros E1 Hv E2. exists (map TTag ts ++ map TChar tx).
  rewrite lex_app, E1, lex_app, lex_quoted, E2 by done. simpl.
  split; [done|]. rewrite tags_of_app, chars_of_app, tags_of_chars, chars_of_chars, app_nil_r.
  split.
  - clear. induction ts as [|t ts IH]; [done|]. cbn. f_equal. exact IH.
  - clear. by induction ts.
Qed.

Lemma digits_markup_free l : Forall (λ c, is_digit c = true) l → markup_free l.
Proof. intros H. eapply Forall_impl; [exact H|]. unfold is_digit. intros c Hc. simpl in *. lia. Qed.

Lemma of_int_markup_free z : markup_free (of_int z).
Proof.
  unfold of_int. destruct (Z.ltb_spec z 0).
  - constructor; [lia|]. apply digits_markup_free, nat_digits_digits. lia.
  - apply digits_markup_free, nat_digits_digits. lia.
Qed.

Definition markup_freeb (s : jstr) : bool :=
  forallb (λ c, negb (c =? 60) && negb (c =? 62) && negb (c =? 34)) s.

Lemma markup_freeb_true s : markup_freeb s = true → markup_free s.
Proof.
  unfold markup_freeb. rewrite forallb_forall. intros H. apply Forall_forall.
  intros c Hc%list_elem_of_In%H. lia.
Qed.

(** Closed markup is read by computation. *)
Ltac markup_lit := eexists; split_and!; vm_compute; reflexivity.
Ltac text_lit := apply markup_text, markup_freeb_true; vm_compute; reflexivity.

Create HintDb markup discriminated.
#[export] Hint Resolve markup_nil markup_esc markup_board_esc markup_app : markup.
#[export] Hint Resolve escHtml_markup_free board_esc_markup_free of_int_markup_free : markup.

(** *** Pieces of markup with data in them

    [piece m s m' ts text]: read from mode [m], [s] ends in mode [m'], closes the
    tags [ts], and shows [text], whatever follows it. *)
Definition piece (m : mode) (s : jstr) (m' : mode) (ts : list jstr) (text : jstr) : Prop :=
  ∃ toks, lex m s = (m', toks) ∧ tags_of toks = ts ∧
          ∀ r, unescape (chars_of toks ++ r) = text ++ unescape r.

(** A whole fragment begins and ends in text. *)
Definition fragment (s : jstr) (ts : list jstr) (text : jstr) : Prop := piece MText s MText ts text.

Lemma piece_app m a m1 b m2 ta tb xa xb :
  piece m a m1 ta xa → piece m1 b m2 tb xb → piece m (a ++ b) m2 (ta ++ tb) (xa ++ xb).
Proof.
  intros (ka & Ea & <- & Ha) (kb & Eb & <- & Hb). exists (ka ++ kb).
  rewrite lex_app, Ea, Eb, tags_of_app, chars_of_app. split; [done|]. split; [done|].
  intros r. by rewrite <- app_assoc, Ha, Hb, app_assoc.
Qed.

(** Fixed markup is read by computation. *)
Definition read_fixed (m : mode) (s : jstr) : option (mode * list jstr * jstr) :=
  let '(m', k) := lex m s in
  if forallb (λ c, negb (c =? 38)) (chars_of k) then Some (m', tags_of k, chars_of k) else None.

Lemma piece_fixed m s m' ts text : read_fixed m s = Some (m', ts, text) → piece m s m' ts text.
Proof.
  unfold read_fixed. destruct (lex m s) as [m1 k] eqn:E. destruct (forallb _ _) eqn:Ea; [|done].
  intros [= <- <- <-]. exists k. split; [done|]. split; [done|]. intros r. by apply unescape_literal.
Qed.

Lemma piece_nil m : piece m [] m [] [].
Proof. by apply piece_fixed. Qed.

Lemma piece_esc s : piece MText (escHtml s) MText [] s.
Proof.
  exists (map TChar (escHtml s)). rewrite lex_text by apply escHtml_markup_free.
  rewrite tags_of_chars, chars_of_chars. split; [done|]. split; [done|].
  intros r. apply unescape_escHtml_app.
Qed.

Lemma piece_board_esc s : piece MText (board_esc s) MText [] s.
Proof.
  exists (map TChar (board_esc s)). rewrite lex_text by apply board_esc_markup_free.
  rewrite tags_of_chars, chars_of_chars. split; [done|]. split; [done|]. apply unescape_board_esc_app.
Qed.

(** Text without markup or references shows itself. *)
Definition plain_text (s : jstr) : Prop := Forall (λ c, c ≠ 38 ∧ c ≠ 60 ∧ c ≠ 62 ∧ c ≠ 34) s.

Lemma plain_markup_free s : plain_text s → markup_free s.
Proof. intros H. eapply Forall_impl; [exact H|]. naive_solver. Qed.

Lemma piece_plain s : plain_text s → piece MText s MText [] s.
Proof.
  intros H. exists (map TChar s). rewrite lex_text by by apply plain_markup_free.
  rewrite tags_of_chars, chars_of_chars. split; [done|]. split; [done|]. intros r.
  apply unescape_literal, forallb_forall. intros c Hc%list_elem_of_In.
  unfold plain_text in H. rewrite Forall_forall in H. destruct (H c Hc) as [Ha _]. apply negb_true_iff. by apply Z.eqb_neq.
Qed.

Lemma of_int_plain z : plain_text (of_int z).
Proof.
  assert (∀ l, Forall (λ c, is_digit c = true) l → plain_text l) as Hd.
  { intros l H. eapply Forall_impl; [exact H|]. unfold is_digit. intros c Hc. simpl in *. lia. }
  unfold of_int. destruct (Z.ltb_spec z 0).
  - constructor; [lia|]. apply Hd, nat_digits_digits. lia.
  - apply Hd, nat_digits_digits. lia.
Qed.

Lemma piece_int z : piece MText (of_int z) MText [] (of_int z).
Proof. apply piece_plain, of_int_plain. Qed.

(** Inside a quoted value nothing is shown. *)
Lemma piece_value acc s : markup_free s → piece (MQuoted 34 acc) s (MQuoted 34 acc) [] [].
Proof. intros H. exists []. by rewrite lex_quoted. Qed.

Lemma fragment_concat {A} (f : A → jstr) (ts : A → list jstr) (tx : A → jstr) l :
  (∀ x, x ∈ l → fragment (f x) (ts x) (tx x)) →
  fragment (concat (map f l)) (concat (map ts l)) (concat (map tx l)).
Proof.
  induction l as [|x l IH]; intros H; [apply piece_nil|]. cbn.
  eapply piece_app; [apply H, elem_of_cons; by left|].
  apply IH. intros y Hy. apply H, elem_of_cons. by right.
Qed.

Lemma fragment_spec s ts text : fragment s ts text → tags s = ts ∧ shown_text s = text.
Proof.
  intros (k & E & <- & H). unfold tags, shown_text. rewrite E. split; [done|].
  specialize (H []). by rewrite !app_nil_r in H.
Qed.

#[export] Hint Resolve piece_nil piece_esc piece_board_esc piece_int piece_value piece_plain : markup.

Lemma piece_if (b : bool) m x y m' ts tx ty :
  piece m x m' ts tx → piece m y m' ts ty →
  piece m (if b then x else y) m' ts (if b then tx else ty).
Proof. by destruct b. Qed.
Lemma piece_if_same (b : bool) m x y m' ts tx :
  piece m x m' ts tx → piece m y m' ts tx → piece m (if b then x else y) m' ts tx.
Proof. by destruct b. Qed.

Lemma piece_eq m s m' ts ts' tx tx' :
  piece m s m' ts tx → ts = ts' → tx = tx' → piece m s m' ts' tx'.
Proof. by intros H <- <-. Qed.

(** A concatenation part by part: data by the lemmas, fixed markup by
    computation. *)
Ltac piece_fix := apply piece_fixed; vm_compute; reflexivity.
Ltac piece_one :=
  first [ assumption | solve [eauto with markup nocore] | piece_fix
        | apply piece_if_same; [piece_fix|piece_fix]
        | apply piece_if; piece_one ].
Ltac pieces :=
  lazymatch goal with
  | |- piece _ (_ ++ _) _ _ _ => eapply piece_app; [piece_one|pieces]
  | |- _ => piece_one
  end.

(** ** Properties *)


Lemma has_csrf_add token f : post_form f = true → has_csrf (add_csrf token f) = true.
Proof.
  intros Hp. unfold add_csrf. rewrite Hp. destruct (has_csrf f) eqn:E; [done|].
  unfold has_csrf. simpl. by rewrite existsb_app, orb_true_r.
Qed.

Lemma post_form_add token f : post_form (add_csrf token f) = post_form f.
Proof. unfold add_csrf. destruct (post_form f) eqn:E; [|done]. by destruct (has_csrf f). Qed.

(** Every form that posts carries a token afterwards; a form that had one,
    or does not post, is untouched; doing it again changes nothing. *)
Theorem inject_csrf_spec meta forms i f :
  forms !! i = Some f →
  ∃ f', inject_csrf meta forms !! i = Some f' ∧
    (post_form f = true → has_csrf f' = true) ∧
    (post_form f = false ∨ has_csrf f = true → f' = f) ∧
    (post_form f = true → has_csrf f = false →
       f' = Form (f_method f) (f_inputs f ++ [Input (js "csrf") (csrfToken meta) true])) ∧
    inject_csrf meta (inject_csrf meta forms) = inject_csrf meta forms.
Proof.
  intros Hf. exists (add_csrf (csrfToken meta) f). unfold inject_csrf.
  split; [change (map ?g) with (fmap (M:=list) g); by rewrite list_lookup_fmap, Hf|].
  split; [apply has_csrf_add|]. split.
  { unfold add_csrf. intros [-> | ->]; [done|]. by destruct (post_form f). }
  split; [by unfold add_csrf; intros -> ->|].
  rewrite map_map. apply map_ext. intros g.
  unfold add_csrf at 1. rewrite post_form_add. destruct (post_form g) eqn:E; [|done].
  by rewrite has_csrf_add.
Qed.

(** ** A page with three forms *)

Definition demo_forms : list form :=
  [Form (js "post") [Input (js "name") (js "qwen") false];
   Form (js "GET") [Input (js "q") [] false];
   Form (js "POST") [Input (js "csrf") (js "old") true]].

Lemma inject_csrf_spec_witness :
  demo_forms !! 0%nat = Some (Form (js "post") [Input (js "name") (js "qwen") false]) ∧
  (has_csrf <$> (inject_csrf (Some (Some (js "t0k"))) demo_forms !! 0%nat)) = Some true.
Proof.
  split; [reflexivity|].
  destruct (inject_csrf_spec (Some (Some (js "t0k"))) demo_forms 0
    (Form (js "post") [Input (js "name") (js "qwen") false]) eq_refl) as (f' & E & H & _).
  rewrite E. cbn. rewrite H; [reflexivity|vm_compute; reflexivity].
Defined.
