(* ===== verification/QueueBoard.v ===== *)
(** * The live queue board of the dashboard

    app.js lines 721-769: [queueBoard] with its own escaping ([Html.board_esc]),
    the labels of the job states, the markup of one board, and the loop that
    asks for it every second.  The answer of [/admin/queues/live] is taken as
    the records the Go side encodes ([domain.QueueView]); a list that is null or
    missing is the empty one. *)

From S2P Require Import Prelude JsString JsValue Html.
Open Scope Z_scope.

(** ** Data *)

Record step := Step {
  st_alias : jstr; st_provider : jstr; st_busy : Z; st_cap : Z; st_percent : Z; st_healthy : bool;
}.
Record qjob := QJob {
  qj_seq : Z; qj_status : jstr; qj_model : jstr; qj_backend : jstr; qj_provider : jstr;
  qj_key_prefix : jstr; qj_preview : jstr;
}.
Record queue := Queue {
  q_name : jstr; q_alias : jstr; q_waiting : Z; q_running : Z;
  q_steps : list step; q_jobs : list qjob;
}.

(** ** Drawing (lines 731-760) *)

Definition labels : list (jstr * jstr) :=
  [(js "waiting", js "ждет"); (js "running", js "идёт"); (js "done", js "готово");
   (js "error", js "ошибка"); (js "dropped", js "сброшен"); (js "overflow", js "запас");
   (js "canceled", js "отмена")].

(** A name [Object.prototype] provides gives the text of a built-in, which is
    the engine's. *)
Definition stLabel (builtin : jstr → jstr) (s : jstr) : jstr :=
  match obj_get s labels with
  | Own t => t
  | Inherited => builtin s
  | Absent => s
  end.

Definition lane (s : step) : jstr :=
  let full := negb (st_cap s =? 0) && (st_cap s <=? st_busy s) in
  html "<div class='q-lane" ++ (if full then js " is-full" else []) ++
  (if st_healthy s then [] else js " is-down") ++ html "'>" ++
  html "<div class='q-lane-h'>" ++ board_esc (st_alias s) ++ html "</div>" ++
  html "<div class='q-lane-p'>" ++ board_esc (s_or (st_provider s) (js "—")) ++
  (if st_healthy s then [] else js " · нет связи") ++ html "</div>" ++
  html "<div class='q-bar'><span style='width:" ++ of_int (st_percent s) ++ html "%'></span></div>" ++
  html "<div class='q-lane-n'>" ++ of_int (st_busy s) ++ html "/" ++ of_int (st_cap s) ++
  html "</div></div>".

Definition job_where (j : qjob) : jstr :=
  if bool_decide (qj_status j = js "waiting") then js "в очереди"
  else board_esc (js_join (js " · ")
         (List.filter truthy_s [qj_provider j; qj_backend j; qj_model j])).

Definition job_row (builtin : jstr → jstr) (j : qjob) : jstr :=
  let prev := match qj_preview j with
              | [] => []
              | p => html "<span class='q-prev'>" ++ board_esc p ++ html "</span>"
              end in
  html "<li><span class='seq'>#" ++ of_int (qj_seq j) ++ html "</span><span class='st-" ++
  board_esc (qj_status j) ++ html "'>" ++ stLabel builtin (qj_status j) ++ html "</span>" ++
  prev ++ html "<span>" ++ job_where j ++ html "</span><span class='muted'>" ++ qj_key_prefix j ++
  html "</span></li>".

Definition queue_card (builtin : jstr → jstr) (q : queue) : jstr :=
  let lanes := concat (map lane (q_steps q)) in
  let jobs := concat (map (job_row builtin) (take 12 (q_jobs q))) in
  html "<article class='q-card'><div class='q-title'><span class='host-name'>" ++
  board_esc (q_name q) ++ html "</span> <code>" ++ board_esc (q_alias q) ++ html "</code>" ++
  html "<span class='pill'>ждет " ++ of_int (q_waiting q) ++
  html "</span><span class='pill ram'>идёт " ++ of_int (q_running q) ++ html "</span></div>" ++
  html "<div class='q-lanes'>" ++ s_or lanes (html "<p class='muted'>нет шагов</p>") ++ html "</div>" ++
  match jobs with [] => [] | _ => html "<ul class='q-jobs'>" ++ jobs ++ html "</ul>" end ++
  html "</article>".

Definition board_empty : jstr :=
  html "<p class='muted'>Очередь пуста. Создайте её на вкладке «Очереди».</p>".
Definition render_board (builtin : jstr → jstr) (qs : list queue) : jstr :=
  match qs with [] => board_empty | _ => concat (map (queue_card builtin) qs) end.

(** ** The loop (lines 761-768)

    The board's markup, the requests under way and the timers set; an answer
    is drawn, a failure (of the request or of reading it) is ignored, and
    either way the next request is a second later. *)
Record board := Board { bd_html : jstr; bd_requests : nat; bd_timers : nat }.

Inductive bevent : Type :=
  | BAnswer (qs : list queue)
  | BFailure
  | BTimer.

Definition board_tick (b : board) : board := Board (bd_html b) (S (bd_requests b)) (bd_timers b).

Definition board_step (builtin : jstr → jstr) (b : board) (e : bevent) : board :=
  match e with
  | BAnswer qs =>
    match bd_requests b with
    | O => b
    | S n => Board (render_board builtin qs) n (S (bd_timers b))
    end
  | BFailure =>
    match bd_requests b with
    | O => b
    | S n => Board (bd_html b) n (S (bd_timers b))
    end
  | BTimer =>
    match bd_timers b with
    | O => b
    | S n => board_tick (Board (bd_html b) (bd_requests b) n)
    end
  end.

Definition board_start (html0 : jstr) : board := board_tick (Board html0 0 0).

(** ** What the board shows *)










(** ** Properties *)


(** The loop neither stops nor doubles: after every sequence of answers,
    failures and timers there is one request under way or one timer set. *)
Lemma board_loop builtin html0 es :
  let b := foldl (board_step builtin) (board_start html0) es in
  (bd_requests b + bd_timers b)%nat = 1%nat.
Proof.
  assert (∀ b, (bd_requests b + bd_timers b)%nat = 1%nat →
            (let b := foldl (board_step builtin) b es in bd_requests b + bd_timers b)%nat = 1%nat) as H.
  { induction es as [|e es IH]; intros b Hb; [done|]. cbn. apply IH.
    destruct b as [h [|[|r]] [|[|t]]], e; cbn in *; lia. }
  by apply H.
Qed.

(** ** A board *)




(** The key prefix is not escaped: markup in it becomes markup of the page. *)
Example key_prefix_unescaped :
  js "script" ∈ tags (render_board id [Queue [] [] 0 1 []
    [QJob 1 (js "running") [] [] [] (js "<script>") []]]).
Proof. apply (bool_decide_unpack _). vm_compute. exact I. Qed.
