(* ===== verification/LogFilters.v ===== *)
(** * The log page: filters kept in the address

    app.js lines 348-433: [logFilters] (reading the controls from the query
    string, filtering the rows, writing the query string back) and the name
    filter of the key list.  The page has all six controls; a select is its
    options and the selected index. *)

From S2P Require Import Prelude JsString JsNumber JsValue JsJson Uri Controls.
Open Scope Z_scope.

(** ** [URLSearchParams] *)

Definition query := list (jstr * jstr).

Definition pair_text (e : jstr * jstr) : jstr := form_encode e.1 ++ [61] ++ form_encode e.2.
Definition query_text (l : query) : jstr := js_join [38] (map pair_text l).

(** A piece between ampersands: its name and value around the first "=". *)
Fixpoint cut_eq (s : jstr) : jstr * jstr :=
  match s with
  | [] => ([], [])
  | c :: t => if c =? 61 then ([], t) else let '(a, b) := cut_eq t in (c :: a, b)
  end.
Definition parse_query (s : jstr) : query :=
  let s := match s with c :: t => if c =? 63 then t else s | [] => [] end in
  map (λ p, let '(a, b) := cut_eq p in (form_decode a, form_decode b))
    (List.filter truthy_s (split_on 38 s)).

(** ** The page *)

Record sel := Sel { s_options : list jstr; s_index : nat }.
Definition sel_value (s : sel) : jstr := default [] (s_options s !! s_index s).
(** [setSel] (lines 360-365). *)
Definition setSel (s : sel) (v : option jstr) : sel :=
  match v with
  | Some (c :: t) =>
    match option_index (c :: t) (s_options s) with Some i => Sel (s_options s) i | None => s end
  | _ => s
  end.

Record log_row := LogRow {
  l_q : option jstr; l_kind : option jstr; l_model : option jstr; l_backend : option jstr;
  l_key : option jstr; l_ms : option jstr; l_hidden : bool;
}.

Record controls := Controls {
  k_q : jstr; k_status : sel; k_model : sel; k_backend : sel; k_key : sel; k_ms : sel;
}.

Record logs := Logs {
  lg_controls : controls;
  lg_rows : list log_row;
  lg_count : jstr;
  lg_empty : bool;          (* the note for no matches is shown *)
  lg_search : jstr;         (* [location.search] *)
}.

Definition attr_is (a : option jstr) (v : jstr) : bool := bool_decide (a = Some v).
Definition row_ms (r : log_row) : Z := default 0 (parseInt (s_or (default [] (l_ms r)) (js "0"))).

Section WithFold.
Context `{CaseFold}.

(** The test of one row (lines 380-392). *)
Definition row_ok (k : controls) (r : log_row) : bool :=
  let q := toLowerCase (trim (k_q k)) in
  let pick (s : sel) (a : option jstr) := negb (truthy_s (sel_value s)) || attr_is a (sel_value s) in
  let ms := sel_value (k_ms k) in
  let n := row_ms r in
  (negb (truthy_s q) || includes q (toLowerCase (default [] (l_q r)))) &&
  pick (k_status k) (l_kind r) && pick (k_model k) (l_model r) && pick (k_backend k) (l_backend r) &&
  pick (k_key k) (l_key r) &&
  negb (bool_decide (ms = js "fast") && (100 <=? n)) &&
  negb (bool_decide (ms = js "mid") && ((n <? 100) || (1000 <=? n))) &&
  negb (bool_decide (ms = js "slow") && (n <? 1000)).

(** The query string of the controls (lines 398-405). *)
Definition controls_query (k : controls) : query :=
  let opt (name : string) (v : jstr) := if truthy_s v then [(js name, v)] else [] in
  (if truthy_s (toLowerCase (trim (k_q k))) then [(js "q", trim (k_q k))] else []) ++
  opt "status" (sel_value (k_status k)) ++ opt "model" (sel_value (k_model k)) ++
  opt "backend" (sel_value (k_backend k)) ++ opt "key" (sel_value (k_key k)) ++
  opt "ms" (sel_value (k_ms k)).
Definition search_text (l : query) : jstr :=
  match query_text l with [] => [] | t => [63] ++ t end.

Definition mark (k : controls) (r : log_row) : log_row :=
  LogRow (l_q r) (l_kind r) (l_model r) (l_backend r) (l_key r) (l_ms r) (negb (row_ok k r)).
Definition of_text (vis total : nat) : jstr :=
  of_int (Z.of_nat vis) ++ js " из " ++ of_int (Z.of_nat total).

Definition apply (p : logs) : logs :=
  let k := lg_controls p in
  let rows := map (mark k) (lg_rows p) in
  let vis := length (List.filter (λ r, negb (l_hidden r)) rows) in
  let total := length rows in
  Logs k rows (of_text vis total) (negb (bool_decide (0 < vis)%nat || bool_decide (total = 0%nat)))
    (search_text (controls_query k)).

(** The start of the page (lines 359-371, 421): controls from the address. *)
Definition get_param (name : string) (l : query) : option jstr := assoc (js name) l.
Definition read_controls (l : query) (k : controls) : controls :=
  Controls (match get_param "q" l with Some (c :: t) => text_value (c :: t) | _ => k_q k end)
    (setSel (k_status k) (get_param "status" l)) (setSel (k_model k) (get_param "model" l))
    (setSel (k_backend k) (get_param "backend" l)) (setSel (k_key k) (get_param "key" l))
    (setSel (k_ms k) (get_param "ms" l)).
Definition open_logs (p : logs) : logs :=
  apply (Logs (read_controls (parse_query (lg_search p)) (lg_controls p)) (lg_rows p)
           (lg_count p) (lg_empty p) (lg_search p)).

(** The listeners (lines 408-412): the user has changed a control. *)
Definition change_control (k : controls) (p : logs) : logs :=
  apply (Logs k (lg_rows p) (lg_count p) (lg_empty p) (lg_search p)).

(** The clear button (lines 415-419). *)
Definition first_option (s : sel) : sel := Sel (s_options s) 0.
Definition clear_click (p : logs) : logs :=
  let k := lg_controls p in
  apply (Logs (Controls [] (first_option (k_status k)) (first_option (k_model k))
                 (first_option (k_backend k)) (first_option (k_key k)) (first_option (k_ms k)))
           (lg_rows p) (lg_count p) (lg_empty p) (lg_search p)).

(** ** The key list (lines 424-433): the rows that stay visible. *)
Definition key_hidden (filter name : jstr) : bool :=
  let q := toLowerCase (trim filter) in
  truthy_s q && negb (includes q (toLowerCase name)).
End WithFold.

(** ** Proofs *)

Definition safe_unit (c : Z) : bool := negb (bool_decide (c ∈ [38; 61; 63])).
Lemma form_encode_safe s : units s → Forall (λ c, safe_unit c = true) (form_encode s).
Proof.
  intros Hs. apply Forall_bind. eapply Forall_impl; [by apply utf8_bytes|]. intros b Hb.
  pose proof (byte_check (λ b, forallb safe_unit (form_unit b)) ltac:(vm_compute; reflexivity) b Hb) as H.
  rewrite forallb_forall in H. apply Forall_forall. intros c Hc%list_elem_of_In. by apply H.
Qed.

Lemma safe_not c s : safe_unit c = false → Forall (λ c, safe_unit c = true) s → c ∉ s.
Proof. intros Hc Hs Hin. rewrite Forall_forall in Hs. by rewrite Hs in Hc. Qed.

Lemma cut_eq_pair a b : 61 ∉ a → cut_eq (a ++ 61 :: b) = (a, b).
Proof.
  induction a as [|c a IH]; intros Ha; simpl; [done|].
  rewrite (proj2 (Z.eqb_neq c 61)) by set_solver. by rewrite IH by set_solver.
Qed.

Definition query_ok (l : query) : Prop := Forall (λ e, text_ok e.1 ∧ text_ok e.2) l.

Lemma pair_text_no_amp e : units e.1 → units e.2 → 38 ∉ pair_text e.
Proof.
  intros H1 H2. unfold pair_text. rewrite !elem_of_app, list_elem_of_singleton.
  pose proof (safe_not 38 _ eq_refl (form_encode_safe _ H1)).
  pose proof (safe_not 38 _ eq_refl (form_encode_safe _ H2)). naive_solver.
Qed.

Lemma parse_pairs l :
  query_ok l → map (λ p, let '(a, b) := cut_eq p in (form_decode a, form_decode b)) (map pair_text l) = l.
Proof.
  induction 1 as [|[a b] l [Ha Hb] _ IH]; [done|]. simpl in *. rewrite IH. f_equal.
  unfold pair_text. simpl.
  rewrite cut_eq_pair by (apply (safe_not 61 _ eq_refl), form_encode_safe, Ha).
  by rewrite !form_text.
Qed.

Lemma query_head l : query_ok l → match query_text l with c :: _ => c ≠ 63 | [] => True end.
Proof.
  destruct 1 as [|[a b] l [Ha Hb] _]; [done|]. unfold query_text. simpl.
  assert (H : match pair_text (a, b) with c :: _ => c ≠ 63 | [] => False end).
  { unfold pair_text. simpl. destruct (form_encode a) as [|c t] eqn:E; [done|]. simpl. intros ->.
    apply (safe_not 63 (form_encode a) eq_refl); [apply form_encode_safe, Ha|]. rewrite E. set_solver. }
  destruct (pair_text (a, b)) as [|c t]; [done|]. by destruct (map pair_text l).
Qed.

Lemma query_round_trip l : query_ok l → parse_query (search_text l) = l.
Proof.
  intros Hl. pose proof (query_head l Hl) as Hh.
  assert (Hp : List.filter truthy_s (split_on 38 (query_text l)) = map pair_text l).
  { destruct l as [|e l]; [done|]. unfold query_text. rewrite split_join; [|done|].
    - clear. induction (e :: l) as [|[a b] k IH]; [done|]. cbn [map List.filter]. rewrite IH.
      unfold pair_text. simpl. by destruct (form_encode a).
    - apply Forall_fmap. eapply Forall_impl; [exact Hl|]. intros x [[] []]. by apply pair_text_no_amp. }
  unfold parse_query, search_text. destruct (query_text l) as [|c t] eqn:E.
  - rewrite Hp. by apply parse_pairs.
  - cbn [app]. rewrite Z.eqb_refl, Hp. by apply parse_pairs.
Qed.

(** *** Reading the controls back *)

(** A select as the server writes it: distinct options, the first one empty,
    and one of them chosen. *)
Record sel_ok (s : sel) : Prop := {
  so_first : s_options s !! 0%nat = Some [];
  so_distinct : NoDup (s_options s);
  so_chosen : (s_index s < length (s_options s))%nat;
  so_text : Forall text_ok (s_options s);
}.

Lemma sel_value_text s : sel_ok s → text_ok (sel_value s).
Proof.
  intros [? ? Hc Ht]. destruct (lookup_lt_is_Some_2 _ _ Hc) as [v Hv].
  unfold sel_value. rewrite Hv. simpl. by eapply Forall_lookup_1.
Qed.

(** The value of a select, put back into the fresh select, chooses the same
    option; the empty value is not written, and is the first option. *)
Lemma setSel_value s : sel_ok s →
  setSel (first_option s) (if truthy_s (sel_value s) then Some (sel_value s) else None) = s.
Proof.
  intros [Hf Hn Hc Ht]. destruct (lookup_lt_is_Some_2 _ _ Hc) as [v Hv].
  unfold sel_value. rewrite Hv. simpl. destruct s as [opts i]. simpl in *.
  destruct v as [|c t]; simpl.
  - unfold first_option. simpl. f_equal. by eapply NoDup_lookup.
  - by rewrite (option_index_lookup (c :: t) opts i).
Qed.

(** The controls as the user can leave them. *)
Record controls_ok (k : controls) : Prop := {
  ko_q : text_ok (trim (k_q k)); ko_nl : 10 ∉ trim (k_q k); ko_cr : 13 ∉ trim (k_q k);
  ko_status : sel_ok (k_status k); ko_model : sel_ok (k_model k);
  ko_backend : sel_ok (k_backend k); ko_key : sel_ok (k_key k); ko_ms : sel_ok (k_ms k);
}.

(** The controls of a page just opened, before the address is read. *)
Definition fresh_controls (k : controls) : controls :=
  Controls [] (first_option (k_status k)) (first_option (k_model k))
    (first_option (k_backend k)) (first_option (k_key k)) (first_option (k_ms k)).

Definition opt_pair (b : bool) (name : string) (v : jstr) : query :=
  if b then [(js name, v)] else [].

Lemma get_param_here n b v l :
  get_param n (opt_pair b n v ++ l) = if b then Some v else get_param n l.
Proof. unfold get_param, opt_pair. destruct b; [|done]. simpl. by rewrite bool_decide_true. Qed.
Lemma get_param_skip n m b v l :
  js n ≠ js m → get_param n (opt_pair b m v ++ l) = get_param n l.
Proof.
  intros Hn. unfold get_param, opt_pair. destruct b; [|done]. simpl.
  by rewrite bool_decide_false by congruence.
Qed.

Lemma text_name (n : string) : forallb (λ c, (0 <=? c) && (c <? 128)) (js n) = true → text_ok (js n).
Proof.
  intros Hn. assert (Ha : Forall (λ c, 0 <= c < 128) (js n)).
  { apply Forall_forall. intros c Hc%list_elem_of_In. rewrite forallb_forall in Hn.
    specialize (Hn c Hc). lia. }
  split; [by eapply Forall_impl; [exact Ha|simpl; lia]|].
  unfold paired. clear Hn. induction Ha as [|c s Hc _ IH]; [simpl; set_solver|].
  cbn [code_points]. assert (is_high c = false ∧ is_low c = false) as [-> ->] by (unfold is_high, is_low; lia).
  intros [?|?]%elem_of_cons; done.
Qed.

Lemma opt_pair_ok b n v :
  forallb (λ c, (0 <=? c) && (c <? 128)) (js n) = true → text_ok v → query_ok (opt_pair b n v).
Proof.
  intros Hn Hv. unfold query_ok, opt_pair. destruct b; [|done].
  constructor; [|done]. split; [by apply text_name|done].
Qed.

Section Reload.
Context `{CaseFold}.

Definition q_used (k : controls) : bool := truthy_s (toLowerCase (trim (k_q k))).

Lemma controls_query_pairs k :
  controls_query k =
    opt_pair (q_used k) "q" (trim (k_q k)) ++
    opt_pair (truthy_s (sel_value (k_status k))) "status" (sel_value (k_status k)) ++
    opt_pair (truthy_s (sel_value (k_model k))) "model" (sel_value (k_model k)) ++
    opt_pair (truthy_s (sel_value (k_backend k))) "backend" (sel_value (k_backend k)) ++
    opt_pair (truthy_s (sel_value (k_key k))) "key" (sel_value (k_key k)) ++
    opt_pair (truthy_s (sel_value (k_ms k))) "ms" (sel_value (k_ms k)) ++ [].
Proof. unfold controls_query. by rewrite app_nil_r. Qed.

Ltac params :=
  repeat first [rewrite get_param_here | rewrite get_param_skip by (vm_compute; congruence)].

Lemma query_params k :
  let l := controls_query k in
  get_param "q" l = (if q_used k then Some (trim (k_q k)) else None) ∧
  (∀ n s, (n, s) ∈ [("status"%string, k_status k); ("model"%string, k_model k);
                    ("backend"%string, k_backend k); ("key"%string, k_key k); ("ms"%string, k_ms k)] →
     get_param n l = if truthy_s (sel_value s) then Some (sel_value s) else None).
Proof.
  cbv zeta. rewrite controls_query_pairs. split.
  - params. by destruct (q_used k).
  - intros n s Hin. repeat (apply elem_of_cons in Hin as [[= -> ->]|Hin]); [..|by inversion Hin];
      params; reflexivity.
Qed.

Lemma controls_query_ok k : controls_ok k → query_ok (controls_query k).
Proof.
  intros []. rewrite controls_query_pairs. unfold query_ok.
  rewrite !Forall_app. split_and!; [..|constructor];
    (apply opt_pair_ok; [vm_compute; reflexivity|]); [assumption|by apply sel_value_text..].
Qed.

(** The controls a page opened on that address starts with. *)
Definition kept (k : controls) : controls :=
  Controls (if q_used k then trim (k_q k) else []) (k_status k) (k_model k) (k_backend k) (k_key k) (k_ms k).

Lemma read_controls_kept k :
  controls_ok k → read_controls (parse_query (search_text (controls_query k))) (fresh_controls k) = kept k.
Proof.
  intros Hk. rewrite query_round_trip by (by apply controls_query_ok).
  destruct (query_params k) as [Hq Hs]. destruct Hk.
  unfold read_controls, kept. rewrite Hq.
  rewrite (Hs "status"%string (k_status k)), (Hs "model"%string (k_model k)), (Hs "backend"%string (k_backend k)),
    (Hs "key"%string (k_key k)), (Hs "ms"%string (k_ms k)) by set_solver.
  unfold fresh_controls. cbn. rewrite !setSel_value by done. f_equal.
  destruct (q_used k) eqn:E; [|done]. destruct (trim (k_q k)) as [|c t] eqn:Et; [done|].
  change (text_value (c :: t) = c :: t). by apply text_value_id.
Qed.

(** Folding the empty string gives the empty string. *)
Context (fold_nil : toLowerCase [] = []).

Lemma kept_q k : toLowerCase (trim (k_q (kept k))) = toLowerCase (trim (k_q k)).
Proof using fold_nil.
  unfold kept, q_used. simpl. destruct (truthy_s _) eqn:E.
  - by rewrite trim_idem.
  - change (trim []) with (@nil Z). rewrite fold_nil. by destruct (toLowerCase (trim (k_q k))).
Qed.

Lemma kept_row k r : row_ok (kept k) r = row_ok k r.
Proof using fold_nil. unfold row_ok. rewrite kept_q. done. Qed.

Lemma kept_query k : controls_query (kept k) = controls_query k.
Proof using fold_nil.
  rewrite !controls_query_pairs. unfold q_used at 1. rewrite kept_q. fold (q_used k).
  unfold kept. simpl. destruct (q_used k) eqn:E; [|done]. by rewrite trim_idem.
Qed.

Lemma map_mark_eq k k' l : (∀ r, row_ok k r = row_ok k' r) → map (mark k) l = map (mark k') l.
Proof. intros He. apply map_ext. intros r. unfold mark. by rewrite He. Qed.

(** C12: the address keeps the filters: opening the log page again on the address
    the page wrote shows the same rows, the same count and note, and writes
    the same address. *)
Theorem reload_keeps_filters p c e :
  controls_ok (lg_controls p) →
  let p1 := apply p in
  let p2 := open_logs (Logs (fresh_controls (lg_controls p)) (lg_rows p) c e (lg_search p1)) in
  lg_rows p2 = lg_rows p1 ∧ lg_count p2 = lg_count p1 ∧ lg_empty p2 = lg_empty p1 ∧
  lg_search p2 = lg_search p1 ∧ lg_controls p2 = kept (lg_controls p1).
Proof using fold_nil.
  intros Hk. cbv zeta. unfold open_logs. cbn [lg_controls lg_rows lg_search lg_count lg_empty apply].
  rewrite read_controls_kept by done. unfold apply. cbn [lg_controls lg_rows lg_search lg_count lg_empty].
  rewrite (map_mark_eq (kept _) (lg_controls p)) by (intros r; apply kept_row).
  by rewrite kept_query.
Qed.

(** The clear button shows every row: all are counted, the note for no
    matches is hidden, and the address carries no query. *)
Theorem clear_shows_all p :
  Forall (λ s, s_options s !! 0%nat = Some [])
    [k_status (lg_controls p); k_model (lg_controls p); k_backend (lg_controls p);
     k_key (lg_controls p); k_ms (lg_controls p)] →
  let p' := clear_click p in
  Forall (λ r, l_hidden r = false) (lg_rows p') ∧
  lg_count p' = of_text (length (lg_rows p)) (length (lg_rows p)) ∧
  lg_empty p' = false ∧ lg_search p' = [].
Proof using fold_nil.
  intros Hf. repeat (apply Forall_cons in Hf as [? Hf]).
  unfold clear_click. destruct (lg_controls p) as [q s1 s2 s3 s4 s5]. cbn in *.
  set (k := Controls _ _ _ _ _ _).
  assert (Hv : ∀ s, s_options s !! 0%nat = Some [] → sel_value (first_option s) = []).
  { intros s Hs. unfold sel_value, first_option. simpl. by rewrite Hs. }
  assert (Hok : ∀ r, row_ok k r = true).
  { intros r. unfold row_ok, k. cbn [k_q k_status k_model k_backend k_key k_ms]. rewrite !Hv by done.
    change (trim []) with (@nil Z). rewrite fold_nil. done. }
  assert (Hall : Forall (λ r, l_hidden r = false) (map (mark k) (lg_rows p))).
  { apply Forall_fmap, Forall_true. intros r. cbn. by rewrite Hok. }
  unfold apply. cbn [lg_controls lg_rows lg_count lg_empty lg_search].
  assert (Hlen : length (List.filter (λ r, negb (l_hidden r)) (map (mark k) (lg_rows p))) = length (lg_rows p)).
  { rewrite <- (length_map (mark k) (lg_rows p)). f_equal. clear -Hall.
    induction Hall as [|r l Hr _ IH]; [done|]. cbn. rewrite Hr. cbn. by f_equal. }
  rewrite Hlen, length_map. split_and!; [done|done| |].
  - destruct (length (lg_rows p)) eqn:E; [done|]. by rewrite bool_decide_true by lia.
  - unfold search_text. rewrite controls_query_pairs. unfold q_used, k.
    cbn [k_q k_status k_model k_backend k_key k_ms]. rewrite !Hv by done.
    change (trim []) with (@nil Z). rewrite fold_nil. done.
Qed.
End Reload.

(** *** The latency choices *)

Definition with_ms (v : jstr) (k : controls) : controls :=
  Controls (k_q k) (k_status k) (k_model k) (k_backend k) (k_key k) (Sel [v] 0).

(** The three latency choices divide the rows: a row the other filters let
    through is shown by exactly one of "fast", "mid" and "slow". *)
Theorem latency_bands `{CaseFold} k r :
  let ok v := row_ok (with_ms v k) r in
  ok [] = ok (js "fast") || ok (js "mid") || ok (js "slow") ∧
  ok (js "fast") && ok (js "mid") = false ∧ ok (js "fast") && ok (js "slow") = false ∧
  ok (js "mid") && ok (js "slow") = false.
Proof.
  cbv zeta. unfold row_ok, with_ms. cbn [k_q k_status k_model k_backend k_key k_ms].
  set (rest := (_ || includes _ _) && (_ || _) && (_ || _) && (_ || _) && (_ || _)). generalize (row_ms r). clearbody rest. intros n.
  change (sel_value (Sel [?v] 0)) with v. js_decide.
  destruct rest, (Z.ltb_spec n 100), (Z.leb_spec 100 n), (Z.ltb_spec n 1000), (Z.leb_spec 1000 n);
    try lia; done.
Qed.

(** ** Witnesses *)

#[global] Instance sel_ok_dec s : Decision (sel_ok s).
Proof.
  refine (cast_if (decide (s_options s !! 0%nat = Some [] ∧ NoDup (s_options s) ∧
                           (s_index s < length (s_options s))%nat ∧ Forall text_ok (s_options s))));
    first [by destruct_and!; constructor | by intros []; naive_solver].
Defined.

Definition demo_controls : controls :=
  Controls (js " Ключ ") (Sel [[]; js "2"; js "4"; js "5"] 1) (Sel [[]; js "a b&c=d"] 1)
    (Sel [[]; js "cpu"] 0) (Sel [[]; js "ночь"] 1) (Sel [[]; js "fast"; js "mid"; js "slow"] 2).
Definition demo_row (kind ms : string) : log_row :=
  LogRow (Some (js "мой ключ")) (Some (js kind)) (Some (js "a b&c=d")) (Some (js "cpu"))
    (Some (js "ночь")) (Some (js ms)) false.
Definition demo_logs : logs :=
  Logs demo_controls [demo_row "2" "150"; demo_row "5" "150"; demo_row "2" "1500"] [] true [].

Example demo_address :
  lg_search (apply (H := AsciiCyrillicFold) demo_logs) =
    js "?q=%D0%9A%D0%BB%D1%8E%D1%87&status=2&model=a+b%26c%3Dd&key=%D0%BD%D0%BE%D1%87%D1%8C&ms=mid" ∧
  map l_hidden (lg_rows (apply (H := AsciiCyrillicFold) demo_logs)) = [false; true; true] ∧
  lg_count (apply (H := AsciiCyrillicFold) demo_logs) = js "1 из 3".
Proof. vm_compute. done. Qed.

Lemma demo_controls_ok : controls_ok demo_controls.
Proof. constructor; apply (bool_decide_unpack _); vm_compute; exact I. Qed.

Lemma reload_keeps_filters_witness :
  let p1 := apply (H := AsciiCyrillicFold) demo_logs in
  let p2 := open_logs (H := AsciiCyrillicFold)
              (Logs (fresh_controls demo_controls) (lg_rows demo_logs) [] true (lg_search p1)) in
  lg_rows p2 = lg_rows p1 ∧ lg_count p2 = lg_count p1 ∧ lg_empty p2 = lg_empty p1 ∧
  lg_search p2 = lg_search p1 ∧ lg_controls p2 = kept (H := AsciiCyrillicFold) (lg_controls p1).
Proof.
  exact (reload_keeps_filters (H := AsciiCyrillicFold) eq_refl demo_logs [] true demo_controls_ok).
Defined.

Lemma clear_shows_all_witness :
  lg_search (clear_click (H := AsciiCyrillicFold) demo_logs) = [].
Proof.
  apply (clear_shows_all (H := AsciiCyrillicFold) eq_refl demo_logs).
  apply (bool_decide_unpack _). vm_compute. exact I.
Defined.
