(* ===== verification/Forms.v ===== *)
(** * Small form behaviours

    app.js lines 20-92: the form whose fields depend on the chosen kind, the
    boxes that reveal a section, the copy buttons and their timers, and the
    choice of a server's model in the alias form. *)

From S2P Require Import Prelude JsString.
Open Scope Z_scope.

(** ** Fields by kind (lines 20-33) *)

Record kind_field := KindField { kf_for : option jstr; kf_hidden : bool }.

Definition kinds_of (f : kind_field) : list jstr := split_ws (default [] (kf_for f)).
Definition sync_kind_field (k : jstr) (f : kind_field) : kind_field :=
  KindField (kf_for f) (negb (bool_decide (k ∈ kinds_of f))).
(** A form is the value of its select and the fields; without a select nothing
    is synchronised. *)
Record kind_form := KindForm { kd_kind : option jstr; kd_fields : list kind_field }.
Definition sync_kind_form (f : kind_form) : kind_form :=
  match kd_kind f with
  | Some k => KindForm (Some k) (map (sync_kind_field k) (kd_fields f))
  | None => f
  end.
Definition choose_kind (k : jstr) (f : kind_form) : kind_form :=
  match kd_kind f with Some _ => sync_kind_form (KindForm (Some k) (kd_fields f)) | None => f end.

(** ** Revealed sections (lines 35-43)

    A box names a section by a selector; [None] when no element matches. *)
Definition reveal_hidden (checked : bool) (section : option bool) : option bool :=
  match section with Some _ => Some (negb checked) | None => None end.

(** ** Copy buttons (lines 57-79)

    The text of the button and the timers that will put a saved text back:
    when each is due and what it saved. *)
Record copy_btn := CopyBtn { cb_text : jstr; cb_timers : list (Z * jstr) }.

Definition copied_text : jstr := js "Скопировано".
(** [ok] at time [now]. *)
Definition copied (now : Z) (b : copy_btn) : copy_btn :=
  CopyBtn copied_text (cb_timers b ++ [(now + 1500, cb_text b)]).
(** The timers that are due at [now] run in order. *)
Fixpoint run_timers (now : Z) (l : list (Z * jstr)) (text : jstr) : copy_btn :=
  match l with
  | (due, old) :: l' => if due <=? now then run_timers now l' old else CopyBtn text l
  | [] => CopyBtn text []
  end.
Definition wait_until (now : Z) (b : copy_btn) : copy_btn := run_timers now (cb_timers b) (cb_text b).

(** Clicks at the given times, then time goes on to [till]. *)
Fixpoint copy_clicks (times : list Z) (till : Z) (b : copy_btn) : copy_btn :=
  match times with
  | [] => wait_until till b
  | t :: l => copy_clicks l till (copied t (wait_until t b))
  end.

(** ** The server's model in the alias form (lines 81-92) *)

Record upstream_opt := UpOpt { uo_value : jstr; uo_backends : option jstr }.
Record upstream_form := UpForm {
  uf_alias : jstr; uf_placeholder : jstr;
  uf_boxes : list (jstr * bool);       (* value and checked *)
}.
Definition upstream_change (o : upstream_opt) (f : upstream_form) : upstream_form :=
  let ids := split_on 44 (default [] (uo_backends o)) in
  UpForm (uf_alias f) (if truthy_s (uf_alias f) then uf_placeholder f else uo_value o)
    (map (λ b, (b.1, bool_decide (b.1 ∈ ids))) (uf_boxes f)).

(** ** Proofs *)

Lemma run_timers_none now l text : Forall (λ e, now < e.1) l → run_timers now l text = CopyBtn text l.
Proof. destruct 1 as [|[due old] l H _]; [done|]. simpl in *. by rewrite (proj2 (Z.leb_gt due now)). Qed.

Lemma last_irrel {A} (l : list A) x d e : List.last (x :: l) d = List.last (x :: l) e.
Proof. revert x. induction l as [|y l IH]; intros x; [done|]. apply (IH y). Qed.
Lemma last_cons_default {A} (l : list A) x d : List.last (x :: l) d = List.last l x.
Proof. destruct l as [|y l]; [done|]. apply (last_irrel l y). Qed.

Lemma run_timers_all now l text :
  Forall (λ e, e.1 <= now) l → run_timers now l text = CopyBtn (List.last (map snd l) text) [].
Proof.
  intros H. revert text. induction H as [|[due old] l H _ IH]; intros text; [done|].
  simpl in H. cbn [run_timers map snd]. rewrite (proj2 (Z.leb_le due now)) by done.
  by rewrite IH, last_cons_default.
Qed.

(** Times of clicks at least [gap] apart and before [till]. *)
Fixpoint spaced (gap : Z) (times : list Z) (till : Z) : Prop :=
  match times with
  | [] => True
  | t :: l => match l with [] => t + gap <= till | u :: _ => t + gap <= u end ∧ spaced gap l till
  end.

Definition settled (text : jstr) (b : copy_btn) (now : Z) : Prop :=
  cb_text b = text ∧ cb_timers b = [] ∨ ∃ due, cb_timers b = [(due, text)] ∧ due <= now.

Lemma wait_settled text b now : settled text b now → wait_until now b = CopyBtn text [].
Proof.
  unfold wait_until. intros [[<- ->]|(due & -> & H)]; [done|]. simpl.
  by rewrite (proj2 (Z.leb_le due now)).
Qed.

Lemma settled_clicks text times till b :
  spaced 1500 times till → settled text b (match times with [] => till | t :: _ => t end) →
  copy_clicks times till b = CopyBtn text [].
Proof.
  revert b. induction times as [|t l IH]; intros b Hs Hb; cbn [copy_clicks]; [by apply wait_settled|].
  rewrite (wait_settled text) by done. destruct Hs as [Ht Hs]. apply IH; [done|].
  right. exists (t + 1500). split; [done|]. by destruct l.
Qed.

(** Clicks at least a second and a half apart: the button gets its own text
    back. *)
Theorem copy_label_restored text times till :
  spaced 1500 times till → copy_clicks times till (CopyBtn text []) = CopyBtn text [].
Proof. intros Hs. apply settled_clicks; [done|]. by left. Qed.

(** C40: a second click within a second and a half saves the confirmation as the
    button's text: it stays for good, however long one waits and whatever is
    clicked later. *)
Theorem copy_label_stuck text t u times till :
  t <= u < t + 1500 → spaced 1500 (u :: times) till →
  copy_clicks (t :: u :: times) till (CopyBtn text []) = CopyBtn copied_text [].
Proof.
  intros Hu [Hv Hs]. cbn [copy_clicks]. unfold wait_until at 2. cbn [cb_timers cb_text run_timers].
  unfold copied at 2. cbn [cb_timers cb_text app].
  unfold wait_until. cbn [cb_timers cb_text]. rewrite run_timers_none by (repeat constructor; simpl; lia).
  unfold copied. cbn [cb_timers cb_text app].
  assert (Hnow : ∀ now, u + 1500 <= now →
    wait_until now (CopyBtn copied_text [(t + 1500, text); (u + 1500, copied_text)]) = CopyBtn copied_text []).
  { intros now Hn. unfold wait_until. by rewrite run_timers_all by (repeat constructor; simpl; lia). }
  destruct times as [|v l]; cbn [copy_clicks]; rewrite Hnow by done; [done|].
  pose proof (settled_clicks copied_text (v :: l) till (CopyBtn copied_text [])) as H.
  cbn [copy_clicks] in H. rewrite (wait_settled copied_text) in H by (by left). apply H; [exact Hs|by left].
Qed.

(** Choosing a server's model ticks exactly the servers that offer it, and
    leaves an alias the user has typed as it is. *)
Theorem upstream_change_spec o ids f :
  uo_backends o = Some (js_join [44] ids) → ids ≠ [] → Forall (λ i, 44 ∉ i) ids →
  uf_boxes (upstream_change o f) = map (λ b, (b.1, bool_decide (b.1 ∈ ids))) (uf_boxes f) ∧
  uf_alias (upstream_change o f) = uf_alias f.
Proof. intros Ho Hne Hids. unfold upstream_change. rewrite Ho. cbn [from_option id uf_boxes uf_alias]. by rewrite split_join. Qed.

(** Words: no white space, not empty. *)
Definition word (w : jstr) : Prop := w ≠ [] ∧ Forall (λ c, is_ws c = false) w.

Lemma split_ws_word b w : word w → split_ws_aux b w = [w].
Proof.
  intros [Hn Hw]. revert b Hn. induction Hw as [|c w Hc Hw IH]; intros b Hn; [done|].
  cbn [split_ws_aux]. rewrite Hc. destruct w as [|d w]; [done|]. by rewrite IH.
Qed.

Lemma split_ws_first b w s : word w → split_ws_aux b (w ++ 32 :: s) = w :: split_ws_aux true s.
Proof.
  intros [Hn Hw]. revert b Hn. induction Hw as [|c w Hc Hw IH]; intros b Hn; [done|].
  cbn [app split_ws_aux]. rewrite Hc. destruct w as [|d w]; [done|]. by rewrite IH.
Qed.

Lemma split_ws_join ks : ks ≠ [] → Forall word ks → split_ws (js_join [32] ks) = ks.
Proof.
  intros Hne H. unfold split_ws. generalize false.
  induction H as [|w ks Hw Hks IH]; intros b; [done|].
  destruct ks as [|v ks]; [by apply split_ws_word|]. cbn [js_join app].
  rewrite split_ws_first by done. by rewrite IH.
Qed.

(** The fields of a form by kind: after the choice of a kind a field is
    hidden exactly when its list of kinds does not name the chosen one. *)
Theorem kind_fields_spec k0 k fields ks i f :
  fields !! i = Some f → kf_for f = Some (js_join [32] ks) → ks ≠ [] → Forall word ks →
  kd_fields (choose_kind k (KindForm (Some k0) fields)) !! i =
    Some (KindField (kf_for f) (negb (bool_decide (k ∈ ks)))).
Proof.
  intros Hi Hf Hne Hks. cbn [choose_kind kd_kind kd_fields sync_kind_form].
  pose proof (list_lookup_fmap (sync_kind_field k) fields i) as He. rewrite Hi in He.
  etransitivity; [exact He|]. cbn. f_equal. unfold sync_kind_field, kinds_of.
  rewrite Hf. cbn [from_option id]. by rewrite split_ws_join.
Qed.

(** ** Witnesses *)

Lemma copy_label_restored_witness :
  copy_clicks [0; 1500; 4000] 9000 (CopyBtn (js "Копировать") []) = CopyBtn (js "Копировать") [].
Proof. apply (copy_label_restored (js "Копировать") [0; 1500; 4000] 9000). simpl. lia. Defined.

Lemma copy_label_stuck_witness :
  copy_clicks [0; 700; 5000] 90000 (CopyBtn (js "Копировать") []) = CopyBtn copied_text [].
Proof. apply (copy_label_stuck (js "Копировать") 0 700 [5000] 90000); simpl; lia. Defined.

Lemma upstream_change_spec_witness :
  uf_boxes (upstream_change (UpOpt (js "llama3") (Some (js_join [44] [js "3"; js "7"])))
    (UpForm [] [] [(js "3", false); (js "5", true); (js "7", false)])) =
  [(js "3", true); (js "5", false); (js "7", true)].
Proof.
  destruct (upstream_change_spec (UpOpt (js "llama3") (Some (js_join [44] [js "3"; js "7"])))
    [js "3"; js "7"] (UpForm [] [] [(js "3", false); (js "5", true); (js "7", false)])) as [H _];
    [done|done| |rewrite H; vm_compute; reflexivity].
  apply (bool_decide_unpack _). vm_compute. exact I.
Defined.

Lemma kind_fields_spec_witness :
  kd_fields (choose_kind (js "pii") (KindForm (Some (js "regex"))
    [KindField (Some (js_join [32] [js "regex"; js "pii"])) true])) !! 0%nat =
  Some (KindField (Some (js "regex pii")) false).
Proof.
  rewrite (kind_fields_spec (js "regex") (js "pii")
    [KindField (Some (js_join [32] [js "regex"; js "pii"])) true] [js "regex"; js "pii"] 0
    (KindField (Some (js_join [32] [js "regex"; js "pii"])) true));
    [vm_compute; reflexivity|done..|].
  unfold word. apply (bool_decide_unpack _). vm_compute. exact I.
Defined.
