(* ===== verification/BackendKind.v ===== *)
(** * The form that adds a server

    app.js lines 435-536: what the choice of a server kind does to the address,
    its placeholder, the hint and the token field ([kindMeta], [knownURLs],
    [syncKind]), and the placeholder of the pull form.

    The kind comes from a select whose options are the eight of the page's
    template; the address and the token fields are in the same template, so
    the tests for their presence are true. *)

From S2P Require Import Prelude JsString JsValue.
Open Scope Z_scope.

(** ** Data *)

Record kind_meta := KindMeta { m_url : jstr; m_hint : jstr; m_token : bool; m_fill : bool }.

Definition meta_ollama : kind_meta :=
  KindMeta (js "http://192.168.88.82:11434")
    (js "Локальный Ollama: pull, load/unload и удаление файла — из админки.") false false.
Definition kindMeta : list (jstr * kind_meta) :=
  [(js "ollama", meta_ollama);
   (js "vllm", KindMeta (js "http://192.168.88.82:8000")
      (js "vLLM не меняет модель через API. На сервере: vllm serve <HuggingFace-id> --host 0.0.0.0 --port 8000.") false false);
   (js "lmstudio", KindMeta (js "http://192.168.88.82:1234")
      (js "LM Studio: включите локальный сервер (Developer). Pull и load/unload — из админки.") false false);
   (js "openrouter", KindMeta (js "https://openrouter.ai/api/v1")
      (js "Прямое облако. API-ключ с openrouter.ai/keys. Свой GPU-сервер не нужен.") true true);
   (js "ollama-cloud", KindMeta (js "https://ollama.com")
      (js "Только облачные модели ollama.com, без локального Ollama. Ключ: ollama.com/settings/keys.") true true);
   (js "opencomfy", KindMeta (js "http://192.168.88.252:8788")
      (js "ComfyUI через OpenComfy (картинки и видео). URL без /v1. Ключ sk- из keys.yaml OpenComfy.") true false);
   (js "codex", KindMeta (js "https://chatgpt.com/backend-api/codex")
      (js "Подписка ChatGPT. На компьютере: codex login, затем вставьте сюда файл ~/.codex/auth.json. Токен остаётся на этом узле. Alias можно включить в hub — соседи токен не увидят.") true true);
   (js "grok", KindMeta (js "https://cli-chat-proxy.grok.com/v1")
      (js "Подписка SuperGrok. На компьютере: grok login, затем вставьте сюда файл ~/.grok/auth.json. Токен остаётся на этом узле. Alias можно включить в hub — соседи токен не увидят.") true true)].
Definition knownURLs : list jstr :=
  [js "http://192.168.88.82:11434"; js "http://192.168.88.82:8000"; js "http://192.168.88.82:1234";
   js "https://openrouter.ai/api/v1"; js "https://ollama.com"; js "http://192.168.88.252:8788";
   js "https://chatgpt.com/backend-api/codex"; js "https://cli-chat-proxy.grok.com/v1"].

(** [knownURLs[cur]] is a property lookup: it also finds what every object
    inherits. *)
Definition known (u : jstr) : bool :=
  match obj_get u (map (λ k, (k, 1)) knownURLs) with Absent => false | _ => true end.

Definition meta_of (kind : jstr) : kind_meta := default meta_ollama (assoc kind kindMeta).

Record kind_page := KindPage {
  kp_kind : jstr; kp_url : jstr; kp_placeholder : jstr; kp_hint : jstr;
  kp_required : bool; kp_label : jstr;
}.

(** ** Operations *)

Definition syncKind (p : kind_page) : kind_page :=
  let meta := meta_of (kp_kind p) in
  let cur := strip_last 47 (kp_url p) in
  let url :=
    if negb (truthy_s cur) || known cur then
      if m_fill meta then m_url meta else if known cur then [] else kp_url p
    else kp_url p in
  KindPage (kp_kind p) url (m_url meta) (m_hint meta) (m_token meta)
    (if m_token meta then js "API-ключ (обязательно)" else js "Токен (необязательно)").

(** What the user can do: choose a kind, or type an address. *)
Inductive kind_event := EvKind (k : jstr) | EvUrl (u : jstr).
Definition kind_step (p : kind_page) (e : kind_event) : kind_page :=
  match e with
  | EvKind k =>
    syncKind (KindPage k (kp_url p) (kp_placeholder p) (kp_hint p) (kp_required p) (kp_label p))
  | EvUrl u => KindPage (kp_kind p) u (kp_placeholder p) (kp_hint p) (kp_required p) (kp_label p)
  end.

(** The pull form (lines 520-536): the kind of the chosen server, if any. *)
Definition pull_placeholder (kind : option jstr) : jstr :=
  if bool_decide (kind = Some (js "lmstudio"))
  then js "ibm/granite-4-micro или huggingface.co/…" else js "llama3.2 или qwen3.8:27b-mlx".

(** ** Proofs *)

(** The rest of the form agrees with the chosen kind. *)
Record in_step (p : kind_page) : Prop := {
  st_placeholder : kp_placeholder p = m_url (meta_of (kp_kind p));
  st_hint : kp_hint p = m_hint (meta_of (kp_kind p));
  st_required : kp_required p = m_token (meta_of (kp_kind p));
  st_label : kp_label p =
    (if kp_required p then js "API-ключ (обязательно)" else js "Токен (необязательно)");
}.

Lemma syncKind_in_step p : in_step (syncKind p).
Proof. by constructor. Qed.
Lemma kind_step_in_step p e : in_step p → in_step (kind_step p e).
Proof. destruct e; [intros _; apply syncKind_in_step|]. intros []. by constructor. Qed.
Lemma kind_run_in_step es p : in_step p → in_step (foldl kind_step p es).
Proof. revert p. induction es as [|e es IH]; intros p Hp; [done|]. by apply IH, kind_step_in_step. Qed.

(** An address of the user's own: not blank and none of the known ones, with
    or without a slash at its end. *)
Definition own_url (u : jstr) : Prop := strip_last 47 u ≠ [] ∧ known (strip_last 47 u) = false.

Lemma syncKind_own p : own_url (kp_url p) → kp_url (syncKind p) = kp_url p.
Proof.
  intros [Hn Hk]. cbn [syncKind kp_url]. rewrite Hk.
  by rewrite (proj2 (truthy_s_spec _) Hn).
Qed.

Definition is_kind_event (e : kind_event) : bool := match e with EvKind _ => true | _ => false end.

Lemma kinds_keep_own es p :
  own_url (kp_url p) → forallb is_kind_event es = true → kp_url (foldl kind_step p es) = kp_url p.
Proof.
  revert p. induction es as [|e es IH]; intros p Hp Hes; [done|].
  cbn [forallb] in Hes. apply andb_prop in Hes as [He Hes]. destruct e as [k|u]; [|done].
  cbn [foldl kind_step].
  pose proof (syncKind_own (KindPage k (kp_url p) (kp_placeholder p) (kp_hint p) (kp_required p) (kp_label p)) Hp) as Hu.
  rewrite IH; [exact Hu| |done]. by rewrite Hu.
Qed.

(** C23: the server form stays in step with the kind: after the page's start and
    any choices and typing, the placeholder, hint, token rule and label are
    those of the chosen kind; and an address of the user's own survives every
    change of kind. *)
Theorem kind_form_follows p es k ks u :
  own_url u → forallb is_kind_event ks = true →
  let p1 := foldl kind_step (syncKind p) (es ++ [EvUrl u] ++ ks ++ [EvKind k]) in
  in_step p1 ∧ kp_kind p1 = k ∧ kp_url p1 = u.
Proof.
  intros Hu Hks. cbv zeta. split; [apply kind_run_in_step, syncKind_in_step|].
  rewrite foldl_app. set (p0 := foldl kind_step _ es). split.
  - rewrite app_assoc, foldl_app. done.
  - cbn [app foldl]. rewrite kinds_keep_own; [done|done|].
    rewrite forallb_app, Hks. done.
Qed.

(** Every preset is known, and no preset is blank or ends in a slash. *)
Lemma presets_known k : known (m_url (meta_of k)) = true ∧ strip_last 47 (m_url (meta_of k)) = m_url (meta_of k).
Proof.
  unfold meta_of. assert (H : ∀ l, Forall (λ e, known (m_url e.2) = true ∧ strip_last 47 (m_url e.2) = m_url e.2) l →
    let m := default meta_ollama (assoc k l) in known (m_url m) = true ∧ strip_last 47 (m_url m) = m_url m).
  { induction 1 as [|[k' m] l Hm _ IH]; [vm_compute; done|]. cbn [assoc].
    destruct (bool_decide _); [exact Hm|exact IH]. }
  apply H. apply (bool_decide_unpack _). vm_compute. exact I.
Qed.

(** What a change of kind does with an address that is not the user's own:
    a cloud kind puts its own address there, any other kind leaves no preset
    of an earlier kind behind, so a preset never stays with a kind that is not
    its own. *)
Theorem preset_never_stale p k :
  ¬ own_url (kp_url p) →
  let p' := kind_step p (EvKind k) in
  if m_fill (meta_of k) then kp_url p' = m_url (meta_of k) else strip_last 47 (kp_url p') = [].
Proof.
  intros Hn. cbn [kind_step syncKind kp_url kp_kind]. set (cur := strip_last 47 (kp_url p)).
  assert (Hc : negb (truthy_s cur) || known cur = true).
  { destruct (known cur) eqn:E; [by rewrite orb_true_r|]. destruct cur as [|c t] eqn:Ec; [done|].
    destruct Hn. unfold own_url. fold cur. rewrite Ec. done. }
  rewrite Hc. destruct (m_fill (meta_of k)); [done|].
  destruct (known cur) eqn:E; [done|]. destruct cur as [|c t] eqn:Ec; [done|]. done.
Qed.

(** A known address the user typed for a server on that very machine is
    cleared, and so is a word that every object inherits. *)
Example typed_preset_cleared :
  kp_url (kind_step (KindPage (js "ollama") (js "http://192.168.88.82:8000/") [] [] false []) (EvKind (js "vllm"))) = [] ∧
  kp_url (kind_step (KindPage (js "ollama") (js "constructor") [] [] false []) (EvKind (js "vllm"))) = [].
Proof. vm_compute. done. Qed.

(** ** Witnesses *)

Lemma own_url_dec u : Decision (own_url u).
Proof. unfold own_url. apply _. Defined.
#[global] Existing Instance own_url_dec.

Definition demo_kind_page : kind_page := KindPage (js "ollama") [] [] [] false [].

Lemma kind_form_follows_witness :
  kp_url (foldl kind_step (syncKind demo_kind_page)
    ([EvKind (js "codex")] ++ [EvUrl (js "http://10.0.0.5:8000/")] ++ [EvKind (js "grok")] ++ [EvKind (js "vllm")])) =
  js "http://10.0.0.5:8000/".
Proof.
  apply (kind_form_follows demo_kind_page [EvKind (js "codex")] (js "vllm") [EvKind (js "grok")]
    (js "http://10.0.0.5:8000/")); [apply (bool_decide_unpack _); vm_compute; exact I|reflexivity].
Defined.

Lemma preset_never_stale_witness :
  kp_url (kind_step (syncKind (KindPage (js "codex") [] [] [] false [])) (EvKind (js "grok"))) =
  js "https://cli-chat-proxy.grok.com/v1".
Proof.
  pose proof (preset_never_stale (syncKind (KindPage (js "codex") [] [] [] false [])) (js "grok")) as H.
  rewrite H; [vm_compute; reflexivity|]. apply (bool_decide_unpack _). vm_compute. exact I.
Defined.
