(* ===== verification/Pwa.v ===== *)
(** * The install button

    pwa.js: the browser offers an installation (beforeinstallprompt), the page
    keeps the offer and shows its button; a click shows the offer's prompt and
    drops it when the user has chosen.  The browser's events come in any
    order: they are the steps of the model.  Offers are numbered as they
    come. *)

From S2P Require Import Prelude.

(** [deferred], whether the button is hidden, the prompts shown and the
    prompts whose [userChoice] is still open. *)
Record pwa := Pwa {
  deferred : option nat;
  btn_hidden : bool;
  prompted : list nat;
  choosing : list nat;
}.

(** The page as the template writes it (pwa.js line 6). *)
Definition pwa_start : pwa := Pwa None true [] [].

Inductive pwa_event :=
  | BeforeInstallPrompt (e : nat)
  | AppInstalled
  | InstallClick
  | UserChoice (e : nat).

Definition before_install (e : nat) (p : pwa) : pwa := Pwa (Some e) false (prompted p) (choosing p).
Definition app_installed (p : pwa) : pwa := Pwa None true (prompted p) (choosing p).
Definition install_click (p : pwa) : pwa :=
  match deferred p with
  | Some e => Pwa (Some e) (btn_hidden p) (prompted p ++ [e]) (choosing p ++ [e])
  | None => p
  end.
(** The [finally] of one click's choice. *)
Definition user_choice (e : nat) (p : pwa) : pwa :=
  Pwa None true (prompted p) (List.remove Nat.eq_dec e (choosing p)).

Inductive pwa_step : pwa → pwa_event → pwa → Prop :=
  | step_offer p e : e ∉ prompted p → deferred p ≠ Some e →
      pwa_step p (BeforeInstallPrompt e) (before_install e p)
  | step_installed p : pwa_step p AppInstalled (app_installed p)
  | step_click p : btn_hidden p = false → pwa_step p InstallClick (install_click p)
  | step_choice p e : e ∈ choosing p → pwa_step p (UserChoice e) (user_choice e p).

Inductive pwa_run : pwa → list pwa_event → pwa → Prop :=
  | run_nil p : pwa_run p [] p
  | run_cons p e q es r : pwa_step p e q → pwa_run q es r → pwa_run p (e :: es) r.

(** ** Proofs *)

(** The button is shown exactly while there is an offer to show. *)
Definition shown_with_offer (p : pwa) : Prop := btn_hidden p = negb (bool_decide (is_Some (deferred p))).

Lemma pwa_step_shown p e q : pwa_step p e q → shown_with_offer p → shown_with_offer q.
Proof.
  unfold shown_with_offer. intros [? ?|?|p0 ?|? ?] Hp; cbn; try done.
  unfold install_click. destruct p0 as [[o|] h pr ch]; exact Hp.
Qed.

(** Whatever the browser and the user do, the install button is visible
    exactly when the page holds an offer, so a click on it always asks the
    browser for that offer's prompt. *)
Theorem install_button_live p es q :
  shown_with_offer p → pwa_run p es q →
  shown_with_offer q ∧
  (btn_hidden q = false → ∃ e, deferred q = Some e ∧ prompted (install_click q) = prompted q ++ [e]).
Proof.
  intros Hp Hr. assert (Hq : shown_with_offer q) by (induction Hr; eauto using pwa_step_shown).
  split; [done|]. intros Hh. unfold shown_with_offer in Hq. rewrite Hh in Hq.
  unfold install_click. destruct (deferred q) as [e|] eqn:E; [by exists e|].
  by rewrite bool_decide_false in Hq by (by intros [? ?]).
Qed.

(** An offer that comes while the user is still choosing on the previous one
    is lost: when that choice ends, the new offer is dropped and the button
    is hidden with nothing shown for it. *)
Theorem late_offer_lost p e e' :
  deferred p = Some e → btn_hidden p = false → e' ∉ e :: prompted p →
  ∃ q, pwa_run p [InstallClick; BeforeInstallPrompt e'; UserChoice e] q ∧
    deferred q = None ∧ btn_hidden q = true ∧ e' ∉ prompted q.
Proof.
  intros He Hh Hn. exists (user_choice e (before_install e' (install_click p))).
  assert (Hc : install_click p = Pwa (Some e) false (prompted p ++ [e]) (choosing p ++ [e]))
    by (unfold install_click; by rewrite He, Hh).
  split_and!; try done.
  - econstructor; [by apply step_click|]. rewrite Hc. econstructor.
    + apply step_offer; cbn; [set_solver|]. intros [= ->]. set_solver.
    + econstructor; [|constructor]. apply step_choice. cbn. set_solver.
  - rewrite Hc. cbn. set_solver.
Qed.

(** ** Witnesses *)

Lemma install_button_live_witness :
  shown_with_offer (before_install 0 pwa_start).
Proof.
  apply (install_button_live pwa_start [BeforeInstallPrompt 0] (before_install 0 pwa_start)); [done|].
  econstructor; [apply step_offer; [set_solver|done]|constructor].
Defined.

Lemma late_offer_lost_witness : ∃ q,
  pwa_run (before_install 0 pwa_start) [InstallClick; BeforeInstallPrompt 1; UserChoice 0] q ∧
  deferred q = None ∧ btn_hidden q = true ∧ 1 ∉ prompted q.
Proof.
  apply (late_offer_lost (before_install 0 pwa_start) 0 1); [done|done|].
  apply (bool_decide_unpack _). vm_compute. exact I.
Defined.
