(* ===== verification/AliasDialog.v ===== *)
(** * The settings dialog of an alias

    app.js lines 1918-2068: opening the dialog on an alias (from the data
    attributes of its row), the provider and model selects with the servers
    that follow them, the temperature field and its slider, closing, and the
    question before an alias is removed.

    The template always writes every data attribute and every control of the
    dialog, so an attribute is a text ([""] when it has nothing to say) and the
    tests for missing elements are true.  A field's entries are what the
    browser submits for it: nothing when it is disabled. *)

From S2P Require Import Prelude JsString JsNumber Controls.
Open Scope Z_scope.

(** ** Data *)

(** An option of the model select: [u_off] is both [hidden] and [disabled],
    [u_extra] is its mark [data-extra]. *)
Record uopt := UOpt {
  u_value : jstr; u_provider : jstr; u_backends : jstr; u_extra : bool; u_off : bool;
}.
Record uselect := USelect { us_options : list uopt; us_index : option nat }.

(** The data attributes of an alias's button. *)
Record alias_data := AliasData {
  d_id : jstr; d_alias : jstr; d_upstream : jstr; d_provider : jstr; d_backends : jstr;
  d_context : jstr; d_detected : jstr; d_fallback : jstr; d_cache : jstr; d_lb : jstr;
  d_hubShare : jstr; d_remote : jstr; d_system : jstr; d_think : jstr; d_temp : jstr;
  d_predict : jstr; d_ctx : jstr; d_extra : jstr; d_lockThink : jstr; d_lockTemp : jstr;
  d_lockPredict : jstr; d_lockCtx : jstr;
}.

(** The dialog.  A select with fixed options is its chosen value ([None] when
    none is); [a_provs] and [a_fbs] are the options of the provider and
    fallback selects, the latter with their [disabled]. *)
Record dialog := Dialog {
  a_action : jstr; a_title : jstr; a_alias : jstr; a_readonly : bool;
  a_local_off : bool;                 (* #as-local hidden, its controls disabled *)
  a_remote_hidden : bool;
  a_provs : list jstr; a_prov : option jstr;
  a_up : uselect;
  a_boxes : list (jstr * bool);
  a_lb : option jstr; a_hub : bool;
  a_context : jstr; a_ctx_hint : jstr;
  a_fbs : list (jstr * bool); a_fb : option jstr;
  a_cache : option jstr; a_think : option jstr;
  a_temp : jstr; a_range : jstr; a_unset : bool;
  a_predict : jstr; a_ctx : jstr; a_extra : jstr;
  a_lock_think : bool; a_lock_temp : bool; a_lock_predict : bool; a_lock_ctx : bool;
  a_del_action : jstr; a_del_hidden : bool; a_open : bool;
}.

(** The options the template writes. *)
Definition lb_options : list jstr := map js ["least_conn"; "round_robin"; "failover"]%string.
Definition cache_options : list jstr := map js ["inherit"; "off"; "auto"; "on"]%string.
Definition think_options : list jstr := map js [""; "false"; "low"; "medium"; "high"; "max"; "true"]%string.

(** ** The model select *)

(** Selecting by value, and the value selected. *)
Definition us_set (v : jstr) (s : uselect) : uselect :=
  USelect (us_options s) (option_index v (map u_value (us_options s))).
Definition us_chosen (s : uselect) : option uopt := us_index s ≫= λ i, us_options s !! i.
Definition us_value (s : uselect) : jstr := default [] (u_value <$> us_chosen s).

(** When options come or go and none is selected, the browser selects the
    first one that is not disabled. *)
Fixpoint first_enabled (l : list uopt) : option nat :=
  match l with
  | [] => None
  | o :: t => if u_off o then S <$> first_enabled t else Some 0%nat
  end.
Definition us_reset (s : uselect) : uselect :=
  match us_index s with Some _ => s | None => USelect (us_options s) (first_enabled (us_options s)) end.

(** The place of the option at [i] once the marked ones are gone. *)
Fixpoint index_without (i : nat) (l : list uopt) : option nat :=
  match l with
  | [] => None
  | o :: t =>
    match i with
    | O => if u_extra o then None else Some 0%nat
    | S j => (if u_extra o then id else S) <$> index_without j t
    end
  end.
Definition drop_extra (s : uselect) : uselect :=
  us_reset (USelect (List.filter (λ o, negb (u_extra o)) (us_options s))
              (us_index s ≫= λ i, index_without i (us_options s))).

Definition ensureOption (name provider backends : jstr) (s : uselect) : uselect :=
  if negb (truthy_s name) then s else
  let s := drop_extra s in
  if bool_decide (name ∈ map u_value (us_options s)) then s else
  us_reset (USelect (us_options s ++ [UOpt name provider backends true false]) (us_index s)).

Definition of_provider (prov : jstr) (o : uopt) : bool :=
  negb (truthy_s prov) || bool_decide (u_provider o = prov).
Definition filter_option (prov : jstr) (o : uopt) : uopt :=
  if truthy_s (u_value o)
  then UOpt (u_value o) (u_provider o) (u_backends o) (u_extra o) (negb (of_provider prov o))
  else o.
Definition usable (o : uopt) : bool := truthy_s (u_value o) && negb (u_off o).

Definition filterUpstream (prov preferred : jstr) (s : uselect) : uselect :=
  let keep := s_or preferred (us_value s) in
  let s := USelect (map (filter_option prov) (us_options s)) (us_index s) in
  if existsb (λ o, bool_decide (u_value o = keep) && negb (u_off o)) (us_options s)
  then us_set keep s
  else match List.find usable (us_options s) with Some o => us_set (u_value o) s | None => s end.

(** ** The other parts *)

Definition backend_ids (csv : jstr) : list jstr := List.filter truthy_s (map trim (split_on 44 csv)).
Definition setBackends (csv : jstr) (boxes : list (jstr * bool)) : list (jstr * bool) :=
  map (λ b, (b.1, bool_decide (b.1 ∈ backend_ids csv))) boxes.
Definition syncBackendsFromUpstream (s : uselect) (boxes : list (jstr * bool)) : list (jstr * bool) :=
  match us_chosen s with Some o => setBackends (u_backends o) boxes | None => boxes end.

Definition setRadio (v : jstr) : option jstr := choose_value v think_options.
Definition lock_on (v : jstr) : bool := bool_decide (v = js "true").

(** The fallback select: the alias itself cannot be chosen. *)
Definition fallback_options (alias : jstr) (l : list (jstr * bool)) : list (jstr * bool) :=
  map (λ o, (o.1, truthy_s o.1 && bool_decide (o.1 = alias))) l.
Definition choose_fallback (v : jstr) (l : list (jstr * bool)) : option jstr :=
  match choose_value v (map fst l) with
  | Some w => Some w
  | None => if truthy_s v then choose_value [] (map fst l) else None
  end.

Definition ctx_hint (detected : jstr) : jstr :=
  if truthy_s detected && negb (bool_decide (detected = js "0"))
  then js "0 — взять с сервера (" ++ detected ++ js ")." else js "0 — взять с сервера.".

Section WithRange.
(** What the slider (0 to 2 in steps of 0.05) makes of a number put into it. *)
Variable range_value : jstr → jstr.

(** [syncTempFromNum]: the slider and its mark, from the number field. *)
Definition temp_slider (temp : jstr) : jstr * bool :=
  let v := trim temp in
  (range_value (if truthy_s v then v else js "0"), negb (truthy_s v)).

(** ** Operations *)

Definition open_dialog (d : alias_data) (p : dialog) : dialog :=
  let remote := bool_decide (d_remote d = js "1") in
  let system := bool_decide (d_system d = js "1") in
  let prov := if remote then a_prov p else choose_value (d_provider d) (a_provs p) in
  let up := if remote then a_up p else
    filterUpstream (default [] prov) (d_upstream d)
      (ensureOption (d_upstream d) (d_provider d) (d_backends d) (a_up p)) in
  let fbs := fallback_options (d_alias d) (a_fbs p) in
  let temp := number_value (d_temp d) in
  Dialog (js "/admin/models/" ++ d_id d ++ js "/settings") (d_alias d) (text_value (d_alias d)) system
    remote (negb remote) (a_provs p) prov up
    (if remote then a_boxes p else setBackends (d_backends d) (a_boxes p))
    (if remote then a_lb p else choose_value (s_or (d_lb d) (js "least_conn")) lb_options)
    (if remote then a_hub p else bool_decide (d_hubShare d = js "1"))
    (number_value (s_or (d_context d) (js "0"))) (ctx_hint (d_detected d))
    fbs (choose_fallback (d_fallback d) fbs)
    (choose_value (s_or (d_cache d) (js "inherit")) cache_options) (setRadio (d_think d))
    temp (temp_slider temp).1 (temp_slider temp).2
    (number_value (d_predict d)) (number_value (d_ctx d)) (area_value (d_extra d))
    (lock_on (d_lockThink d)) (lock_on (d_lockTemp d)) (lock_on (d_lockPredict d)) (lock_on (d_lockCtx d))
    (js "/admin/models/" ++ d_id d ++ js "/delete") system true.

Definition with_up (prov : option jstr) (up : uselect) (boxes : list (jstr * bool)) (p : dialog) : dialog :=
  Dialog (a_action p) (a_title p) (a_alias p) (a_readonly p) (a_local_off p) (a_remote_hidden p)
    (a_provs p) prov up boxes (a_lb p) (a_hub p) (a_context p) (a_ctx_hint p) (a_fbs p) (a_fb p)
    (a_cache p) (a_think p) (a_temp p) (a_range p) (a_unset p) (a_predict p) (a_ctx p) (a_extra p)
    (a_lock_think p) (a_lock_temp p) (a_lock_predict p) (a_lock_ctx p) (a_del_action p) (a_del_hidden p)
    (a_open p).

(** The user chooses a provider, or a model by its place. *)
Definition provider_change (v : jstr) (p : dialog) : dialog :=
  let up := filterUpstream v [] (a_up p) in
  with_up (Some v) up (syncBackendsFromUpstream up (a_boxes p)) p.

(** Removing: the question, and whether the form goes out. *)
Definition delete_question (p : dialog) : jstr :=
  js "Убрать «" ++ s_or (a_alias p) (s_or (a_title p) (js "alias")) ++
  js "» из шлюза? Файл на сервере останется.".
Definition delete_submit (answer : bool) (p : dialog) : option jstr :=
  if answer then Some (a_del_action p) else None.
End WithRange.

(** ** What Save sends (models.html lines 225-324) *)

Definition entry (n : string) (v : jstr) : list (jstr * jstr) := [(js n, v)].
Definition opt_entry (n : string) (v : option jstr) : list (jstr * jstr) :=
  match v with Some v => entry n v | None => [] end.
Definition check_entry (n : string) (v : jstr) (on : bool) : list (jstr * jstr) :=
  if on then entry n v else [].

Definition up_entry (s : uselect) : list (jstr * jstr) :=
  match us_chosen s with
  | Some o => if u_off o then [] else entry "upstream_name" (u_value o)
  | None => []
  end.
Definition box_entries (boxes : list (jstr * bool)) : list (jstr * jstr) :=
  boxes ≫= λ b, check_entry "backend_id" b.1 b.2.
Definition fb_entry (p : dialog) : list (jstr * jstr) :=
  match a_fb p with
  | Some v => if bool_decide ((v, true) ∈ a_fbs p) then [] else entry "fallback" v
  | None => []
  end.

Definition form_entries (p : dialog) : list (jstr * jstr) :=
  entry "alias" (a_alias p) ++
  (if a_local_off p then [] else
     up_entry (a_up p) ++ box_entries (a_boxes p) ++ opt_entry "lb_policy" (a_lb p) ++
     check_entry "hub_share" (js "1") (a_hub p)) ++
  entry "max_context" (a_context p) ++ fb_entry p ++ opt_entry "prompt_cache" (a_cache p) ++
  check_entry "lock" (js "think") (a_lock_think p) ++ opt_entry "think" (a_think p) ++
  check_entry "lock" (js "temperature") (a_lock_temp p) ++ entry "temperature" (a_temp p) ++
  entry "num_predict" (a_predict p) ++ entry "num_ctx" (a_ctx p) ++
  check_entry "lock" (js "num_predict") (a_lock_predict p) ++
  check_entry "lock" (js "num_ctx") (a_lock_ctx p) ++ entry "extra" (a_extra p).

(** ** Proofs *)

Lemma u_value_filter prov o : u_value (filter_option prov o) = u_value o.
Proof. unfold filter_option. by destruct (truthy_s (u_value o)). Qed.
Lemma u_values_filter prov l : map u_value (map (filter_option prov) l) = map u_value l.
Proof. rewrite map_map. apply map_ext. intros o. apply u_value_filter. Qed.


Lemma elem_of_map_iff {A B} (f : A → B) l y : y ∈ map f l ↔ ∃ x, y = f x ∧ x ∈ l.
Proof. exact (list_elem_of_fmap f l y). Qed.


Lemma options_drop_extra s : us_options (drop_extra s) = List.filter (λ o, negb (u_extra o)) (us_options s).
Proof. unfold drop_extra, us_reset. by destruct (us_index _ ≫= _). Qed.

(** The options after [ensureOption]: the page's own, and one of the wanted
    name. *)
Lemma ensureOption_options name prov backends s :
  name ≠ [] →
  let own := List.filter (λ o, negb (u_extra o)) (us_options s) in
  us_options (ensureOption name prov backends s) =
    if bool_decide (name ∈ map u_value own) then own else own ++ [UOpt name prov backends true false].
Proof.
  intros Hn. cbv zeta. unfold ensureOption. rewrite (proj2 (truthy_s_spec name)) by done. cbn [negb].
  rewrite options_drop_extra. destruct (bool_decide_reflect (name ∈ map u_value (List.filter (λ o, negb (u_extra o)) (us_options s)))).
  - apply options_drop_extra.
  - unfold us_reset. cbn [us_index]. destruct (us_index (drop_extra s)); cbn [us_options]; done.
Qed.

Definition own_options (s : uselect) : list uopt := List.filter (λ o, negb (u_extra o)) (us_options s).




Lemma choose_value_in v l : v ∈ l → choose_value v l = Some v.
Proof. intros H. unfold choose_value. by rewrite bool_decide_true. Qed.


Lemma box_entries_set csv boxes :
  box_entries (setBackends csv boxes) =
    List.filter (λ b, bool_decide (b ∈ backend_ids csv)) (map fst boxes) ≫= entry "backend_id".
Proof.
  unfold box_entries, setBackends. induction boxes as [|[b on] l IH]; [done|]. cbn in *. rewrite IH.
  by destruct (bool_decide (b ∈ backend_ids csv)).
Qed.



Lemma us_set_own o s :
  NoDup (map u_value (us_options s)) → o ∈ us_options s → us_chosen (us_set (u_value o) s) = Some o.
Proof.
  intros Hnd (i & Hi)%list_elem_of_lookup_1. unfold us_chosen, us_set. cbn.
  rewrite (option_index_lookup (u_value o) _ i); [done|done|].
  change (map u_value (us_options s)) with (u_value <$> us_options s).
  by rewrite list_lookup_fmap, Hi.
Qed.

(** The page's model options: named, each name once. *)
Definition named (l : list uopt) : Prop := NoDup (map u_value l) ∧ Forall (λ o, u_value o ≠ []) l.

Lemma off_filter prov o :
  u_value o ≠ [] → prov ≠ [] → u_off (filter_option prov o) = false → u_provider o = prov.
Proof.
  intros Hv Hp. unfold filter_option, of_provider. rewrite (proj2 (truthy_s_spec _) Hv). cbn.
  rewrite (proj2 (truthy_s_spec _) Hp). cbn. by destruct (bool_decide_reflect (u_provider o = prov)).
Qed.

(** Filtering by a provider that has a model selects one of its models. *)
Lemma filterUpstream_provider prov preferred s :
  prov ≠ [] → named (us_options s) → (∃ o, o ∈ us_options s ∧ u_provider o = prov) →
  ∃ o, o ∈ us_options s ∧ u_provider o = prov ∧
       us_chosen (filterUpstream prov preferred s) = Some (UOpt (u_value o) prov (u_backends o) (u_extra o) false).
Proof.
  intros Hp [Hnd Hne] (w & Hw & Hwp). unfold filterUpstream. cbv zeta.
  set (keep := s_or preferred (us_value s)). set (s' := USelect _ _).
  assert (Hnd' : NoDup (map u_value (us_options s'))) by (unfold s'; cbn; by rewrite u_values_filter).
  assert (Hback : ∀ o', o' ∈ us_options s' → u_off o' = false → ∃ o, o ∈ us_options s ∧ u_provider o = prov ∧
            o' = UOpt (u_value o) prov (u_backends o) (u_extra o) false).
  { intros o' (o & -> & Ho)%elem_of_map_iff Hoff. rewrite Forall_forall in Hne.
    pose proof (off_filter prov o (Hne o Ho) Hp Hoff) as Hpr. exists o. split_and!; [done|done|].
    revert Hoff. unfold filter_option. rewrite (proj2 (truthy_s_spec _) (Hne o Ho)). cbn. intros ->. by rewrite Hpr. }
  assert (Hsel : ∀ o', o' ∈ us_options s' → u_off o' = false → ∃ o, o ∈ us_options s ∧ u_provider o = prov ∧
            us_chosen (us_set (u_value o') s') = Some (UOpt (u_value o) prov (u_backends o) (u_extra o) false)).
  { intros o' Ho' Hoff. destruct (Hback o' Ho' Hoff) as (o & ? & ? & E). exists o. split_and!; [done|done|].
    by rewrite us_set_own, E. }
  destruct (existsb _ _) eqn:Ex.
  - apply existsb_exists in Ex as (o' & Ho'%list_elem_of_In & [<-%bool_decide_eq_true Hoff%negb_true_iff]%andb_prop).
    by apply Hsel.
  - assert (Hfw : usable (filter_option prov w) = true).
    { rewrite Forall_forall in Hne. unfold usable, filter_option, of_provider.
      rewrite (proj2 (truthy_s_spec _) (Hne w Hw)). cbn. rewrite (proj2 (truthy_s_spec _) (Hne w Hw)).
      rewrite bool_decide_true by done. by rewrite orb_true_r. }
    destruct (List.find usable (us_options s')) as [o'|] eqn:Ef.
    + apply List.find_some in Ef as [Ho'%list_elem_of_In [_ Hoff%negb_true_iff]%andb_prop]. by apply Hsel.
    + rewrite (List.find_none _ _ Ef (filter_option prov w)) in Hfw; [done|].
      apply list_elem_of_In, elem_of_map_iff. by exists w.
Qed.

(** Choosing a provider that has models selects one of its models and ticks
    exactly that model's servers; Save sends that model. *)
Theorem provider_change_spec prov p :
  prov ≠ [] → named (us_options (a_up p)) → (∃ o, o ∈ us_options (a_up p) ∧ u_provider o = prov) →
  ∃ o, o ∈ us_options (a_up p) ∧ u_provider o = prov ∧
    up_entry (a_up (provider_change prov p)) = entry "upstream_name" (u_value o) ∧
    box_entries (a_boxes (provider_change prov p)) =
      List.filter (λ b, bool_decide (b ∈ backend_ids (u_backends o))) (map fst (a_boxes p)) ≫= entry "backend_id".
Proof.
  intros Hp Hn Hw. destruct (filterUpstream_provider prov [] (a_up p) Hp Hn Hw) as (o & Ho & Hpr & Hc).
  exists o. cbn [provider_change with_up a_up a_boxes]. split_and!; [done|done| |].
  - unfold up_entry. by rewrite Hc.
  - unfold syncBackendsFromUpstream. rewrite Hc. cbn [u_backends]. apply box_entries_set.
Qed.

(** Only the model select sends the field of that name. *)
Definition other_field (e : jstr * jstr) : Prop := e.1 ≠ js "upstream_name".
Lemma other_entry n w : js n ≠ js "upstream_name" → Forall other_field (entry n w).
Proof. by repeat constructor. Qed.
Lemma other_opt n w : js n ≠ js "upstream_name" → Forall other_field (opt_entry n w).
Proof. destruct w; [apply other_entry|constructor]. Qed.
Lemma other_check n w b : js n ≠ js "upstream_name" → Forall other_field (check_entry n w b).
Proof. destruct b; [apply other_entry|constructor]. Qed.
Lemma other_boxes l : Forall other_field (box_entries l).
Proof. apply Forall_bind, Forall_true. intros b. apply other_check. vm_compute. congruence. Qed.
Lemma other_fb p : Forall other_field (fb_entry p).
Proof.
  unfold fb_entry. destruct (a_fb p); [|constructor]. destruct (bool_decide _); [constructor|].
  apply other_entry. vm_compute. congruence.
Qed.

Ltac other_fields :=
  repeat apply Forall_app_2;
  first [apply other_boxes | apply other_fb
        | first [apply other_entry | apply other_opt | apply other_check]; vm_compute; congruence].

Lemma upstream_entries v p :
  (js "upstream_name", v) ∈ form_entries p → (js "upstream_name", v) ∈ up_entry (a_up p).
Proof.
  unfold form_entries. intros Hin.
  assert (Hno : ∀ l, Forall other_field l → (js "upstream_name", v) ∉ l).
  { intros l Hl Hl'. rewrite Forall_forall in Hl. by apply (Hl _ Hl'). }
  apply elem_of_app in Hin as [Hin|Hin]; [exfalso; revert Hin; apply Hno; other_fields|].
  apply elem_of_app in Hin as [Hin|Hin]; [|exfalso; revert Hin; apply Hno; other_fields].
  destruct (a_local_off p); [by apply elem_of_nil in Hin|].
  apply elem_of_app in Hin as [Hin|Hin]; [done|exfalso; revert Hin; apply Hno; other_fields].
Qed.

(** C32: when the model of an alias is listed under another provider than the one
    the alias is shown with, opening the settings selects another model, one of
    the shown provider: a Save without a change sends that model instead. *)
Theorem other_provider_replaces_upstream range_value d p :
  d_remote d ≠ js "1" → d_provider d ≠ [] → d_provider d ∈ a_provs p →
  named (own_options (a_up p)) →
  (∃ o, o ∈ own_options (a_up p) ∧ u_value o = d_upstream d ∧ u_provider o ≠ d_provider d) →
  (∃ o, o ∈ own_options (a_up p) ∧ u_provider o = d_provider d) →
  ∃ other, other ≠ d_upstream d ∧
    (js "upstream_name", other) ∈ form_entries (open_dialog range_value d p) ∧
    (js "upstream_name", d_upstream d) ∉ form_entries (open_dialog range_value d p).
Proof.
  intros Hr Hpn Hpi Hn (u & Hu & Huv & Hup) Hw.
  assert (Hne : d_upstream d ≠ []).
  { destruct Hn as [_ Hn]. rewrite Forall_forall in Hn. rewrite <- Huv. by apply Hn. }
  set (s := ensureOption (d_upstream d) (d_provider d) (d_backends d) (a_up p)).
  assert (Hs : us_options s = own_options (a_up p)).
  { unfold s. rewrite (ensureOption_options _ _ _ _ Hne). fold (own_options (a_up p)).
    rewrite bool_decide_true; [done|]. apply elem_of_map_iff. by exists u. }
  destruct (filterUpstream_provider (d_provider d) (d_upstream d) s Hpn) as (o & Ho & Hop & Hc);
    [by rewrite Hs|by rewrite Hs|].
  rewrite Hs in Ho.
  assert (Hov : u_value o ≠ d_upstream d).
  { intros E. assert (o = u) as ->; [|congruence]. destruct Hn as [Hnd _].
    apply list_elem_of_lookup_1 in Ho as [i Hi], Hu as [j Hj].
    assert (i = j) as ->; [|congruence].
    eapply (NoDup_lookup (map u_value (own_options (a_up p))) i j (d_upstream d)); [done| |];
      change (map u_value (own_options (a_up p))) with (u_value <$> own_options (a_up p));
      rewrite list_lookup_fmap; [by rewrite Hi, <- E|by rewrite Hj, <- Huv]. }
  exists (u_value o). split; [done|].
  assert (He : up_entry (a_up (open_dialog range_value d p)) = entry "upstream_name" (u_value o)).
  { unfold open_dialog. cbn [a_up]. rewrite bool_decide_false by done.
    rewrite choose_value_in by done. cbn [from_option id]. fold s. unfold up_entry. by rewrite Hc. }
  assert (Hoff : a_local_off (open_dialog range_value d p) = false)
    by (cbn [open_dialog a_local_off]; by apply bool_decide_false).
  split.
  - unfold form_entries. rewrite Hoff, He. apply elem_of_app. right. apply elem_of_app. left.
    apply elem_of_app. left. by left.
  - intros Hin%upstream_entries. rewrite He in Hin. apply list_elem_of_singleton in Hin. congruence.
Qed.

(** *** The dialog over time *)

Definition strip (o : uopt) : jstr * jstr * jstr := (u_value o, u_provider o, u_backends o).

(** What the template fixes: the options and the boxes of the dialog. *)
Record same_page (p q : dialog) : Prop := SamePage {
  sp_provs : a_provs q = a_provs p;
  sp_own : map strip (own_options (a_up q)) = map strip (own_options (a_up p));
  sp_boxes : map fst (a_boxes q) = map fst (a_boxes p);
  sp_fbs : map fst (a_fbs q) = map fst (a_fbs p);
}.
#[export] Instance same_page_preorder : PreOrder same_page.
Proof.
  split; [by constructor|]. intros p q r [] []. constructor; congruence.
Qed.









(** ** Witnesses *)

Definition demo_options : list uopt :=
  [UOpt (js "llama3") (js "Meta") (js "1,2") false false;
   UOpt (js "qwen3") (js "Alibaba") (js "2") false false;
   UOpt (js "qwen3:32b") (js "Alibaba") (js "1") false false].
Definition demo_dialog : dialog :=
  Dialog [] [] [] false false true [[]; js "Meta"; js "Alibaba"] (Some []) (USelect demo_options (Some 0%nat))
    [(js "1", false); (js "2", false)] (Some (js "least_conn")) false [] []
    [([], false); (js "chat", false); (js "draw", false)] (Some []) (Some (js "inherit")) (Some [])
    [] (js "1") false [] [] [] false false false false [] false false.
Definition demo_alias (provider : string) : alias_data :=
  AliasData (js "7") (js "chat") (js "qwen3") (js provider) (js "2") (js "8192") (js "32768") (js "draw")
    (js "auto") (js "failover") (js "1") [] [] (js "low") (js "0.7") [] (js "4096") (js "{}")
    (js "true") (js "false") (js "false") (js "false").




Lemma demo_named : named demo_options.
Proof. split; apply (bool_decide_unpack _); vm_compute; exact I. Qed.

Lemma provider_change_spec_witness : ∃ o,
  o ∈ demo_options ∧ u_provider o = js "Alibaba" ∧
  up_entry (a_up (provider_change (js "Alibaba") demo_dialog)) = entry "upstream_name" (u_value o).
Proof.
  destruct (provider_change_spec (js "Alibaba") demo_dialog) as (o & ? & ? & ? & _);
    [done|exact demo_named| |by exists o].
  eexists. split; [right; left|reflexivity].
Defined.

Lemma other_provider_replaces_upstream_witness : ∃ other,
  other ≠ js "qwen3" ∧
  (js "upstream_name", other) ∈ form_entries (open_dialog id (demo_alias "Meta") demo_dialog) ∧
  (js "upstream_name", js "qwen3") ∉ form_entries (open_dialog id (demo_alias "Meta") demo_dialog).
Proof.
  apply (other_provider_replaces_upstream id (demo_alias "Meta") demo_dialog).
  - apply (bool_decide_unpack _). vm_compute. exact I.
  - done.
  - right. left.
  - exact demo_named.
  - eexists. split_and!; [right; left|reflexivity|vm_compute; congruence].
  - eexists. split; [left|reflexivity].
Defined.
