(* ===== verification/ModelDialog.v ===== *)
(** * The settings dialog of a catalog model

    app.js lines 2070-2193: opening the dialog on a row of the catalog.  The
    hosts of the model come as JSON in a data attribute; each gets a line with
    its buttons (which the job code of [Jobs] serves) or a mark, and, for a
    model that is not on a hub, a box in the form that connects the model. *)

From S2P Require Import Prelude JsString JsNumber JsValue JsJson Controls.
Open Scope Z_scope.

(** ** Data *)

(** The data attributes of a row's button (models.html lines 145-151). *)
Record model_data := ModelData {
  d_name : jstr; d_title : jstr; d_provider : jstr; d_size : jstr; d_ctx : jstr; d_ctxN : jstr;
  d_price : jstr; d_media : jstr; d_connected : jstr; d_hub : jstr; d_hubName : jstr;
  d_online : jstr; d_schedule : jstr; d_hosts : jstr;
}.

(** What a host's line holds beside its title: a button of the job code, or a
    mark with its classes. *)
Inductive act :=
  | ABtn (text cls action id name : jstr)
  | AMark (cls text : jstr).
Record host_row := HostRow { r_title : jstr; r_hint : option jstr; r_acts : list act }.
(** A box of the connecting form: its value and label, always ticked. *)
Record host_box := HostBox { x_value : jstr; x_label : jstr; x_checked : bool }.

Record mdialog := MDialog {
  m_title : jstr; m_sub : jstr; m_meta : list (jstr * jstr); m_hosts : list host_row;
  m_connect_hidden : bool; m_alias : jstr; m_upstream : jstr; m_ctx : jstr; m_lb : jstr;
  m_hub_off : bool; m_hub_id : jstr; m_hub_name : jstr;
  m_prov_hidden : bool; m_boxes : list host_box; m_open : bool;
}.

(** ** Operations *)

Definition metaRow (label : string) (value : jstr) : list (jstr * jstr) :=
  if truthy_s value then [(js label, value)] else [].
Definition hostButton (text cls action : jstr) (id : val) (name : jstr) : act :=
  ABtn text cls action (to_str id) name.

(** [JSON.parse(d.hosts || "[]") || []], and [[]] when it throws. *)
Definition read_hosts (s : jstr) : val :=
  match JSON_parse (s_or s (js "[]")) with Some v => v_or v (VArr []) | None => VArr [] end.

Definition field (h : val) (k : string) : option val := get (js k) h.
Definition sub_text (d : model_data) : jstr :=
  js_join (js " · ")
    ((if truthy_s (d_title d) then [d_title d] else []) ++
     (if bool_decide (d_connected d = js "1")
      then [js "Уже в шлюзе. Имя для клиентов меняется в списке alias ниже."]
      else if truthy_s (d_hub d) && negb (bool_decide (d_online d = js "1"))
      then [js "Узел сейчас офлайн."] else [])).

(** One line of the list (lines 2115-2153); [None] when reading a field of the
    host throws. *)
Definition host_line (name : jstr) (h : val) : option host_row :=
  short ← field h "short"; hname ← field h "name"; hint ← field h "hint";
  canLoad ← field h "canLoad"; canDelete ← field h "canDelete"; id ← field h "id";
  loaded ← field h "loaded"; hub ← field h "hub"; online ← field h "online";
  cloud ← field h "cloud"; label ← field h "label"; kind ← field h "kind";
  let load :=
    if truthy canLoad && truthy id then
      [hostButton (if truthy loaded then js "Выгрузить из RAM" else js "В RAM")
         (js "pill-btn" ++ if truthy loaded then js " ram" else [])
         (if truthy loaded then js "unload" else js "load") id name]
    else [] in
  let del :=
    if truthy canDelete && truthy id
    then [hostButton (js "Удалить с диска") (js "btn-sm danger-text") (js "delete") id name] else [] in
  let mark :=
    if truthy hub then
      [AMark (js "pill" ++ if truthy online then js " ok" else [])
         (if truthy online then js "онлайн" else js "офлайн")]
    else if negb (truthy canLoad) then
      [AMark (js "pill" ++ if truthy loaded then js " ram" else [])
         ((if truthy cloud then js "облако" else to_str (v_or label (v_or kind (VStr (js "сервер"))))) ++
          if truthy loaded then js " · RAM" else [])]
    else [] in
  Some (HostRow (to_str (v_or short (v_or hname (VStr (js "сервер")))))
    (if truthy hint then Some (to_str hint) else None) (load ++ del ++ mark)).

(** One box (lines 2172-2182): hosts without an id get none. *)
Definition host_box_of (h : val) : option (list host_box) :=
  id ← field h "id"; hname ← field h "name"; short ← field h "short"; label ← field h "label";
  Some (if truthy id then
    [HostBox (to_str id)
       ([32] ++ to_str (v_or hname (v_or short id)) ++ if truthy label then js " · " ++ to_str label else []) true]
  else []).

(** The click on a row: [None] when it throws before the dialog is shown (the
    hosts are not an array, or one of them is null). *)
Definition open_model (d : model_data) : option mdialog :=
  hosts ← match read_hosts (d_hosts d) with VArr l => Some l | _ => None end;
  rows ← mapM (host_line (d_name d)) hosts;
  let isHub := truthy_s (d_hub d) in
  boxes ← (if isHub then Some [] else mapM host_box_of hosts);
  Some (MDialog (s_or (d_name d) (js "Модель")) (sub_text d)
    (metaRow "Провайдер" (d_provider d) ++ metaRow "Размер" (d_size d) ++ metaRow "Контекст" (d_ctx d) ++
     metaRow "Цена" (d_price d) ++ metaRow "Тип" (d_media d) ++ metaRow "Окно" (d_schedule d))
    rows
    (bool_decide (d_connected d = js "1") || (isHub && negb (bool_decide (d_online d = js "1"))))
    (text_value (d_name d)) (d_name d) (s_or (d_ctxN d) (js "0")) (js "least_conn")
    (negb isHub) (if isHub then d_hub d else []) (if isHub then d_hubName d else [])
    isHub (concat boxes) true).

(** ** What the connecting form sends *)

Definition connect_entries (m : mdialog) : list (jstr * jstr) :=
  [(js "alias", m_alias m); (js "lb_policy", m_lb m)] ++
  map (λ b, (js "backend_id", x_value b)) (List.filter x_checked (m_boxes m)) ++
  [(js "upstream_name", m_upstream m); (js "max_context", m_ctx m)] ++
  (if m_hub_off m then [] else [(js "hub_node_id", m_hub_id m); (js "hub_node_name", m_hub_name m)]).

(** ** The hosts as the server describes them *)

(** The fields of [catalogHost] (admin.go lines 585-598). *)
Record host := Host {
  h_id : Z; h_name : jstr; h_short : jstr; h_loaded : bool; h_kind : jstr; h_label : jstr;
  h_canLoad : bool; h_canDelete : bool; h_cloud : bool; h_hub : bool; h_online : bool; h_hint : jstr;
}.
Definition host_val (h : host) : val :=
  VObj [(js "id", VNum (num_of_Z (h_id h))); (js "name", VStr (h_name h)); (js "short", VStr (h_short h));
        (js "loaded", VBool (h_loaded h)); (js "kind", VStr (h_kind h)); (js "label", VStr (h_label h));
        (js "canLoad", VBool (h_canLoad h)); (js "canDelete", VBool (h_canDelete h));
        (js "cloud", VBool (h_cloud h)); (js "hub", VBool (h_hub h)); (js "online", VBool (h_online h));
        (js "hint", VStr (h_hint h))].

(** The line and the box of a host, from its typed fields. *)
Definition typed_acts (name : jstr) (h : host) : list act :=
  let id := of_int (h_id h) in
  (if h_canLoad h && negb (h_id h =? 0) then
     [if h_loaded h then ABtn (js "Выгрузить из RAM") (js "pill-btn ram") (js "unload") id name
      else ABtn (js "В RAM") (js "pill-btn") (js "load") id name] else []) ++
  (if h_canDelete h && negb (h_id h =? 0)
   then [ABtn (js "Удалить с диска") (js "btn-sm danger-text") (js "delete") id name] else []) ++
  (if h_hub h then [if h_online h then AMark (js "pill ok") (js "онлайн") else AMark (js "pill") (js "офлайн")]
   else if h_canLoad h then []
   else [let what := if h_cloud h then js "облако" else s_or (h_label h) (s_or (h_kind h) (js "сервер")) in
         if h_loaded h then AMark (js "pill ram") (what ++ js " · RAM") else AMark (js "pill") what]).
Definition typed_row (name : jstr) (h : host) : host_row :=
  HostRow (s_or (h_short h) (s_or (h_name h) (js "сервер")))
    (if truthy_s (h_hint h) then Some (h_hint h) else None) (typed_acts name h).
Definition typed_box (h : host) : list host_box :=
  if h_id h =? 0 then [] else
  [HostBox (of_int (h_id h))
     ([32] ++ s_or (h_name h) (s_or (h_short h) (of_int (h_id h))) ++
      if truthy_s (h_label h) then js " · " ++ h_label h else []) true].

(** ** Proofs *)

Lemma truthy_id z : Z.abs z ≤ max_safe → truthy (VNum (num_of_Z z)) = negb (z =? 0).
Proof. intros Hz. by rewrite num_of_Z_safe. Qed.

(** A host object with the fields of [host_val], for any values. *)
Definition raw_host (id nm short loaded kind label load del cloud hub online hint : val) : val :=
  VObj [(js "id", id); (js "name", nm); (js "short", short); (js "loaded", loaded); (js "kind", kind);
        (js "label", label); (js "canLoad", load); (js "canDelete", del); (js "cloud", cloud);
        (js "hub", hub); (js "online", online); (js "hint", hint)].

Lemma raw_host_fields id nm short loaded kind label load del cloud hub online hint :
  let f := field (raw_host id nm short loaded kind label load del cloud hub online hint) in
  (f "id" = Some id ∧ f "name" = Some nm ∧ f "short" = Some short ∧ f "loaded" = Some loaded ∧
   f "kind" = Some kind ∧ f "label" = Some label) ∧
  (f "canLoad" = Some load ∧ f "canDelete" = Some del ∧ f "cloud" = Some cloud ∧ f "hub" = Some hub ∧
   f "online" = Some online ∧ f "hint" = Some hint).
Proof. vm_compute. done. Qed.

Lemma host_val_fields h :
  let f := field (host_val h) in
  (f "id" = Some (VNum (num_of_Z (h_id h))) ∧ f "name" = Some (VStr (h_name h)) ∧
   f "short" = Some (VStr (h_short h)) ∧ f "loaded" = Some (VBool (h_loaded h)) ∧
   f "kind" = Some (VStr (h_kind h)) ∧ f "label" = Some (VStr (h_label h))) ∧
  (f "canLoad" = Some (VBool (h_canLoad h)) ∧ f "canDelete" = Some (VBool (h_canDelete h)) ∧
   f "cloud" = Some (VBool (h_cloud h)) ∧ f "hub" = Some (VBool (h_hub h)) ∧
   f "online" = Some (VBool (h_online h)) ∧ f "hint" = Some (VStr (h_hint h))).
Proof. apply raw_host_fields. Qed.

Lemma to_str_or a v : to_str (v_or (VStr a) v) = s_or a (to_str v).
Proof. by destruct a. Qed.

Lemma host_line_typed name h :
  Z.abs (h_id h) ≤ max_safe → host_line name (host_val h) = Some (typed_row name h).
Proof.
  intros Hid. destruct (host_val_fields h) as ((E1&E2&E3&E4&E5&E6)&(E7&E8&E9&E10&E11&E12)).
  unfold host_line. rewrite E1, E2, E3, E4, E5, E6, E7, E8, E9, E10, E11, E12.
  cbn [mbind option_bind]. unfold hostButton. rewrite (truthy_id _ Hid).
  change (to_str (VNum ?n)) with (num_to_string n). rewrite (num_to_string_Z _ Hid), !to_str_or.
  cbn [truthy to_str]. unfold typed_row, typed_acts. do 2 f_equal.
  destruct (h_canLoad h), (h_canDelete h), (h_id h =? 0), (h_loaded h), (h_hub h), (h_online h), (h_cloud h);
    cbn [andb negb app]; rewrite ?app_nil_r; reflexivity.
Qed.

Lemma host_box_typed h : Z.abs (h_id h) ≤ max_safe → host_box_of (host_val h) = Some (typed_box h).
Proof.
  intros Hid. destruct (host_val_fields h) as ((E1&E2&E3&E4&E5&E6)&_).
  unfold host_box_of. rewrite E1, E2, E3, E6. cbn [mbind option_bind]. rewrite (truthy_id _ Hid), !to_str_or.
  change (to_str (VNum ?n)) with (num_to_string n). rewrite (num_to_string_Z _ Hid).
  unfold typed_box. destruct (h_id h =? 0); reflexivity.
Qed.

Lemma mapM_typed {A B} (f : A → option B) (g : host → A) (k : host → B) hs :
  Forall (λ h, f (g h) = Some (k h)) hs → mapM f (map g hs) = Some (map k hs).
Proof.
  induction 1 as [|h hs Hh _ IH]; [done|]. cbn [map]. cbn [mapM]. rewrite Hh. cbn [mbind option_bind].
  by rewrite IH.
Qed.

(** The hosts of a row as the server sends them: the JSON text of the typed
    list, with ids that are exact numbers. *)
Definition hosts_text (s : jstr) (hs : list host) : Prop :=
  JSON_parse (s_or s (js "[]")) = Some (VArr (map host_val hs)) ∧ Forall (λ h, Z.abs (h_id h) ≤ max_safe) hs.

Definition opened (d : model_data) (hs : list host) : mdialog :=
  let isHub := truthy_s (d_hub d) in
  MDialog (s_or (d_name d) (js "Модель")) (sub_text d)
    (metaRow "Провайдер" (d_provider d) ++ metaRow "Размер" (d_size d) ++ metaRow "Контекст" (d_ctx d) ++
     metaRow "Цена" (d_price d) ++ metaRow "Тип" (d_media d) ++ metaRow "Окно" (d_schedule d))
    (map (typed_row (d_name d)) hs)
    (bool_decide (d_connected d = js "1") || (isHub && negb (bool_decide (d_online d = js "1"))))
    (text_value (d_name d)) (d_name d) (s_or (d_ctxN d) (js "0")) (js "least_conn")
    (negb isHub) (if isHub then d_hub d else []) (if isHub then d_hubName d else [])
    isHub (if isHub then [] else concat (map typed_box hs)) true.

Lemma open_model_typed d hs : hosts_text (d_hosts d) hs → open_model d = Some (opened d hs).
Proof.
  intros [Hj Hid]. unfold open_model, read_hosts. rewrite Hj. unfold v_or. cbn [truthy mbind option_bind].
  rewrite (mapM_typed (host_line (d_name d)) host_val (typed_row (d_name d)));
    [|eapply Forall_impl; [exact Hid|]; intros h Hh; by apply host_line_typed].
  cbn [mbind option_bind].
  rewrite (mapM_typed host_box_of host_val typed_box);
    [|eapply Forall_impl; [exact Hid|]; intros h Hh; by apply host_box_typed].
  unfold opened. by destruct (truthy_s (d_hub d)).
Qed.

(** C16: a click on a catalog row opens the dialog with a line for each host the
    server sent, in order, with the load or unload, delete and state of that
    host; the connecting form is shown exactly when the model is not connected
    and is not on an offline hub; and it sends the ids of the model's servers,
    or the hub node, never both. *)
Theorem open_model_spec d hs :
  hosts_text (d_hosts d) hs →
  ∃ m, open_model d = Some m ∧ m_open m = true ∧ m_hosts m = map (typed_row (d_name d)) hs ∧
    (m_connect_hidden m = false ↔ d_connected d ≠ js "1" ∧ (d_hub d = [] ∨ d_online d = js "1")) ∧
    connect_entries m =
      [(js "alias", text_value (d_name d)); (js "lb_policy", js "least_conn")] ++
      (if truthy_s (d_hub d) then []
       else map (λ h, (js "backend_id", of_int (h_id h))) (List.filter (λ h, negb (h_id h =? 0)) hs)) ++
      [(js "upstream_name", d_name d); (js "max_context", s_or (d_ctxN d) (js "0"))] ++
      (if truthy_s (d_hub d) then [(js "hub_node_id", d_hub d); (js "hub_node_name", d_hubName d)] else []).
Proof.
  intros Ht. exists (opened d hs). split_and!; [by apply open_model_typed|done|done| |].
  - cbn [opened m_connect_hidden]. rewrite orb_false_iff, bool_decide_eq_false.
    destruct (d_hub d) as [|c t]; cbn [truthy_s andb]; [naive_solver|].
    rewrite negb_false_iff, bool_decide_eq_true. naive_solver.
  - unfold connect_entries. cbn [opened m_alias m_lb m_boxes m_upstream m_ctx m_hub_off m_hub_id m_hub_name].
    do 2 f_equal; [|by destruct (truthy_s (d_hub d))].
    destruct (truthy_s (d_hub d)); [done|]. clear Ht. induction hs as [|h hs IH]; [done|].
    cbn [map concat List.filter]. rewrite List.filter_app, map_app, IH. unfold typed_box.
    by destruct (h_id h =? 0).
Qed.

(** A broken list of hosts does not stop the dialog: with JSON that does not
    parse it opens without lines and boxes. *)
Theorem broken_hosts_open d :
  JSON_parse (s_or (d_hosts d) (js "[]")) = None →
  ∃ m, open_model d = Some m ∧ m_open m = true ∧ m_hosts m = [] ∧ m_boxes m = [].
Proof.
  intros Hj. unfold open_model, read_hosts. rewrite Hj. cbn [mbind option_bind].
  change (mapM (host_line (d_name d)) []) with (Some (@nil host_row)).
  change (mapM host_box_of []) with (Some (@nil (list host_box))). cbn [mbind option_bind].
  destruct (truthy_s (d_hub d)); eexists; (split; [reflexivity|]); cbn; done.
Qed.

(** ** Witnesses *)

Definition demo_hosts : list host :=
  [Host 3 (js "mac-82") (js "82") true (js "ollama") (js "Ollama") true true false false false (js "R&D");
   Host 5 (js "cloud") (js "cloud") false (js "openrouter") (js "OpenRouter") false false true false false []].
(** The attribute as Go writes it: [q] stands for a quotation mark. *)
Definition quoted (s : string) : jstr := map (λ c, if c =? 39 then 34 else c) (js s).
Definition demo_model (hosts : jstr) : model_data :=
  ModelData (js "qwen3") [] (js "Alibaba") (js "19 GB") [] (js "32768") [] (js "text") [] [] [] [] [] hosts.
Definition demo_hosts_text : jstr := quoted
  "[{'id':3,'name':'mac-82','short':'82','loaded':true,'kind':'ollama','label':'Ollama','canLoad':true,'canDelete':true,'cloud':false,'hub':false,'online':false,'hint':'R&D'},{'id':5,'name':'cloud','short':'cloud','loaded':false,'kind':'openrouter','label':'OpenRouter','canLoad':false,'canDelete':false,'cloud':true,'hub':false,'online':false,'hint':''}]".

Lemma demo_hosts_parse : hosts_text demo_hosts_text demo_hosts.
Proof.
  split; [vm_compute; reflexivity|]. apply (bool_decide_unpack _). vm_compute. exact I.
Qed.

Lemma open_model_spec_witness : ∃ m,
  open_model (demo_model demo_hosts_text) = Some m ∧
  m_hosts m =
    [HostRow (js "82") (Some (js "R&D"))
       [ABtn (js "Выгрузить из RAM") (js "pill-btn ram") (js "unload") (js "3") (js "qwen3");
        ABtn (js "Удалить с диска") (js "btn-sm danger-text") (js "delete") (js "3") (js "qwen3")];
     HostRow (js "cloud") None [AMark (js "pill") (js "облако")]].
Proof.
  destruct (open_model_spec (demo_model demo_hosts_text) demo_hosts demo_hosts_parse) as (m & Hm & _ & Hh & _).
  exists m. split; [exact Hm|]. rewrite Hh. vm_compute. reflexivity.
Defined.

Lemma broken_hosts_open_witness : ∃ m,
  open_model (demo_model (js "[{")) = Some m ∧ m_open m = true ∧ m_hosts m = [] ∧ m_boxes m = [].
Proof. apply (broken_hosts_open (demo_model (js "[{"))). vm_compute. reflexivity. Defined.
