(* ===== verification/Catalog.v ===== *)
(** * The model catalog: filters, hub ranks, pages

    app.js lines 111-290: [matchBand], [paginateCatalog], [hubNodeRanks],
    [bindModelFilters] (shared by the catalog and the key form) and the alias
    hub filter.  A row is the record of the attributes, the check box and the
    two class flags the code reads and writes. *)

From S2P Require Import Prelude JsString JsNumber JsValue.
Open Scope Z_scope.

(** ** Rows *)

Record cbox := CBox { cb_value : jstr; cb_checked : bool; cb_disabled : bool }.

Record mrow := MRow {
  r_name : option jstr; r_title : option jstr; r_provider : option jstr;
  r_band : option jstr; r_prompt : option jstr; r_media : option jstr;
  r_servers : option jstr; r_hub : option jstr; r_hub_node : option jstr;
  r_hub_rating : option jstr; r_group : option jstr;
  r_cb : option cbox;
  r_hidden : bool;
  r_paged : bool;
}.

(** [el.getAttribute(a) || ""]. *)
Definition attr (o : option jstr) : jstr := default [] o.

Definition set_hidden (h : bool) (r : mrow) : mrow :=
  MRow (r_name r) (r_title r) (r_provider r) (r_band r) (r_prompt r) (r_media r)
       (r_servers r) (r_hub r) (r_hub_node r) (r_hub_rating r) (r_group r) (r_cb r) h (r_paged r).
Definition set_paged (p : bool) (r : mrow) : mrow :=
  MRow (r_name r) (r_title r) (r_provider r) (r_band r) (r_prompt r) (r_media r)
       (r_servers r) (r_hub r) (r_hub_node r) (r_hub_rating r) (r_group r) (r_cb r) (r_hidden r) p.
Definition set_cb (c : option cbox) (r : mrow) : mrow :=
  MRow (r_name r) (r_title r) (r_provider r) (r_band r) (r_prompt r) (r_media r)
       (r_servers r) (r_hub r) (r_hub_node r) (r_hub_rating r) (r_group r) c (r_hidden r) (r_paged r).

(** ** Price bands (lines 111-122) *)

Definition num_half : num := Fin (QArith_base.Qmake 1 2).
Definition num_int (z : Z) : num := Fin (QArith_base.inject_Z z).

Definition matchBand (band : jstr) (prompt : option jstr) (want : jstr) : bool :=
  if bool_decide (want = []) then true else
  let p := num_or0 (parseFloat (s_or (attr prompt) (js "0"))) in
  if want =s js "none" then band =s js "none" else
  if want =s js "free" then band =s js "free" else
  if want =s js "paid" then negb (band =s js "none") && negb (band =s js "free") else
  if want =s js "lt0.5" then negb (band =s js "none") && num_ltb p num_half else
  if want =s js "lt2" then negb (band =s js "none") && num_ltb p (num_int 2) else
  if want =s js "lt10" then negb (band =s js "none") && num_ltb p (num_int 10) else
  if want =s js "more" then negb (band =s js "none") && num_leb (num_int 10) p else
  true.

(** ** Hub node ranks (lines 170-183) *)

(** [parseInt(s || "0", 10) || 0]. *)
Definition int_attr (o : option jstr) : Z := default 0 (parseInt (s_or (attr o) (js "0"))).

Definition record_best (best : list (jstr * Z)) (el : mrow) : list (jstr * Z) :=
  if bool_decide (r_hub el = Some (js "1")) then
    let id := attr (r_hub_node el) in
    let r := int_attr (r_hub_rating el) in
    if bool_decide (id = []) then best else
    match obj_get id best with
    | Absent => obj_set id r best
    | Own b => if b <? r then obj_set id r best else best
    | Inherited => best
    end
  else best.

Definition hub_best (rows : list mrow) : list (jstr * Z) := foldl record_best [] rows.

Definition rating_of (best : list (jstr * Z)) (id : jstr) : Z := default 0 (assoc id best).

(** [ids.sort(function (a, b) { return best[b] - best[a]; })]: stable, best first. *)
Fixpoint insert_by (best : list (jstr * Z)) (id : jstr) (l : list jstr) : list jstr :=
  match l with
  | [] => [id]
  | y :: t => if rating_of best id <? rating_of best y then y :: insert_by best id t
              else id :: l
  end.
Definition sort_ids (best : list (jstr * Z)) (ids : list jstr) : list jstr :=
  foldr (insert_by best) [] ids.

Definition hubNodeRanks (rows : list mrow) : list (jstr * Z) :=
  let best := hub_best rows in
  let ids := sort_ids best (own_keys best) in
  foldl (λ rank p, obj_set (p.2) (Z.of_nat (p.1) + 1) rank) [] (imap pair ids).

(** ** Filters (lines 185-257) *)

(** The filter controls of the page, [None] for one the page does not have. *)
Record filters := Filters {
  f_name : option jstr; f_prov : option jstr; f_price : option jstr;
  f_media : option jstr; f_server : option jstr; f_only : option bool;
}.

Section WithFold.
Context `{CaseFold}.

(** The rank test of the two hub choices: an id that [Object.prototype]
    answers for is neither missing nor above the limit. *)
Definition rank_fails (trs : list mrow) (node : jstr) (lim : Z) : bool :=
  match obj_get node (hubNodeRanks trs) with
  | Absent => true
  | Own k => (k =? 0) || (lim <? k)
  | Inherited => false
  end.

Definition server_ok (F : filters) (trs : list mrow) (el : mrow) : bool :=
  let server := attr (f_server F) in
  let isHub := bool_decide (r_hub el = Some (js "1")) in
  let ok1 := negb (bool_decide (server = js "__hub__") && negb isHub) in
  let top := bool_decide (server = js "__hub_top10__") || bool_decide (server = js "__hub_top100__") in
  let ok2 := if top then
               if isHub then
                 let lim := if server =s js "__hub_top10__" then 10 else 100 in
                 negb (rank_fails trs (attr (r_hub_node el)) lim)
               else false
             else true in
  let named := negb (bool_decide (server = [])) && negb (bool_decide (server = js "__hub__"))
               && negb top in
  let ok3 := if named then bool_decide (server ∈ split_on 44 (attr (r_servers el))) else true in
  ok1 && ok2 && ok3.

Definition row_ok (F : filters) (trs : list mrow) (el : mrow) : bool :=
  let q := toLowerCase (trim (attr (f_name F))) in
  let name := toLowerCase (attr (r_name el)) in
  let title := toLowerCase (attr (r_title el)) in
  let provider := attr (r_provider el) in
  let rowMedia := toLowerCase (attr (r_media el)) in
  let prov := attr (f_prov F) in
  let media := attr (f_media F) in
  negb (truthy_s q && negb (includes q name) && negb (includes q title)
        && negb (includes q (toLowerCase provider)))
  && negb (truthy_s prov && negb (provider =s prov))
  && server_ok F trs el
  && matchBand (s_or (attr (r_band el)) (js "none")) (r_prompt el) (attr (f_price F))
  && negb ((media =s js "image") && negb (includes (js "image") rowMedia))
  && negb ((media =s js "video") && negb (includes (js "video") rowMedia))
  && negb ((media =s js "chat") && truthy_s rowMedia)
  && negb (default false (f_only F)
           && negb (match r_cb el with Some c => cb_checked c | None => false end)).

(** One pass of [apply] over the rows of the selector. *)
Definition filter_rows (F : filters) (trs rows : list mrow) : list mrow :=
  map (λ el, set_hidden (negb (row_ok F trs el)) el) rows.

End WithFold.

Definition visible (rows : list mrow) : list mrow := filter (λ r, r_hidden r = false) rows.
Definition count_text (vis total : nat) : jstr :=
  of_int (Z.of_nat vis) ++ js " из " ++ of_int (Z.of_nat total).

(** ** Pages (lines 124-168) *)

Inductive pager_item : Type :=
  | PBtn (label : jstr) (toPage : Z) (disabled : bool)
  | PInfo (text : jstr).

(** The catalog page: [catalogPage], the rows, the page-size select, the pager
    box and the counter, the last three optional. *)
Record catalog := Catalog {
  c_page : Z;
  c_rows : list mrow;
  c_size : option jstr;
  c_pager : option (list pager_item);
  c_count : option jstr;
}.

(** [rows.forEach(function (el, i) { toggle is-paged-out })], [rows] being the
    rows that are not hidden: hidden rows keep their flag. *)
Fixpoint mark_pages (from to i : Z) (rows : list mrow) : list mrow :=
  match rows with
  | [] => []
  | r :: t => if r_hidden r then r :: mark_pages from to i t
              else set_paged ((i <? from) || (to <=? i)) r :: mark_pages from to (i + 1) t
  end.

Definition clear_paged (rows : list mrow) : list mrow :=
  map (λ r, if r_hidden r then r else set_paged false r) rows.

(** [Math.max(1, Math.ceil(n / sz) || 1)], for an integer size. *)
Definition page_count (n sz : Z) : Z := Z.max 1 (- ((- n) / sz)).

Definition clamp_page (page pages : Z) : Z :=
  let p := if pages <? page then pages else page in
  if p <? 1 then 1 else p.

Definition page_info (n from to : Z) : jstr :=
  of_int (if n =? 0 then 0 else from + 1) ++ js "–" ++ of_int to ++ js " из " ++ of_int n.

Definition paginateCatalog (reset : bool) (st : catalog) : catalog :=
  match c_size st with
  | None => st
  | Some sizeV =>
    let page := if reset then 1 else c_page st in
    let n := Z.of_nat (length (visible (c_rows st))) in
    let sz := default 10 (parseInt sizeV) in
    let rows := clear_paged (c_rows st) in
    match c_pager st with
    | None => Catalog page rows (c_size st) (c_pager st) (c_count st)
    | Some _ =>
      if sz <=? 0 then Catalog page rows (c_size st) (Some []) (c_count st) else
      let pages := page_count n sz in
      let page := clamp_page page pages in
      let from := (page - 1) * sz in
      let to := Z.min n (from + sz) in
      Catalog page (mark_pages from to 0 rows) (c_size st)
        (Some [PBtn (js "←") (page - 1) (page <=? 1);
               PInfo (page_info n from to);
               PBtn (js "→") (page + 1) (pages <=? page)])
        (c_count st)
    end
  end.

(** A click on a pager button; a disabled button gets no click. *)
Definition click_pager (b : pager_item) (st : catalog) : catalog :=
  match b with
  | PBtn _ toPage false =>
    paginateCatalog false (Catalog toPage (c_rows st) (c_size st) (c_pager st) (c_count st))
  | _ => st
  end.

(** A click on the "→" button of the pager. *)
Definition click_next (st : catalog) : catalog :=
  match c_pager st with
  | Some [_; _; b] => click_pager b st
  | _ => st
  end.

(** The whole [apply] of the catalog page (selector [.model-tr]). *)
Definition apply_catalog `{CaseFold} (F : filters) (st : catalog) : catalog :=
  let rows := filter_rows F (c_rows st) (c_rows st) in
  let st1 := paginateCatalog true
               (Catalog (c_page st) rows (c_size st) (c_pager st) (c_count st)) in
  let total := length (c_rows st) in
  Catalog (c_page st1) (c_rows st1) (c_size st1) (c_pager st1)
    (if bool_decide (total = 0%nat) then c_count st
     else option_map (λ _, count_text (length (visible rows)) total) (c_count st)).

(** What the page shows. *)
Definition displayed (rows : list mrow) : list mrow :=
  filter (λ r, r_hidden r = false ∧ r_paged r = false) rows.

(** ** The page-size select (lines 278-290): a stored size is restored when the
    select offers it; otherwise the select ends up with no choice. *)
Definition select_value (options : list jstr) (v : jstr) : jstr :=
  if bool_decide (v ∈ options) then v else [].

Definition restore_page_size (options : list jstr) (stored : option jstr) (st : catalog) : catalog :=
  match c_size st with
  | None => st
  | Some cur =>
    let size := match stored with
                | Some s => if truthy_s s then select_value options s else cur
                | None => cur
                end in
    paginateCatalog false (Catalog (c_page st) (c_rows st) (Some size) (c_pager st) (c_count st))
  end.

Definition change_page_size (v : jstr) (st : catalog) : catalog * jstr :=
  (paginateCatalog true (Catalog (c_page st) (c_rows st) (Some v) (c_pager st) (c_count st)), v).

(** ** The alias hub filter (lines 259-277) *)

Record alias_row := AliasRow { a_hub : option jstr; a_hidden : bool }.

Definition apply_alias_hub (v : jstr) (rows : list alias_row) : list alias_row * jstr :=
  let ok r := bool_decide (v = []) || bool_decide (attr (a_hub r) = v) in
  (map (λ r, AliasRow (a_hub r) (negb (ok r))) rows,
   count_text (length (filter (λ r, ok r = true) rows)) (length rows)).

(** ** Lemmas: pages *)

(** A row without its page flag, and without either flag. *)
Definition core (r : mrow) : mrow := set_paged false r.
Definition bare (r : mrow) : mrow := set_hidden false (core r).

Lemma core_set_paged p r : core (set_paged p r) = core r.
Proof. done. Qed.
Lemma core_mark from to i rows : core <$> mark_pages from to i rows = core <$> rows.
Proof.
  revert i. induction rows as [|r t IH]; intros i; [done|]. simpl.
  destruct (r_hidden r); simpl; by rewrite IH.
Qed.

Lemma core_clear rows : core <$> clear_paged rows = core <$> rows.
Proof.
  induction rows as [|r t IH]; [done|].
  change (core (if r_hidden r then r else set_paged false r) :: (core <$> clear_paged t)
          = core r :: (core <$> t)).
  rewrite IH. by destruct (r_hidden r).
Qed.

Lemma visible_cons r t : visible (r :: t) = if r_hidden r then visible t else r :: visible t.
Proof. unfold visible. rewrite filter_cons. destruct (decide _) as [->|]; [done|]. by destruct (r_hidden r). Qed.

Lemma displayed_cons r t :
  displayed (r :: t) = if r_hidden r || r_paged r then displayed t else r :: displayed t.
Proof.
  unfold displayed. rewrite filter_cons.
  destruct (decide _) as [[-> ->]|]; [done|]. destruct (r_hidden r), (r_paged r); naive_solver.
Qed.

Lemma visible_core rows : visible (core <$> rows) = core <$> visible rows.
Proof.
  induction rows as [|r t IH]; [done|]. rewrite fmap_cons, !visible_cons, IH.
  change (r_hidden (core r)) with (r_hidden r). by destruct (r_hidden r).
Qed.

Lemma core_visible_rows rows rows' :
  core <$> rows = core <$> rows' → core <$> visible rows = core <$> visible rows'.
Proof. intros E. by rewrite <- !visible_core, E. Qed.

Lemma core_visible_length rows rows' :
  core <$> rows = core <$> rows' → length (visible rows) = length (visible rows').
Proof.
  intros E%core_visible_rows%(f_equal length). by rewrite !length_fmap in E.
Qed.

(** The rows shown after marking are a slice of the rows not hidden. *)
Lemma displayed_mark from to i rows :
  core <$> displayed (mark_pages from to i rows)
  = core <$> take (Z.to_nat (to - Z.max i from)) (drop (Z.to_nat (from - i)) (visible rows)).
Proof.
  revert i. induction rows as [|r t IH]; intros i; cbn [mark_pages].
  { change (visible []) with (@nil mrow). by rewrite drop_nil, take_nil. }
  rewrite visible_cons. destruct (r_hidden r) eqn:Hr.
  { rewrite displayed_cons, Hr. apply IH. }
  rewrite displayed_cons. change (r_hidden (set_paged _ r)) with (r_hidden r). rewrite Hr.
  cbn [r_paged set_paged orb]. destruct (Z.ltb_spec i from); cbn [orb].
  - rewrite IH. replace (Z.to_nat (from - i)) with (S (Z.to_nat (from - (i + 1)))) by lia.
    by replace (Z.max (i + 1) from) with (Z.max i from) by lia.
  - replace (Z.to_nat (from - i)) with 0%nat by lia.
    replace (Z.max i from) with i by lia. destruct (Z.leb_spec to i).
    + rewrite IH. replace (Z.to_nat (to - Z.max (i + 1) from)) with 0%nat by lia.
      by replace (Z.to_nat (to - i)) with 0%nat by lia.
    + replace (Z.to_nat (to - i)) with (S (Z.to_nat (to - (i + 1)))) by lia.
      rewrite fmap_cons, IH. replace (Z.max (i + 1) from) with (i + 1) by lia.
      by replace (Z.to_nat (from - (i + 1))) with 0%nat by lia.
Qed.

Lemma page_count_pos n sz : 1 ≤ page_count n sz.
Proof. unfold page_count. lia. Qed.

Lemma page_count_covers n sz : 0 ≤ n → 0 < sz → n ≤ page_count n sz * sz.
Proof.
  intros. unfold page_count. pose proof (Z.div_mod (- n) sz ltac:(lia)).
  pose proof (Z.mod_pos_bound (- n) sz ltac:(lia)). nia.
Qed.

Lemma page_count_tight n sz : 0 < n → 0 < sz → (page_count n sz - 1) * sz < n.
Proof.
  intros. unfold page_count. pose proof (Z.div_mod (- n) sz ltac:(lia)).
  pose proof (Z.mod_pos_bound (- n) sz ltac:(lia)). nia.
Qed.

Lemma clamp_page_range page pages : 1 ≤ pages → 1 ≤ clamp_page page pages ≤ pages.
Proof.
  intros. unfold clamp_page. destruct (Z.ltb_spec pages page);
    case_match; lia.
Qed.

Lemma clamp_page_id page pages : 1 ≤ page ≤ pages → clamp_page page pages = page.
Proof.
  intros. unfold clamp_page. destruct (Z.ltb_spec pages page); [lia|].
  destruct (Z.ltb_spec page 1); lia.
Qed.

Definition slice {A} (from len : nat) (l : list A) : list A := take len (drop from l).

Lemma core_slice from len rows rows' :
  core <$> rows = core <$> rows' → core <$> slice from len rows = core <$> slice from len rows'.
Proof. intros E. unfold slice. by rewrite !fmap_take, !fmap_drop, E. Qed.

(** A catalog whose pager is live and whose page size is positive. *)
Definition paged_by (sz : Z) (st : catalog) : Prop :=
  (∃ v, c_size st = Some v ∧ default 10 (parseInt v) = sz) ∧ 0 < sz ∧ is_Some (c_pager st).

(** The state after [paginateCatalog], as a function of the page asked for. *)
Definition on_page (sz page : Z) (base : list mrow) (st : catalog) : Prop :=
  let n := Z.of_nat (length (visible base)) in
  paged_by sz st ∧ c_page st = page ∧ 1 ≤ page ≤ page_count n sz ∧
  core <$> c_rows st = core <$> base ∧
  core <$> displayed (c_rows st)
    = core <$> slice (Z.to_nat ((page - 1) * sz)) (Z.to_nat sz) (visible base) ∧
  c_pager st = Some [PBtn (js "←") (page - 1) (page <=? 1);
                     PInfo (page_info n ((page - 1) * sz) (Z.min n ((page - 1) * sz + sz)));
                     PBtn (js "→") (page + 1) (page_count n sz <=? page)].

Lemma paginate_on_page sz (reset : bool) st base :
  paged_by sz st → core <$> c_rows st = core <$> base →
  on_page sz (clamp_page (if reset then 1 else c_page st)
                (page_count (Z.of_nat (length (visible base))) sz)) base (paginateCatalog reset st).
Proof.
  intros ((v & Hv & Hsz) & Hpos & [pg Hpg]) Hb. unfold paginateCatalog. rewrite Hv, Hpg, Hsz.
  rewrite (proj2 (Z.leb_gt sz 0)) by done.
  rewrite (core_visible_length _ _ Hb).
  set (n := Z.of_nat (length (visible base))).
  set (page := clamp_page _ (page_count n sz)).
  pose proof (clamp_page_range (if reset then 1 else c_page st) (page_count n sz)
                (page_count_pos n sz)) as Hr. fold page in Hr.
  assert (core <$> clear_paged (c_rows st) = core <$> base) as Hc by (by rewrite core_clear).
  split; [by split_and!; [exists v|done|eexists]|].
  split; [done|]. split; [done|]. cbn [c_rows c_pager].
  split; [by rewrite core_mark|]. split; [|done].
  rewrite displayed_mark. unfold slice.
  assert (0 ≤ (page - 1) * sz) as H0 by nia.
  replace (Z.max 0 ((page - 1) * sz)) with ((page - 1) * sz) by lia.
  rewrite Z.sub_0_r.
  rewrite !fmap_take, !fmap_drop, (core_visible_rows _ _ Hc).
  set (X := core <$> visible base). assert (Z.of_nat (length X) = n) as HX.
  { subst X n. by rewrite length_fmap. }
  destruct (Z.min_spec n ((page - 1) * sz + sz)) as [[Hlt ->]|[Hge ->]].
  - rewrite !take_ge; [done|rewrite length_drop; lia..].
  - f_equal. lia.
Qed.

Lemma concat_slices {A} (l : list A) (s m : nat) :
  concat (map (λ k, slice (k * s) s l) (seq 0 m)) = take (m * s) l.
Proof.
  induction m as [|m IH]; [done|].
  rewrite seq_S, map_app, concat_app, IH. simpl. rewrite app_nil_r. unfold slice.
  rewrite take_take_drop. f_equal. lia.
Qed.

Lemma click_next_on_page sz page base st :
  on_page sz page base st →
  on_page sz (Z.min (page + 1) (page_count (Z.of_nat (length (visible base))) sz)) base
    (click_next st).
Proof.
  intros Hon. pose proof Hon as (Hp & Hpage & Hr & Hb & _ & Hpg).
  unfold click_next. rewrite Hpg. simpl.
  destruct (Z.leb_spec (page_count (Z.of_nat (length (visible base))) sz) page).
  - by replace (Z.min _ _) with page by lia.
  - replace (Z.min (page + 1) _) with
      (clamp_page (page + 1) (page_count (Z.of_nat (length (visible base))) sz)).
    2:{ rewrite clamp_page_id; lia. }
    apply (paginate_on_page sz false
             (Catalog (page + 1) (c_rows st) (c_size st) (c_pager st) (c_count st))); [|done].
    destruct Hp as ((v & Hv & Hs) & Hpos & Hpgr). split_and!; [by exists v|done|done].
Qed.

(** The state after [k] clicks on "→" from the first page. *)
Definition after_clicks (k : nat) (st : catalog) : catalog :=
  Nat.iter k click_next (paginateCatalog true st).

Lemma after_clicks_on_page sz st k :
  paged_by sz st →
  on_page sz (Z.min (Z.of_nat k + 1) (page_count (Z.of_nat (length (visible (c_rows st)))) sz))
    (c_rows st) (after_clicks k st).
Proof.
  intros Hp. induction k as [|k IH].
  - pose proof (paginate_on_page sz true st (c_rows st) Hp eq_refl) as H0. simpl in H0.
    rewrite clamp_page_id in H0.
    2:{ pose proof (page_count_pos (Z.of_nat (length (visible (c_rows st)))) sz). lia. }
    unfold after_clicks. simpl.
    pose proof (page_count_pos (Z.of_nat (length (visible (c_rows st)))) sz).
    by replace (Z.min _ _) with 1 by lia.
  - apply click_next_on_page in IH. unfold after_clicks in *. simpl.
    by replace (Z.min (Z.of_nat (S k) + 1) _) with
      (Z.min (Z.min (Z.of_nat k + 1) (page_count (Z.of_nat (length (visible (c_rows st)))) sz) + 1)
         (page_count (Z.of_nat (length (visible (c_rows st)))) sz)) by lia.
Qed.

(** C15: the pager reaches every row exactly once.  Clicking "→" from the first
    page shows pages 1, 2, ..., each with at most the chosen number of rows;
    put together they are the rows the filters left, in order; and on the last
    page "→" is disabled, so a further click changes nothing. *)
Theorem pager_covers st sz :
  paged_by sz st →
  let pages := Z.to_nat (page_count (Z.of_nat (length (visible (c_rows st)))) sz) in
  (∀ k, (k < pages)%nat →
     c_page (after_clicks k st) = Z.of_nat k + 1 ∧
     Z.of_nat (length (displayed (c_rows (after_clicks k st)))) ≤ sz) ∧
  core <$> concat (map (λ k, displayed (c_rows (after_clicks k st))) (seq 0 pages))
    = core <$> visible (c_rows st) ∧
  after_clicks pages st = after_clicks (pred pages) st.
Proof.
  intros Hp. set (P := page_count _ sz). intros pages.
  pose proof Hp as (_ & Hpos & _).
  assert (1 ≤ P) as HP1 by apply page_count_pos.
  assert (∀ k, (k < pages)%nat → on_page sz (Z.of_nat k + 1) (c_rows st) (after_clicks k st)) as Hon.
  { intros k Hk. pose proof (after_clicks_on_page sz st k Hp) as H. fold P in H.
    replace (Z.min (Z.of_nat k + 1) P) with (Z.of_nat k + 1) in H by lia. done. }
  split; [|split].
  - intros k Hk. destruct (Hon k Hk) as (_ & Hpg & _ & _ & Hd & _). split; [done|].
    apply (f_equal length) in Hd. rewrite !length_fmap in Hd. rewrite Hd.
    unfold slice. rewrite length_take. lia.
  - transitivity (concat (map (λ k, slice (k * Z.to_nat sz) (Z.to_nat sz)
                                      (core <$> visible (c_rows st))) (seq 0 pages))).
    + clear HP1. subst pages. revert Hon. generalize (Z.to_nat P). intros m.
      induction m as [|m IH]; intros Hon; [done|].
      rewrite seq_S, !map_app, !concat_app, fmap_app, IH by (intros; apply Hon; lia).
      f_equal. simpl. rewrite !app_nil_r.
      destruct (Hon m ltac:(lia)) as (_ & _ & _ & _ & -> & _).
      unfold slice. rewrite fmap_take, fmap_drop. do 2 f_equal.
      replace (Z.of_nat m + 1 - 1) with (Z.of_nat m) by lia. lia.
    + rewrite concat_slices, take_ge; [done|]. rewrite length_fmap.
      pose proof (page_count_covers (Z.of_nat (length (visible (c_rows st)))) sz ltac:(lia) Hpos).
      fold P in H. subst pages. nia.
  - destruct pages as [|m] eqn:Em; [done|]. simpl pred.
    destruct (Hon m ltac:(lia)) as (_ & _ & _ & _ & _ & Hpg).
    unfold after_clicks in *. simpl. unfold click_next at 1. rewrite Hpg. fold P.
    destruct (Z.leb_spec P (Z.of_nat m + 1)); [done|]. lia.
Qed.

(** ** Properties of the filters *)

Lemma visible_filter_rows `{CaseFold} F trs rows :
  visible (filter_rows F trs rows)
  = set_hidden false <$> filter (λ el, row_ok F trs el = true) rows.
Proof.
  induction rows as [|r t IH]; [done|]. unfold filter_rows in *. cbn [map].
  rewrite visible_cons, IH, filter_cons.
  change (r_hidden (set_hidden ?h ?x)) with h.
  destruct (row_ok F trs r) eqn:E; [|done]. by rewrite decide_True.
Qed.

Lemma core_hidden (rows rows' : list mrow) : core <$> rows = core <$> rows' → r_hidden <$> rows = r_hidden <$> rows'.
Proof.
  intros E. apply (f_equal (fmap r_hidden)) in E. rewrite <- !list_fmap_compose in E. done.
Qed.

Lemma core_bare (rows rows' : list mrow) : core <$> rows = core <$> rows' → bare <$> rows = bare <$> rows'.
Proof.
  intros E. apply (f_equal (fmap (set_hidden false))) in E.
  rewrite <- !list_fmap_compose in E. done.
Qed.

(** C11: after any change of a filter the catalog shows the first page of exactly
    the rows that satisfy every filter, the counter says how many they are of
    how many, and nothing but the two visibility flags of a row has changed. *)
Theorem apply_catalog_spec `{CaseFold} F st sz :
  paged_by sz st → c_rows st ≠ [] →
  let rows := c_rows st in
  let ok := filter (λ el, row_ok F rows el = true) rows in
  let st' := apply_catalog F st in
  bare <$> displayed (c_rows st') = bare <$> take (Z.to_nat sz) ok ∧
  c_page st' = 1 ∧
  r_hidden <$> c_rows st' = (λ el, negb (row_ok F rows el)) <$> rows ∧
  bare <$> c_rows st' = bare <$> rows ∧
  c_count st' = option_map (λ _, count_text (length ok) (length rows)) (c_count st).
Proof.
  intros Hp Hne rows ok st'.
  set (fr := filter_rows F rows rows).
  pose proof (paginate_on_page sz true
    (Catalog (c_page st) fr (c_size st) (c_pager st) (c_count st)) fr) as Hon.
  assert (paged_by sz (Catalog (c_page st) fr (c_size st) (c_pager st) (c_count st))) as Hp'.
  { destruct Hp as ((v & Hv & Hs) & Hpos & Hpg). split_and!; [by exists v|done|done]. }
  specialize (Hon Hp' eq_refl). simpl in Hon.
  rewrite clamp_page_id in Hon
    by (pose proof (page_count_pos (Z.of_nat (length (visible fr))) sz); lia).
  destruct Hon as (_ & Hpage & _ & Hcore & Hdisp & _).
  assert (c_rows st' = c_rows (paginateCatalog true
     (Catalog (c_page st) fr (c_size st) (c_pager st) (c_count st)))) as Hrows by done.
  rewrite Hrows. split_and!.
  - apply core_bare in Hdisp. rewrite Hdisp. unfold slice. subst fr.
    rewrite visible_filter_rows. fold ok. rewrite !fmap_take, !fmap_drop.
    rewrite <- list_fmap_compose. done.
  - done.
  - rewrite (core_hidden _ _ Hcore). subst fr. unfold filter_rows.
    change (map ?g) with (fmap (M:=list) g). by rewrite <- list_fmap_compose.
  - rewrite (core_bare _ _ Hcore). subst fr. unfold filter_rows.
    change (map ?g) with (fmap (M:=list) g). by rewrite <- list_fmap_compose.
  - unfold st', apply_catalog. cbn [c_count].
    rewrite bool_decide_false by (rewrite length_zero_iff_nil; done).
    fold rows fr. subst fr. rewrite visible_filter_rows, length_fmap. done.
Qed.

(** The price choices of the catalog.  "free", "paid" and "none" split the
    rows; the three upper bounds are nested; a priced row is under $10 or in
    "from $10", never both; a row without a price matches no amount. *)
Theorem price_bands band prompt :
  let m w := matchBand band prompt (js w) in
  m "" = true ∧
  (m "free" = true ∧ m "paid" = false ∧ m "none" = false ∨
   m "free" = false ∧ m "paid" = true ∧ m "none" = false ∨
   m "free" = false ∧ m "paid" = false ∧ m "none" = true) ∧
  (m "lt0.5" = true → m "lt2" = true) ∧ (m "lt2" = true → m "lt10" = true) ∧
  (if m "none" then m "lt10" = false ∧ m "more" = false else m "more" = negb (m "lt10")).
Proof.
  intros m. unfold m, matchBand. clear m. js_decide.
  set (p := num_or0 _). assert (p ≠ NaN) as Hp.
  { subst p. unfold num_or0. destruct (num_truthy _) eqn:E; [|done]. by intros Hn; rewrite Hn in E. }
  assert (∀ a b, num_leb a b = true → num_ltb p a = true → num_ltb p b = true) as Hmono.
  { intros a b Hab Hpa. by eapply num_ltb_leb_trans. }
  split; [done|]. split.
  { destruct (decide (band = js "none")) as [->|Hn]; [right; right; js_decide; done|].
    rewrite (bool_decide_false _ Hn). destruct (bool_decide (band = js "free")); simpl; tauto. }
  split.
  { rewrite !andb_true_iff. intros [-> H]. split; [done|]. by apply (Hmono num_half). }
  split.
  { rewrite !andb_true_iff. intros [-> H]. split; [done|]. by apply (Hmono (num_int 2)). }
  destruct (bool_decide (band = js "none")); cbn [negb andb]; [done|].
  by apply num_leb_total.
Qed.

(** ** Hub ranks *)

(** Ids the object can hold as keys: not empty, not answered for by the prototype. *)
Definition ordinary (id : jstr) : Prop := id ≠ [] ∧ id ∉ proto_names.

(** The ratings the rows give a node. *)
Definition ratings (rows : list mrow) (id : jstr) : list Z :=
  omap (λ el, if bool_decide (r_hub el = Some (js "1")) && bool_decide (attr (r_hub_node el) = id)
              then Some (int_attr (r_hub_rating el)) else None) rows.

Lemma hub_best_snoc rows el : hub_best (rows ++ [el]) = record_best (hub_best rows) el.
Proof. unfold hub_best. by rewrite foldl_app. Qed.

Lemma ratings_snoc rows el id :
  ratings (rows ++ [el]) id = ratings rows id ++ ratings [el] id.
Proof. apply omap_app. Qed.

Definition max_of (l : list Z) : option Z :=
  match l with [] => None | x :: t => Some (foldl Z.max x t) end.

Lemma max_of_snoc l x : max_of (l ++ [x]) = Some (match max_of l with Some m => Z.max m x | None => x end).
Proof. destruct l as [|y l]; [done|]. simpl. by rewrite foldl_app. Qed.

(** [best] maps every ordinary node to the best rating of its rows, and holds
    nothing else. *)
Lemma hub_best_spec rows :
  NoDup (hub_best rows).*1 ∧
  (∀ id, ordinary id → assoc id (hub_best rows) = max_of (ratings rows id)) ∧
  (∀ id, id ∈ (hub_best rows).*1 → ordinary id).
Proof.
  induction rows as [|el rows IH] using rev_ind; [split_and!; [constructor|done|set_solver]|].
  destruct IH as (Hnd & Has & Hord). rewrite hub_best_snoc.
  unfold record_best. set (b := hub_best rows) in *.
  assert (∀ id, ratings (rows ++ [el]) id =
    if bool_decide (r_hub el = Some (js "1")) && bool_decide (attr (r_hub_node el) = id)
    then ratings rows id ++ [int_attr (r_hub_rating el)] else ratings rows id) as Hrt.
  { intros id. rewrite ratings_snoc. unfold ratings at 2. simpl.
    destruct (_ && _); [done|]. by rewrite app_nil_r. }
  destruct (bool_decide (r_hub el = Some (js "1"))) eqn:Ehub.
  2:{ split_and!; [done| |done]. intros id Hid. rewrite Hrt. simpl. by apply Has. }
  clear Ehub. set (node := attr (r_hub_node el)) in *. set (r := int_attr (r_hub_rating el)) in *.
  destruct (decide (node = [])) as [Hn|Hn].
  { rewrite Hn. simpl. split_and!; [done| |done]. intros id Hid. rewrite Hrt, Hn.
    rewrite bool_decide_false by (destruct Hid; congruence). by apply Has. }
  rewrite (bool_decide_false _ Hn).
  assert (∀ id, ordinary id → id ≠ node → assoc id b = max_of (ratings (rows ++ [el]) id)) as Hother.
  { intros id Hid Hne. rewrite Hrt, (bool_decide_false (node = id)) by done. simpl. by apply Has. }
  assert (ordinary node → assoc node b = max_of (ratings rows node)) as Hsame by apply Has.
  assert (max_of (ratings (rows ++ [el]) node) =
          Some (match max_of (ratings rows node) with Some m => Z.max m r | None => r end)) as Hnew.
  { rewrite Hrt, (bool_decide_true (node = node)) by done. simpl. apply max_of_snoc. }
  unfold obj_get. destruct (assoc node b) as [m|] eqn:Em.
  - assert (ordinary node) as Hnode.
    { apply Hord. destruct (decide (node ∈ b.*1)) as [|Hnin]; [done|].
      apply assoc_None in Hnin. congruence. }
    specialize (Hsame Hnode). rewrite <- Hsame in Hnew.
    destruct (Z.ltb_spec m r).
    + split_and!; [by apply obj_set_NoDup| |].
      * intros id Hid. rewrite assoc_obj_set. case_bool_decide as E; [|by apply Hother].
        subst id. rewrite Hnew. f_equal. lia.
      * intros id. rewrite obj_set_keys. case_bool_decide; [apply Hord|].
        intros [?| ->%list_elem_of_singleton]%elem_of_app; [by apply Hord|done].
    + split_and!; [done| |done]. intros id Hid.
      destruct (decide (id = node)) as [->|]; [|by apply Hother].
      rewrite Em, Hnew. f_equal. lia.
  - destruct (decide (node ∈ proto_names)) as [Hpr|Hpr].
    + rewrite bool_decide_true by done. split_and!; [done| |done]. intros id Hid.
      apply Hother; [done|]. intros ->. by destruct Hid.
    + rewrite bool_decide_false by done.
      assert (ordinary node) as Hnode by done.
      specialize (Hsame Hnode). rewrite <- Hsame in Hnew.
      split_and!; [by apply obj_set_NoDup| |].
      * intros id Hid. rewrite assoc_obj_set. case_bool_decide as E; [|by apply Hother].
        by subst id.
      * intros id. rewrite obj_set_keys. case_bool_decide; [apply Hord|].
        intros [?| ->%list_elem_of_singleton]%elem_of_app; [by apply Hord|done].
Qed.

Lemma insert_by_perm best id l : insert_by best id l ≡ₚ id :: l.
Proof.
  induction l as [|y t IH]; [done|]. simpl. destruct (_ <? _); [|done].
  rewrite IH. apply Permutation_swap.
Qed.

Lemma sort_ids_perm best ids : sort_ids best ids ≡ₚ ids.
Proof. induction ids as [|x t IH]; [done|]. simpl. by rewrite insert_by_perm, IH. Qed.

Definition better_first (best : list (jstr * Z)) : jstr → jstr → Prop :=
  λ a b, rating_of best b ≤ rating_of best a.

Lemma sort_ids_sorted best ids : StronglySorted (better_first best) (sort_ids best ids).
Proof.
  induction ids as [|x t IH]; [constructor|]. simpl. revert IH.
  generalize (sort_ids best t) as l. clear t.
  induction 1 as [|y l Hl IHl Hy]; simpl; [repeat constructor|].
  destruct (Z.ltb_spec (rating_of best x) (rating_of best y)).
  - constructor; [done|]. rewrite insert_by_perm. constructor; [|done].
    unfold better_first. lia.
  - constructor; [by constructor|]. constructor; [unfold better_first; lia|].
    eapply Forall_impl; [exact Hy|]. unfold better_first. intros z Hz. simpl in *. lia.
Qed.

Lemma StronglySorted_lookup {A} (R : A → A → Prop) l i j a b :
  StronglySorted R l → l !! i = Some a → l !! j = Some b → (i < j)%nat → R a b.
Proof.
  intros Hs. revert i j. induction Hs as [|x l Hs IH Hx]; intros i j; [done|].
  destruct i as [|i], j as [|j]; simpl; intros Hi Hj Hlt; try lia.
  - injection Hi as ->. rewrite Forall_forall in Hx. apply Hx. by eapply list_elem_of_lookup_2.
  - apply (IH i j); [done|done|lia].
Qed.

(** The rank object: the sorted ids, numbered from one. *)
Lemma ranks_numbered (ids : list jstr) (k : nat) (acc : list (jstr * Z)) :
  NoDup (acc.*1 ++ ids) →
  foldl (λ rank p, obj_set (p.2) (Z.of_nat (p.1) + 1) rank) acc
        (imap (λ i x, (k + i, x)%nat) ids)
  = acc ++ imap (λ i x, (x, Z.of_nat (k + i) + 1)) ids.
Proof.
  revert k acc. induction ids as [|x ids IH]; intros k acc Hnd; simpl.
  { by rewrite app_nil_r. }
  assert (obj_set x (Z.of_nat (k + 0) + 1) acc = acc ++ [(x, Z.of_nat (k + 0) + 1)]) as ->.
  { apply NoDup_app in Hnd as (_ & Hd & _).
    assert (x ∉ acc.*1) as Hx by (intros Hx; apply (Hd x Hx); left).
    clear -Hx. induction acc as [|[k' a'] kv IH]; [done|]. simpl.
    rewrite bool_decide_false by set_solver. rewrite IH by set_solver. done. }
  rewrite (imap_ext _ (λ i y, (S k + i, y)%nat) ids) by (intros; simpl; f_equal; lia).
  rewrite IH.
  - rewrite <- app_assoc. simpl. do 2 f_equal. apply imap_ext. intros. simpl. f_equal. lia.
  - rewrite fmap_app, <- app_assoc. done.
Qed.

Lemma hubNodeRanks_eq rows :
  hubNodeRanks rows = imap (λ i x, (x, Z.of_nat i + 1))
                        (sort_ids (hub_best rows) (own_keys (hub_best rows))).
Proof.
  unfold hubNodeRanks.
  rewrite (imap_ext pair (λ i x, (0 + i, x)%nat)) by done.
  rewrite (ranks_numbered _ 0 []); [done|]. simpl.
  rewrite sort_ids_perm. unfold own_keys. change (map fst ?l) with (l.*1).
  rewrite own_entries_perm. apply hub_best_spec.
Qed.

Lemma assoc_imap (ids : list jstr) (k : nat) id r :
  NoDup ids →
  assoc id (imap (λ i x, (x, Z.of_nat (k + i) + 1)) ids) = Some r ↔
  ∃ i, ids !! i = Some id ∧ r = Z.of_nat (k + i) + 1.
Proof.
  revert k. induction ids as [|x ids IH]; intros k Hnd; simpl; [naive_solver|].
  apply NoDup_cons in Hnd as [Hx Hnd].
  rewrite (imap_ext _ (λ i y, (y, Z.of_nat (S k + i) + 1)) ids)
    by (intros; simpl; f_equal; lia).
  destruct (decide (id = x)) as [->|Hne].
  - rewrite bool_decide_true by done. split.
    + intros [= <-]. by exists 0%nat.
    + intros ([|i] & Hi & ->); [done|]. simpl in Hi.
      destruct Hx. by eapply list_elem_of_lookup_2.
  - rewrite bool_decide_false by done. rewrite IH by done. split.
    + intros (i & Hi & ->). exists (S i). split; [done|]. lia.
    + intros ([|i] & Hi & ->); [simpl in Hi; congruence|]. exists i. split; [done|]. lia.
Qed.

Lemma rank_lookup rows id r :
  assoc id (hubNodeRanks rows) = Some r ↔
  ∃ i, sort_ids (hub_best rows) (own_keys (hub_best rows)) !! i = Some id ∧ r = Z.of_nat i + 1.
Proof.
  rewrite hubNodeRanks_eq.
  apply (assoc_imap _ 0). rewrite sort_ids_perm. unfold own_keys.
  change (map fst ?l) with (l.*1). rewrite own_entries_perm. apply hub_best_spec.
Qed.

(** C28: hub ranks.  An ordinary node id has a rank exactly when some hub row
    names it; ranks are distinct and dense from 1; a node ranked before another
    has at least its best rating. *)
Theorem hub_ranks_spec rows :
  let rank := hubNodeRanks rows in
  let n := length rank in
  rank.*2 = (λ i, Z.of_nat i + 1) <$> seq 0 n ∧
  NoDup rank.*1 ∧
  (∀ id, ordinary id → (is_Some (assoc id rank) ↔ ratings rows id ≠ [])) ∧
  (∀ a b ra rb ma mb, assoc a rank = Some ra → assoc b rank = Some rb → ra < rb →
     max_of (ratings rows a) = Some ma → max_of (ratings rows b) = Some mb → mb ≤ ma).
Proof.
  intros rank n. destruct (hub_best_spec rows) as (Hnd & Has & Hord).
  set (ids := sort_ids (hub_best rows) (own_keys (hub_best rows))).
  assert (rank = imap (λ i x, (x, Z.of_nat i + 1)) ids) as Hrank by apply hubNodeRanks_eq.
  assert (ids ≡ₚ (hub_best rows).*1) as Hids.
  { unfold ids. rewrite sort_ids_perm. unfold own_keys. change (map fst ?l) with (l.*1).
    by rewrite own_entries_perm. }
  assert (rank.*1 = ids) as Hfst.
  { rewrite Hrank, fmap_imap. clear. induction ids as [|x t IH] using rev_ind; [done|].
    rewrite imap_app, IH. done. }
  split_and!.
  - subst n. rewrite Hrank. rewrite fmap_imap, length_imap. clear.
    induction ids as [|x t IH] using rev_ind; [done|].
    rewrite imap_app, length_app, seq_app, fmap_app. f_equal; [exact IH|].
    simpl. by rewrite Nat.add_0_r.
  - by rewrite Hfst, Hids.
  - intros id Hid. split.
    + intros [r (i & Hi & _)%rank_lookup]. apply list_elem_of_lookup_2 in Hi.
      fold ids in Hi. rewrite Hids in Hi. intros Hr.
      pose proof (Has id Hid) as Ha. rewrite Hr in Ha. by apply assoc_None in Ha.
    + intros Hr. destruct (decide (id ∈ ids)) as [Hin|Hnin].
      * apply list_elem_of_lookup in Hin as [i Hi]. exists (Z.of_nat i + 1).
        apply rank_lookup. eauto.
      * rewrite Hids in Hnin. apply assoc_None in Hnin. rewrite (Has id Hid) in Hnin.
        by destruct (ratings rows id).
  - intros a b ra rb ma mb (i & Hi & ->)%rank_lookup (j & Hj & ->)%rank_lookup Hlt Hma Hmb.
    fold ids in Hi, Hj.
    assert (rating_of (hub_best rows) b ≤ rating_of (hub_best rows) a) as Hle.
    { pose proof (sort_ids_sorted (hub_best rows) (own_keys (hub_best rows))) as Hs.
      apply (StronglySorted_lookup _ _ i j a b Hs Hi Hj). lia. }
    unfold rating_of in Hle. rewrite !Has in Hle.
    2,3: apply Hord; rewrite <- Hids; by eapply list_elem_of_lookup_2.
    rewrite Hma, Hmb in Hle. done.
Qed.

Lemma server_ok_top `{CaseFold} F trs el lim :
  f_server F = Some (js "__hub_top10__") ∧ lim = 10 ∨
  f_server F = Some (js "__hub_top100__") ∧ lim = 100 →
  server_ok F trs el =
    bool_decide (r_hub el = Some (js "1")) && negb (rank_fails trs (attr (r_hub_node el)) lim).
Proof.
  unfold server_ok. intros [[-> ->]|[-> ->]]; cbn [attr default]; js_decide; simpl;
    by destruct (bool_decide (r_hub el = Some (js "1"))); simpl; rewrite ?andb_true_r.
Qed.

(** The two "Hub · top" choices.  A row with an ordinary node id passes
    exactly when it is a hub row of a node ranked within the limit, so the rows
    that pass belong to at most 10 (or 100) different nodes. *)
Theorem hub_top_limit `{CaseFold} F trs lim :
  f_server F = Some (js "__hub_top10__") ∧ lim = 10 ∨
  f_server F = Some (js "__hub_top100__") ∧ lim = 100 →
  (∀ el, ordinary (attr (r_hub_node el)) →
     (server_ok F trs el = true ↔ r_hub el = Some (js "1") ∧
        ∃ k, assoc (attr (r_hub_node el)) (hubNodeRanks trs) = Some k ∧ k ≤ lim)) ∧
  (∀ ns, NoDup ns →
     (∀ id, id ∈ ns → ordinary id ∧
        ∃ el, attr (r_hub_node el) = id ∧ server_ok F trs el = true) →
     Z.of_nat (length ns) ≤ lim).
Proof.
  intros HF.
  assert (∀ el, ordinary (attr (r_hub_node el)) →
     (server_ok F trs el = true ↔ r_hub el = Some (js "1") ∧
        ∃ k, assoc (attr (r_hub_node el)) (hubNodeRanks trs) = Some k ∧ k ≤ lim)) as Hok.
  { intros el [_ Hpr]. rewrite (server_ok_top F trs el lim HF), andb_true_iff, bool_decide_eq_true.
    unfold rank_fails, obj_get. f_equiv.
    destruct (assoc _ (hubNodeRanks trs)) as [k|] eqn:Ek.
    - assert (1 ≤ k) as Hk by (apply rank_lookup in Ek as (i & _ & ->); lia).
      rewrite negb_true_iff, orb_false_iff, Z.eqb_neq, Z.ltb_ge. naive_solver lia.
    - rewrite bool_decide_false by done. naive_solver. }
  split; [exact Hok|]. intros ns Hnd Hns.
  set (ids := sort_ids (hub_best trs) (own_keys (hub_best trs))).
  assert (ns ⊆ take (Z.to_nat lim) ids) as Hsub.
  { intros id Hid. destruct (Hns id Hid) as (Hord & el & <- & Hs).
    apply Hok in Hs as (_ & k & (i & Hi & ->)%rank_lookup & Hk); [|done].
    apply (list_elem_of_lookup_2 _ i). rewrite lookup_take_lt by lia. done. }
  apply (NoDup_submseteq _ _ Hnd) in Hsub. apply submseteq_length in Hsub.
  rewrite length_take in Hsub. destruct HF as [[_ ->]|[_ ->]]; lia.
Qed.

(** ** Concrete pages, for evaluation *)

Definition demo_row (name band hub node rating : string) : mrow :=
  MRow (Some (js name)) None (Some (js "meta")) (Some (js band)) (Some (js "0.4")) None
       (Some (js "mac-80,mac-82")) (Some (js hub)) (Some (js node)) (Some (js rating)) None
       (Some (CBox (js name) false false)) false false.

Definition demo_catalog : catalog :=
  Catalog 1 [demo_row "llama3.2" "lt2" "0" "" ""; demo_row "qwen3" "free" "1" "n7" "40";
             demo_row "gpt-oss" "none" "1" "n9" "55"; demo_row "phi4" "lt2" "1" "n7" "61"]
    (Some (js "2")) (Some []) (Some []).

Definition no_filters : filters := Filters None None None None None None.
Definition demo_top10 : filters :=
  Filters (Some []) (Some []) (Some []) (Some []) (Some (js "__hub_top10__")) None.

Lemma demo_catalog_paged : paged_by 2 demo_catalog.
Proof. split_and!; [by exists (js "2")|done|by eexists]. Qed.

Lemma pager_covers_witness :
  core <$> concat (map (λ k, displayed (c_rows (after_clicks k demo_catalog))) (seq 0 2))
  = core <$> visible (c_rows demo_catalog).
Proof. exact (proj1 (proj2 (pager_covers demo_catalog 2 demo_catalog_paged))). Defined.

Lemma apply_catalog_spec_witness :
  let F := Filters (Some (js "LLA")) None (Some (js "lt0.5")) None None None in
  c_count (apply_catalog (H:=AsciiCyrillicFold) F demo_catalog) = Some (js "1 из 4").
Proof.
  intros F. etransitivity.
  - apply (apply_catalog_spec (H:=AsciiCyrillicFold) F demo_catalog 2 demo_catalog_paged).
    discriminate.
  - vm_compute. reflexivity.
Defined.

Lemma hub_top_limit_witness :
  Z.of_nat (length [js "n7"; js "n9"]) ≤ 10.
Proof.
  apply (proj2 (hub_top_limit (H:=AsciiCyrillicFold) demo_top10 (c_rows demo_catalog) 10
                  (or_introl (conj eq_refl eq_refl)))).
  - apply (bool_decide_unpack _). vm_compute. exact I.
  - intros id [->|[->|[]%elem_of_nil]%elem_of_cons]%elem_of_cons.
    + split; [split; [discriminate|apply (bool_decide_unpack _); vm_compute; exact I]|].
      exists (demo_row "qwen3" "free" "1" "n7" "40"). split; vm_compute; reflexivity.
    + split; [split; [discriminate|apply (bool_decide_unpack _); vm_compute; exact I]|].
      exists (demo_row "gpt-oss" "none" "1" "n9" "55"). split; vm_compute; reflexivity.
Defined.
