(* ===== verification/KeyPicker.v ===== *)
(** * The model picker of the key form

    app.js lines 45-55 ([data-toggle]), 94-109 ("all models"), 185-257
    ([bindModelFilters] on [#key-models .pick]) and 293-346 ([keyPicker]): the
    check boxes of the list, the chips that repeat the picked names, the
    filters, and the handlers that are meant to keep the three in step. *)

From S2P Require Import Prelude JsString JsNumber JsValue Catalog.
Open Scope Z_scope.

(** ** State *)

(** The children of [#key-models]: group heads and picks. *)
Inductive kitem : Type :=
  | KGroup (hidden : bool)
  | KPick (r : mrow).

Record keypage := KeyPage {
  k_items : list kitem;
  k_name : option jstr; k_prov : option jstr; k_price : option jstr; k_only : option bool;
  k_count : option jstr;
  k_chips : list jstr;
  k_n : option jstr;
  k_empty : option bool;
}.

Definition picks (l : list kitem) : list mrow :=
  omap (λ x, match x with KPick r => Some r | KGroup _ => None end) l.

Definition map_picks (f : mrow → mrow) (l : list kitem) : list kitem :=
  map (λ x, match x with KPick r => KPick (f r) | KGroup h => KGroup h end) l.

Definition set_items (l : list kitem) (st : keypage) : keypage :=
  KeyPage l (k_name st) (k_prov st) (k_price st) (k_only st) (k_count st) (k_chips st)
          (k_n st) (k_empty st).

Definition checked (r : mrow) : bool :=
  match r_cb r with Some c => cb_checked c | None => false end.
Definition set_checked (b : bool) (r : mrow) : mrow :=
  set_cb (option_map (λ c, CBox (cb_value c) b (cb_disabled c)) (r_cb r)) r.
Definition enabled (r : mrow) : bool :=
  match r_cb r with Some c => negb (cb_disabled c) | None => false end.

(** [list.querySelectorAll("input[name=model]:checked")], the values. *)
Definition selected (l : list kitem) : list jstr :=
  omap (λ r, match r_cb r with
             | Some c => if cb_checked c then Some (cb_value c) else None
             | None => None
             end) (picks l).

Section WithFold.
Context `{CaseFold}.

(** ** [apply] of the key form *)

(** The page has no media or server choice and no catalog rows to rank. *)
Definition key_filters (st : keypage) : filters :=
  Filters (k_name st) (k_prov st) (k_price st) None None (k_only st).

(** A group head is shown when a pick before the next head is. *)
Fixpoint any_until_group (l : list kitem) : bool :=
  match l with
  | [] | KGroup _ :: _ => false
  | KPick r :: t => negb (r_hidden r) || any_until_group t
  end.
Fixpoint sync_groups (l : list kitem) : list kitem :=
  match l with
  | [] => []
  | KGroup _ :: t => KGroup (negb (any_until_group t)) :: sync_groups t
  | KPick r :: t => KPick r :: sync_groups t
  end.

Definition applyKeyFilters (st : keypage) : keypage :=
  let F := key_filters st in
  let items := map_picks (λ r, set_hidden (negb (row_ok F [] r)) r) (k_items st) in
  let total := length (picks items) in
  KeyPage (sync_groups items) (k_name st) (k_prov st) (k_price st) (k_only st)
    (if bool_decide (total = 0%nat) then k_count st
     else option_map (λ _, count_text (length (visible (picks items))) total) (k_count st))
    (k_chips st) (k_n st) (k_empty st).

(** ** [keyPicker] *)

Definition syncPicked (st : keypage) : keypage :=
  let sel := selected (k_items st) in
  KeyPage (k_items st) (k_name st) (k_prov st) (k_price st) (k_only st) (k_count st) sel
    (option_map (λ _, of_int (Z.of_nat (length sel))) (k_n st))
    (option_map (λ _, negb (bool_decide (sel = []))) (k_empty st)).

Definition resync (st : keypage) : keypage := applyKeyFilters (syncPicked st).

(** A click on the chip of [name]. *)
Definition chip_click (name : jstr) (st : keypage) : keypage :=
  resync (set_items (map_picks (λ r,
    match r_cb r with
    | Some c => if bool_decide (cb_value c = name) then set_checked false r else r
    | None => r
    end) (k_items st)) st).

Definition clear_click (st : keypage) : keypage :=
  resync (set_items (map_picks (λ r, if checked r then set_checked false r else r)
                       (k_items st)) st).

(** [[data-group-check]]: the visible, enabled picks of the group. *)
Definition group_click (g : jstr) (st : keypage) : keypage :=
  resync (set_items (map_picks (λ r,
    if bool_decide (r_group r = Some g) && negb (r_hidden r) && enabled r
    then set_checked true r else r) (k_items st)) st).

(** The user flips the [n]-th item's check box (an enabled one): the list's
    [change] listener runs. *)
Definition list_change (n : nat) (st : keypage) : keypage :=
  match k_items st !! n with
  | Some (KPick r) =>
    if enabled r then
      resync (set_items (<[n := KPick (set_checked (negb (checked r)) r)]> (k_items st)) st)
    else st
  | _ => st
  end.

(** ** Listeners outside the picker *)

(** A filter control changes: [apply] alone runs. *)
Definition filter_change (name prov price : option jstr) (only : option bool) (st : keypage)
    : keypage :=
  applyKeyFilters (KeyPage (k_items st) name prov price only (k_count st) (k_chips st)
                     (k_n st) (k_empty st)).

(** [[data-toggle="#key-models"]] (lines 45-55): a script that sets [checked]
    sends no [change] event, so nothing of the picker runs. *)
Definition toggle_change (on : bool) (st : keypage) : keypage :=
  set_items (map_picks (λ r,
    if enabled r && negb (r_hidden r) then set_checked on r else r) (k_items st)) st.

(** "All models" (lines 94-109): every input of the box is disabled or enabled. *)
Definition all_models_change (on : bool) (st : keypage) : keypage :=
  set_items (map_picks (λ r,
    set_cb (option_map (λ c, CBox (cb_value c) (cb_checked c) on) (r_cb r)) r) (k_items st)) st.

(** ** Steps *)

Inductive kevent : Type :=
  | EvChip (name : jstr)
  | EvClear
  | EvGroup (g : jstr)
  | EvList (n : nat)
  | EvFilter (name prov price : option jstr) (only : option bool)
  | EvToggle (on : bool)
  | EvAll (on : bool).

Definition kstep (st : keypage) (e : kevent) : keypage :=
  match e with
  | EvChip name => chip_click name st
  | EvClear => clear_click st
  | EvGroup g => group_click g st
  | EvList n => list_change n st
  | EvFilter name prov price only => filter_change name prov price only st
  | EvToggle on => toggle_change on st
  | EvAll on => all_models_change on st
  end.

(** The page after its scripts have run: [apply] at line 291, [syncPicked] at 345. *)
Definition key_init (st : keypage) : keypage := syncPicked (applyKeyFilters st).

(** ** The contract: chips, number, hint and row visibility say what the check
    boxes say. *)
Record in_step (st : keypage) : Prop := InStep {
  chips_ok : k_chips st = selected (k_items st);
  number_ok : ∀ t, k_n st = Some t → t = of_int (Z.of_nat (length (selected (k_items st))));
  hint_ok : ∀ h, k_empty st = Some h → h = negb (bool_decide (selected (k_items st) = []));
  rows_ok : Forall (λ r, r_hidden r = negb (row_ok (key_filters st) [] r)) (picks (k_items st));
}.

(** ** Lemmas *)

Lemma picks_map_picks f l : picks (map_picks f l) = f <$> picks l.
Proof. induction l as [|[h|r] l IH]; [done|exact IH|].
  csimpl. f_equal. exact IH. Qed.

Lemma picks_sync_groups l : picks (sync_groups l) = picks l.
Proof. induction l as [|[h|r] l IH]; [done|exact IH|].
  csimpl. f_equal. exact IH. Qed.

Definition sel_of (r : mrow) : option jstr :=
  match r_cb r with Some c => if cb_checked c then Some (cb_value c) else None | None => None end.

Lemma selected_picks l : selected l = omap sel_of (picks l).
Proof. done. Qed.

(** Visibility flags do not matter to the filters, nor to the selection. *)
Lemma row_ok_hidden F trs h r : row_ok F trs (set_hidden h r) = row_ok F trs r.
Proof. done. Qed.

Lemma selected_apply st : selected (k_items (applyKeyFilters st)) = selected (k_items st).
Proof.
  unfold applyKeyFilters. cbn [k_items]. rewrite !selected_picks, picks_sync_groups, picks_map_picks.
  by apply omap_fmap_same.
Qed.

Lemma picks_apply st :
  picks (k_items (applyKeyFilters st))
  = (λ r, set_hidden (negb (row_ok (key_filters st) [] r)) r) <$> picks (k_items st).
Proof. unfold applyKeyFilters. cbn [k_items]. by rewrite picks_sync_groups, picks_map_picks. Qed.

Lemma apply_rows_ok st :
  Forall (λ r, r_hidden r = negb (row_ok (key_filters st) [] r)) (picks (k_items (applyKeyFilters st))).
Proof. rewrite picks_apply. apply Forall_fmap, Forall_forall. done. Qed.

Lemma resync_in_step st : in_step (resync st).
Proof.
  unfold resync. split.
  - rewrite selected_apply. done.
  - rewrite selected_apply. simpl. by destruct (k_n st); intros t [= <-].
  - rewrite selected_apply. simpl. by destruct (k_empty st); intros t [= <-].
  - apply (apply_rows_ok (syncPicked st)).
Qed.

Lemma apply_in_step st :
  k_chips st = selected (k_items st) →
  (∀ t, k_n st = Some t → t = of_int (Z.of_nat (length (selected (k_items st))))) →
  (∀ h, k_empty st = Some h → h = negb (bool_decide (selected (k_items st) = []))) →
  in_step (applyKeyFilters st).
Proof.
  intros H1 H2 H3. split.
  - rewrite selected_apply. exact H1.
  - intros t. rewrite selected_apply. exact (H2 t).
  - intros t. rewrite selected_apply. exact (H3 t).
  - exact (apply_rows_ok st).
Qed.

Lemma selected_all_models on st :
  selected (k_items (all_models_change on st)) = selected (k_items st).
Proof.
  unfold all_models_change. cbn [k_items set_items]. rewrite !selected_picks, picks_map_picks.
  apply omap_fmap_same. intros r. unfold sel_of. simpl. by destruct (r_cb r).
Qed.

Lemma row_ok_all_models F on r :
  row_ok F [] (set_cb (option_map (λ c, CBox (cb_value c) (cb_checked c) on) (r_cb r)) r)
  = row_ok F [] r.
Proof. unfold row_ok. simpl. by destruct (r_cb r). Qed.

Definition is_toggle (e : kevent) : bool := match e with EvToggle _ => true | _ => false end.

Lemma kstep_in_step st e : in_step st → is_toggle e = false → in_step (kstep st e).
Proof.
  intros Hs He. destruct e as [name| |g|n|name prov price only|on|on]; try done; simpl.
  - apply resync_in_step.
  - apply resync_in_step.
  - apply resync_in_step.
  - unfold list_change. destruct (k_items st !! n) as [[|r]|]; [done| |done].
    destruct (enabled r); [apply resync_in_step|done].
  - apply (apply_in_step (KeyPage (k_items st) name prov price only (k_count st) (k_chips st)
             (k_n st) (k_empty st))); apply Hs.
  - destruct Hs as [H1 H2 H3 H4]. split.
    1: rewrite selected_all_models; exact H1.
    1: intros t; rewrite selected_all_models; exact (H2 t).
    1: intros t; rewrite selected_all_models; exact (H3 t).
    unfold all_models_change. cbn [k_items set_items]. rewrite picks_map_picks.
    apply Forall_fmap. eapply Forall_impl; [exact H4|]. intros r Hr. simpl in *.
    unfold key_filters in *. simpl. by rewrite row_ok_all_models.
Qed.

Lemma key_init_in_step st : in_step (key_init st).
Proof.
  unfold key_init. split; simpl.
  - done.
  - by destruct (k_n st); intros t [= <-].
  - by destruct (k_empty st); intros t [= <-].
  - apply (apply_rows_ok st).
Qed.

(** ** Properties *)

(** C14: from the moment the page is ready, whatever the user does with the
    list, the chips, the group buttons, "clear", "all models" and the filters,
    the chips are the ticked models in order, the number and the hint agree, and
    exactly the picks that satisfy the filters are visible. *)
Theorem picker_stays_in_step st es :
  Forall (λ e, is_toggle e = false) es → in_step (foldl kstep (key_init st) es).
Proof.
  intros Hes.
  generalize (key_init_in_step st). generalize (key_init st). induction Hes as [|e es He _ IH]; intros s Hs; [done|].
  simpl. apply IH. by apply kstep_in_step.
Qed.

(** What the buttons do to the choice itself.  A chip's click drops every
    pick of that name and no other; "clear" drops all; a group button adds
    exactly the visible, enabled picks of its group. *)
Theorem picker_buttons st name g :
  selected (k_items (chip_click name st)) = filter (λ n, n ≠ name) (selected (k_items st)) ∧
  selected (k_items (clear_click st)) = [] ∧
  checked <$> picks (k_items (group_click g st)) =
    (λ r, checked r || (bool_decide (r_group r = Some g) && negb (r_hidden r) && enabled r))
    <$> picks (k_items st).
Proof.
  split_and!.
  - unfold chip_click, resync. rewrite selected_apply. cbn [k_items syncPicked set_items].
    rewrite !selected_picks, picks_map_picks.
    apply omap_fmap_filter. intros r. unfold sel_of, set_checked, set_cb.
    destruct (r_cb r) as [[v ch dis]|] eqn:E; simpl; [|by rewrite E].
    case_bool_decide; simpl; rewrite ?E; simpl; destruct ch; simpl; try done;
      case_decide; naive_solver.
  - unfold clear_click, resync. rewrite selected_apply. cbn [k_items syncPicked set_items].
    rewrite selected_picks, picks_map_picks.
    apply omap_fmap_none. intros r. unfold checked, set_checked, sel_of.
    destruct (r_cb r) as [[v [] dis]|] eqn:E; simpl; by rewrite ?E.
  - unfold group_click, resync. rewrite picks_apply. cbn [k_items syncPicked set_items].
    rewrite picks_map_picks, <- !list_fmap_compose. apply list_fmap_ext. intros _ r _.
    unfold compose. change (checked (set_hidden ?h ?x)) with (checked x).
    destruct (_ && _) eqn:E; [|by rewrite orb_false_r].
    rewrite orb_true_r. apply andb_true_iff in E as [_ E]. unfold enabled, checked, set_checked in *.
    simpl. by destruct (r_cb r).
Qed.

(** "tick the visible ones" leaves the chips behind.  When the page is in
    step and some visible, enabled pick is not ticked, the toggle ticks it and
    the chips no longer name the ticked models. *)
Theorem toggle_out_of_step st r :
  in_step st → r ∈ picks (k_items st) →
  enabled r = true → r_hidden r = false → checked r = false →
  k_chips (toggle_change true st) ≠ selected (k_items (toggle_change true st)) ∧
  ¬ in_step (toggle_change true st).
Proof.
  intros Hs Hr He Hh Hc.
  assert (k_chips (toggle_change true st) ≠ selected (k_items (toggle_change true st))) as Hne.
  { change (k_chips (toggle_change true st)) with (k_chips st). rewrite (chips_ok st Hs).
    unfold toggle_change. cbn [k_items set_items]. rewrite !selected_picks, picks_map_picks.
    intros E%(f_equal length).
    assert (∀ x, is_Some (sel_of x) → is_Some (sel_of
              (if enabled x && negb (r_hidden x) then set_checked true x else x))) as Hgrow.
    { intros x Hx. destruct (_ && _); [|done]. unfold sel_of, set_checked in *. simpl.
      destruct (r_cb x); simpl; [by eexists|by destruct Hx]. }
    pose proof (proj2 (omap_fmap_grows sel_of _ (picks (k_items st)) Hgrow)) as Hlt.
    rewrite <- E in Hlt. apply (Nat.lt_irrefl (length (omap sel_of (picks (k_items st))))), Hlt.
    exists r. split; [done|]. rewrite He, Hh. simpl.
    unfold checked, enabled, sel_of, set_checked in *. simpl.
    destruct (r_cb r) as [c|]; [|done]. rewrite Hc. split; [done|by eexists]. }
  split; [done|]. intros Hs'. by apply Hne, (chips_ok _ Hs').
Qed.

End WithFold.

(** ** A concrete form *)

Definition demo_pick (name group : string) (on : bool) : kitem :=
  KPick (MRow (Some (js name)) (Some (js name)) (Some (js "ollama")) (Some (js "free"))
           (Some (js "0")) None None None None None (Some (js group))
           (Some (CBox (js name) on false)) false false).
Definition demo_keys : keypage :=
  KeyPage [KGroup false; demo_pick "llama3.2" "alias" true; demo_pick "qwen3" "alias" false;
           KGroup false; demo_pick "phi4" "mac-80" false]
    (Some []) (Some []) (Some []) (Some false) (Some []) [] (Some (js "0")) (Some false).

Definition demo_phi : mrow :=
  MRow (Some (js "phi4")) (Some (js "phi4")) (Some (js "ollama")) (Some (js "free"))
       (Some (js "0")) None None None None None (Some (js "mac-80"))
       (Some (CBox (js "phi4") false false)) false false.

Lemma picker_stays_in_step_witness :
  k_chips (foldl (kstep (H:=AsciiCyrillicFold)) (key_init (H:=AsciiCyrillicFold) demo_keys)
             [EvGroup (js "alias"); EvChip (js "llama3.2"); EvFilter (Some (js "PHI")) None None None])
  = [js "qwen3"].
Proof.
  etransitivity.
  - apply (chips_ok (H:=AsciiCyrillicFold)), (picker_stays_in_step (H:=AsciiCyrillicFold)).
    repeat constructor.
  - vm_compute. reflexivity.
Defined.

Lemma toggle_out_of_step_witness :
  k_chips (toggle_change true (key_init (H:=AsciiCyrillicFold) demo_keys))
  ≠ selected (k_items (toggle_change true (key_init (H:=AsciiCyrillicFold) demo_keys))).
Proof.
  refine (proj1 (toggle_out_of_step (H:=AsciiCyrillicFold)
    (key_init (H:=AsciiCyrillicFold) demo_keys) demo_phi
    (key_init_in_step (H:=AsciiCyrillicFold) demo_keys) _ eq_refl eq_refl eq_refl)).
  apply (list_elem_of_lookup_2 _ 2%nat). vm_compute. reflexivity.
Defined.
