(* ===== verification/Jobs.v ===== *)
(** * Model jobs on the servers: buttons, polling, banner

    app.js lines 538-719: the load / unload / delete buttons, the pull form,
    [pollJobs], [hideJobBanner] and [renderJobs].  The page is an explicit
    state with its pending timers and the fetches in flight; each handler is a
    function on it, and the browser's events are the steps of [jstep]. *)

From S2P Require Import Prelude JsString Html.
Open Scope Z_scope.

(** ** Data (the Go handler's [Job] in JSON; [error] left out is "") *)

Record job := Job {
  j_kind : jstr; j_backend_id : Z; j_backend : jstr; j_model : jstr;
  j_status : jstr; j_percent : Z; j_message : jstr; j_error : jstr; j_log : jstr;
}.
Record jobs_data := JobsData { d_jobs : list job; d_running : bool }.

(** ** The page *)

Record banner := Banner { bn_hidden : bool; bn_err : bool; bn_ok : bool; bn_html : jstr }.

(** The pull log, bar and status line. *)
Record pull_ui := PullUI {
  pu_log_hidden : bool; pu_log : jstr; pu_bar_hidden : bool; pu_bar : Z; pu_status : jstr;
}.

(** A [data-ollama] button; [ob_from] is the value of the select named by
    [data-name-from], when the attribute and the select exist. *)
Record obtn := OBtn {
  ob_action : jstr; ob_id : jstr; ob_name : jstr; ob_from : option jstr;
  ob_disabled : bool; ob_text : jstr;
}.

Inductive action : Type := TPoll | THide | TReload.
#[export] Instance action_eq_dec : EqDecision action.
Proof. solve_decision. Defined.

(** A request under way: of a button, with its former text, or of the pull form. *)
Inductive post : Type :=
  | PBtn (i : nat) (old url name : jstr)
  | PPull (url name : jstr).

Record jpage := JPage {
  jobTimer : nat;                     (* 0: none *)
  watchedRunning : bool;
  hideBannerTimer : nat;              (* 0: none *)
  timers : list (nat * action);       (* pending, by id *)
  next_id : nat;
  inflight : nat;                     (* job-list fetches under way *)
  posts : list post;                  (* POST requests under way *)
  p_banner : option banner;
  p_pull : option pull_ui;
  p_pull_btn : option bool;           (* disabled *)
  p_card : option bool;               (* open *)
  p_btns : list obtn;
  p_chat : bool;                      (* the page has #chat-form *)
  p_alerts : list jstr;
  p_reloads : nat;
}.

(** ** Timers *)

Definition with_timers (t : list (nat * action)) (st : jpage) : jpage :=
  JPage (jobTimer st) (watchedRunning st) (hideBannerTimer st) t (next_id st) (inflight st)
    (posts st) (p_banner st) (p_pull st) (p_pull_btn st) (p_card st) (p_btns st) (p_chat st)
    (p_alerts st) (p_reloads st).
Definition with_jobTimer (n : nat) (st : jpage) : jpage :=
  JPage n (watchedRunning st) (hideBannerTimer st) (timers st) (next_id st) (inflight st)
    (posts st) (p_banner st) (p_pull st) (p_pull_btn st) (p_card st) (p_btns st) (p_chat st)
    (p_alerts st) (p_reloads st).
Definition with_hide (n : nat) (st : jpage) : jpage :=
  JPage (jobTimer st) (watchedRunning st) n (timers st) (next_id st) (inflight st)
    (posts st) (p_banner st) (p_pull st) (p_pull_btn st) (p_card st) (p_btns st) (p_chat st)
    (p_alerts st) (p_reloads st).
Definition with_watched (w : bool) (st : jpage) : jpage :=
  JPage (jobTimer st) w (hideBannerTimer st) (timers st) (next_id st) (inflight st)
    (posts st) (p_banner st) (p_pull st) (p_pull_btn st) (p_card st) (p_btns st) (p_chat st)
    (p_alerts st) (p_reloads st).
Definition with_inflight (n : nat) (st : jpage) : jpage :=
  JPage (jobTimer st) (watchedRunning st) (hideBannerTimer st) (timers st) (next_id st) n
    (posts st) (p_banner st) (p_pull st) (p_pull_btn st) (p_card st) (p_btns st) (p_chat st)
    (p_alerts st) (p_reloads st).
Definition with_banner (b : option banner) (st : jpage) : jpage :=
  JPage (jobTimer st) (watchedRunning st) (hideBannerTimer st) (timers st) (next_id st)
    (inflight st) (posts st) b (p_pull st) (p_pull_btn st) (p_card st) (p_btns st) (p_chat st)
    (p_alerts st) (p_reloads st).
Definition with_ui (pu : option pull_ui) (pb card : option bool) (btns : list obtn) (st : jpage)
    : jpage :=
  JPage (jobTimer st) (watchedRunning st) (hideBannerTimer st) (timers st) (next_id st)
    (inflight st) (posts st) (p_banner st) pu pb card btns (p_chat st)
    (p_alerts st) (p_reloads st).
Definition with_btns (btns : list obtn) (st : jpage) : jpage :=
  with_ui (p_pull st) (p_pull_btn st) (p_card st) btns st.
Definition with_posts (p : list post) (st : jpage) : jpage :=
  JPage (jobTimer st) (watchedRunning st) (hideBannerTimer st) (timers st) (next_id st)
    (inflight st) p (p_banner st) (p_pull st) (p_pull_btn st) (p_card st) (p_btns st) (p_chat st)
    (p_alerts st) (p_reloads st).
Definition add_alert (m : jstr) (st : jpage) : jpage :=
  JPage (jobTimer st) (watchedRunning st) (hideBannerTimer st) (timers st) (next_id st)
    (inflight st) (posts st) (p_banner st) (p_pull st) (p_pull_btn st) (p_card st) (p_btns st)
    (p_chat st) (p_alerts st ++ [m]) (p_reloads st).
Definition add_reload (st : jpage) : jpage :=
  JPage (jobTimer st) (watchedRunning st) (hideBannerTimer st) (timers st) (next_id st)
    (inflight st) (posts st) (p_banner st) (p_pull st) (p_pull_btn st) (p_card st) (p_btns st)
    (p_chat st) (p_alerts st) (S (p_reloads st)).

(** [setTimeout]: a fresh positive id. *)
Definition setTimeout (a : action) (st : jpage) : nat * jpage :=
  (next_id st,
   JPage (jobTimer st) (watchedRunning st) (hideBannerTimer st)
     (timers st ++ [(next_id st, a)]) (S (next_id st)) (inflight st)
     (posts st) (p_banner st) (p_pull st) (p_pull_btn st) (p_card st) (p_btns st) (p_chat st)
     (p_alerts st) (p_reloads st)).

Definition remove_timer (n : nat) (l : list (nat * action)) : list (nat * action) :=
  filter (λ t, t.1 ≠ n) l.
Definition clearTimeout (n : nat) (st : jpage) : jpage :=
  with_timers (remove_timer n (timers st)) st.

(** ** Polling (lines 616-633) *)

Definition pollJobs (st : jpage) : jpage :=
  let st := if bool_decide (jobTimer st = 0%nat) then st
            else with_jobTimer 0 (clearTimeout (jobTimer st) st) in
  with_inflight (S (inflight st)) st.

(** The fetch (or the rendering) failed. *)
Definition poll_failed (st : jpage) : jpage :=
  let '(id, st) := setTimeout TPoll (with_inflight (pred (inflight st)) st) in
  with_jobTimer id st.

Definition hideJobBanner (st : jpage) : jpage :=
  with_hide 0 (with_banner (option_map (λ b, Banner true (bn_err b) (bn_ok b) (bn_html b))
                              (p_banner st)) st).

(** ** [renderJobs] (lines 635-717) *)

Definition is_running (j : job) : bool := bool_decide (j_status j = js "running").
Definition is_kind (k : string) (j : job) : bool := bool_decide (j_kind j = js k).
Definition is_status (k : string) (j : job) : bool := bool_decide (j_status j = js k).

Definition latest_job (watched : bool) (jobs : list job) : option job :=
  match List.filter is_running jobs with
  | j :: _ => Some j
  | [] => if watched then head jobs else None
  end.

Definition banner_title (j : job) : jstr :=
  let t := if is_kind "load" j then js "Загрузка в RAM" else js "Скачивание" in
  let t := if is_kind "load" j && is_status "done" j then js "В RAM" else t in
  if is_kind "pull" j && is_status "done" j then js "Скачано" else t.

Definition banner_pct (j : job) : jstr :=
  if is_kind "pull" j && is_running j then of_int (j_percent j) ++ js "%" else [].

Definition q : jstr := [34].

Definition banner_bar (j : job) : jstr :=
  if is_running j && is_kind "pull" j
  then js "<progress max=" ++ q ++ js "100" ++ q ++ js " value=" ++ q ++ of_int (j_percent j)
       ++ q ++ js "></progress>"
  else if is_running j then js "<progress></progress>" else [].

(** The reminder that a reload does not stop the job. *)
Definition running_hint : jstr := js " · можно обновить страницу — задача не прервётся".

Definition banner_html (j : job) : jstr :=
  js "<div class=" ++ q ++ js "job-title" ++ q ++ js ">" ++ escHtml (banner_title j)
  ++ js " · " ++ escHtml (strip_prefix (js "mac-") (j_backend j)) ++ js " · "
  ++ escHtml (j_model j)
  ++ (match banner_pct j with [] => [] | p => js " · " ++ escHtml p end) ++ js "</div>"
  ++ js "<div class=" ++ q ++ js "muted" ++ q ++ js ">" ++ escHtml (s_or (j_error j) (j_message j))
  ++ (if is_running j then running_hint else [])
  ++ js "</div>" ++ banner_bar j.

Definition render_banner (watched : bool) (jobs : list job) (b : banner) : banner :=
  match latest_job watched jobs with
  | None => Banner true (bn_err b) (bn_ok b) (bn_html b)
  | Some j => Banner false (is_status "error" j) (is_status "done" j) (banner_html j)
  end.

(** The job the pull card shows: a running pull, else the newest pull. *)
Definition pull_job (jobs : list job) : option job :=
  match List.filter (is_kind "pull") (List.filter is_running jobs) with
  | j :: _ => Some j
  | [] => head (List.filter (is_kind "pull") jobs)
  end.

Definition render_pull (jobs : list job) (st : jpage) : jpage :=
  match pull_job jobs, p_pull st with
  | Some j, Some _ =>
    with_ui
      (Some (PullUI false (j_log j) false (j_percent j) (s_or (j_error j) (j_message j))))
      (option_map (λ _, is_running j) (p_pull_btn st))
      (option_map (λ o, if is_running j then true else o) (p_card st))
      (p_btns st) st
  | _, _ => with_ui (p_pull st) (option_map (λ _, false) (p_pull_btn st)) (p_card st) (p_btns st) st
  end.

Definition loading_text : jstr := js "загрузка…".

Definition render_load_btn (jobs : list job) (b : obtn) : obtn :=
  if bool_decide (ob_action b = js "load") &&
     existsb (λ j, bool_decide (of_int (j_backend_id j) = ob_id b) &&
                   bool_decide (j_model j = ob_name b) && is_kind "load" j)
             (List.filter is_running jobs)
  then OBtn (ob_action b) (ob_id b) (ob_name b) (ob_from b) true loading_text
  else b.

(** What [renderJobs] draws (the banner, the pull card, the load buttons)... *)
Definition render_ui (data : jobs_data) (st : jpage) : jpage :=
  let jobs := d_jobs data in
  let st := with_banner (option_map (render_banner (watchedRunning st) jobs) (p_banner st)) st in
  let st := render_pull jobs st in
  with_btns (map (render_load_btn jobs) (p_btns st)) st.

(** ...and what it schedules. *)
Definition schedule (data : jobs_data) (st : jpage) : jpage :=
  if d_running data then
    let st := with_watched true st in
    let st := if bool_decide (hideBannerTimer st = 0%nat) then st
              else with_hide 0 (clearTimeout (hideBannerTimer st) st) in
    let '(id, st) := setTimeout TPoll st in
    with_jobTimer id st
  else if watchedRunning st then
    let st := with_watched false st in
    let failed := existsb (is_status "error") (d_jobs data) in
    let st := if bool_decide (hideBannerTimer st = 0%nat) then st
              else clearTimeout (hideBannerTimer st) st in
    let '(id, st) := setTimeout THide st in
    let st := with_hide id st in
    if negb failed && negb (p_chat st) then snd (setTimeout TReload st) else st
  else st.

Definition renderJobs (data : jobs_data) (st : jpage) : jpage := schedule data (render_ui data st).

(** ** The server buttons (lines 538-580) *)

Definition btn_name (b : obtn) : jstr :=
  match ob_from b with Some v => trim v | None => ob_name b end.

Definition confirm_text (action name : jstr) : jstr :=
  if bool_decide (action = js "load")
  then js "Загрузить «" ++ name ++ js "» в RAM? Для большой модели это может занять несколько минут."
  else if bool_decide (action = js "delete")
  then js "Удалить «" ++ name ++ js "» с диска сервера?"
  else js "Выгрузить «" ++ name ++ js "» из RAM?".

Definition post_url (b : obtn) : jstr := js "/admin/ollama/" ++ ob_id b ++ js "/" ++ ob_action b.

Definition set_btn (b : obtn) (dis : bool) (text : jstr) : obtn :=
  OBtn (ob_action b) (ob_id b) (ob_name b) (ob_from b) dis text.

(** A click on button [i], with the user's answer to the question. *)
Definition ollama_click (i : nat) (answer : bool) (st : jpage) : jpage :=
  match p_btns st !! i with
  | None => st
  | Some b =>
    if ob_disabled b then st
    else if negb (truthy_s (ob_id b)) || negb (truthy_s (btn_name b))
    then add_alert (js "Выберите модель") st
    else if answer then
      let text := if bool_decide (ob_action b = js "load") then loading_text else ob_text b in
      with_posts (posts st ++ [PBtn i (ob_text b) (post_url b) (btn_name b)])
        (with_btns (<[i := set_btn b true text]> (p_btns st)) st)
    else st
  end.

(** A button's request is answered: [None] for success, else the error text. *)
Definition ollama_answer (i : nat) (old : jstr) (err : option jstr) (st : jpage) : jpage :=
  match p_btns st !! i, err with
  | Some b, Some m => with_btns (<[i := set_btn b false old]> (p_btns st)) (add_alert m st)
  | Some b, None => if bool_decide (ob_action b = js "load") then pollJobs st else add_reload st
  | None, _ => st
  end.

(** ** The pull form (lines 582-607)

    A form whose submit button is disabled cannot be submitted; without a
    submit button the handler throws before it sends anything. *)

Definition pull_submit (id name : jstr) (st : jpage) : jpage :=
  if negb (truthy_s id) || negb (truthy_s (trim name)) then st
  else match p_pull_btn st with
       | Some false =>
         with_posts (posts st ++ [PPull (js "/admin/ollama/" ++ id ++ js "/pull") (trim name)])
           (with_ui (p_pull st) (Some true) (p_card st) (p_btns st) st)
       | _ => st
       end.

Definition pull_answer (err : option jstr) (st : jpage) : jpage :=
  match err with
  | None => pollJobs (with_ui (p_pull st) (p_pull_btn st) (option_map (λ _, true) (p_card st))
                        (p_btns st) st)
  | Some m => with_ui (p_pull st) (option_map (λ _, false) (p_pull_btn st)) (p_card st) (p_btns st)
                (add_alert m st)
  end.

(** The [k]-th request under way is answered. *)
Definition answer_post (k : nat) (err : option jstr) (st : jpage) : jpage :=
  match posts st !! k with
  | None => st
  | Some p =>
    let st := with_posts (delete k (posts st)) st in
    match p with
    | PBtn i old _ _ => ollama_answer i old err st
    | PPull _ _ => pull_answer err st
    end
  end.

(** ** Steps *)

Inductive jevent : Type :=
  | JResponse (data : jobs_data)          (* a job-list fetch succeeds *)
  | JFailure                              (* or fails *)
  | JTimer (id : nat)                     (* a pending timer fires *)
  | JClick (i : nat) (answer : bool)
  | JAnswer (k : nat) (err : option jstr)
  | JPullSubmit (id name : jstr).

Definition fire (id : nat) (st : jpage) : jpage :=
  match List.find (λ t, bool_decide (t.1 = id)) (timers st) with
  | None => st
  | Some (_, a) =>
    let st := with_timers (remove_timer id (timers st)) st in
    match a with
    | TPoll => pollJobs st
    | THide => hideJobBanner st
    | TReload => add_reload st
    end
  end.

Definition jstep (st : jpage) (e : jevent) : jpage :=
  match e with
  | JResponse data =>
    if bool_decide (inflight st = 0%nat) then st
    else renderJobs data (with_inflight (pred (inflight st)) st)
  | JFailure => if bool_decide (inflight st = 0%nat) then st else poll_failed st
  | JTimer id => fire id st
  | JClick i answer => ollama_click i answer st
  | JAnswer k err => answer_post k err st
  | JPullSubmit id name => pull_submit id name st
  end.

(** The page when its script has run: line 719 calls [pollJobs] once. *)
Definition fresh_page (b : option banner) (pu : option pull_ui) (pb card : option bool)
    (btns : list obtn) (chat : bool) : jpage :=
  pollJobs (JPage 0 false 0 [] 1 0 [] b pu pb card btns chat [] 0).

(** ** The banner's markup *)

Lemma markup_title_pct j :
  markup (match banner_pct j with [] => [] | p => js " · " ++ escHtml p end) []
         (match banner_pct j with [] => [] | p => js " · " ++ escHtml p end).
Proof.
  destruct (banner_pct j) as [|c p]; [apply markup_nil|].
  apply (markup_app _ _ [] []); [text_lit|apply markup_esc].
Qed.

Lemma markup_bar j :
  markup (banner_bar j)
    (if is_running j then
       [if is_kind "pull" j then js "progress max= value=" else js "progress"; js "/progress"]
     else []) [].
Proof.
  unfold banner_bar. destruct (is_running j); cbn [andb]; [|apply markup_nil].
  destruct (is_kind "pull" j); [|markup_lit].
  rewrite (app_assoc (js "<progress max=")), (app_assoc (_ ++ q)), (app_assoc (_ ++ js "100")),
    (app_assoc (_ ++ q)), (app_assoc (_ ++ js " value=")).
  eapply (markup_attr _ (of_int (j_percent j)) (q ++ js "></progress>")
            (js "progress max= value=") [js "progress max= value="; js "/progress"] []);
    [vm_compute; reflexivity|auto with markup|vm_compute; reflexivity].
Qed.

Lemma banner_markup j :
  markup (banner_html j)
    ([js "div class="] ++ [js "/div"] ++ [js "div class="] ++ [js "/div"] ++
     (if is_running j then
        [if is_kind "pull" j then js "progress max= value=" else js "progress"; js "/progress"]
      else []))
    (escHtml (banner_title j) ++ js " · " ++ escHtml (strip_prefix (js "mac-") (j_backend j))
     ++ js " · " ++ escHtml (j_model j)
     ++ (match banner_pct j with [] => [] | p => js " · " ++ escHtml p end)
     ++ escHtml (s_or (j_error j) (j_message j)) ++ (if is_running j then running_hint else [])).
Proof.
  assert (markup (js "<div class=" ++ q ++ js "job-title" ++ q ++ js ">") [js "div class="] [])
    as H1 by markup_lit.
  assert (markup (js "<div class=" ++ q ++ js "muted" ++ q ++ js ">") [js "div class="] [])
    as H2 by markup_lit.
  assert (markup (js "</div>") [js "/div"] []) as H3 by markup_lit.
  assert (markup (js " · ") [] (js " · ")) as H4 by text_lit.
  assert (markup (if is_running j then running_hint else []) []
                 (if is_running j then running_hint else [])) as H5.
  { destruct (is_running j); [text_lit|apply markup_nil]. }
  unfold banner_html.
  pose proof (markup_app _ _ _ _ _ _ H1
    (markup_app _ _ _ _ _ _ (markup_esc (banner_title j))
    (markup_app _ _ _ _ _ _ H4
    (markup_app _ _ _ _ _ _ (markup_esc (strip_prefix (js "mac-") (j_backend j)))
    (markup_app _ _ _ _ _ _ H4
    (markup_app _ _ _ _ _ _ (markup_esc (j_model j))
    (markup_app _ _ _ _ _ _ (markup_title_pct j)
    (markup_app _ _ _ _ _ _ H3
    (markup_app _ _ _ _ _ _ H2
    (markup_app _ _ _ _ _ _ (markup_esc (s_or (j_error j) (j_message j)))
    (markup_app _ _ _ _ _ _ H5
    (markup_app _ _ _ _ _ _ H3 (markup_bar j))))))))))))) as HM.
  revert HM. rewrite <- !app_assoc, !app_nil_l, ?app_nil_r. done.
Qed.

(** ** Timers and fetches *)

Definition chains (st : jpage) : nat :=
  (inflight st + length (filter (λ t : nat * action, t.2 = TPoll) (timers st)))%nat.

Definition polling (st : jpage) : Prop := chains st ≠ 0%nat.

Abbreviation polls l := (length (filter (λ t : nat * action, t.2 = TPoll) l)).

(** Ids are fresh, distinct, and the two remembered ids name timers of their kind. *)
Record timers_ok (st : jpage) : Prop := TimersOk {
  ids_distinct : NoDup (timers st).*1;
  ids_below : ∀ t, t ∈ timers st → (0 < t.1 < next_id st)%nat;
  poll_id : ∀ a, (jobTimer st, a) ∈ timers st → a = TPoll;
  hide_id : ∀ a, (hideBannerTimer st, a) ∈ timers st → a = THide;
  poll_below : (jobTimer st < next_id st)%nat;
  hide_below : (hideBannerTimer st < next_id st)%nat;
  next_pos : (0 < next_id st)%nat;
}.

Lemma remove_timer_elem n l t : t ∈ remove_timer n l ↔ t ∈ l ∧ t.1 ≠ n.
Proof. unfold remove_timer. rewrite list_elem_of_filter. tauto. Qed.

Lemma remove_timer_keys n l : (remove_timer n l).*1 `sublist_of` l.*1.
Proof.
  unfold remove_timer. induction l as [|t l IH]; [done|]. rewrite filter_cons.
  destruct (decide _); csimpl; [by apply sublist_skip|by apply sublist_cons].
Qed.

Lemma remove_timer_NoDup n l : NoDup l.*1 → NoDup (remove_timer n l).*1.
Proof. intros H. eapply sublist_NoDup; [done|apply remove_timer_keys]. Qed.

Lemma polls_remove n l :
  NoDup l.*1 →
  polls l = (polls (remove_timer n l) + (if decide ((n, TPoll) ∈ l) then 1 else 0))%nat.
Proof.
  induction l as [|[m a] l IH]; [done|]. intros [Hm Hnd]%NoDup_cons. specialize (IH Hnd).
  unfold remove_timer in *. rewrite !filter_cons. cbn [fst snd].
  destruct (decide (m ≠ n)) as [Hne|Heq%dec_stable].
  - rewrite !filter_cons. cbn [fst snd].
    assert (∀ k : nat, (k + (if decide ((n, TPoll) ∈ (m, a) :: l) then 1 else 0) =
            k + (if decide ((n, TPoll) ∈ l) then 1 else 0))%nat) as Hsame.
    { intros k. f_equal. apply decide_ext. rewrite elem_of_cons. naive_solver. }
    rewrite Hsame. destruct (decide (a = TPoll)); cbn [length]; lia.
  - subst m. assert (filter (λ t : nat * action, t.1 ≠ n) l = l) as Hid.
    { apply filter_id, Forall_forall. intros [k b] Hk Heq. simpl in Heq. subst k.
      apply Hm. apply list_elem_of_fmap. by exists (n, b). }
    rewrite Hid. destruct (decide (a = TPoll)) as [-> |Ha].
    + cbn [length]. rewrite (decide_True (P:=(n, TPoll) ∈ _)) by left. lia.
    + rewrite (decide_False (P:=(n, TPoll) ∈ _)); [lia|].
      intros [[= ?]|Hn]%elem_of_cons; [done|]. apply Hm.
      apply list_elem_of_fmap. by exists (n, TPoll).
Qed.

(** *** What each handler does to timers, fetches and the number of chains *)

Lemma setTimeout_ok a st :
  timers_ok st → a = TPoll ∨ a = THide ∨ a = TReload →
  timers_ok (snd (setTimeout a st)).
Proof.
  intros H _. pose proof (ids_below _ H) as Hb. split; cbn.
  - rewrite fmap_app. apply NoDup_app. split; [apply H|]. split; [|apply NoDup_singleton].
    intros n (t & -> & Ht)%list_elem_of_fmap Hn%list_elem_of_singleton. simpl in Hn.
    pose proof (Hb t Ht). lia.
  - intros t [Ht| ->%list_elem_of_singleton]%elem_of_app.
    + pose proof (Hb t Ht). lia.
    + simpl. pose proof (next_pos _ H). lia.
  - intros b [Ht|[= Heq ->]%list_elem_of_singleton]%elem_of_app; [by apply (poll_id _ H)|].
    pose proof (poll_below _ H). lia.
  - intros b [Ht|[= Heq ->]%list_elem_of_singleton]%elem_of_app; [by apply (hide_id _ H)|].
    pose proof (hide_below _ H). lia.
  - pose proof (poll_below _ H). lia.
  - pose proof (hide_below _ H). lia.
  - lia.
Qed.

Lemma setTimeout_poll_ok st :
  timers_ok st → timers_ok (with_jobTimer (next_id st) (snd (setTimeout TPoll st))).
Proof.
  intros H. pose proof (setTimeout_ok TPoll st H ltac:(auto)) as [H1 H2 H3 H4 H5 H6 H7].
  split; cbn in *; [done|done| |done|lia|done|done].
  intros b [Ht|[= ->]%list_elem_of_singleton]%elem_of_app; [|done].
  pose proof (ids_below _ H _ Ht). simpl in *. lia.
Qed.

Lemma setTimeout_hide_ok st :
  timers_ok st → timers_ok (with_hide (next_id st) (snd (setTimeout THide st))).
Proof.
  intros H. pose proof (setTimeout_ok THide st H ltac:(auto)) as [H1 H2 H3 H4 H5 H6 H7].
  split; cbn in *; [done|done|done| |done|lia|done].
  intros b [Ht|[= ->]%list_elem_of_singleton]%elem_of_app; [|done].
  pose proof (ids_below _ H _ Ht). simpl in *. lia.
Qed.

Lemma remove_ok n st : timers_ok st → timers_ok (with_timers (remove_timer n (timers st)) st).
Proof.
  intros [H1 H2 H3 H4 H5 H6 H7]. split; cbn; try done.
  - by apply remove_timer_NoDup.
  - intros t [Ht _]%remove_timer_elem. by apply H2.
  - intros a [Ht _]%remove_timer_elem. by apply H3.
  - intros a [Ht _]%remove_timer_elem. by apply H4.
Qed.

(** Fields the timers do not depend on. *)
Lemma timers_ok_same st st' :
  timers st' = timers st → next_id st' = next_id st → jobTimer st' = jobTimer st →
  hideBannerTimer st' = hideBannerTimer st → timers_ok st → timers_ok st'.
Proof. intros E1 E2 E3 E4 [H1 H2 H3 H4 H5 H6 H7]. split; by rewrite ?E1, ?E2, ?E3, ?E4. Qed.

Lemma chains_same st st' :
  timers st' = timers st → inflight st' = inflight st → chains st' = chains st.
Proof. intros E1 E2. unfold chains. by rewrite E1, E2. Qed.

Lemma zero_timer st a : timers_ok st → (0%nat, a) ∉ timers st.
Proof. intros H Ha. pose proof (ids_below _ H _ Ha). simpl in *. lia. Qed.

(** [pollJobs] starts a fetch and drops the remembered timer, if it is still
    pending: at most one chain more, and none more when a timer was dropped. *)
Lemma pollJobs_spec st :
  timers_ok st →
  timers_ok (pollJobs st) ∧ inflight (pollJobs st) = S (inflight st) ∧
  (chains (pollJobs st) + (if decide ((jobTimer st, TPoll) ∈ timers st) then 1 else 0)
   = S (chains st))%nat.
Proof.
  intros H. unfold pollJobs, chains. case_bool_decide as E.
  - split_and!; [by apply (timers_ok_same st)|done|].
    destruct (decide _) as [Hin|_]; [|cbn; lia]. rewrite E in Hin.
    by apply (zero_timer _ _ H) in Hin.
  - pose proof (polls_remove (jobTimer st) (timers st) (ids_distinct _ H)) as Hp.
    split_and!; [|done|cbn; lia].
    pose proof (remove_ok (jobTimer st) st H) as [H1 H2 H3 H4 H5 H6 H7].
    split; cbn in *; try done; try lia. intros a Ha. by apply (zero_timer _ _ (remove_ok (jobTimer st) st H)) in Ha.
Qed.

Lemma chains_clear_hide st :
  timers_ok st → chains (clearTimeout (hideBannerTimer st) st) = chains st.
Proof.
  intros H. unfold chains. cbn.
  rewrite (polls_remove (hideBannerTimer st) (timers st)) by apply H.
  destruct (decide _) as [Hin|_]; [|lia]. by apply (hide_id _ H) in Hin.
Qed.

Lemma chains_setTimeout a st :
  chains (snd (setTimeout a st)) = (chains st + (if decide (a = TPoll) then 1 else 0))%nat.
Proof.
  unfold chains. cbn. rewrite filter_app, length_app. rewrite filter_cons. cbn [snd].
  destruct (decide (a = TPoll)); cbn; lia.
Qed.

Lemma render_ui_same data st :
  timers (render_ui data st) = timers st ∧ next_id (render_ui data st) = next_id st ∧
  jobTimer (render_ui data st) = jobTimer st ∧
  hideBannerTimer (render_ui data st) = hideBannerTimer st ∧
  inflight (render_ui data st) = inflight st ∧
  watchedRunning (render_ui data st) = watchedRunning st ∧ p_chat (render_ui data st) = p_chat st.
Proof. unfold render_ui, render_pull. cbn. by destruct (pull_job (d_jobs data)), (p_pull st). Qed.

Lemma clear_hide_ok st :
  timers_ok st → timers_ok (with_hide 0 (clearTimeout (hideBannerTimer st) st)).
Proof.
  intros H. pose proof (remove_ok (hideBannerTimer st) st H) as H'. destruct H' as [H1 H2 H3 H4 H5 H6 H7].
  split; cbn in *; try done; try lia.
  intros a Ha. by apply (zero_timer _ _ (remove_ok (hideBannerTimer st) st H)) in Ha.
Qed.

(** What a rendering schedules: while the server reports a running job, one
    more chain; otherwise none. *)
Lemma schedule_spec data st :
  timers_ok st →
  timers_ok (schedule data st) ∧
  inflight (schedule data st) = inflight st ∧
  watchedRunning (schedule data st) = d_running data ∧
  chains (schedule data st) = (chains st + (if d_running data then 1 else 0))%nat.
Proof.
  intros H. unfold schedule. destruct (d_running data).
  - set (st1 := with_watched true st).
    assert (timers_ok st1) as H1 by (by apply (timers_ok_same st)).
    set (st2 := if bool_decide (hideBannerTimer st1 = 0%nat) then st1
                else with_hide 0 (clearTimeout (hideBannerTimer st1) st1)).
    assert (timers_ok st2 ∧ inflight st2 = inflight st ∧ watchedRunning st2 = true ∧
            chains st2 = chains st) as (H2 & E1 & E2 & E3).
    { subst st2. destruct (bool_decide _); [done|]. split_and!; [by apply clear_hide_ok|done|done|].
      by apply (chains_clear_hide st1). }
    split_and!; [by apply setTimeout_poll_ok|done|done|].
    change (chains (snd (setTimeout TPoll st2)) = (chains st + 1)%nat).
    by rewrite chains_setTimeout, decide_True, E3.
  - destruct (watchedRunning st) eqn:Ew; [|by split_and!; [..|lia]].
    set (st1 := with_watched false st).
    assert (timers_ok st1) as H1 by (by apply (timers_ok_same st)).
    set (st2 := if bool_decide (hideBannerTimer st1 = 0%nat) then st1
                else clearTimeout (hideBannerTimer st1) st1).
    assert (timers_ok st2 ∧ inflight st2 = inflight st ∧ watchedRunning st2 = false ∧
            chains st2 = chains st) as (H2 & E1 & E2 & E3).
    { subst st2. destruct (bool_decide _); [done|]. split_and!; [by apply remove_ok|done|done|].
      by apply (chains_clear_hide st1). }
    set (st3 := with_hide (next_id st2) (snd (setTimeout THide st2))).
    assert (timers_ok st3) as H3 by (by apply setTimeout_hide_ok).
    assert (chains st3 = chains st) as E4.
    { change (chains (snd (setTimeout THide st2)) = chains st).
      rewrite chains_setTimeout, decide_False, E3 by done. lia. }
    cbn [setTimeout]. fold st3.
    change (timers_ok (if negb (existsb (is_status "error") (d_jobs data)) && negb (p_chat st3)
                       then snd (setTimeout TReload st3) else st3) ∧ 
            inflight (if negb (existsb (is_status "error") (d_jobs data)) && negb (p_chat st3)
                       then snd (setTimeout TReload st3) else st3) = inflight st ∧
            watchedRunning (if negb (existsb (is_status "error") (d_jobs data)) && negb (p_chat st3)
                       then snd (setTimeout TReload st3) else st3) = false ∧
            chains (if negb (existsb (is_status "error") (d_jobs data)) && negb (p_chat st3)
                       then snd (setTimeout TReload st3) else st3) = (chains st + 0)%nat).
    destruct (_ && _).
    + split_and!; [by apply setTimeout_ok; auto|done|done|].
      rewrite chains_setTimeout, decide_False, E4 by done. lia.
    + split_and!; [done|done|done|lia].
Qed.

Lemma find_timer id st a :
  timers_ok st → List.find (λ t, bool_decide (t.1 = id)) (timers st) = Some a →
  a.1 = id ∧ a ∈ timers st.
Proof.
  intros _ [Hin Hb]%List.find_some. apply bool_decide_eq_true in Hb. split; [done|].
  by apply list_elem_of_In.
Qed.

Lemma pollJobs_chains st :
  timers_ok st → chains (pollJobs st) ≠ 0%nat ∧ (chains (pollJobs st) ≤ S (chains st))%nat.
Proof.
  intros H. destruct (pollJobs_spec st H) as (_ & Hi & Hc). unfold chains in *. rewrite Hi in *.
  split; [lia|]. destruct (decide _); lia.
Qed.

Lemma fire_spec id st :
  timers_ok st →
  timers_ok (fire id st) ∧ (chains (fire id st) ≤ chains st)%nat ∧
  watchedRunning (fire id st) = watchedRunning st ∧
  (chains (fire id st) = chains st ∨ chains (fire id st) ≠ 0)%nat.
Proof.
  intros H. unfold fire. destruct (List.find _ _) as [[n a]|] eqn:Ef; [|split_and!; auto; lia].
  destruct (find_timer _ _ _ H Ef) as [Hn Hin]. simpl in Hn. subst n.
  set (st1 := with_timers (remove_timer id (timers st)) st).
  assert (timers_ok st1) as H1 by by apply remove_ok.
  assert (chains st = chains st1 + (if decide (a = TPoll) then 1 else 0))%nat as Hc.
  { unfold chains. cbn. rewrite (polls_remove id (timers st)) by apply H.
    destruct (decide (a = TPoll)) as [-> |Hne].
    { rewrite (decide_True (P:=(id, TPoll) ∈ timers st)) by done. lia. }
    rewrite (decide_False (P:=(id, TPoll) ∈ timers st)); [lia|]. intros Hin'. apply Hne.
    assert (∀ l : list (nat * action), NoDup l.*1 → (id, a) ∈ l → (id, TPoll) ∈ l → a = TPoll) as Hu.
    { clear. induction l as [|[m c] l IH]; [by intros _ []%not_elem_of_nil|].
      intros [Hm Hnd]%NoDup_cons Ha Hb. rewrite elem_of_cons in Ha, Hb. cbn in Hm.
      assert (∀ b, (id, b) ∈ l → m = id → False) as Hm'.
      { intros b Hin' ->. apply Hm, list_elem_of_fmap. by exists (id, b). }
      destruct Ha as [Ha|Ha], Hb as [Hb|Hb]; [congruence| | |by apply IH]; exfalso;
        [eapply Hm'; [exact Hb|congruence]|eapply Hm'; [exact Ha|congruence]]. }
    by apply (Hu (timers st)); [apply H| |]. }
  destruct a.
  - destruct (pollJobs_spec st1 H1) as (Ho & _ & _). destruct (pollJobs_chains st1 H1) as [Hz Hle].
    rewrite decide_True in Hc by done. split_and!; [done|lia| |by right].
    unfold pollJobs. by destruct (bool_decide _).
  - rewrite decide_False in Hc by done.
    assert (chains (hideJobBanner st1) = chains st1) as -> by done.
    split_and!; [|lia|done|left; lia]. destruct H1 as [? ? ? ? ? ? ?]. split; cbn in *; try done; try lia.
    intros b Hb. by apply (zero_timer _ _ (remove_ok id st H)) in Hb.
  - rewrite decide_False in Hc by done.
    assert (chains (add_reload st1) = chains st1) as -> by done.
    split_and!; [by apply (timers_ok_same st1)|lia|done|left; lia].
Qed.

(** The events that start a chain of polls: an answered request. *)
Definition is_answer (e : jevent) : bool := match e with JAnswer _ _ => true | _ => false end.

Record polling_ok (st : jpage) : Prop := PollingOk {
  po_timers : timers_ok st;
  po_alive : watchedRunning st = true → chains st ≠ 0%nat;
}.

Lemma polling_same st st' :
  timers st' = timers st → next_id st' = next_id st → jobTimer st' = jobTimer st →
  hideBannerTimer st' = hideBannerTimer st → inflight st' = inflight st →
  watchedRunning st' = watchedRunning st →
  polling_ok st → polling_ok st' ∧ chains st' = chains st.
Proof.
  intros E1 E2 E3 E4 E5 E6 [H1 H2]. pose proof (chains_same st st' E1 E5) as E.
  split; [|done]. split; [by apply (timers_ok_same st)|]. by rewrite E6, E.
Qed.

Lemma polling_pollJobs st :
  polling_ok st → polling_ok (pollJobs st) ∧ (chains (pollJobs st) ≤ S (chains st))%nat.
Proof.
  intros [H1 _]. destruct (pollJobs_spec st H1) as (Ho & _ & _).
  destruct (pollJobs_chains st H1) as [Hz Hle]. by split.
Qed.

Lemma polling_answer k err st :
  polling_ok st →
  polling_ok (answer_post k err st) ∧ (chains (answer_post k err st) ≤ S (chains st))%nat.
Proof.
  intros H. unfold answer_post. destruct (posts st !! k) as [p|]; [|split; [done|lia]].
  set (st1 := with_posts _ st).
  assert (polling_ok st1 ∧ chains st1 = chains st) as [H1 E1] by by apply polling_same.
  rewrite <- E1. destruct p as [i old url name|url name].
  - unfold ollama_answer. destruct (p_btns st1 !! i) as [b|]; [|split; [done|lia]].
    destruct err as [m|].
    + destruct (polling_same st1 (with_btns (<[i:=set_btn b false old]> (p_btns st1))
        (add_alert m st1))) as [H2 E2]; try done. split; [done|lia].
    + case_bool_decide; [by apply polling_pollJobs|].
      destruct (polling_same st1 (add_reload st1)) as [H2 E2]; try done. split; [done|lia].
  - destruct err as [m|]; cbn [pull_answer].
    + match goal with |- polling_ok ?s ∧ _ =>
        destruct (polling_same st1 s) as [H2 E2]; try done; split; [done|lia] end.
    + match goal with |- polling_ok (pollJobs ?s) ∧ _ =>
        destruct (polling_same st1 s) as [H2 E2]; try done; rewrite <- E2;
        by apply polling_pollJobs end.
Qed.

Lemma polling_step st e :
  polling_ok st →
  polling_ok (jstep st e) ∧ (chains (jstep st e) ≤ chains st + (if is_answer e then 1 else 0))%nat.
Proof.
  intros H. destruct e as [data| |id|i answer|k err|id name]; cbn [jstep is_answer].
  - case_bool_decide as Ei; [split; [done|lia]|].
    set (st1 := with_inflight (pred (inflight st)) st).
    assert (timers_ok st1) as H1 by (by apply (timers_ok_same st), H).
    assert (S (chains st1) = chains st) as E1 by (unfold chains; cbn; lia).
    unfold renderJobs. destruct (render_ui_same data st1) as (E2 & E3 & E4 & E5 & E6 & E7 & E8).
    assert (timers_ok (render_ui data st1)) as H2 by by apply (timers_ok_same st1).
    pose proof (chains_same st1 (render_ui data st1) E2 E6) as E9.
    destruct (schedule_spec data _ H2) as (H3 & _ & E10 & E11). split.
    + split; [done|]. rewrite E10, E11. intros ->. lia.
    + rewrite E11, E9. destruct (d_running data); lia.
  - case_bool_decide as Ei; [split; [done|lia]|].
    set (st1 := with_inflight (pred (inflight st)) st).
    assert (timers_ok st1) as H1 by (by apply (timers_ok_same st), H).
    assert (chains (poll_failed st) = chains st ∧ chains st ≠ 0%nat) as [E Hz].
    { change (chains (poll_failed st)) with (chains (snd (setTimeout TPoll st1))).
      rewrite chains_setTimeout, decide_True by done. unfold chains. cbn. lia. }
    split; [|lia]. split; [by apply (setTimeout_poll_ok st1)|]. by rewrite E.
  - destruct (fire_spec id st) as (H1 & H2 & H3 & H4); [apply H|]. split; [|lia].
    split; [done|]. rewrite H3. intros Hw%H. destruct H4 as [-> | ?]; done.
  - rewrite Nat.add_0_r. unfold ollama_click.
    destruct (p_btns st !! i); [|done]. destruct (ob_disabled _); [done|].
    destruct (_ || _).
    { destruct (polling_same st (add_alert (js "Выберите модель") st)) as [? E]; try done; by rewrite E. }
    destruct answer; [|done].
    match goal with |- polling_ok ?s ∧ _ =>
      destruct (polling_same st s) as [? E]; try done; by rewrite E end.
  - rewrite Nat.add_1_r. by apply polling_answer.
  - rewrite Nat.add_0_r. unfold pull_submit. destruct (_ || _); [done|].
    destruct (p_pull_btn st) as [[]|]; [done| |done].
    match goal with |- polling_ok ?s ∧ _ =>
      destruct (polling_same st s) as [? E]; try done; by rewrite E end.
Qed.

Lemma polling_steps es st :
  polling_ok st →
  polling_ok (foldl jstep st es) ∧
  (chains (foldl jstep st es) ≤ chains st + length (List.filter is_answer es))%nat.
Proof.
  revert st. induction es as [|e es IH]; intros st H; cbn [foldl List.filter]; [split; [done|simpl; lia]|].
  destruct (polling_step st e H) as [H1 H2]. destruct (IH _ H1) as [H3 H4]. split; [done|].
  destruct (is_answer e); cbn [length]; lia.
Qed.

Lemma fresh_polling b pu pb card btns chat :
  polling_ok (fresh_page b pu pb card btns chat) ∧ chains (fresh_page b pu pb card btns chat) = 1%nat.
Proof.
  split; [|done]. split; [|done].
  change (fresh_page b pu pb card btns chat)
    with (JPage 0 false 0 [] 1 1 [] b pu pb card btns chat [] 0).
  split; cbn; try lia; [constructor|..]; by intros ? Hin%not_elem_of_nil.
Qed.

(** C6: While the page believes a job is running it never stops asking: after any
    sequence of answers, failures, timers and user actions, a job-list fetch is
    under way or a poll is pending whenever [watchedRunning] is set.  The number
    of concurrent chains of polls is at most one, plus one for each request of
    a button or of the pull form that was answered. *)
Theorem polling_survives b pu pb card btns chat (es : list jevent) :
  let st := foldl jstep (fresh_page b pu pb card btns chat) es in
  (watchedRunning st = true → inflight st ≠ 0%nat ∨ ∃ id, (id, TPoll) ∈ timers st) ∧
  (inflight st + polls (timers st) ≤ 1 + length (List.filter is_answer es))%nat.
Proof.
  cbv zeta. destruct (fresh_polling b pu pb card btns chat) as [H0 E0].
  destruct (polling_steps es _ H0) as [[_ Ha] Hc]. rewrite E0 in Hc. split; [|done].
  intros Hw. specialize (Ha Hw). unfold chains in Ha.
  destruct (decide (inflight (foldl jstep (fresh_page b pu pb card btns chat) es) = 0%nat))
    as [Ei|?]; [right|by left].
  rewrite Ei in Ha. destruct (filter (λ t : nat * action, t.2 = TPoll) _) as [|[id a] l] eqn:Ef; [done|].
  exists id. assert ((id, a) ∈ filter (λ t : nat * action, t.2 = TPoll)
    (timers (foldl jstep (fresh_page b pu pb card btns chat) es))) as [Ht Hin]%list_elem_of_filter
    by (rewrite Ef; left). simpl in Ht. by subst.
Qed.

(** The banner shows the job and nothing else: whatever bytes the server
    reports, its markup has the two fixed blocks (and a progress bar while the
    job runs), and its visible text is the title, host, model, progress, error
    or message, exactly as they are. *)
Theorem banner_safe (j : job) :
  let text := banner_title j ++ js " · " ++ strip_prefix (js "mac-") (j_backend j)
    ++ js " · " ++ j_model j ++ (match banner_pct j with [] => [] | p => js " · " ++ p end)
    ++ s_or (j_error j) (j_message j) ++ (if is_running j then running_hint else []) in
  tags (banner_html j) =
    [js "div class="; js "/div"; js "div class="; js "/div"] ++
    (if is_running j then
       [if is_kind "pull" j then js "progress max= value=" else js "progress"; js "/progress"]
     else []) ∧
  shown_text (banner_html j) = text.
Proof.
  cbv zeta. pose proof (banner_markup j) as HM.
  split; [by rewrite (markup_tags _ _ _ HM)|]. rewrite (markup_shown _ _ _ HM).
  assert (∀ s, unescape (js " · " ++ s) = js " · " ++ unescape s) as Hsep.
  { intros s. apply unescape_literal. vm_compute. reflexivity. }
  assert (unescape (if is_running j then running_hint else []) =
          if is_running j then running_hint else []) as Hhint.
  { destruct (is_running j); [|done]. rewrite <- (app_nil_r running_hint) at 1.
    rewrite unescape_literal by (vm_compute; reflexivity). apply app_nil_r. }
  rewrite unescape_escHtml_app, Hsep, unescape_escHtml_app, Hsep, unescape_escHtml_app.
  do 5 f_equal. destruct (banner_pct j) as [|c p]; rewrite ?app_nil_l, <- ?app_assoc, ?Hsep,
    ?unescape_escHtml_app, Hhint; done.
Qed.

(** C27: Without a user request there is a single chain of polls, and it ends with
    the first answer that reports no running job: then no fetch is under way,
    none is pending, and the page no longer watches. *)
Theorem polling_stops b pu pb card btns chat (es : list jevent) (data : jobs_data) :
  forallb (λ e, negb (is_answer e)) es = true → d_running data = false →
  let st := foldl jstep (fresh_page b pu pb card btns chat) es in
  inflight st ≠ 0%nat →
  let st' := jstep st (JResponse data) in
  inflight st' = 0%nat ∧ polls (timers st') = 0%nat ∧ watchedRunning st' = false.
Proof.
  intros Hes Hrun. cbv zeta. intros Hi. destruct (fresh_polling b pu pb card btns chat) as [H0 E0].
  destruct (polling_steps es _ H0) as [[H1 _] Hc]. rewrite E0 in Hc.
  assert (List.filter is_answer es = []) as Ef.
  { clear -Hes. induction es as [|e es IH]; [done|]. cbn in *.
    apply andb_prop in Hes as [He Hes]. destruct (is_answer e); [done|by apply IH]. }
  rewrite Ef in Hc. simpl length in Hc. set (st := foldl jstep _ es) in *.
  cbn [jstep]. rewrite bool_decide_eq_false_2 by done.
  set (st1 := with_inflight (pred (inflight st)) st). unfold renderJobs.
  assert (timers_ok st1) as H2 by by apply (timers_ok_same st).
  destruct (render_ui_same data st1) as (E2 & E3 & E4 & E5 & E6 & E7 & E8).
  destruct (schedule_spec data (render_ui data st1)) as (_ & E9 & E10 & E11);
    [by apply (timers_ok_same st1)|].
  rewrite Hrun in E10, E11. rewrite (chains_same st1 (render_ui data st1) E2 E6) in E11.
  unfold chains in E11, Hc. rewrite E9, E6 in *. change (timers st1) with (timers st) in E11.
  change (inflight st1) with (pred (inflight st)) in *. split_and!; [lia|lia|done].
Qed.

Definition job_a : job :=
  Job (js "load") 1 (js "mac-a") (js "m") (js "running") 0 (js "m") [] [].
Definition job_a_failed : job :=
  Job (js "load") 1 (js "mac-a") (js "m") (js "error") 0 [] (js "boom") [].
Definition load_btn : obtn := OBtn (js "load") (js "1") (js "m") None false (js "В RAM").

Lemma polling_stops_witness :
  let st' := jstep (foldl jstep (fresh_page None None None None [] false)
    [JResponse (JobsData [job_a] true); JTimer 1]) (JResponse (JobsData [] false)) in
  inflight st' = 0%nat ∧ polls (timers st') = 0%nat ∧ watchedRunning st' = false.
Proof.
  apply (polling_stops None None None None [] false); [reflexivity|reflexivity|].
  vm_compute. discriminate.
Defined.

(** *** A disabled button *)

(** Only the answer to a button's own request enables it. *)
Definition stuck (i : nat) (st : jpage) : Prop :=
  (∃ b, p_btns st !! i = Some b ∧ ob_disabled b = true) ∧
  Forall (λ p, match p with PBtn k _ _ _ => k ≠ i | PPull _ _ => True end) (posts st).

Lemma stuck_same i st st' :
  p_btns st' = p_btns st → posts st' = posts st → stuck i st → stuck i st'.
Proof. unfold stuck. by intros -> ->. Qed.

Lemma stuck_pollJobs i st : stuck i st → stuck i (pollJobs st).
Proof. unfold pollJobs. destruct (bool_decide _); by apply stuck_same. Qed.

Lemma render_ui_btns data st :
  p_btns (render_ui data st) = map (render_load_btn (d_jobs data)) (p_btns st) ∧
  posts (render_ui data st) = posts st.
Proof. unfold render_ui, render_pull. cbn. by destruct (pull_job (d_jobs data)), (p_pull st). Qed.

Lemma schedule_btns data st :
  p_btns (schedule data st) = p_btns st ∧ posts (schedule data st) = posts st.
Proof.
  unfold schedule. destruct (d_running data); [by destruct (bool_decide _)|].
  destruct (watchedRunning st); [|done]. 
  by destruct (bool_decide _); cbn; destruct (negb _ && negb _).
Qed.

Lemma stuck_renderJobs i data st : stuck i st → stuck i (renderJobs data st).
Proof.
  intros [(b & Hb & Hd) Hp]. unfold stuck, renderJobs.
  destruct (schedule_btns data (render_ui data st)) as [-> ->].
  destruct (render_ui_btns data st) as [-> ->]. split; [|done].
  exists (render_load_btn (d_jobs data) b).
  change (map ?g) with (fmap (M:=list) g). rewrite list_lookup_fmap, Hb. split; [done|].
  unfold render_load_btn. by destruct (_ && _).
Qed.

Lemma stuck_answer i k err st : stuck i st → stuck i (answer_post k err st).
Proof.
  intros H. unfold answer_post. destruct (posts st !! k) as [p|] eqn:Ep; [|done].
  destruct H as [Hb Hp]. pose proof (Forall_lookup_1 _ _ _ _ Hp Ep) as Hk.
  set (st1 := with_posts _ st).
  assert (stuck i st1) as H1.
  { split; [done|]. cbn. by apply Forall_delete. }
  destruct p as [k' old url name|url name].
  - unfold ollama_answer. destruct (p_btns st1 !! k') as [b|]; [|done]. destruct err as [m|].
    + destruct H1 as [(b' & Hb' & Hd) Hp1]. split; [|done]. exists b'. split; [|done].
      cbn. by rewrite list_lookup_insert_ne.
    + destruct (bool_decide _); [by apply stuck_pollJobs|by apply (stuck_same i st1)].
  - destruct err; cbn [pull_answer]; [by apply (stuck_same i st1)|].
    apply stuck_pollJobs. by apply (stuck_same i st1).
Qed.

Lemma stuck_click i k answer st : stuck i st → stuck i (ollama_click k answer st).
Proof.
  intros [(b & Hb & Hd) Hp]. unfold ollama_click.
  destruct (p_btns st !! k) as [b'|] eqn:Hk; [|split; eauto].
  destruct (ob_disabled b') eqn:Hd'; [split; eauto|].
  assert (k ≠ i) as Hne by (intros ->; congruence).
  destruct (_ || _); [split; [by exists b|done]|].
  destruct answer; [|split; [by exists b|done]]. split; cbn.
  - exists b. by rewrite list_lookup_insert_ne.
  - apply Forall_app_2; [done|by repeat constructor].
Qed.

Lemma stuck_step i e st : stuck i st → stuck i (jstep st e).
Proof.
  intros H. destruct e as [data| |id|k answer|k err|id name]; cbn [jstep].
  - destruct (bool_decide _); [done|]. by apply stuck_renderJobs, (stuck_same i st).
  - destruct (bool_decide _); [done|]. by apply (stuck_same i st).
  - unfold fire. destruct (List.find _ _) as [[n []]|]; [| | |done].
    + by apply stuck_pollJobs, (stuck_same i st).
    + by apply (stuck_same i st).
    + by apply (stuck_same i st).
  - by apply stuck_click.
  - by apply stuck_answer.
  - unfold pull_submit. destruct (_ || _); [done|].
    destruct (p_pull_btn st) as [[]|]; [done| |done]. destruct H as [Hb Hp].
    split; [done|]. cbn. apply Forall_app_2; [done|by repeat constructor].
Qed.

Lemma stuck_steps i es st : stuck i st → stuck i (foldl jstep st es).
Proof. revert st. induction es as [|e es IH]; intros st H; [done|]. by apply IH, stuck_step. Qed.

Abbreviation reloads l := (length (filter (λ t : nat * action, t.2 = TReload) l)).

Lemma reloads_remove_hide st :
  timers_ok st →
  reloads (remove_timer (hideBannerTimer st) (timers st)) = reloads (timers st).
Proof.
  intros H. pose proof (hide_id _ H) as Hid. revert Hid.
  generalize (timers st), (hideBannerTimer st). clear. intros l n Hid. unfold remove_timer.
  induction l as [|[m a] l IH]; [done|].
  assert (∀ b, (n, b) ∈ l → b = THide) as Hid' by (intros b Hb; apply Hid, elem_of_cons; by right). specialize (IH Hid').
  rewrite (filter_cons (λ t, t.1 ≠ n)). cbn [fst]. destruct (decide (m ≠ n)) as [?|Heq%dec_stable].
  - rewrite !filter_cons. destruct (decide _); cbn [length]; by rewrite IH.
  - subst m. assert (a = THide) as -> by (apply Hid, elem_of_cons; by left).
    rewrite (filter_cons (λ t : nat * action, t.2 = TReload)). by rewrite decide_False.
Qed.

(** C37: When a load fails, its button is never enabled again.  Once a poll has
    shown a button's load running (and no request of the button is under way),
    then whatever happens next the button is disabled; and the answer that ends
    the watch schedules a reload of the page exactly when no job of the list,
    however old, failed and the page is not the chat. *)
Theorem load_button_stays_disabled i b data st :
  timers_ok st → inflight st ≠ 0%nat → p_btns st !! i = Some b →
  ob_disabled (render_load_btn (d_jobs data) b) = true →
  Forall (λ p, match p with PBtn k _ _ _ => k ≠ i | PPull _ _ => True end) (posts st) →
  (∀ es, ∃ b', p_btns (foldl jstep (jstep st (JResponse data)) es) !! i = Some b' ∧
               ob_disabled b' = true) ∧
  (watchedRunning st = true → d_running data = false →
   reloads (timers (jstep st (JResponse data))) =
     (reloads (timers st) +
      (if existsb (is_status "error") (d_jobs data) || p_chat st then 0 else 1))%nat).
Proof.
  intros Hok Hi Hb Hd Hp. cbn [jstep]. rewrite bool_decide_eq_false_2 by done.
  set (st1 := with_inflight (pred (inflight st)) st). split.
  - intros es. apply stuck_steps. unfold stuck, renderJobs.
    destruct (schedule_btns data (render_ui data st1)) as [-> ->].
    destruct (render_ui_btns data st1) as [-> ->]. split; [|done].
    exists (render_load_btn (d_jobs data) b). split; [|done].
    change (map ?g) with (fmap (M:=list) g). change (p_btns st1) with (p_btns st).
    by rewrite list_lookup_fmap, Hb.
  - intros Hw Hrun. unfold renderJobs.
    destruct (render_ui_same data st1) as (E2 & E3 & E4 & E5 & E6 & E7 & E8).
    unfold schedule. rewrite Hrun, E7. change (watchedRunning st1) with (watchedRunning st).
    rewrite Hw. set (st2 := render_ui data st1) in *. clearbody st2.
    set (st3 := if bool_decide (hideBannerTimer (with_watched false st2) = 0%nat) then _ else _).
    assert (reloads (timers st3) = reloads (timers st) ∧ p_chat st3 = p_chat st) as [E9 E10].
    { subst st3. destruct (bool_decide _); cbn; rewrite ?E2, ?E5, ?E8; [done|].
      split; [exact (reloads_remove_hide st Hok)|done]. }
    cbn [setTimeout]. cbn [p_chat with_hide]. rewrite E10, <- negb_orb.
    destruct (existsb _ _ || _); cbn; rewrite ?filter_app, ?length_app, E9;
      repeat (rewrite filter_cons; cbn [snd length]; destruct (decide _); try done); cbn; lia.
Qed.

(** The page after a click on the button, the server's acceptance and a first
    answer that shows the load running; the next answer reports its failure. *)
Definition loading_page : jpage :=
  foldl jstep (fresh_page None None None None [load_btn] false)
    [JResponse (JobsData [] false); JClick 0 true; JAnswer 0 None;
     JResponse (JobsData [job_a] true); JTimer 1].

Lemma load_button_stays_disabled_witness :
  (∀ es, ∃ b', p_btns (foldl jstep (jstep loading_page
             (JResponse (JobsData [job_a_failed] false))) es) !! 0%nat = Some b' ∧
             ob_disabled b' = true) ∧
  reloads (timers (jstep loading_page (JResponse (JobsData [job_a_failed] false)))) = 0%nat.
Proof.
  destruct (load_button_stays_disabled 0 (set_btn load_btn true loading_text)
              (JobsData [job_a_failed] false) loading_page) as [H1 H2].
  - apply polling_steps, fresh_polling.
  - vm_compute. discriminate.
  - vm_compute. reflexivity.
  - reflexivity.
  - vm_compute. constructor.
  - split; [exact H1|]. rewrite H2; vm_compute; reflexivity.
Defined.
