(* ===== verification/ChatSink.v ===== *)
(** * The interface between generations and the chat store

    A running generation touches the chats only through [setPendingText] and
    [finishAssistant] (app.js lines 1586-1619).  [ChatSink] names the two
    operations and what a generation can rely on; the pollers are verified
    against it and the chat store implements it. *)

From S2P Require Import Prelude JsString JsNumber JsValue.

(** What [finishAssistant] merges into the pending message: [None] where the
    caller passes no such key. *)
Record fields := Fields {
  f_content : val; f_think : option val; f_image : option val; f_video : option val;
}.

Definition text_fields (s : jstr) : fields := Fields (VStr s) None None None.

(** The effects of a generation on its chat, in order. *)
Inductive effect : Type :=
  | Fetch (url : jstr)
  | Pending (text : jstr)
  | Finish (f : fields).

Definition is_finish (e : effect) : bool := match e with Finish _ => true | _ => false end.
Definition is_fetch (e : effect) : bool := match e with Fetch _ => true | _ => false end.

Class ChatSink (S : Type) := {
  setPendingText : jstr → val → S → S;
  finishAssistant : jstr → fields → S → S;
  has_chat : jstr → S → Prop;
  is_busy : jstr → S → bool;
  chat_view : Type;
  view : jstr → S → option chat_view;
}.

(** The promises: a generation changes its own chat only, an update keeps the
    chat and its state, a finish ends the busy state. *)
Class ChatSinkLaws (S : Type) `{ChatSink S} (good : S → Prop) := {
  pending_good : ∀ id t s, good s → good (setPendingText id t s);
  finish_good : ∀ id f s, good s → good (finishAssistant id f s);
  pending_keeps : ∀ id t s, good s → has_chat id s → has_chat id (setPendingText id t s);
  pending_busy : ∀ id t s, good s → is_busy id (setPendingText id t s) = is_busy id s;
  finish_idle : ∀ id f s, good s → has_chat id s → is_busy id (finishAssistant id f s) = false;
  pending_others : ∀ id t s id', good s → id ≠ id' → view id' (setPendingText id t s) = view id' s;
  finish_others : ∀ id f s id', good s → id ≠ id' → view id' (finishAssistant id f s) = view id' s;
}.

Section sink.
#[local] Set Default Proof Using "Type*".
Context {S : Type} `{L : ChatSinkLaws S good}.

Definition run_effect (id : jstr) (s : S) (e : effect) : S :=
  match e with
  | Fetch _ => s
  | Pending t => setPendingText id (VStr t) s
  | Finish f => finishAssistant id f s
  end.

Definition run_effects (id : jstr) (l : list effect) (s : S) : S := foldl (run_effect id) s l.

Lemma run_effects_app id l k s :
  run_effects id (l ++ k) s = run_effects id k (run_effects id l s).
Proof. apply foldl_app. Qed.

Lemma run_effects_good id l s : good s → good (run_effects id l s).
Proof.
  revert s. induction l as [|[] l IH]; intros s Hs; simpl; [done|by apply IH| |].
  - by apply IH, pending_good.
  - by apply IH, finish_good.
Qed.

Lemma run_effects_keeps id l s :
  good s → has_chat id s → existsb is_finish l = false →
  has_chat id (run_effects id l s) ∧ is_busy id (run_effects id l s) = is_busy id s.
Proof.
  revert s. induction l as [|[] l IH]; intros s Hs Hid Hl; simpl in *; [done|by apply IH| |done].
  destruct (IH (setPendingText id (VStr text) s)) as [H1 H2];
    [by apply pending_good|by apply pending_keeps|done|].
  split; [done|]. by rewrite H2, pending_busy.
Qed.

(** Other chats do not see a generation at all. *)
Lemma run_effects_others id id' l s :
  good s → id ≠ id' → view id' (run_effects id l s) = view id' s.
Proof.
  intros Hs Hne. revert s Hs. induction l as [|[] l IH]; intros s Hs; simpl; [done|by apply IH| |].
  - rewrite IH by by apply pending_good. by apply pending_others.
  - rewrite IH by by apply finish_good. by apply finish_others.
Qed.

(** A generation whose only finish is its last effect leaves its chat idle. *)
Lemma run_effects_idle id l f s :
  good s → has_chat id s → existsb is_finish l = false →
  is_busy id (run_effects id (l ++ [Finish f]) s) = false.
Proof.
  intros Hs Hid Hl. rewrite run_effects_app. simpl.
  apply finish_idle; [by apply run_effects_good|].
  by apply run_effects_keeps.
Qed.
End sink.
