(* ===== verification/MediaPoll.v ===== *)
(** * Generating images and videos: the status pollers

    app.js lines 1580-1585 and 1620-1793: [videoJobStatus], [queueWaitText],
    [pollVideo], [pollImage] and the promise chain of [runMedia].  A poller is a
    recursive function over its environment (the answers of the server, the
    duration of each request, the lateness of each timer, the abort signal); a
    promise chain [tick().then(..).catch(..)] is the nested call and the
    handling of its outcome, exactly where the code attaches them. *)

From S2P Require Import Prelude JsString JsNumber JsValue Uri ChatSink.
Open Scope Z_scope.

(** ** Reading an answer *)

(** [v.k] of a value known to be neither [undefined] nor [null]. *)
Definition prop (k : string) (v : val) : val := default VUndef (get (js k) v).

(** [String(v)]; the TypeError of an object whose own [toString] is data. *)
Fixpoint can_str (v : val) : bool :=
  match v with
  | VArr l => forallb can_str l
  | VObj kv => negb (bool_decide (is_Some (assoc (js "toString") kv)))
  | _ => true
  end.
Definition String_of (v : val) : option jstr := if can_str v then Some (to_str v) else None.

(** [Number(v)]; objects go through their string. *)
Definition Number_of (v : val) : option num :=
  match v with
  | VUndef => Some NaN
  | VNull => Some (num_of_Z 0)
  | VBool b => Some (num_of_Z (if b then 1 else 0))
  | VNum n => Some n
  | VStr s => Some (num_of_string s)
  | VArr _ | VObj _ => num_of_string <$> String_of v
  end.

Definition is_object (v : val) : bool :=
  match v with VArr _ | VObj _ => true | _ => false end.

(** [videoJobStatus] (lines 1580-1585). *)
Definition videoJobStatus `{CaseFold} (j : val) : option jstr :=
  if negb (truthy j) || negb (is_object j) then Some [] else
  let s := v_or (prop "status" j) (prop "state" j) in
  let data := prop "data" j in
  let s := if negb (truthy s) && truthy data && is_object data
           then v_or (prop "status" data) (prop "state" data) else s in
  toLowerCase <$> String_of (v_or s (VStr [])).

Definition is_empty_str (v : val) : bool := match v with VStr [] => true | _ => false end.

(** [queueWaitText] (lines 1675-1680). *)
Definition queueWaitText (label : jstr) (j st : val) (sec : Z) : option jstr :=
  let ahead := if truthy j then prop "queue_ahead" j else j in
  st ← String_of (v_or st (VStr (js "ожидание")));
  let line := label ++ js " · " ++ st in
  line ← (if is_nullish ahead || is_empty_str ahead then Some line
          else n ← Number_of ahead;
               if num_ltb (num_of_Z 0) n
               then a ← String_of ahead; Some (line ++ js " · перед ней " ++ a)
               else Some line);
  Some (line ++ js " · " ++ of_int sec ++ js " с").

(** [(j.error && (j.error.message || j.error)) || j.message || ""]. *)
Definition error_value (j : val) : val :=
  let e := prop "error" j in
  v_or (if truthy e then v_or (prop "message" e) e else e) (v_or (prop "message" j) (VStr [])).

(** [/rate limit/i.test(s)]: the ASCII letters match in either case. *)
Definition rate_limit (s : jstr) : bool := includes (js "rate limit") (ascii_lower s).

Definition completed (st : jstr) : bool :=
  bool_decide (st ∈ [js "completed"; js "complete"; js "succeeded"; js "success"]).
Definition failed (st : jstr) : bool :=
  bool_decide (st ∈ [js "failed"; js "error"; js "cancelled"; js "canceled"]).

(** ** Errors and the environment *)

Record err := Err { e_name : jstr; e_msg : jstr; e_fatal : bool }.
Definition new_error (msg : jstr) : err := Err (js "Error") msg false.
Definition abort_error : err := Err (js "AbortError") (js "остановлено") false.
Definition is_abort (e : err) : bool := bool_decide (e_name e = js "AbortError").

(** A request: an answer ([ok] and the JSON body, [None] if it is not JSON), or
    a failure (the network, or the abort signal). *)
Inductive fetched : Type :=
  | FResp (ok : bool) (body : option val)
  | FFail (name msg : jstr).

Record net := Net {
  answer : nat → fetched;    (* the n-th status request *)
  cost : nat → Z;            (* its duration, ms *)
  lag : nat → Z;             (* how late a timer fires *)
  aborted : Z → bool;        (* the abort signal, by time *)
  type_error : jstr;         (* the engine's messages *)
  uri_error : jstr;
}.

Definition net_type_error (E : net) : err := Err (js "TypeError") (type_error E) false.
Definition net_uri_error (E : net) : err := Err (js "URIError") (uri_error E) false.

(** The state of a poller: its [delay], the clock, the requests made, the
    effects so far. *)
Record poll := Poll { p_delay : Z; p_now : Z; p_count : nat; p_out : list effect }.

(** How the [.then] of one request ends: wait and tick again, done, or throw. *)
Inductive verdict : Type := VWait | VDone | VThrow (e : err).

Inductive outcome : Type := Resolved | Rejected (e : err).

(** What differs between the two pollers. *)
Record poller := Poller {
  max_wait : Z;
  timeout_msg : jstr;
  status_url : option jstr;
  body : net → bool → val → Z → Z → list effect * Z * verdict;  (* ok, j, sec, delay *)
  retry_delay : Z → Z;
  retry_text : jstr;
}.

(** ** One answer of a poller *)

Definition rate_text : jstr := js "проверка статуса, ждём лимит…".
Definition gave_up : jstr := js "генерация не удалась".

(** The thrown message: a string as it is, anything else as JSON. *)
Definition failure_error (j : val) : err :=
  let e := prop "error" j in
  let em := v_or (if truthy e then v_or (prop "message" e) e else e)
                 (v_or (prop "message" j) (VStr gave_up)) in
  Err (js "Error") (match em with VStr s => s | _ => JSON_stringify em end) true.

(** [st] says it failed, or there is an error that is not the rate limit. *)
Definition is_failure (st : jstr) (j : val) : option bool :=
  if failed st then Some true
  else if truthy (prop "error" j)
  then s ← String_of (error_value j); Some (negb (rate_limit s))
  else Some false.

Definition first_data (j : val) : val :=
  let data := prop "data" j in
  if truthy data then prop "0" data else data.

(** [d.b64_json ? "data:image/png;base64," + d.b64_json : (d.url || "")]. *)
Definition image_src (j : val) : option val :=
  let d := v_or (first_data j) (VObj []) in
  let b64 := prop "b64_json" d in
  if truthy b64 then s ← String_of b64; Some (VStr (js "data:image/png;base64," ++ s))
  else Some (v_or (prop "url" d) (VStr [])).

Definition no_file_error : err := Err (js "Error") (js "картинка готова, но без файла") true.

Section bodies.
Context `{CaseFold}.

(** Lines 1641-1664; [src] is the content URL. *)
Definition video_body (vid src : jstr) (E : net) (ok : bool) (j : val) (sec delay : Z)
    : list effect * Z * verdict :=
  match (if ok then Some false else rate_limit <$> String_of (error_value j)) with
  | None => ([], delay, VThrow (net_type_error E))
  | Some true => ([Pending rate_text], Z.min 20000 (Z.max delay 10000), VWait)
  | Some false =>
    match st ← videoJobStatus j;
          line ← queueWaitText (js "видео " ++ vid) j (VStr st) sec; Some (st, line) with
    | None => ([], delay, VThrow (net_type_error E))
    | Some (st, line) =>
      if completed st then
        ([Pending line; Finish (Fields (VStr (js "Видео сгенерировано.")) None None
                                  (Some (VStr src)))], delay, VDone)
      else match is_failure st j with
      | None => ([Pending line], delay, VThrow (net_type_error E))
      | Some true => ([Pending line], delay, VThrow (failure_error j))
      | Some false => ([Pending line], Z.min 10000 (delay + 400), VWait)
      end
    end
  end.

(** Lines 1702-1725. *)
Definition image_body (E : net) (ok : bool) (j : val) (sec delay : Z)
    : list effect * Z * verdict :=
  match (if ok then Some false else rate_limit <$> String_of (error_value j)) with
  | None => ([], delay, VThrow (net_type_error E))
  | Some true => ([Pending rate_text], Z.min 15000 (Z.max delay 8000), VWait)
  | Some false =>
    match st ← videoJobStatus j;
          line ← queueWaitText (js "картинка") j (VStr st) sec; Some (st, line) with
    | None => ([], delay, VThrow (net_type_error E))
    | Some (st, line) =>
      if completed st || truthy (first_data j) then
        match image_src j with
        | None => ([Pending line], delay, VThrow (net_type_error E))
        | Some src =>
          if truthy src then
            ([Pending line; Finish (Fields (VStr (js "Изображение сгенерировано.")) None
                                      (Some src) None)], delay, VDone)
          else ([Pending line], delay, VThrow no_file_error)
        end
      else match is_failure st j with
      | None => ([Pending line], delay, VThrow (net_type_error E))
      | Some true => ([Pending line], delay, VThrow (failure_error j))
      | Some false => ([Pending line], Z.min 8000 (delay + 300), VWait)
      end
    end
  end.
End bodies.

(** ** [tick] (lines 1624-1672 and 1685-1733) *)

Section tick.
Context (E : net) (P : poller) (t0 : Z).

Definition emit (l : list effect) (st : poll) : poll :=
  Poll (p_delay st) (p_now st) (p_count st) (p_out st ++ l).

(** [new Promise(res => setTimeout(res, delay))]. *)
Definition sleep (st : poll) : poll :=
  Poll (p_delay st) (p_now st + p_delay st + lag E (length (p_out st))) (p_count st) (p_out st).

(** The request: its effect, its duration, its number. *)
Definition send_request (url : jstr) (st : poll) : fetched * poll :=
  (answer E (p_count st),
   Poll (p_delay st) (p_now st + cost E (p_count st)) (S (p_count st))
     (p_out st ++ [Fetch url])).

Definition elapsed_s (st : poll) : Z := (p_now st - t0 + 500) / 1000.

(** The [.then]s of the request. *)
Definition respond (r : fetched) (st : poll) : poll * verdict :=
  match r with
  | FFail name msg => (st, VThrow (Err name msg false))
  | FResp ok b =>
    let '(ok, j) := match b with Some j => (ok, v_or j (VObj [])) | None => (false, VObj []) end in
    let '(out, delay, v) := body P E ok j (elapsed_s st) (p_delay st) in
    (emit out (Poll delay (p_now st) (p_count st) (p_out st)), v)
  end.

(** The [.catch]: what to do with an error. *)
Definition gives_up (e : err) : bool := is_abort e || e_fatal e.
Definition before_retry (st : poll) : poll :=
  sleep (emit [Pending (retry_text P)]
    (Poll (retry_delay P (p_delay st)) (p_now st) (p_count st) (p_out st))).

Fixpoint tick (fuel : nat) (st : poll) : option (outcome * poll) :=
  match fuel with
  | O => None
  | S f =>
    if aborted E (p_now st) then Some (Rejected abort_error, st)
    else if max_wait P <? p_now st - t0 then Some (Rejected (new_error (timeout_msg P)), st)
    else match status_url P with
    | None => Some (Rejected (net_uri_error E), st)
    | Some url =>
      let '(r, st1) := send_request url st in
      let '(st2, v) := respond r st1 in
      let inner := match v with
                   | VDone => Some (Resolved, st2)
                   | VThrow e => Some (Rejected e, st2)
                   | VWait => tick f (sleep st2)
                   end in
      match inner with
      | None => None
      | Some (Resolved, st3) => Some (Resolved, st3)
      | Some (Rejected e, st3) =>
        if gives_up e then Some (Rejected e, st3) else tick f (before_retry st3)
      end
    end
  end.
End tick.

Definition start_poll (delay now : Z) : poll := Poll delay now 0 [].

(** ** The two pollers *)

Section pollers.
Context `{CaseFold}.

Definition status_path (base : string) (id model : jstr) : option jstr :=
  i ← encodeURIComponent id; m ← encodeURIComponent model;
  Some (js base ++ i ++ js "?model=" ++ m).

Definition content_path (vid model : jstr) : jstr :=
  js "/admin/videos/" ++ default [] (encodeURIComponent vid) ++ js "/content?model="
  ++ default [] (encodeURIComponent model).

Definition video_timeout : jstr := js "видео всё ещё не готово (ждали 45 мин)".
Definition image_timeout : jstr := js "картинка всё ещё не готова (ждали 20 мин)".

Definition video_poller (vid model : jstr) : poller := Poller
  (45 * 60 * 1000) video_timeout
  (status_path "/admin/videos/" vid model) (video_body vid (content_path vid model))
  (λ delay, Z.min 10000 (delay + 400))
  (js "видео " ++ vid ++ js " · повтор запроса статуса…").

Definition image_poller (id model : jstr) : poller := Poller
  (20 * 60 * 1000) image_timeout
  (status_path "/admin/images/" id model) image_body
  (λ delay, Z.min 8000 (delay + 300))
  (js "картинка · повтор запроса статуса…").

(** Enough for 20 minutes of at least 2 s and 45 minutes of at least 5 s. *)
Definition poll_fuel : nat := 602.

Definition pollVideo (E : net) (vid model : jstr) (now : Z) : option (outcome * poll) :=
  tick E (video_poller vid model) now poll_fuel (start_poll 5000 now).
Definition pollImage (E : net) (id model : jstr) (now : Z) : option (outcome * poll) :=
  tick E (image_poller id model) now poll_fuel (start_poll 2000 now).

(** ** The promise chain of [runMedia] (lines 1761-1792) *)

Inductive gen_mode : Type := GImage | GVideo.

(** The [.catch] of the chain. *)
Definition finish_error (e : err) : effect :=
  Finish (text_fields (if is_abort e then js "остановлено" else s_or (e_msg e) (e_name e))).

Definition settle (l : list effect) (r : option (outcome * poll)) : option (list effect) :=
  match r with
  | None => None
  | Some (Resolved, st) => Some (l ++ p_out st)
  | Some (Rejected e, st) => Some (l ++ p_out st ++ [finish_error e])
  end.

(** [(x.j && x.j.error && x.j.error.message) || JSON.stringify(x.j)]. *)
Definition post_error (E : net) (j : val) : err :=
  let e := if truthy j then prop "error" j else j in
  let m := if truthy e then prop "message" e else e in
  match String_of (v_or m (VStr (JSON_stringify j))) with
  | Some s => new_error s
  | None => net_type_error E
  end.

Definition no_id_error : err := new_error (js "провайдер не вернул id задачи").

Definition after_image (E : net) (j : val) (model : jstr) (now : Z) : option (list effect) :=
  match videoJobStatus j, get (js "id") j with
  | Some st, Some id =>
    if truthy id && bool_decide (st ∈ [js "queued"; js "in_progress"])
       && negb (truthy (first_data j))
    then match queueWaitText (js "картинка") j (VStr st) 0 with
         | None => Some [finish_error (net_type_error E)]
         | Some line =>
           match String_of id with
           | None => Some [Pending line; finish_error (net_type_error E)]
           | Some id => settle [Pending line] (pollImage E id model now)
           end
         end
    else match image_src j with
         | None => Some [finish_error (net_type_error E)]
         | Some src =>
           if truthy src
           then Some [Finish (Fields (VStr (js "Изображение сгенерировано.")) None (Some src) None)]
           else Some [Finish (text_fields (JSON_stringify j))]
         end
  | _, _ => Some [finish_error (net_type_error E)]
  end.

Definition after_video (E : net) (j : val) (model : jstr) (now : Z) : option (list effect) :=
  match get (js "id") j with
  | None => Some [finish_error (net_type_error E)]
  | Some id =>
    if negb (truthy id) then Some [finish_error no_id_error]
    else match vid ← String_of id;
               line ← queueWaitText (js "видео " ++ vid) j (prop "status" j) 0;
               Some (vid, line) with
         | None => Some [finish_error (net_type_error E)]
         | Some (vid, line) => settle [Pending line] (pollVideo E vid model now)
         end
  end.

(** The effects of one generation, from the answer to its POST. *)
Definition generation (E : net) (m : gen_mode) (model : jstr) (post : fetched)
    (syntax_error : jstr) (now : Z) : option (list effect) :=
  match post with
  | FFail name msg => Some [finish_error (Err name msg false)]
  | FResp _ None => Some [finish_error (Err (js "SyntaxError") syntax_error false)]
  | FResp false (Some j) => Some [finish_error (post_error E j)]
  | FResp true (Some j) =>
    match m with
    | GImage => after_image E j model now
    | GVideo => after_video E j model now
    end
  end.
End pollers.

(** ** What a poller guarantees *)

(** A [.then] that keeps the delay in its bounds, finishes exactly when it is
    done, as its last effect, and sends no request of its own. *)
Record poller_ok (P : poller) (lo hi : Z) : Prop := PollerOk {
  lo_pos : 0 < lo;
  body_delay : ∀ E ok j sec d o d' v,
    lo ≤ d ≤ hi → body P E ok j sec d = (o, d', v) → lo ≤ d' ≤ hi;
  retry_ok : ∀ d, lo ≤ d ≤ hi → lo ≤ retry_delay P d ≤ hi;
  body_out : ∀ E ok j sec d o d' v,
    body P E ok j sec d = (o, d', v) →
    existsb is_fetch o = false ∧
    match v with
    | VDone => ∃ l f, o = l ++ [Finish f] ∧ existsb is_finish l = false
    | _ => existsb is_finish o = false
    end;
}.

(** Requests and timers take time. *)
Record net_ok (E : net) : Prop := NetOk {
  cost_ok : ∀ n, 0 ≤ cost E n;
  lag_ok : ∀ n, 0 ≤ lag E n;
}.

Definition fetches (l : list effect) : nat := length (List.filter is_fetch l).

Lemma fetches_app a b : fetches (a ++ b) = (fetches a + fetches b)%nat.
Proof. unfold fetches. by rewrite List.filter_app, length_app. Qed.

Lemma fetches_none l : existsb is_fetch l = false → fetches l = 0%nat.
Proof.
  unfold fetches. induction l as [|e l IH]; [done|]. simpl. intros [H1 H2]%orb_false_iff. rewrite H1. by apply IH.
Qed.

(** The effects of an outcome: a finish, last, exactly when it resolved. *)
Definition ends_well (r : outcome) (o : list effect) : Prop :=
  match r with
  | Resolved => ∃ l f, o = l ++ [Finish f] ∧ existsb is_finish l = false
  | Rejected _ => existsb is_finish o = false
  end.

Lemma ends_well_app a r o : existsb is_finish a = false → ends_well r o → ends_well r (a ++ o).
Proof.
  intros Ha. destruct r as [|e]; cbn.
  - intros (l & f & -> & Hl). exists (a ++ l), f. split; [by rewrite app_assoc|].
    by rewrite existsb_app, Ha.
  - intros Ho. by rewrite existsb_app, Ha.
Qed.

Section guarantees.
Context (E : net) (P : poller) (t0 lo hi : Z).
Context (HE : net_ok E) (HP : poller_ok P lo hi).
#[local] Set Default Proof Using "Type*".

Definition delay_ok (st : poll) : Prop := lo ≤ p_delay st ≤ hi.

(** A stretch of a poller's run: time and the trace grow, and the requests
    made in it lie at least [lo] apart. *)
Record stretch (st st' : poll) (o : list effect) : Prop := Stretch {
  st_out : p_out st' = p_out st ++ o;
  st_count : p_count st' = (p_count st + fetches o)%nat;
  st_delay : delay_ok st';
  st_time : p_now st ≤ p_now st';
  st_apart : (fetches o ≠ 0)%nat → p_now st + lo * (Z.of_nat (fetches o) - 1) ≤ p_now st';
}.

Lemma stretch_refl st : delay_ok st → stretch st st [].
Proof. intros H. split; [by rewrite app_nil_r|by rewrite Nat.add_0_r|done|lia|by intros []]. Qed.

(** The answer to one request. *)
Lemma respond_spec r st st' v :
  delay_ok st → respond E P t0 r st = (st', v) →
  ∃ o, p_out st' = p_out st ++ o ∧ fetches o = 0%nat ∧ p_count st' = p_count st ∧
    p_now st' = p_now st ∧ delay_ok st' ∧
    match v with
    | VDone => ∃ l f, o = l ++ [Finish f] ∧ existsb is_finish l = false
    | _ => existsb is_finish o = false
    end.
Proof.
  intros Hd. unfold respond. destruct r as [ok b|name msg].
  2: { intros [= <- <-]. exists []. by rewrite app_nil_r. }
  destruct (match b with Some j => _ | None => _ end) as [ok' j].
  destruct (body P E ok' j _ _) as [[o d] v'] eqn:Eb. intros [= <- <-].
  destruct (body_out _ _ _ HP _ _ _ _ _ _ _ _ Eb) as [Hf Hv].
  exists o. cbn. split_and!; [done|by apply fetches_none|done|done| |done].
  unfold delay_ok. cbn. by eapply (body_delay _ _ _ HP).
Qed.

Lemma sleep_spec st :
  delay_ok st →
  p_out (sleep E st) = p_out st ∧ p_count (sleep E st) = p_count st ∧
  delay_ok (sleep E st) ∧ p_now st + lo ≤ p_now (sleep E st).
Proof.
  intros Hd. unfold delay_ok in *. cbn. pose proof (lag_ok _ HE (length (p_out st))).
  split_and!; try done; lia.
Qed.

Lemma before_retry_spec st :
  delay_ok st →
  p_out (before_retry E P st) = p_out st ++ [Pending (retry_text P)] ∧
  p_count (before_retry E P st) = p_count st ∧ delay_ok (before_retry E P st) ∧
  p_now st + lo ≤ p_now (before_retry E P st).
Proof.
  intros Hd. unfold before_retry.
  pose proof (retry_ok _ _ _ HP _ Hd) as Hr.
  match goal with |- context [sleep E ?s] => destruct (sleep_spec s) as (H1 & H2 & H3 & H4) end;
    [done|]. rewrite H1, H2. by split_and!.
Qed.

(** Two stretches with a pause of at least [lo] between them, after a request. *)
Lemma stretch_join st st1 st2 st3 o1 o2 o3 :
  stretch st st1 o1 → fetches o1 ≠ 0%nat →
  p_out st2 = p_out st1 ++ o2 → fetches o2 = 0%nat → p_count st2 = p_count st1 →
  p_now st1 + lo ≤ p_now st2 →
  stretch st2 st3 o3 → stretch st st3 (o1 ++ o2 ++ o3).
Proof.
  intros [E1 C1 D1 T1 A1] F1 E2 F2 C2 T2 [E3 C3 D3 T3 A3]. pose proof (lo_pos _ _ _ HP).
  assert (fetches (o1 ++ o2 ++ o3) = fetches o1 + fetches o3)%nat as EF.
  { rewrite !fetches_app, F2. lia. }
  specialize (A1 F1). split.
  - by rewrite E3, E2, E1, <- !app_assoc.
  - rewrite C3, C2, C1, EF. lia.
  - done.
  - lia.
  - intros _. rewrite EF. destruct (fetches o3) as [|k]; [rewrite Nat.add_0_r; lia|].
    specialize (A3 ltac:(lia)). lia.
Qed.

(** A request and its answer. *)
Lemma request_stretch url st st2 v :
  delay_ok st →
  respond E P t0 (send_request E url st).1 (send_request E url st).2 = (st2, v) →
  ∃ o, stretch st st2 o ∧ fetches o = 1%nat ∧
    match v with
    | VDone => ends_well Resolved o
    | _ => existsb is_finish o = false
    end.
Proof.
  intros Hd Hr. pose proof (cost_ok _ HE (p_count st)).
  destruct (respond_spec _ (send_request E url st).2 _ _ Hd Hr) as (o & H1 & H2 & H3 & H4 & H5 & H6).
  exists ([Fetch url] ++ o). assert (fetches ([Fetch url] ++ o) = 1%nat) as EF.
  { rewrite fetches_app, H2. done. }
  cbn in H1, H3, H4. split_and!.
  - split; [by rewrite H1, <- app_assoc|rewrite H3, EF; lia|done|lia|]. rewrite EF. lia.
  - done.
  - destruct v; [done| |done]. destruct H6 as (l & f & -> & Hl).
    by exists ([Fetch url] ++ l), f.
Qed.

(** A time after which a tick makes no request. *)
Context (deadline : Z).
Context (Hstop : ∀ t, deadline < t → aborted E t = true ∨ max_wait P < t - t0).

(** What a run of [tick] leaves behind. *)
Definition tick_post (st st' : poll) (r : outcome) (o : list effect) : Prop :=
  stretch st st' o ∧ ends_well r o ∧
  ((fetches o ≠ 0)%nat → p_now st + lo * (Z.of_nat (fetches o) - 1) ≤ deadline).

Definition runs_well (st : poll) (res : option (outcome * poll)) : Prop :=
  ∃ r st' o, res = Some (r, st') ∧ tick_post st st' r o.

(** The [.catch], after a request. *)
Lemma catch_spec st st3 o e f :
  stretch st st3 o → fetches o ≠ 0%nat → existsb is_finish o = false →
  p_now st + lo * (Z.of_nat (fetches o) - 1) ≤ deadline →
  runs_well (before_retry E P st3) (tick E P t0 f (before_retry E P st3)) →
  runs_well st (if gives_up e then Some (Rejected e, st3)
                else tick E P t0 f (before_retry E P st3)).
Proof.
  intros Hs Hn Hf Ht (r & st' & o' & Er & Hs' & Hw & Hd). destruct (gives_up e).
  { exists (Rejected e), st3, o. by repeat split; try apply Hs. }
  exists r, st', (o ++ [Pending (retry_text P)] ++ o'). split; [done|].
  destruct (before_retry_spec st3 (st_delay _ _ _ Hs)) as (H1 & H2 & H3 & H4).
  split_and!.
  - by apply (stretch_join st st3 (before_retry E P st3) st').
  - apply ends_well_app; [done|]. by apply ends_well_app.
  - intros _. rewrite !fetches_app. change (fetches [Pending _]) with 0%nat.
    pose proof (st_apart _ _ _ Hs Hn).
    destruct (fetches o') as [|k]; [rewrite !Nat.add_0_r; done|]. specialize (Hd ltac:(lia)). lia.
Qed.

(** With fuel for the time that is left, a poller comes to an end. *)
Lemma tick_runs fuel st :
  delay_ok st → fuel ≠ 0%nat → deadline < p_now st + lo * (Z.of_nat fuel - 1) →
  runs_well st (tick E P t0 fuel st).
Proof.
  pose proof (lo_pos _ _ _ HP) as Hlo.
  revert st. induction fuel as [|f IH]; intros st Hd Hf Ht; [done|]. cbn [tick].
  assert (∀ r, (∃ e, r = Rejected e) → runs_well st (Some (r, st))) as Hend.
  { intros r [e ->]. exists (Rejected e), st, []. by repeat split; try apply (stretch_refl st Hd). }
  destruct (aborted E (p_now st)) eqn:Ea; [by eauto|].
  destruct (Z.ltb_spec (max_wait P) (p_now st - t0)) as [?|Hin]; [by eauto|].
  assert (p_now st ≤ deadline) as Hnow.
  { destruct (Z.le_gt_cases (p_now st) deadline) as [?|Hgt]; [done|].
    destruct (Hstop _ Hgt); [congruence|lia]. }
  destruct (status_url P) as [url|]; [|by eauto].
  assert (f ≠ 0%nat) as Hf' by (intros ->; lia).
  destruct (send_request E url st) as [r1 st1] eqn:Es.
  destruct (respond E P t0 r1 st1) as [st2 v] eqn:Er.
  destruct (request_stretch url st st2 v Hd) as (o & Hs & Ho & Hv); [by rewrite Es|].
  assert (∀ st' , p_now st + lo ≤ p_now st' → delay_ok st' →
            runs_well st' (tick E P t0 f st')) as IH'.
  { intros st' Hn Hd'. apply IH; [done|done|lia]. }
  destruct v as [| |e].
  - destruct (sleep_spec st2 (st_delay _ _ _ Hs)) as (S1 & S2 & S3 & S4).
    pose proof (st_time _ _ _ Hs).
    destruct (IH' (sleep E st2) ltac:(lia) S3) as (r & st3 & o3 & -> & Hs3 & Hw3 & Hd3).
    assert (stretch st st3 (o ++ [] ++ o3)) as Hs'.
    { apply (stretch_join st st2 (sleep E st2)); try done; [lia|by rewrite app_nil_r]. }
    assert (p_now st + lo * (Z.of_nat (fetches (o ++ [] ++ o3)) - 1) ≤ deadline) as Hd'.
    { cbn. rewrite fetches_app, Ho. destruct (fetches o3); [lia|]. specialize (Hd3 ltac:(lia)). lia. }
    destruct r as [|e].
    + exists Resolved, st3, (o ++ [] ++ o3). split; [done|]. split_and!; [done| |done].
      by apply ends_well_app.
    + apply (catch_spec st st3 (o ++ [] ++ o3)); try done.
      * cbn. rewrite fetches_app. lia.
      * cbn. by rewrite existsb_app, Hv.
      * destruct (before_retry_spec st3 (st_delay _ _ _ Hs')) as (R1 & R2 & R3 & R4).
        apply IH'; [|done]. pose proof (st_time _ _ _ Hs'). lia.
  - exists Resolved, st2, o. split; [done|]. split_and!; [done|done|]. rewrite Ho. lia.
  - apply (catch_spec st st2 o); try done; [lia|rewrite Ho; lia|].
    destruct (before_retry_spec st2 (st_delay _ _ _ Hs)) as (R1 & R2 & R3 & R4).
    apply IH'; [|done]. pose proof (st_time _ _ _ Hs). lia.
Qed.
End guarantees.

(** ** The two pollers keep to it *)

Ltac body_cases := repeat (case_match; simplify_eq; cbn [mbind option_bind] in *).

Section instances.
Context `{CaseFold}.

Lemma video_ok vid model : poller_ok (video_poller vid model) 5000 20000.
Proof.
  split; [lia| |cbn; lia|].
  - intros E ok j sec d o d' v Hd. cbn [body video_poller]. unfold video_body.
    intros Hb. repeat case_match; simplify_eq; lia.
  - intros E ok j sec d o d' v. cbn [body video_poller]. unfold video_body.
    intros Hb. repeat case_match; simplify_eq; split; try done.
    all: by eexists [_], _.
Qed.

Lemma image_ok id model : poller_ok (image_poller id model) 2000 15000.
Proof.
  split; [lia| |cbn; lia|].
  - intros E ok j sec d o d' v Hd. cbn [body image_poller]. unfold image_body.
    intros Hb. repeat case_match; simplify_eq; lia.
  - intros E ok j sec d o d' v. cbn [body image_poller]. unfold image_body.
    intros Hb. repeat case_match; simplify_eq; split; try done.
    all: by eexists [_], _.
Qed.

(** The whole run of a poller: it ends, with a finish exactly when it resolves,
    after a bounded number of requests. *)
Definition poll_result (res : option (outcome * poll)) (bound : nat) : Prop :=
  ∃ r st, res = Some (r, st) ∧ ends_well r (p_out st) ∧ (fetches (p_out st) ≤ bound)%nat.

Lemma poll_bound E P lo hi d0 now :
  net_ok E → poller_ok P lo hi → lo ≤ d0 ≤ hi → max_wait P < lo * 601 → 0 ≤ max_wait P →
  poll_result (tick E P now poll_fuel (start_poll d0 now)) (Z.to_nat (max_wait P / lo + 1)).
Proof.
  intros HE HP Hd Hm H0. pose proof (lo_pos _ _ _ HP).
  destruct (tick_runs E P now lo hi HE HP (now + max_wait P) ltac:(intros; right; lia)
              poll_fuel (start_poll d0 now)) as (r & st & o & -> & Hs & Hw & Hb);
    [done|done|change (Z.of_nat poll_fuel) with 602; cbn [p_now start_poll]; lia|].
  exists r, st. pose proof (st_out _ _ _ _ _ Hs) as Eo. simpl in Eo. rewrite Eo.
  split_and!; [done|done|].
  destruct (fetches o) as [|k]; [lia|]. specialize (Hb ltac:(done)). cbn [p_now start_poll] in Hb. rewrite Nat2Z.inj_succ in Hb.
  assert (Z.of_nat k ≤ max_wait P / lo) by (apply Z.div_le_lower_bound; nia). lia.
Qed.

Lemma pollVideo_runs E vid model now : net_ok E → poll_result (pollVideo E vid model now) 541.
Proof. intros HE. by apply (poll_bound E (video_poller vid model) 5000 20000); try apply video_ok. Qed.

Lemma pollImage_runs E id model now : net_ok E → poll_result (pollImage E id model now) 601.
Proof. intros HE. by apply (poll_bound E (image_poller id model) 2000 15000); try apply image_ok. Qed.

(** ** Properties *)

Definition one_finish (l : list effect) (bound : nat) : Prop :=
  ∃ k f, l = k ++ [Finish f] ∧ existsb is_finish k = false ∧ (fetches l ≤ bound)%nat.

Lemma one_finish_single f b : one_finish [Finish f] b.
Proof. exists [], f. by split_and!; [| |cbn; lia]. Qed.

Lemma settle_spec a res b :
  existsb is_finish a = false → fetches a = 0%nat → poll_result res b →
  ∃ l, settle a res = Some l ∧ one_finish l b.
Proof.
  intros Ha Hf (r & st & -> & Hw & Hb). destruct r as [|e]; cbn in *.
  - destruct Hw as (l & f & Eo & Hl). eexists. split; [done|].
    exists (a ++ l), f. rewrite Eo in Hb |- *. split_and!; [by rewrite app_assoc|by rewrite existsb_app, Ha|].
    rewrite fetches_app, Hf. done.
  - eexists. split; [done|]. eexists (a ++ p_out st), _. unfold finish_error.
    split_and!; [by rewrite <- app_assoc|by rewrite existsb_app, Ha|].
    rewrite !fetches_app, Hf. cbn. lia.
Qed.

Lemma generation_ends E m model post syntax_error now :
  net_ok E →
  ∃ l, generation E m model post syntax_error now = Some l ∧ one_finish l 601.
Proof.
  intros HE.
  assert (∀ e, ∃ l, Some [finish_error e] = Some l ∧ one_finish l 601) as He.
  { intros e. eexists. split; [done|]. apply one_finish_single. }
  unfold generation. destruct post as [[] [j|]|name msg]; [|apply He..]. destruct m.
  - unfold after_image. destruct (videoJobStatus j) as [st|], (get (js "id") j) as [id|]; try apply He.
    destruct (_ && _).
    + destruct (queueWaitText (js "картинка") j (VStr st) 0) as [line|]; [|apply He].
      destruct (String_of id) as [id'|].
      * apply settle_spec; [done|done|]. by apply pollImage_runs.
      * eexists. split; [done|]. eexists [_], _. split_and!; [done|done|cbn; lia].
    + destruct (image_src j) as [src|]; [|apply He].
      destruct (truthy src); eexists; (split; [done|]); apply one_finish_single.
  - unfold after_video. destruct (get (js "id") j) as [id|]; [|apply He].
    destruct (negb (truthy id)); [apply He|].
    destruct (String_of id) as [vid|]; [|apply He]. cbn [mbind option_bind].
    destruct (queueWaitText (js "видео " ++ vid) j (prop "status" j) 0) as [line|]; cbn [mbind option_bind]; [|apply He].
    destruct (settle_spec [Pending line] (pollVideo E vid model now) 541) as (l & -> & k & f & H1 & H2 & H3);
      [done|done|by apply pollVideo_runs|].
    exists l. split; [done|]. exists k, f. split_and!; [done|done|lia].
Qed.

(** C1: Every generation comes to an end: whatever the server answers, however
    long requests take and whenever the user stops it, the chain of
    [runMedia] produces its effects after at most 601 status requests, and
    exactly one of them, the last, is [finishAssistant]. *)
Theorem generation_finishes E m model post syntax_error now :
  net_ok E →
  ∃ l, generation E m model post syntax_error now = Some l ∧ one_finish l 601.
Proof. apply generation_ends. Qed.

(** C7: After a generation its chat is no longer busy and no other chat has
    changed, in any store that keeps the promises of [ChatSinkLaws]. *)
Theorem generation_leaves_chat_idle {S} `{ChatSinkLaws S good} E m model post syntax_error now id s :
  net_ok E → good s → has_chat id s →
  ∃ l, generation E m model post syntax_error now = Some l ∧
    is_busy id (run_effects id l s) = false ∧
    ∀ id', id ≠ id' → view id' (run_effects id l s) = view id' s.
Proof.
  intros HE Hg Hid.
  destruct (generation_ends E m model post syntax_error now HE) as (l & El & k & f & -> & Hk & _).
  exists (k ++ [Finish f]). split; [done|]. split.
  - by apply run_effects_idle.
  - intros id' Hne. by apply run_effects_others.
Qed.
End instances.

(** ** Answers over time *)

Section answers.
Context `{CaseFold}.

(** The JSON a [.then] sees, and what it decides. *)
Definition seen (a : fetched) : option (bool * val) :=
  match a with
  | FResp ok (Some j) => Some (ok, v_or j (VObj []))
  | FResp _ None => Some (false, VObj [])
  | FFail _ _ => None
  end.

Definition decides (P : poller) (E : net) (a : fetched) (V : list effect → verdict → Prop) : Prop :=
  ∃ ok j, seen a = Some (ok, j) ∧
    ∀ sec d, ∃ o d' v, body P E ok j sec d = (o, d', v) ∧ V o v.

(** An answer after which the poller waits. *)
Definition waits (P : poller) (E : net) (a : fetched) : Prop :=
  decides P E a (λ _ v, v = VWait).
(** An answer that ends it with [f]. *)
Definition delivers (P : poller) (E : net) (a : fetched) (f : fields) : Prop :=
  decides P E a (λ o v, v = VDone ∧ ∃ l, o = l ++ [Finish f]).

Lemma respond_decides P E t0 a V st :
  decides P E a V →
  ∃ o d v, respond E P t0 a st = (Poll d (p_now st) (p_count st) (p_out st ++ o), v) ∧ V o v.
Proof.
  intros (ok & j & Hs & Hb). destruct (Hb (elapsed_s t0 st) (p_delay st)) as (o & d & v & Eb & HV).
  exists o, d, v. split; [|done]. unfold respond.
  destruct a as [ok' [j'|]|]; simplify_eq/=; by rewrite Eb.
Qed.

Section run.
Context (E : net) (P : poller) (t0 lo hi C : Z) (HE : net_ok E) (HP : poller_ok P lo hi).
Context (HC : ∀ n m, cost E n + lag E m ≤ C).
Context (url : jstr) (Hurl : status_url P = Some url).
Context (Habort : ∀ t, aborted E t = false).
#[local] Set Default Proof Using "Type*".

Lemma tick_request f st :
  p_now st - t0 ≤ max_wait P →
  tick E P t0 (S f) st =
    (let '(st2, v) := respond E P t0 (send_request E url st).1 (send_request E url st).2 in
     match (match v with
            | VDone => Some (Resolved, st2)
            | VThrow e => Some (Rejected e, st2)
            | VWait => tick E P t0 f (sleep E st2)
            end) with
     | None => None
     | Some (Resolved, st3) => Some (Resolved, st3)
     | Some (Rejected e, st3) =>
       if gives_up e then Some (Rejected e, st3) else tick E P t0 f (before_retry E P st3)
     end).
Proof.
  intros Hn. cbn [tick]. rewrite Habort, (proj2 (Z.ltb_ge _ _)), Hurl by lia. done.
Qed.

(** One request that is answered by a wait. *)
Lemma tick_waits f st :
  delay_ok lo hi st → p_now st - t0 ≤ max_wait P → waits P E (answer E (p_count st)) →
  ∃ st1, delay_ok lo hi st1 ∧ p_count st1 = S (p_count st) ∧
    p_now st + lo ≤ p_now st1 ≤ p_now st + hi + C ∧
    tick E P t0 (S f) st =
      match tick E P t0 f st1 with
      | None => None
      | Some (Resolved, st3) => Some (Resolved, st3)
      | Some (Rejected e, st3) =>
        if gives_up e then Some (Rejected e, st3) else tick E P t0 f (before_retry E P st3)
      end.
Proof.
  intros Hd Hn Hw. rewrite tick_request by done.
  destruct (respond_decides P E t0 _ _ (send_request E url st).2 Hw) as (o & d & v & Er & ->).
  cbn [fst send_request snd] in Er |- *. rewrite Er.
  destruct (request_stretch E P t0 lo hi HE HP url st _ _ Hd Er) as (o' & Hs & _ & _).
  destruct (sleep_spec E P lo hi HE HP _ (st_delay _ _ _ _ _ Hs)) as (S1 & S2 & S3 & S4).
  match goal with |- context [sleep E ?s] => exists (sleep E s) end. split_and!.
  - done.
  - done.
  - pose proof (st_time _ _ _ _ _ Hs). lia.
  - pose proof (st_delay _ _ _ _ _ Hs) as [_ Hh]. cbn in Hh |- *.
    match goal with |- context [lag E ?m] => pose proof (HC (p_count st) m) end. lia.
  - done.
Qed.

(** While answers say wait and time is left, the poller goes on; the first
    answer that delivers ends it. *)
Lemma tick_completes f st n fl :
  delay_ok lo hi st → 0 ≤ C → (n < f)%nat →
  p_now st - t0 + Z.of_nat n * (hi + C) ≤ max_wait P →
  (∀ k, (k < n)%nat → waits P E (answer E (p_count st + k))) →
  delivers P E (answer E (p_count st + n)) fl →
  ∃ st' l, tick E P t0 f st = Some (Resolved, st') ∧
    p_count st' = S (p_count st + n) ∧ p_out st' = l ++ [Finish fl].
Proof.
  intros Hd HC0. pose proof (lo_pos _ _ _ HP) as Hlo. assert (0 < hi) as Hhi by (unfold delay_ok in Hd; lia).
  revert n st Hd. induction f as [|f IH]; intros n st Hd Hf Hn Hw Hdel; [lia|].
  assert (p_now st - t0 ≤ max_wait P) as Hnow by nia.
  destruct n as [|n].
  - rewrite Nat.add_0_r in Hdel |- *. rewrite tick_request by done.
    destruct (respond_decides P E t0 _ _ (send_request E url st).2 Hdel)
      as (o & d & v & Er & -> & l & ->).
    cbn [fst send_request snd] in Er |- *. rewrite Er. eexists _, _. split_and!; [done|done|].
    cbn. by rewrite !app_assoc.
  - destruct (tick_waits f st Hd Hnow) as (st1 & D1 & C1 & N1 & ->).
    { specialize (Hw 0%nat ltac:(lia)). by rewrite Nat.add_0_r in Hw. }
    destruct (IH n st1) as (st' & l & -> & Hc & Ho); [done|lia|nia| | |].
    + intros k Hk. rewrite C1, Nat.add_succ_comm. apply Hw. lia.
    + by rewrite C1, Nat.add_succ_comm.
    + exists st', l. split_and!; [done|rewrite Hc, C1; lia|done].
Qed.

End run.
End answers.


Section results.
Context `{CaseFold}.


Lemma status_waits_image id model E j st :
  truthy j = true → videoJobStatus j = Some st → completed st = false → failed st = false →
  truthy (prop "error" j) = false → truthy (first_data j) = false →
  (∀ label sec, is_Some (queueWaitText label j (VStr st) sec)) →
  waits (image_poller id model) E (FResp true (Some j)).
Proof.
  intros Hj Hst Hc Hf He Hd Hq. exists true, j. unfold seen, v_or. rewrite Hj. split; [done|].
  intros sec d. cbn [body image_poller]. unfold image_body, is_failure. rewrite Hst.
  destruct (Hq (js "картинка") sec) as [line Hl]. cbn [mbind option_bind].
  rewrite Hl. cbn [mbind option_bind]. rewrite Hc, Hf, He, Hd. by eexists _, _, _.
Qed.


(** An image is delivered under the same conditions within the 20 minutes, and
    as soon as the answer holds data even if the status does not say so: the
    message gets the base-64 data as a data URL, else the URL of the answer. *)
Theorem image_delivered E id model now n C j st src :
  net_ok E → 0 ≤ C → (∀ a b, cost E a + lag E b ≤ C) → (∀ t, aborted E t = false) →
  is_Some (encodeURIComponent id) → is_Some (encodeURIComponent model) →
  Z.of_nat n * (15000 + C) ≤ 20 * 60 * 1000 →
  (∀ k, (k < n)%nat → waits (image_poller id model) E (answer E k)) →
  answer E n = FResp true (Some j) → truthy j = true → videoJobStatus j = Some st →
  completed st = true ∨ truthy (first_data j) = true →
  image_src j = Some src → truthy src = true →
  (∀ label sec, is_Some (queueWaitText label j (VStr st) sec)) →
  ∃ st' l, pollImage E id model now = Some (Resolved, st') ∧ p_count st' = S n ∧
    p_out st' = l ++ [Finish (Fields (VStr (js "Изображение сгенерировано.")) None (Some src) None)].
Proof.
  intros HE HC0 HC Ha [vu Hvu] [mu Hmu] Hn Hw Hans Hj Hst Hc Hsrc Hsrc' Hq.
  assert (delivers (image_poller id model) E (answer E n) (Fields (VStr (js "Изображение сгенерировано.")) None (Some src) None)) as Hdel.
  { rewrite Hans. exists true, j.
    unfold seen, v_or. rewrite Hj. split; [done|].
    intros sec d. cbn [body image_poller]. unfold image_body. rewrite Hst.
    destruct (Hq (js "картинка") sec) as [line Hl]. cbn [mbind option_bind].
    rewrite Hl. cbn [mbind option_bind].
    assert (completed st || truthy (first_data j) = true) as -> by (destruct Hc as [-> | ->]; by rewrite ?orb_true_r).
    rewrite Hsrc, Hsrc'. eexists _, _, _. split; [done|]. split; [done|]. by exists [Pending line]. }
  assert (status_url (image_poller id model) = Some (js "/admin/images/" ++ vu ++ js "?model=" ++ mu)) as Hurl.
  { cbn. unfold status_path. by rewrite Hvu, Hmu. }
  destruct (tick_completes E (image_poller id model) now 2000 15000 C HE (image_ok id model) HC _ Hurl Ha
              poll_fuel (start_poll 2000 now) n (Fields (VStr (js "Изображение сгенерировано.")) None (Some src) None)) as (st' & l & E1 & E2 & E3);
    [unfold delay_ok; cbn; lia|done|unfold poll_fuel; lia
    |cbn [p_now start_poll max_wait image_poller]; lia|exact Hw|exact Hdel|].
  exists st', l. split_and!; [exact E1|exact E2|exact E3].
Qed.




End results.

(** ** Witnesses *)

Lemma no_queue_text label j st sec :
  is_nullish (prop "queue_ahead" j) = true → truthy j = true →
  is_Some (queueWaitText label j (VStr st) sec).
Proof.
  intros Hn Hj. unfold queueWaitText. rewrite Hj.
  assert (∃ s, String_of (v_or (VStr st) (VStr (js "ожидание"))) = Some s) as [s ->].
  { unfold v_or, String_of. destruct (truthy (VStr st)); cbn [can_str to_str]; eexists; reflexivity. }
  cbn [mbind option_bind]. rewrite Hn. by eexists.
Qed.

Definition status_obj (s : string) : val := VObj [(js "status", VStr (js s))].
Definition job_runs : fetched := FResp true (Some (status_obj "in_progress")).
Definition job_done : fetched := FResp true (Some (status_obj "completed")).
Definition image_done : fetched :=
  FResp true (Some (VObj [(js "data", VArr [VObj [(js "url", VStr (js "/i.png"))]])])).

(** A server that answers [a] from the [n]-th status request on, and "in
    progress" before, without any delay; the user stops at time [T]. *)
Definition quiet_net (n : nat) (a : fetched) (T : option Z) : net :=
  Net (λ k, if (k <? n)%nat then job_runs else a) (λ _, 0) (λ _, 0)
    (λ t, match T with Some T => T <=? t | None => false end) [] [].

Lemma quiet_ok n a T : net_ok (quiet_net n a T).
Proof. by split. Qed.


Lemma job_runs_waits_image id model E :
  waits (image_poller (H:=AsciiCyrillicFold) id model) E job_runs.
Proof.
  apply (status_waits_image (H:=AsciiCyrillicFold) id model E _ (js "in_progress"));
    [reflexivity..|]. intros label sec. by apply no_queue_text.
Qed.

Lemma generation_finishes_witness :
  ∃ l, generation (H:=AsciiCyrillicFold) (quiet_net 3 job_done None) GVideo (js "m")
         (FResp true (Some (VObj [(js "id", VStr (js "v1"))]))) [] 0 = Some l ∧ one_finish l 601.
Proof. apply (generation_finishes (H:=AsciiCyrillicFold)). apply quiet_ok. Defined.


Lemma image_delivered_witness :
  ∃ st' l, pollImage (H:=AsciiCyrillicFold) (quiet_net 2 image_done None) (js "i1") (js "m") 0
             = Some (Resolved, st') ∧ p_count st' = 3%nat ∧
    p_out st' = l ++ [Finish (Fields (VStr (js "Изображение сгенерировано.")) None
                                (Some (VStr (js "/i.png"))) None)].
Proof.
  eapply (image_delivered (H:=AsciiCyrillicFold) (quiet_net 2 image_done None) (js "i1") (js "m") 0 2 0).
  - apply quiet_ok.
  - lia.
  - intros. simpl. lia.
  - reflexivity.
  - vm_compute. by eexists.
  - vm_compute. by eexists.
  - lia.
  - intros k Hk. simpl. rewrite (proj2 (Nat.ltb_lt k 2) Hk). apply job_runs_waits_image.
  - reflexivity.
  - reflexivity.
  - reflexivity.
  - right. reflexivity.
  - reflexivity.
  - reflexivity.
  - intros label sec. by apply no_queue_text.
Defined.

(** With no delays at all the "45 minutes" are 90. *)
Example video_limit_minutes :
  option_map (λ r, p_now r.2 / 60000)
    (pollVideo (H:=AsciiCyrillicFold) (quiet_net 0 job_runs None) (js "v1") (js "m") 0) = Some 90.
Proof. vm_compute. reflexivity. Qed.


