(* ===== verification/ChatStream.v ===== *)
(** * The chat answer as a stream of events

    app.js lines 1850-1911: the answer of [/admin/chat] is read in chunks of
    bytes, decoded, cut into lines, and each line that holds JSON is merged into
    the answer ([acc]) and the reasoning ([think]).  A run is a function of the
    chunks the reader delivers; its updates are what [ChatStore.stream_update]
    shows, its end is one [finishAssistant]. *)

From Stdlib Require Import QArith.
From S2P Require Import Prelude JsString JsNumber JsValue JsJson Uri ChatSink MediaPoll.
Open Scope Z_scope.

(** ** [a + b] *)

Definition num_add (a b : num) : num :=
  match a, b with
  | NaN, _ | _, NaN => NaN
  | Inf s, Inf t => if Bool.eqb s t then Inf s else NaN
  | Inf s, _ | _, Inf s => Inf s
  | Fin p, Fin q => to_double (Qplus p q)
  end.

Definition stringy (v : val) : bool :=
  match v with VStr _ | VArr _ | VObj _ => true | _ => false end.

(** A string or an object on either side makes it a concatenation. *)
Definition js_plus (a b : val) : option val :=
  if stringy a || stringy b
  then x ← String_of a; y ← String_of b; Some (VStr (x ++ y))
  else x ← Number_of a; y ← Number_of b; Some (VNum (num_add x y)).

(** ** One line (lines 1870-1885) *)

(** The answer so far and the reasoning so far. *)
Record progress := Progress { acc : val; think : val }.
Definition no_progress : progress := Progress (VStr []) (VStr []).

Definition add_think (v : val) (p : progress) : option progress :=
  if truthy v then t ← js_plus (think p) v; Some (Progress (acc p) t) else Some p.
Definition add_acc (v : val) (p : progress) : option progress :=
  if truthy v then a ← js_plus (acc p) v; Some (Progress a (think p)) else Some p.

(** The parsed line merged into the progress; [None] for a TypeError. *)
Definition merge_event (j : val) (p : progress) : option progress :=
  choices ← get (js "choices") j;
  let ch := v_or (if truthy choices then prop "0" choices else choices) (VObj []) in
  let d := v_or (prop "delta" ch) (v_or (prop "message" ch) (VObj [])) in
  p ← add_think (prop "reasoning" d) p;
  p ← add_think (prop "reasoning_content" d) p;
  p ← add_acc (prop "content" d) p;
  let m := prop "message" j in
  let mc := if truthy m then prop "content" m else m in
  let p := if truthy mc && negb (truthy (prop "content" d)) then Progress mc (think p) else p in
  let e := prop "error" j in
  if truthy e then
    match v_or (prop "message" e) e with
    | VStr em => a ← js_plus (acc p) (VStr em); Some (Progress a (think p))
    | _ => Some p
    end
  else Some p.

(** A line: skipped, merged (and shown), or the end of the stream by an error. *)
Inductive line_result : Type :=
  | LSkip
  | LShow (p : progress)
  | LThrow.

Definition sse_line (line : jstr) (p : progress) : line_result :=
  let line := trim (strip_last cCR line) in
  if negb (truthy_s line) || bool_decide (line = js "data: [DONE]") then LSkip else
  let line := if starts_with (js "data:") line then trim (drop 5 line) else line in
  match JSON_parse line with
  | None => LSkip
  | Some j => match merge_event j p with Some p' => LShow p' | None => LThrow end
  end.

(** [parts.forEach]: what is shown, in order, the progress, and whether a line
    threw. *)
Fixpoint sse_lines (lines : list jstr) (p : progress) : list progress * progress * bool :=
  match lines with
  | [] => ([], p, true)
  | l :: t =>
    match sse_line l p with
    | LSkip => sse_lines t p
    | LShow p' => let '(shown, q, ok) := sse_lines t p' in (p' :: shown, q, ok)
    | LThrow => ([], p, false)
    end
  end.

(** ** The reader (lines 1861-1900) *)

(** [TextDecoder] drops one byte order mark at the start. *)
Record decoder := Decoder { td_state : dstate; td_start : bool }.
Definition new_decoder : decoder := Decoder d_init true.

Definition text_decode (td : decoder) (bs : list Z) : decoder * jstr :=
  let '(st, o) := decode_from (td_state td) bs in
  if td_start td then
    match o with
    | [] => (Decoder st true, [])
    | c :: t => (Decoder st false, if c =? 65279 then t else o)
    end
  else (Decoder st false, o).

Record stream := Stream { s_dec : decoder; s_buf : jstr; s_prog : progress }.
Definition new_stream : stream := Stream new_decoder [] no_progress.

(** One chunk: [buf += dec.decode(..)], the complete lines, the rest kept. *)
Definition feed (bs : list Z) (s : stream) : list progress * stream * bool :=
  let '(td, text) := text_decode (s_dec s) bs in
  let parts := split_on cNL (s_buf s ++ text) in
  let '(shown, p, ok) := sse_lines (removelast parts) (s_prog s) in
  (shown, Stream td (List.last parts []) p, ok).

(** What [reader.read()] gives: the chunks, then the end or a failure. *)
Inductive reader_end : Type := REnd | RFail (e : err).

Inductive stream_end : Type := SEnd | SFail (e : err).

Fixpoint pump (type_error : jstr) (chunks : list (list Z)) (fin : reader_end) (s : stream)
    : list progress * progress * stream_end :=
  match chunks with
  | [] => ([], s_prog s, match fin with REnd => SEnd | RFail e => SFail e end)
  | c :: t =>
    let '(shown, s', ok) := feed c s in
    if ok then let '(more, p, e) := pump type_error t fin s' in (shown ++ more, p, e)
    else (shown, s_prog s', SFail (Err (js "TypeError") type_error false))
  end.

(** ** The end (lines 1901-1911) *)

Definition or_undefined (v : val) : val := if truthy v then v else VUndef.

Definition stream_fields (p : progress) (e : stream_end) : fields :=
  match e with
  | SEnd => Fields (v_or (acc p) (v_or (think p) (VStr []))) (Some (or_undefined (think p))) None None
  | SFail e =>
    if is_abort e
    then Fields (v_or (acc p) (VStr (js "остановлено"))) (Some (or_undefined (think p))) None None
    else text_fields (s_or (e_msg e) (js "ошибка"))
  end.

(** The answer to the request (lines 1856-1862): a failure, a status with its
    text, no body, or a stream. *)
Inductive chat_answer : Type :=
  | AFail (e : err)
  | AStatus (text : jstr) (code : Z)
  | ANoBody
  | AStream (chunks : list (list Z)) (fin : reader_end).

Definition chat_run (type_error : jstr) (a : chat_answer) : list progress * fields :=
  match a with
  | AFail e => ([], stream_fields no_progress (SFail e))
  | AStatus t code =>
    ([], stream_fields no_progress (SFail (new_error (s_or t (of_int code)))))
  | ANoBody => ([], stream_fields no_progress (SFail (new_error (js "нет потока"))))
  | AStream chunks fin =>
    let '(shown, p, e) := pump type_error chunks fin new_stream in (shown, stream_fields p e)
  end.

(** ** Chunks do not matter *)

Lemma split_on_none c s : c ∉ s → split_on c s = [s].
Proof.
  induction s as [|x s IH]; [done|]. intros [Hx Hs]%not_elem_of_cons. simpl.
  rewrite (proj2 (Z.eqb_neq x c)) by done. by rewrite IH.
Qed.

Lemma removelast_cons {A} (x : A) l : l ≠ [] → removelast (x :: l) = x :: removelast l.
Proof. by destruct l. Qed.
Lemma last_cons_ne {A} (x d : A) l : l ≠ [] → List.last (x :: l) d = List.last l d.
Proof. by destruct l. Qed.

Lemma last_app_ne {A} (l k : list A) d : k ≠ [] → List.last (l ++ k) d = List.last k d.
Proof.
  intros Hk. induction l as [|x l IH]; [done|]. cbn [app]. rewrite last_cons_ne; [done|].
  by destruct l, k.
Qed.

Lemma split_on_chunks c a b :
  split_on c (a ++ b) =
  removelast (split_on c a) ++ split_on c (List.last (split_on c a) [] ++ b).
Proof.
  induction a as [|x a IH]; [done|]. cbn [split_on app]. destruct (x =? c) eqn:E.
  - rewrite IH. rewrite removelast_cons, last_cons_ne by apply split_on_nonempty. done.
  - rewrite IH. pose proof (split_on_nonempty c a) as Hne.
    destruct (split_on c a) as [|w ws] eqn:Ea; [done|].
    destruct ws as [|w2 ws].
    + cbn. by rewrite E.
    + rewrite !removelast_cons, !last_cons_ne by done. cbn [app]. done.
Qed.

Lemma last_split_clean c s : c ∉ List.last (split_on c s) [].
Proof.
  induction s as [|x s IH]; [by intros ?%elem_of_nil|]. cbn [split_on]. destruct (x =? c) eqn:E.
  - by rewrite last_cons_ne by apply split_on_nonempty.
  - destruct (split_on c s) as [|w ws] eqn:Es; [by destruct (split_on_nonempty c s)|].
    destruct ws as [|w2 ws].
    + cbn in *. apply not_elem_of_cons. split; [by intros ->; rewrite Z.eqb_refl in E|done].
    + rewrite last_cons_ne in * by done. done.
Qed.

Lemma sse_lines_app a b p :
  sse_lines (a ++ b) p =
  (let '(sh1, q, ok) := sse_lines a p in
   if ok then let '(sh2, r, ok') := sse_lines b q in (sh1 ++ sh2, r, ok') else (sh1, q, false)).
Proof.
  revert p. induction a as [|l a IH]; intros p; simpl.
  - by destruct (sse_lines b p) as [[? ?] ?].
  - destruct (sse_line l p) as [|p'|]; [apply IH| |done]. rewrite IH.
    destruct (sse_lines a p') as [[sh q] ok]. destruct ok; [|done].
    by destruct (sse_lines b q) as [[? ?] ?].
Qed.

Lemma text_decode_app td a b :
  text_decode td (a ++ b) =
  (let '(t1, o1) := text_decode td a in let '(t2, o2) := text_decode t1 b in (t2, o1 ++ o2)).
Proof.
  unfold text_decode. rewrite decode_from_app.
  destruct (decode_from (td_state td) a) as [s1 o1] eqn:E1.
  destruct (decode_from s1 b) as [s2 o2] eqn:E2.
  destruct (td_start td); [destruct o1 as [|c o1]|]; cbn; rewrite E2.
  - destruct o2; done.
  - destruct (c =? 65279); done.
  - done.
Qed.

Lemma feed_app a b s :
  feed (a ++ b) s =
  (let '(sh1, s1, ok1) := feed a s in
   let '(sh2, s2, ok2) := feed b s1 in
   if ok1 then (sh1 ++ sh2, s2, ok2)
   else (sh1, Stream (s_dec s2) (s_buf s2) (s_prog s1), false)).
Proof.
  unfold feed. rewrite text_decode_app.
  destruct (text_decode (s_dec s) a) as [t1 o1]. destruct (text_decode t1 b) as [t2 o2] eqn:Eb.
  rewrite app_assoc, split_on_chunks. set (w := split_on cNL (s_buf s ++ o1)).
  destruct (sse_lines (removelast w) (s_prog s)) as [[sh1 p1] ok1] eqn:E1. cbn [s_dec s_buf s_prog].
  rewrite Eb.
  assert (split_on cNL (List.last w [] ++ o2) ≠ []) as Hne by apply split_on_nonempty.
  rewrite removelast_app by done. rewrite sse_lines_app, E1.
  destruct ok1.
  - destruct (sse_lines (removelast (split_on cNL (List.last w [] ++ o2))) p1) as [[sh2 p2] ok2] eqn:E2.
    rewrite last_app_ne by done. done.
  - destruct (sse_lines (removelast (split_on cNL (List.last w [] ++ o2))) p1) as [[sh2 p2] ok2] eqn:E2.
    cbn. by rewrite last_app_ne by done.
Qed.

Definition buf_clean (s : stream) : Prop := cNL ∉ s_buf s.

Lemma feed_clean c s sh s' ok : feed c s = (sh, s', ok) → buf_clean s'.
Proof.
  unfold feed. destruct (text_decode (s_dec s) c) as [td text].
  destruct (sse_lines _ _) as [[shown p] ok']. intros [= <- <- <-]. apply last_split_clean.
Qed.

Lemma feed_nil s : buf_clean s → feed [] s = ([], s, true).
Proof.
  intros H. unfold feed, text_decode. cbn.
  assert (decode_from (td_state (s_dec s)) [] = (td_state (s_dec s), [])) as E by done.
  destruct (td_start (s_dec s)) eqn:Es; rewrite app_nil_r, split_on_none by done; cbn;
    destruct s as [[dst dstart] buf prog]; cbn in *; by subst.
Qed.

Lemma pump_concat te chunks fin s :
  buf_clean s → pump te chunks fin s = pump te [concat chunks] fin s.
Proof.
  revert s. induction chunks as [|c t IH]; intros s Hs.
  - cbn. by rewrite feed_nil.
  - cbn [pump concat]. rewrite feed_app.
    destruct (feed c s) as [[sh1 s1] ok1] eqn:E1. pose proof (feed_clean _ _ _ _ _ E1) as H1.
    destruct (feed (concat t) s1) as [[sh2 s2] ok2] eqn:E2. destruct ok1; [|done].
    rewrite IH by done. cbn [pump]. rewrite E2. destruct ok2; by rewrite ?app_nil_r.
Qed.

(** C13: How the network cuts the answer does not matter: any two divisions of the
    same bytes into chunks, in the middle of a character or of a line too, show
    the same sequence of texts and finish the message in the same way. *)
Theorem chunking_invariant te c1 c2 fin :
  concat c1 = concat c2 → chat_run te (AStream c1 fin) = chat_run te (AStream c2 fin).
Proof.
  intros E. unfold chat_run. assert (buf_clean new_stream) as H by by intros ?%elem_of_nil.
  by rewrite (pump_concat te c1), (pump_concat te c2), E by done.
Qed.

(** ** From the server's events to the message *)

(** Text without a lone surrogate and without a line feed. *)
Record line_text (t : jstr) : Prop := LineText {
  lt_units : units t; lt_paired : paired t; lt_line : cNL ∉ t;
}.

Lemma code_points_app a b : units a → paired a → code_points (a ++ b) = code_points a ++ code_points b.
Proof.
  intros Hu. unfold paired.
  refine (points_ind (λ s l, None ∉ l → code_points (s ++ b) = l ++ code_points b) _ _ _ _ a Hu).
  - done.
  - intros c t _ Hh Hl _ IH Hn. cbn. rewrite Hh, Hl. f_equal. apply IH. set_solver.
  - intros c d t Hc Hd _ IH Hn. cbn. rewrite Hc, Hd. f_equal. apply IH. set_solver.
  - intros c t _ _ _ Hn. destruct Hn. by left.
Qed.

Lemma line_text_app a b : line_text a → line_text b → line_text (a ++ b).
Proof.
  intros [A1 A2 A3] [B1 B2 B3]. split.
  - by apply Forall_app.
  - unfold paired. rewrite code_points_app by done. rewrite elem_of_app. by intros [?|?].
  - rewrite elem_of_app. by intros [?|?].
Qed.

Lemma line_text_nil : line_text [].
Proof. split; [constructor|by intros ?%elem_of_nil|by intros ?%elem_of_nil]. Qed.

Lemma line_text_unit c : 0 ≤ c < 65536 → is_high c = false → is_low c = false → c ≠ cNL → line_text [c].
Proof.
  intros Hc Hh Hl Hn. split.
  - constructor; [done|constructor].
  - unfold paired. cbn. rewrite Hh, Hl. intros ?%list_elem_of_singleton. done.
  - intros E%list_elem_of_singleton. congruence.
Qed.

Definition plain_unit (c : Z) : bool := (0 <=? c) && (c <? 55296) && negb (c =? 10).

Lemma line_text_plain l : forallb plain_unit l = true → line_text l.
Proof.
  induction l as [|c l IH]; [intros _; apply line_text_nil|]. cbn [forallb].
  intros [Hc Hl]%andb_prop. change (c :: l) with ([c] ++ l). apply line_text_app; [|by apply IH].
  unfold plain_unit in Hc. apply line_text_unit; unfold is_high, is_low, cNL; lia.
Qed.

Lemma hex_digit_plain n : 0 ≤ n < 16 → plain_unit (hex_digit n) = true.
Proof. unfold hex_digit, plain_unit. intros H. destruct (Z.ltb_spec n 10); lia. Qed.

Lemma quote_unit_text c :
  0 ≤ c < 65536 → is_high c = false → is_low c = false → line_text (quote_unit c).
Proof.
  intros Hc Hh Hl. unfold quote_unit.
  repeat (match goal with |- context [if c =? ?k then _ else _] => destruct (Z.eqb_spec c k); [by apply line_text_plain|] end).
  rewrite Hl, orb_false_r. destruct (Z.ltb_spec c 32).
  - apply line_text_plain. unfold u_escape. cbn [forallb].
    rewrite !hex_digit_plain; [done|..]; apply Z.mod_pos_bound; lia.
  - by apply line_text_unit.
Qed.

Lemma quote_body_text s : units s → paired s → line_text (quote_body s).
Proof.
  intros Hu. unfold paired.
  refine (points_ind (λ s l, None ∉ l → line_text (quote_body s)) _ _ _ _ s Hu).
  - intros _. apply line_text_nil.
  - intros c t Hc Hh Hl _ IH Hn. cbn [quote_body]. rewrite Hh. apply line_text_app.
    + by apply quote_unit_text.
    + apply IH. set_solver.
  - intros c d t Hc Hd Ht IH Hn. cbn [quote_body]. rewrite Hc, Hd.
    change (c :: d :: quote_body t) with ([c; d] ++ quote_body t). apply line_text_app.
    + unfold is_high, is_low in *. split.
      * constructor; [lia|]. constructor; [lia|constructor].
      * unfold paired. cbn. unfold is_high, is_low.
        rewrite (proj2 (Z.leb_le 55296 c)), (proj2 (Z.leb_le c 56319)) by lia.
        rewrite (proj2 (Z.leb_le 56320 d)), (proj2 (Z.leb_le d 57343)) by lia.
        intros ?%list_elem_of_singleton. done.
      * unfold cNL. intros [E|[E|[]%elem_of_nil]%elem_of_cons]%elem_of_cons; lia.
    + apply IH. set_solver.
  - intros c t _ _ _ Hn. destruct Hn. by left.
Qed.

(** An event of the stream: one piece of the answer. *)
Definition delta (s : jstr) : val :=
  VObj [(js "choices", VArr [VObj [(js "delta", VObj [(js "content", VStr s)])]])].
Definition event_line (s : jstr) : jstr := js "data: " ++ JSON_stringify (delta s).

Definition delta_head : jstr :=
  [123] ++ quote (js "choices") ++ [58; 91; 123] ++ quote (js "delta") ++ [58; 123]
  ++ quote (js "content") ++ [58].
Definition delta_tail : jstr := [125; 125; 93; 125].

Lemma delta_stringify s : JSON_stringify (delta s) = delta_head ++ quote s ++ delta_tail.
Proof.
  assert (∀ k v, array_index k = None → is_undef v = false →
    JSON_stringify (VObj [(k, v)]) = [123] ++ (quote k ++ [58] ++ JSON_stringify v) ++ [125]) as Hobj.
  { intros k v Hk Hv. cbn [JSON_stringify map]. rewrite own_entries_no_index by (by repeat constructor).
    rewrite filter_cons_True by done. done. }
  unfold delta. rewrite Hobj by done.
  change (JSON_stringify (VArr ?l)) with ([91] ++ js_join [44] (map JSON_stringify l) ++ [93]).
  cbn [map js_join]. rewrite !Hobj by done. change (JSON_stringify (VStr s)) with (quote s).
  unfold delta_head, delta_tail. by rewrite <- !app_assoc.
Qed.

Lemma delta_stringify_text s : units s → paired s → line_text (JSON_stringify (delta s)).
Proof.
  intros Hu Hp. rewrite delta_stringify. unfold quote.
  apply line_text_app; [by apply line_text_plain; vm_compute|].
  apply line_text_app; [|by apply line_text_plain; vm_compute].
  apply line_text_app; [by apply line_text_plain; vm_compute|].
  apply line_text_app; [by apply quote_body_text|by apply line_text_plain; vm_compute].
Qed.

Lemma delta_wf s : units s → wf_json (delta s).
Proof.
  intros Hu.
  assert (∀ k v, forallb (λ c, (0 <=? c) && (c <? 65536)) k = true → array_index k = None → wf_json v →
    wf_json (VObj [(k, v)])) as Hobj.
  { intros k v Hk Hi Hv. constructor; cbn.
    - apply NoDup_singleton.
    - constructor; [|constructor]. apply Forall_forall. intros c Hc%list_elem_of_In.
      rewrite forallb_forall in Hk. apply Hk in Hc. unfold wf_unit. lia.
    - by repeat constructor.
    - by repeat constructor. }
  apply Hobj; [vm_compute; done..|]. constructor. constructor; [|constructor].
  apply Hobj; [vm_compute; done..|]. apply Hobj; [vm_compute; done..|]. by constructor.
Qed.

(** Trimming a text that starts and ends with other than white space. *)
Lemma trim_bounded c t e : is_ws c = false → is_ws e = false → trim (c :: t ++ [e]) = c :: t ++ [e].
Proof.
  intros Hc He. unfold trim. cbn [trim_start]. rewrite Hc. rewrite trim_end_cons_nws by done. f_equal.
  unfold trim_end. rewrite reverse_snoc. cbn [trim_start]. rewrite He.
  by rewrite reverse_cons, reverse_involutive.
Qed.

Lemma event_line_shape s :
  ∃ m, JSON_stringify (delta s) = 123 :: m ++ [125].
Proof.
  exists (drop 1 delta_head ++ quote s ++ [125; 125; 93]). rewrite delta_stringify.
  unfold delta_tail, delta_head. cbn [drop app]. by rewrite <- !app_assoc.
Qed.

Lemma sse_line_event s p : units s → sse_line (event_line s) p =
  match merge_event (delta s) p with Some p' => LShow p' | None => LThrow end.
Proof.
  intros Hu. unfold sse_line, event_line. destruct (event_line_shape s) as [m Em]. rewrite Em.
  assert (js "data: " = [100; 97; 116; 97; 58; 32]) as -> by (vm_compute; reflexivity).
  assert (∀ l, strip_last cCR (l ++ [125]) = l ++ [125]) as Hcr.
  { intros l. unfold strip_last. by rewrite last_snoc. }
  change ([100; 97; 116; 97; 58; 32] ++ 123 :: m ++ [125])
    with (100 :: [97; 116; 97; 58; 32; 123] ++ m ++ [125]).
  rewrite (app_assoc [97; 116; 97; 58; 32; 123] m [125]). rewrite app_comm_cons, Hcr.
  rewrite <- app_comm_cons, trim_bounded by done. cbn [truthy_s negb orb].
  rewrite bool_decide_eq_false_2.
  2: { assert (js "data: [DONE]" = [100; 97; 116; 97; 58; 32; 91; 68; 79; 78; 69; 93]) as ->
         by (vm_compute; reflexivity). done. }
  assert (js "data:" = [100; 97; 116; 97; 58]) as -> by (vm_compute; reflexivity).
  cbn [starts_with app]. rewrite !Z.eqb_refl. cbn [andb drop].
  assert (trim (32 :: 123 :: m ++ [125]) = 123 :: m ++ [125]) as ->.
  { unfold trim. cbn [trim_start is_ws]. change (is_ws 32) with true. cbn iota.
    change (is_ws 123) with false. cbn iota. rewrite trim_end_cons_nws by done. f_equal.
    unfold trim_end. rewrite reverse_snoc. cbn [trim_start]. change (is_ws 125) with false. cbn iota.
    by rewrite reverse_cons, reverse_involutive. }
  rewrite <- Em, JSON_round_trip by by apply delta_wf. done.
Qed.

Lemma merge_delta s a t :
  merge_event (delta s) (Progress (VStr a) t) = Some (Progress (VStr (a ++ s)) t).
Proof.
  destruct s as [|c s].
  - rewrite app_nil_r. vm_compute. reflexivity.
  - unfold merge_event, delta.
    vm_compute. reflexivity.
Qed.

Lemma text_ok_app a b : text_ok a → text_ok b → text_ok (a ++ b).
Proof.
  intros [A1 A2] [B1 B2]. split; [by apply Forall_app|].
  unfold paired. rewrite code_points_app by done. rewrite elem_of_app. by intros [?|?].
Qed.
Lemma line_text_ok t : line_text t → text_ok t.
Proof. by intros []. Qed.
Lemma newlines_ok : text_ok [10; 10].
Proof.
  split; [constructor; [lia|constructor; [lia|constructor]]|].
  unfold paired. intros H. vm_compute in H. by repeat (apply elem_of_cons in H as [H|H]; [done|]); apply elem_of_nil in H.
Qed.

Lemma decode_text t : text_ok t → decode_from d_init (utf8 t) = (d_init, t).
Proof. intros [Hu Hp]. by rewrite decode_utf8, paired_well_formed. Qed.

(** The text of a whole answer. *)
Definition done_line : jstr := js "data: [DONE]".
Definition event_text (s : jstr) : jstr := event_line s ++ [10; 10].
Definition stream_text (ds : list jstr) : jstr := (ds ≫= event_text) ++ done_line ++ [10; 10].

Lemma data_line_text : line_text (js "data: ").
Proof. by apply line_text_plain; vm_compute. Qed.
Lemma event_line_text s : text_ok s → line_text (event_line s).
Proof.
  intros [Hu Hp]. apply line_text_app; [apply data_line_text|by apply delta_stringify_text].
Qed.
Lemma done_line_text : line_text done_line.
Proof. by apply line_text_plain; vm_compute. Qed.

Lemma stream_text_ok ds : Forall text_ok ds → text_ok (stream_text ds).
Proof.
  intros H. unfold stream_text. apply text_ok_app.
  - induction H as [|s ds Hs _ IH]; [apply line_text_ok, line_text_nil|]. cbn.
    apply text_ok_app; [|exact IH]. apply text_ok_app; [by apply line_text_ok, event_line_text|apply newlines_ok].
  - apply text_ok_app; [apply line_text_ok, done_line_text|apply newlines_ok].
Qed.

Lemma split_line l rest : cNL ∉ l → split_on cNL (l ++ [10; 10] ++ rest) = l :: [] :: split_on cNL rest.
Proof.
  intros Hl. rewrite split_on_chunks, split_on_none by done. cbn [List.last removelast app].
  induction l as [|c l IH]; [done|]. apply not_elem_of_cons in Hl as [Hc Hl]. cbn [split_on app].
  rewrite (proj2 (Z.eqb_neq c cNL)) by done. by rewrite IH.
Qed.

Definition event_lines (ds : list jstr) : list jstr := ds ≫= λ s, [event_line s; []].

Lemma stream_lines ds :
  Forall text_ok ds → split_on cNL (stream_text ds) = event_lines ds ++ [done_line; []; []].
Proof.
  intros H. unfold stream_text, event_lines. induction H as [|s ds Hs _ IH].
  - cbn [mbind list_bind app]. rewrite <- (app_nil_r (done_line ++ [10; 10])), <- app_assoc.
    rewrite split_line by apply done_line_text. done.
  - cbn [mbind list_bind]. unfold event_text at 1. rewrite <- !app_assoc.
    rewrite split_line by by apply event_line_text. rewrite IH. done.
Qed.

(** What is shown piece by piece. *)
Fixpoint running (a : jstr) (ds : list jstr) : list progress :=
  match ds with
  | [] => []
  | s :: t => Progress (VStr (a ++ s)) (VStr []) :: running (a ++ s) t
  end.

Lemma sse_lines_events ds a :
  Forall text_ok ds →
  sse_lines (event_lines ds ++ [done_line; []]) (Progress (VStr a) (VStr [])) =
    (running a ds, Progress (VStr (a ++ concat ds)) (VStr []), true).
Proof.
  intros H. revert a. induction H as [|s ds [Hu Hp] _ IH]; intros a.
  - rewrite app_nil_r. vm_compute. reflexivity.
  - cbn [event_lines mbind list_bind app sse_lines]. rewrite sse_line_event, merge_delta by done.
    change (sse_line [] ?p) with LSkip. cbn iota.
    change (mbind (M:=list) (λ s0, [event_line s0; []]) ds) with (event_lines ds).
    rewrite IH. cbn [running concat]. by rewrite app_assoc.
Qed.

(** C3: The message is what the server sent.  If the server streams the pieces [ds]
    of an answer as events, in UTF-8, then however the network cuts the bytes, the
    bubble shows the growing answer piece by piece, and the message ends up with
    exactly the pieces put together. *)
Theorem stream_delivers te ds chunks :
  Forall text_ok ds → concat chunks = utf8 (stream_text ds) →
  chat_run te (AStream chunks REnd) =
    (running [] ds, Fields (VStr (concat ds)) (Some VUndef) None None).
Proof.
  intros Hds Hc. unfold chat_run.
  rewrite pump_concat, Hc by by intros ?%elem_of_nil.
  cbn [pump]. unfold feed, text_decode. cbn [s_dec new_stream td_state td_start new_decoder s_buf s_prog].
  rewrite decode_text by by apply stream_text_ok.
  assert (∃ t, stream_text ds = 100 :: t) as [t Et].
  { unfold stream_text. destruct ds as [|s ds]; eexists; [vm_compute; reflexivity|].
    cbn [mbind list_bind]. unfold event_text at 1, event_line.
    assert (js "data: " = [100; 97; 116; 97; 58; 32]) as -> by (vm_compute; reflexivity).
    cbn [app]. reflexivity. }
  rewrite Et. cbn [Z.eqb Pos.eqb app]. change (100 =? 65279) with false. cbn iota. rewrite <- Et.
  cbn [app]. rewrite stream_lines by done.
  assert (removelast (event_lines ds ++ [done_line; []; []]) = event_lines ds ++ [done_line; []]) as ->.
  { rewrite removelast_app by done. done. }
  rewrite last_app_ne by done. unfold no_progress. rewrite sse_lines_events by done. cbn [pump s_prog fst snd].
  rewrite ?app_nil_r, ?app_nil_l. unfold stream_fields. cbn [acc think or_undefined truthy].
  by destruct (concat ds).
Qed.

(** C38: The last line needs its line feed: text after the last one, even a complete
    event, is never merged into the message. *)
Theorem unterminated_line_dropped te t1 t2 fin :
  text_ok t1 → text_ok t2 → cNL ∉ t2 →
  chat_run te (AStream [utf8 t1; utf8 t2] fin) = chat_run te (AStream [utf8 t1] fin).
Proof.
  intros H1 H2 Hn. unfold chat_run. cbn [pump].
  destruct (feed (utf8 t1) new_stream) as [[sh s1] ok] eqn:E1. destruct ok; [|done].
  assert (td_state (s_dec s1) = d_init ∧ buf_clean s1) as [Hd Hb].
  { split; [|by eapply feed_clean]. revert E1. unfold feed, text_decode.
    cbn [s_dec new_stream td_state td_start new_decoder]. rewrite decode_text by done.
    destruct t1 as [|c t1]; destruct (sse_lines _ _) as [[? ?] ?]; by intros [= _ <- _]. }
  destruct (feed (utf8 t2) s1) as [[sh2 s2] ok2] eqn:E2.
  assert (sh2 = [] ∧ s_prog s2 = s_prog s1 ∧ ok2 = true) as (-> & E & ->).
  { revert E2. unfold feed, text_decode. rewrite Hd, decode_text by done.
    assert (∀ t, cNL ∉ t → split_on cNL (s_buf s1 ++ t) = [s_buf s1 ++ t]) as Hs.
    { intros t Ht. apply split_on_none. rewrite elem_of_app. by intros [?|?]. }
    assert (∀ c t, t2 = c :: t → cNL ∉ t) as Ht by (intros c t ->; by apply not_elem_of_cons in Hn as [_ ?]).
    destruct (td_start (s_dec s1)).
    - destruct t2 as [|c t]; [rewrite Hs by done; by intros [= <- <- <-]|].
      destruct (c =? 65279); rewrite Hs by (first [done|by eapply Ht]); by intros [= <- <- <-].
    - rewrite Hs by done. by intros [= <- <- <-]. }
  by rewrite E.
Qed.

(** ** Witnesses *)

Definition demo_pieces : list jstr := [js "При"; js "вет"; js " 👋"].

Lemma demo_pieces_ok : Forall text_ok demo_pieces.
Proof.
  apply (bool_decide_unpack _). vm_compute. exact I.
Qed.

Lemma chunking_invariant_witness :
  chat_run [] (AStream [utf8 (stream_text demo_pieces)] REnd) =
  chat_run [] (AStream (map (λ b, [b]) (utf8 (stream_text demo_pieces))) REnd).
Proof. apply chunking_invariant. vm_compute. reflexivity. Defined.

Lemma stream_delivers_witness :
  (chat_run [] (AStream (map (λ b, [b]) (utf8 (stream_text demo_pieces))) REnd)).2 =
  Fields (VStr (js "Привет 👋")) (Some VUndef) None None.
Proof.
  assert (js "Привет 👋" = concat demo_pieces) as -> by (vm_compute; reflexivity).
  rewrite (stream_delivers [] demo_pieces).
  - reflexivity.
  - exact demo_pieces_ok.
  - vm_compute. reflexivity.
Defined.

Lemma unterminated_line_dropped_witness :
  (chat_run [] (AStream [utf8 (event_text (js "a")); utf8 (event_line (js "b"))] REnd)).2 =
  Fields (VStr (js "a")) (Some VUndef) None None.
Proof.
  rewrite unterminated_line_dropped.
  - vm_compute. reflexivity.
  - apply (bool_decide_unpack _). vm_compute. exact I.
  - apply (bool_decide_unpack _). vm_compute. exact I.
  - apply (bool_decide_unpack _). vm_compute. exact I.
Defined.
