(* ===== verification/ChatParams.v ===== *)
(** * The playground's parameter panel

    app.js lines 898-1071 and 1844-1853: the labels and rules of a model's
    parameters, [loadModelParams] with its cache and its request counter,
    [renderParams] and [paramInput], [markParamDrop], [collectExtraParams], and
    the two values a chat request takes from the panel.  The schema is what
    [/admin/model-params] answers; a list that is missing is the empty one. *)

From S2P Require Import Prelude JsString JsNumber JsValue JsJson Uri Controls.
Open Scope Z_scope.

(** ** The schema *)

Record param := Param {
  p_name : jstr; p_type : jstr; p_required : bool; p_enum : list val; p_default : val;
}.
(** [sc_required] is [required_parameters] as [requiredList] reads it. *)
Record schema := Schema { sc_params : list param; sc_required : list jstr }.
Definition empty_schema : schema := Schema [] [].

Definition PARAM_LABELS : list (jstr * jstr) :=
  [(js "input_image", js "Референс"); (js "input_images", js "Референсы");
   (js "input_video", js "Видео-референс"); (js "seconds", js "Секунды"); (js "size", js "Размер");
   (js "seed", js "Seed"); (js "width", js "Ширина"); (js "height", js "Высота"); (js "fps", js "FPS");
   (js "temperature", js "temperature"); (js "max_tokens", js "max_tokens");
   (js "negative_prompt", js "Негатив"); (js "n", js "Количество")].

(** A name [Object.prototype] provides gives the text of a built-in. *)
Definition paramLabel (builtin : jstr → jstr) (name : jstr) : jstr :=
  match obj_get name PARAM_LABELS with
  | Own t => t
  | Inherited => builtin name
  | Absent => name
  end.

Definition skipParam (name : jstr) : bool :=
  bool_decide (name ∈ map js ["prompt"; "model"; "input_images"; "input_reference";
                              "input_references"; "n"]%string).
Definition isImageParam (p : param) : bool :=
  bool_decide (p_type p = js "image") || bool_decide (p_name p = js "input_image")
  || bool_decide (p_name p = js "input_video").
Definition requiredList (sc : option schema) : list jstr :=
  match sc with Some s => sc_required s | None => [] end.
Definition needsInputImage (sc : option schema) : bool :=
  let r := requiredList sc in
  bool_decide (js "input_image" ∈ r) || bool_decide (js "input_images" ∈ r)
  || bool_decide (js "input_video" ∈ r).

(** ** The fields (lines 999-1036) *)


Inductive field : Type :=
  | FDrop (need : bool)
  | FSelect (typ : jstr) (options : list jstr) (chosen : option nat)
  | FNumber (typ : jstr) (any_step : bool) (value : jstr)
  | FCheck (checked : bool)
  | FText (typ : jstr) (value : jstr).

(** The values of the temperature and token fields of the chat form, and how
    many images are attached. *)
Record env := Env { e_temp : jstr; e_max : jstr; e_refs : nat }.

Definition param_default (E : env) (p : param) : val :=
  if bool_decide (p_name p = js "max_tokens") && truthy_s (e_max E) then VStr (e_max E)
  else if bool_decide (p_name p = js "temperature") && truthy_s (e_temp E) then VStr (e_temp E)
  else p_default p.

Definition is_integer_type (t : jstr) : bool :=
  bool_decide (t = js "integer") || bool_decide (t = js "int").
Definition is_float_type (t : jstr) : bool :=
  bool_decide (t = js "number") || bool_decide (t = js "float").
Definition is_bool_type (t : jstr) : bool :=
  bool_decide (t = js "boolean") || bool_decide (t = js "bool").

(** The last option equal to the default is selected, else the first. *)
Definition chosen_option (def : val) (options : list jstr) : option nat :=
  let hits := omap (λ e, if negb (is_nullish def) && bool_decide (e.2 = to_str def) then Some e.1 else None)
                (imap pair options) in
  match last hits with Some i => Some i | None => match options with [] => None | _ => Some 0%nat end end.

Definition paramInput (E : env) (p : param) : field :=
  let def := param_default E p in
  let t := s_or (p_type p) (js "string") in
  let shown := if is_nullish def then [] else to_str def in
  match p_enum p with
  | _ :: _ => let options := map to_str (p_enum p) in FSelect t options (chosen_option def options)
  | [] =>
    if is_integer_type t || is_float_type t then FNumber t (is_float_type t) (number_value shown)
    else if is_bool_type t
    then FCheck (match def with VBool b => b | VStr s => bool_decide (s = js "true") | _ => false end)
    else FText t (text_value shown)
  end.

(** ** The panel (lines 948-998, 1037-1044) *)

Record row := Row { rw_name : jstr; rw_label : jstr; rw_star : bool; rw_field : field }.

Definition render_param (builtin : jstr → jstr) (E : env) (required : list jstr) (p : param) : row :=
  let need := p_required p || bool_decide (p_name p ∈ required) in
  Row (p_name p) (paramLabel builtin (p_name p)) need
    (if isImageParam p then FDrop need else paramInput E p).

(** Nameless and reserved parameters are left out, and all images but the first. *)
Fixpoint shown_params (sawImage : bool) (l : list param) : list param :=
  match l with
  | [] => []
  | p :: t =>
    if negb (truthy_s (p_name p)) || skipParam (p_name p) then shown_params sawImage t
    else if isImageParam p then
      if sawImage then shown_params sawImage t else p :: shown_params true t
    else p :: shown_params sawImage t
  end.

Definition render_rows (builtin : jstr → jstr) (E : env) (sc : schema) : list row :=
  map (render_param builtin E (sc_required sc)) (shown_params false (sc_params sc)).

(** The text of the image field: [markParamDrop]. *)
Definition markParamDrop (need : bool) (nrefs : nat) : jstr :=
  match nrefs with
  | O => if need then js "Нужен референс — нажмите или перетащите" else js "Нажмите или перетащите фото"
  | _ => js "фото: " ++ of_int (Z.of_nat nrefs)
  end.

(** ** Reading the panel (lines 1045-1071) *)

Definition field_value (f : field) : option jstr :=
  match f with
  | FSelect _ options chosen => Some (default [] (i ← chosen; options !! i))
  | FNumber _ _ v => Some v
  | FText _ v => Some v
  | _ => None
  end.
Definition field_type (f : field) : jstr :=
  match f with FSelect t _ _ | FNumber t _ _ | FText t _ => t | _ => [] end.

Definition row_value (r : row) : option val :=
  match rw_field r with
  | FDrop _ => None
  | FCheck b => Some (VBool b)
  | f =>
    match trim (default [] (field_value f)) with
    | [] => None
    | v =>
      if is_integer_type (field_type f) then (λ n, VNum (num_of_Z n)) <$> parseInt v
      else if is_float_type (field_type f) then
        match parseFloat v with NaN => None | x => Some (VNum x) end
      else Some (VStr v)
    end
  end.

(** [out[name] = v]; a primitive assigned to [__proto__] is dropped. *)
Definition assign (name : jstr) (v : val) (out : list (jstr * val)) : list (jstr * val) :=
  if bool_decide (name = js "__proto__") then out else obj_set name v out.
Definition collectExtraParams (rows : list row) : list (jstr * val) :=
  foldl (λ out r, match row_value r with Some v => assign (rw_name r) v out | None => out end) [] rows.

(** The temperature and token limit of a chat request (lines 1844-1853). *)
Definition num_or (a : num) (d : num) : num := if num_truthy a then a else d.
Definition chat_body (rows : list row) (E : env) : list (jstr * val) :=
  let extra := collectExtraParams rows in
  [(js "temperature",
    match assoc (js "temperature") extra with
    | Some v => v
    | None => VNum (num_or (parseFloat (e_temp E)) (num_of_decimal false 7 (-1)))
    end);
   (js "max_tokens",
    match assoc (js "max_tokens") extra with
    | Some v => v
    | None => VNum (num_or (match parseInt (e_max E) with Some n => num_of_Z n | None => NaN end)
                      (num_of_Z 1024))
    end)].

(** ** Loading the schema (lines 919-947) *)

(** The cache, the request counter, the requests under way with their number
    and key, the schema in use and the key it was loaded for, and the note in
    place of the fields. *)
Record panel := Panel {
  pn_cache : list (jstr * schema);
  pn_req : nat;
  pn_flying : list (nat * jstr);
  pn_schema : option (jstr * schema);
  pn_note : option jstr;
}.

Definition params_key (mode model : jstr) : jstr := mode ++ js "|" ++ model.

(** [renderParams]: the rows are [render_rows] of the schema. *)
Definition no_fields : jstr := js "У этой модели нет дополнительных полей.".
Definition renderParams (key : jstr) (sc : schema) (st : panel) : panel :=
  Panel (pn_cache st) (pn_req st) (pn_flying st) (Some (key, sc))
    (match shown_params false (sc_params sc) with [] => Some no_fields | _ => None end).

Definition loading_note : jstr := js "загрузка схемы…".
Definition loadModelParams (mode model : jstr) (st : panel) : panel :=
  if negb (truthy_s model)
  then Panel (pn_cache st) (pn_req st) (pn_flying st) None (Some (js "Выберите модель."))
  else
    let key := params_key mode model in
    match assoc key (pn_cache st) with
    | Some sc => renderParams key sc st
    | None =>
      let n := S (pn_req st) in
      Panel (pn_cache st) n
        (match encodeURIComponent model with
         | Some _ => pn_flying st ++ [(n, key)]
         | None => pn_flying st
         end) (pn_schema st) (Some loading_note)
    end.

(** An answer to request [n], or its failure; only the latest counts. *)
Definition params_answer (n : nat) (answer : option schema) (st : panel) : panel :=
  match List.find (λ e, bool_decide (e.1 = n)) (pn_flying st) with
  | None => st
  | Some (_, key) =>
    let st' := Panel (pn_cache st) (pn_req st)
                 (List.filter (λ e, negb (bool_decide (e.1 = n))) (pn_flying st))
                 (pn_schema st) (pn_note st) in
    if negb (bool_decide (n = pn_req st)) then st' else
    match answer with
    | Some sc => renderParams key sc (Panel (obj_set key sc (pn_cache st)) (pn_req st)
                                        (pn_flying st') (pn_schema st) (pn_note st))
    | None => renderParams key empty_schema st'
    end
  end.

Inductive pevent : Type :=
  | PLoad (mode model : jstr)
  | PAnswer (n : nat) (answer : option schema).
Definition pstep (st : panel) (e : pevent) : panel :=
  match e with
  | PLoad mode model => loadModelParams mode model st
  | PAnswer n a => params_answer n a st
  end.
Definition new_panel : panel := Panel [] 0 [] None None.

(** ** What the panel gives a request *)

Definition typed_value (f : field) (v : val) : Prop :=
  match f with
  | FDrop _ => False
  | FCheck b => v = VBool b
  | _ =>
    if is_integer_type (field_type f) then ∃ z, v = VNum (num_of_Z z)
    else if is_float_type (field_type f) then ∃ x, v = VNum x ∧ x ≠ NaN
    else ∃ t, v = VStr t ∧ t ≠ [] ∧ trim t = t
  end.

Lemma row_value_typed r v : row_value r = Some v → typed_value (rw_field r) v.
Proof.
  unfold row_value, typed_value.
  assert (∀ t (s : jstr), match trim s with
      | [] => None
      | w => if is_integer_type t then (λ n, VNum (num_of_Z n)) <$> parseInt w
             else if is_float_type t then match parseFloat w with NaN => None | x => Some (VNum x) end
             else Some (VStr w)
      end = Some v →
      if is_integer_type t then ∃ z, v = VNum (num_of_Z z)
      else if is_float_type t then ∃ x, v = VNum x ∧ x ≠ NaN
      else ∃ t, v = VStr t ∧ t ≠ [] ∧ trim t = t) as H.
  { intros t s. pose proof (trim_idem s) as Ht. destruct (trim s) as [|c w]; [done|]. cbv zeta.
    destruct (is_integer_type t); [|destruct (is_float_type t)].
    - intros (z & _ & ->)%fmap_Some. by exists z.
    - destruct (parseFloat (c :: w)) as [| |q]; [done|..]; intros [= <-]; by eexists.
    - intros [= <-]. by exists (c :: w). }
  destruct (rw_field r); [done|apply H|apply H|by intros [= <-]|apply H].
Qed.

Lemma assign_elem name v out k x :
  (k, x) ∈ assign name v out → (k, x) = (name, v) ∨ (k, x) ∈ out.
Proof.
  unfold assign. case_bool_decide; [by right|]. induction out as [|[k' x'] out IH]; cbn.
  - intros ->%list_elem_of_singleton. by left.
  - case_bool_decide as E.
    + intros [-> |Hin]%elem_of_cons; [by left|]. right. apply elem_of_cons. by right.
    + intros [-> |Hin]%elem_of_cons; [right; apply elem_of_cons; by left|].
      destruct (IH Hin) as [|]; [by left|]. right. apply elem_of_cons. by right.
Qed.

Lemma collect_elem rows name v :
  (name, v) ∈ collectExtraParams rows → ∃ r, r ∈ rows ∧ rw_name r = name ∧ row_value r = Some v.
Proof.
  unfold collectExtraParams.
  assert (∀ rows out, (name, v) ∈ foldl (λ out r, match row_value r with
            Some v => assign (rw_name r) v out | None => out end) out rows →
          (name, v) ∈ out ∨ ∃ r, r ∈ rows ∧ rw_name r = name ∧ row_value r = Some v) as H.
  { clear rows. induction rows as [|r rows IH]; intros out Hin; [by left|]. cbn in Hin.
    apply IH in Hin as [Hin|(r' & Hr & E)]; [|right; exists r'; split; [apply elem_of_cons; by right|done]].
    destruct (row_value r) as [w|] eqn:Ew; [|by left].
    apply assign_elem in Hin as [[= -> ->]|Hin]; [|by left].
    right. exists r. split; [apply elem_of_cons; by left|done]. }
  intros Hin. apply H in Hin as [Hin|Hin]; [by apply elem_of_nil in Hin|done].
Qed.

Lemma collect_NoDup rows : NoDup (collectExtraParams rows).*1.
Proof.
  unfold collectExtraParams.
  assert (∀ rows out, NoDup out.*1 → NoDup (foldl (λ out r, match row_value r with
            Some v => assign (rw_name r) v out | None => out end) out rows).*1) as H; [|apply H; constructor].
  clear rows. induction rows as [|r rows IH]; intros out Hnd; [done|]. cbn. apply IH.
  destruct (row_value r) as [w|]; [|done]. unfold assign. case_bool_decide; [done|]. by apply obj_set_NoDup.
Qed.

Lemma shown_params_elem b l p :
  p ∈ shown_params b l → p ∈ l ∧ truthy_s (p_name p) = true ∧ skipParam (p_name p) = false.
Proof.
  revert b. induction l as [|x l IH]; intros b Hp; [by apply elem_of_nil in Hp|]. cbn in Hp.
  assert (∀ b', p ∈ shown_params b' l → p ∈ x :: l ∧ truthy_s (p_name p) = true ∧ skipParam (p_name p) = false) as H.
  { intros b' (H1 & H2 & H3)%IH. split; [apply elem_of_cons; by right|done]. }
  destruct (truthy_s (p_name x)) eqn:E1, (skipParam (p_name x)) eqn:E2; cbn in Hp; try by apply (H _ Hp).
  assert (x ∈ x :: l ∧ truthy_s (p_name x) = true ∧ skipParam (p_name x) = false) as Hx
    by (split; [apply elem_of_cons; by left|done]).
  destruct (isImageParam x); [destruct b|]; try by apply (H _ Hp).
  - apply elem_of_cons in Hp as [-> |Hp]; [done|by apply (H _ Hp)].
  - apply elem_of_cons in Hp as [-> |Hp]; [done|by apply (H _ Hp)].
Qed.

(** The user changes values only: names and kinds of the rows stay. *)
Definition row_shape (r : row) : jstr * (option jstr) :=
  (rw_name r, match rw_field r with FDrop _ => None | f => Some (field_type f) end).

(** Reserved names are never collected from rendered rows. *)
Lemma collect_no_skip builtin E sc rows name :
  map row_shape rows = map row_shape (render_rows builtin E sc) →
  skipParam name = true → assoc name (collectExtraParams rows) = None.
Proof.
  intros Hs Hk. destruct (assoc name (collectExtraParams rows)) as [v|] eqn:Ea; [|done]. exfalso.
  apply assoc_elem, collect_elem in Ea as (r & Hr & En & _).
  apply list_elem_of_In, (in_map row_shape) in Hr. rewrite Hs in Hr. unfold render_rows in Hr.
  rewrite map_map in Hr. apply in_map_iff in Hr as (p & Ep & Hp). apply list_elem_of_In in Hp.
  apply shown_params_elem in Hp as (_ & _ & Hsk). injection Ep as En' _. cbn in En'.
  by rewrite En', En, Hk in Hsk.
Qed.

(** *** Integers as the fields hold them *)










(** ** Properties *)

(** C19: What a request takes from the panel.  However the user fills in the fields
    rendered for a schema, each collected value comes from a field of its name
    and has the field's type: an integer, a number other than NaN, a boolean,
    or a trimmed text that is not empty; no name is collected twice, and none of
    the reserved ones ([model], [prompt], ...) is, so the request's own model
    and prompt are never overwritten. *)
Theorem collected_params builtin E sc rows :
  map row_shape rows = map row_shape (render_rows builtin E sc) →
  let out := collectExtraParams rows in
  NoDup out.*1 ∧
  (∀ name v, (name, v) ∈ out → ∃ r, r ∈ rows ∧ rw_name r = name ∧ typed_value (rw_field r) v) ∧
  (∀ name, skipParam name = true → assoc name out = None).
Proof.
  intros Hs out. split_and!; [apply collect_NoDup| |].
  - intros name v (r & Hr & En & Ev)%collect_elem. exists r. split_and!; [done|done|by apply row_value_typed].
  - intros name Hk. by eapply collect_no_skip.
Qed.






(** ** The panel and the selection *)

(** The key the latest request was made for, while its answer is awaited. *)
Definition awaited (st : panel) : option jstr :=
  snd <$> List.find (λ e, bool_decide (e.1 = pn_req st)) (pn_flying st).

(** The key of the last selection; none without a model. *)
Definition selects_key (cur : option jstr) (e : pevent) : option jstr :=
  match e with
  | PLoad mode model => if truthy_s model then Some (params_key mode model) else None
  | PAnswer _ _ => cur
  end.

(** A selection that asks nothing of the server comes while nothing is awaited. *)
Definition quiet_event (st : panel) (e : pevent) : Prop :=
  match e with
  | PLoad mode model =>
    if truthy_s model && bool_decide (assoc (params_key mode model) (pn_cache st) = None)
    then is_Some (encodeURIComponent model) else awaited st = None
  | PAnswer _ _ => True
  end.
Fixpoint quiet_run (st : panel) (es : list pevent) : Prop :=
  match es with
  | [] => True
  | e :: t => quiet_event st e ∧ quiet_run (pstep st e) t
  end.

Definition panel_inv (st : panel) (cur : option jstr) : Prop :=
  Forall (λ e, (e.1 ≤ pn_req st)%nat) (pn_flying st) ∧
  match awaited st with Some k => cur = Some k | None => fst <$> pn_schema st = cur end.

Lemma find_filter_ne (n m : nat) (l : list (nat * jstr)) :
  n ≠ m → List.find (λ e, bool_decide (e.1 = m)) (List.filter (λ e, negb (bool_decide (e.1 = n))) l) =
          List.find (λ e, bool_decide (e.1 = m)) l.
Proof.
  intros Hne. induction l as [|[k x] l IH]; [done|]. cbn. destruct (decide (k = n)) as [->|Hk].
  - rewrite (bool_decide_eq_true_2 (n = n)) by done. cbn.
    by rewrite bool_decide_eq_false_2.
  - rewrite (bool_decide_eq_false_2 (k = n)) by done. cbn. by rewrite IH.
Qed.
Lemma find_filter_eq (n : nat) (l : list (nat * jstr)) :
  List.find (λ e, bool_decide (e.1 = n)) (List.filter (λ e, negb (bool_decide (e.1 = n))) l) = None.
Proof.
  induction l as [|[k x] l IH]; [done|]. cbn. destruct (bool_decide (k = n)) eqn:E; cbn; [done|].
  by rewrite E.
Qed.

Lemma Forall_filter_stdlib {A} (P : A → Prop) f (l : list A) : Forall P l → Forall P (List.filter f l).
Proof. induction 1 as [|x l Hx _ IH]; [done|]. cbn. destruct (f x); [by constructor|done]. Qed.

Lemma load_inv mode model st cur :
  quiet_event st (PLoad mode model) → panel_inv st cur →
  panel_inv (loadModelParams mode model st) (selects_key cur (PLoad mode model)).
Proof.
  intros Hq [Hn Hw]. unfold loadModelParams. cbn [quiet_event selects_key] in *.
  destruct (truthy_s model) eqn:Em; cbn [negb andb] in *.
  2:{ split; [done|]. change (awaited _) with (awaited st). by rewrite Hq. }
  destruct (assoc _ (pn_cache st)) as [sc|] eqn:Ea.
  { rewrite bool_decide_eq_false_2 in Hq by done. split; [done|].
    change (awaited _) with (awaited st). by rewrite Hq. }
  rewrite bool_decide_eq_true_2 in Hq by done. destruct Hq as [u ->]. split; cbn.
  - apply Forall_app. split; [|by repeat constructor]. eapply Forall_impl; [exact Hn|]. cbn. lia.
  - unfold awaited. cbn.
    assert (List.find (λ e, bool_decide (e.1 = S (pn_req st))) (pn_flying st) = None) as Hf.
    { destruct (List.find _ _) as [e|] eqn:E; [|done]. apply List.find_some in E as [Hin Hb].
      apply bool_decide_eq_true in Hb. rewrite Forall_forall in Hn.
      apply list_elem_of_In, Hn in Hin. lia. }
    assert (∀ l x, List.find (λ e : nat * jstr, bool_decide (e.1 = S (pn_req st))) l = None →
      List.find (λ e, bool_decide (e.1 = S (pn_req st))) (l ++ [(S (pn_req st), x)]) = Some (S (pn_req st), x)) as H.
    { induction l as [|y l IH]; intros x; cbn; [by rewrite bool_decide_eq_true_2|].
      destruct (bool_decide (y.1 = _)); [done|apply IH]. }
    by rewrite H.
Qed.

Lemma answer_inv n a st cur : panel_inv st cur → panel_inv (params_answer n a st) cur.
Proof.
  intros [Hn Hw]. unfold params_answer. destruct (List.find _ _) as [[n' key]|] eqn:Ef; [|done].
  cbv zeta. destruct (decide (n = pn_req st)) as [->|Hne].
  - rewrite bool_decide_eq_true_2 by done. cbn [negb].
    unfold awaited in Hw. rewrite Ef in Hw. cbn in Hw.
    destruct a as [sc|]; (split; cbn; [by apply Forall_filter_stdlib|]);
      unfold awaited; cbn; by rewrite find_filter_eq.
  - rewrite bool_decide_eq_false_2 by done. cbn [negb]. split; cbn; [by apply Forall_filter_stdlib|].
    unfold awaited in *. cbn. by rewrite find_filter_ne.
Qed.

(** C10: Late answers are dropped.  As long as a model whose schema is cached is
    only picked while no answer is awaited, the panel is that of the selection:
    whatever order the answers come in, when the latest request is answered
    (or failed) the fields are those of the selected mode and model, and while
    it is not, it is a request for them. *)
Theorem panel_follows_selection es :
  quiet_run new_panel es →
  let st := foldl pstep new_panel es in
  let selected := foldl selects_key None es in
  match awaited st with
  | Some k => selected = Some k
  | None => fst <$> pn_schema st = selected
  end.
Proof.
  assert (∀ es st cur, panel_inv st cur → quiet_run st es →
    panel_inv (foldl pstep st es) (foldl selects_key cur es)) as H.
  { clear es. induction es as [|e es IH]; intros st cur Hi Hq; [done|]. destruct Hq as [Hq1 Hq2]. cbn.
    apply IH; [|done]. destruct e as [mode model|n a]; [by apply load_inv|by apply answer_inv]. }
  intros Hq. apply (H es new_panel None); [|done]. by split; [constructor|].
Qed.

Lemma load_miss mode model st :
  truthy_s model = true → is_Some (encodeURIComponent model) →
  assoc (params_key mode model) (pn_cache st) = None →
  loadModelParams mode model st =
    Panel (pn_cache st) (S (pn_req st)) (pn_flying st ++ [(S (pn_req st), params_key mode model)])
      (pn_schema st) (Some loading_note).
Proof. intros Hm [u Hu] Ha. unfold loadModelParams. by rewrite Hm, Ha, Hu. Qed.
Lemma load_hit mode model st sc :
  truthy_s model = true → assoc (params_key mode model) (pn_cache st) = Some sc →
  loadModelParams mode model st = renderParams (params_key mode model) sc st.
Proof. intros Hm Ha. unfold loadModelParams. by rewrite Hm, Ha. Qed.

(** C35: A cached model is overtaken.  Picking a model whose schema is cached does
    not advance the request counter, so the answer for the model picked before
    it still counts: the panel then shows, and requests use, the schema of a
    model that is no longer selected. *)
Theorem cached_model_overtaken mode a b scA scB :
  truthy_s a = true → truthy_s b = true → params_key mode a ≠ params_key mode b →
  is_Some (encodeURIComponent a) → is_Some (encodeURIComponent b) →
  let es := [PLoad mode b; PAnswer 1 (Some scB); PLoad mode a; PLoad mode b; PAnswer 2 (Some scA)] in
  foldl selects_key None es = Some (params_key mode b) ∧
  awaited (foldl pstep new_panel es) = None ∧
  pn_schema (foldl pstep new_panel es) = Some (params_key mode a, scA).
Proof.
  intros Ha Hb Hne Hua Hub es. split; [cbn; by rewrite Hb|].
  assert (foldl pstep new_panel es =
    params_answer 2 (Some scA) (loadModelParams mode b (loadModelParams mode a
      (params_answer 1 (Some scB) (loadModelParams mode b new_panel))))) as -> by done.
  rewrite (load_miss mode b new_panel) by done. clear es.
  cbn [new_panel pn_cache pn_req pn_flying pn_schema app].
  assert (params_answer 1 (Some scB) (Panel [] 1 [(1%nat, params_key mode b)] None (Some loading_note)) =
    renderParams (params_key mode b) scB (Panel [(params_key mode b, scB)] 1 [] None (Some loading_note))) as -> by done.
  rewrite (load_miss mode a).
  2-4: first [done|cbn; by rewrite bool_decide_eq_false_2].
  rewrite (load_hit mode b _ scB); [done|done|]. cbn. by rewrite bool_decide_eq_true_2.
Qed.

(** ** A small schema *)

Definition demo_env : env := Env (js "0.7") (js "1024") 0.
Definition demo_schema : schema :=
  Schema [Param (js "seed") (js "integer") false [] (VNum (num_of_Z 42));
          Param (js "fast") (js "boolean") false [] (VBool true);
          Param (js "style") (js "string") true [] (VStr (js "anime"))] [].

Lemma collected_params_witness :
  assoc (js "model") (collectExtraParams (render_rows id demo_env demo_schema)) = None.
Proof.
  destruct (collected_params id demo_env demo_schema (render_rows id demo_env demo_schema) eq_refl) as (_ & _ & H).
  apply H. vm_compute. reflexivity.
Defined.



Definition demo_picks : list pevent :=
  [PLoad (js "chat") (js "a"); PLoad (js "chat") (js "b"); PAnswer 2 (Some demo_schema); PAnswer 1 None].

Lemma panel_follows_selection_witness :
  fst <$> pn_schema (foldl pstep new_panel demo_picks) = Some (js "chat|b").
Proof.
  assert (quiet_run new_panel demo_picks) as Hq.
  { unfold demo_picks. cbn [quiet_run]. repeat split; vm_compute; by eexists. }
  pose proof (panel_follows_selection demo_picks Hq) as H. cbv zeta in H.
  assert (awaited (foldl pstep new_panel demo_picks) = None) as E by (vm_compute; reflexivity).
  rewrite E in H. rewrite H. vm_compute. reflexivity.
Defined.

Lemma cached_model_overtaken_witness :
  pn_schema (foldl pstep new_panel
    [PLoad (js "chat") (js "b"); PAnswer 1 (Some empty_schema); PLoad (js "chat") (js "a");
     PLoad (js "chat") (js "b"); PAnswer 2 (Some demo_schema)]) = Some (js "chat|a", demo_schema).
Proof.
  destruct (cached_model_overtaken (js "chat") (js "a") (js "b") demo_schema empty_schema) as (_ & _ & H).
  - reflexivity.
  - reflexivity.
  - vm_compute. discriminate.
  - vm_compute. by eexists.
  - vm_compute. by eexists.
  - exact H.
Defined.
