(* ===== verification/ChatRefs.v ===== *)
(** * Reference images of the playground

    app.js lines 864-897, 1073-1125 and 1472-1505: the attached images with
    their strip, reading and scaling a picture ([fileToDataURL]), attaching
    files ([addRefFiles], from the file dialog, a drop or a paste), and what a
    bubble shows of them.  Reading pictures takes time; a batch of files is
    under way between the call and its promise. *)

From Stdlib Require Import QArith Qround Qabs Lqa.
From S2P Require Import Prelude JsString JsNumber JsValue.
Open Scope Z_scope.

(** ** Scaling (lines 1081-1091) *)

(** [Math.round]. *)
Definition math_round (a : num) : Z :=
  match a with Fin q => Qfloor (q + (1 # 2))%Q | _ => 0 end.
Definition num_mul (a b : num) : num :=
  match a, b with Fin p, Fin q => to_double (Qmult p q) | _, _ => NaN end.

(** [Math.min(1, max / Math.max(w, h))] with max = 1280. *)
Definition scale_of (w h : Z) : num :=
  let s := to_double (1280 # Z.to_pos (Z.max w h))%Q in
  if num_ltb s (Fin 1) then s else Fin 1.
Definition scaled (n : Z) (scale : num) : Z := Z.max 1 (math_round (num_mul (num_of_Z n) scale)).

(** The size of the canvas for a picture of [w] by [h] pixels. *)
Definition or1 (n : Z) : Z := if n =? 0 then 1 else n.
Definition canvas_size (w0 h0 : Z) : Z * Z :=
  let w := or1 w0 in let h := or1 h0 in
  let s := scale_of w h in (scaled w s, scaled h s).

(** ** Reading a file (lines 1073-1098)

    A file has a MIME type and, if the browser can decode it, a picture of some
    size; [encode] is the canvas's [toDataURL]. *)
Record picture := Picture { pic_w : Z; pic_h : Z; pic_data : jstr }.
Record file := File { f_type : jstr; f_picture : option picture }.

Definition fileToDataURL (encode : jstr → Z * Z → jstr) (f : file) : jstr + jstr :=
  if negb (starts_with (js "image/") (f_type f)) then inr (js "нужен файл изображения")
  else match f_picture f with
       | None => inr (js "не удалось прочитать изображение")
       | Some p => inl (encode (pic_data p) (canvas_size (pic_w p) (pic_h p)))
       end.

(** [Promise.all]: every address, or one of the failures. *)
Fixpoint all_urls (l : list (jstr + jstr)) : list jstr + jstr :=
  match l with
  | [] => inl []
  | inr e :: _ => inr e
  | inl u :: t => match all_urls t with inl us => inl (u :: us) | inr e => inr e end
  end.

(** ** The attached images *)

Definition MAX_REFS : nat := 6.

(** The images, the batches being read, and the status line. *)
Record attached := Attached {
  at_refs : list jstr;
  at_reading : list (nat * list file);
  at_next : nat;
  at_status : option jstr;
}.

(** [clearRefs] and the button that removes one image. *)
Definition clearRefs (a : attached) : attached :=
  Attached [] (at_reading a) (at_next a) (at_status a).
Definition remove_ref (i : nat) (a : attached) : attached :=
  Attached (take i (at_refs a) ++ drop (S i) (at_refs a)) (at_reading a) (at_next a) (at_status a).

(** [addRefFiles] up to its promise... *)
Definition addRefFiles (files : list file) (a : attached) : attached :=
  let room := (MAX_REFS - length (at_refs a))%nat in
  match room with
  | O => Attached (at_refs a) (at_reading a) (at_next a) (Some (js "не больше 6 референсов"))
  | _ => Attached (at_refs a) (at_reading a ++ [(at_next a, take room files)]) (S (at_next a)) (at_status a)
  end.

(** ...and the end of a batch.  Which of several failures is reported first is
    the browser's: [fail] says it. *)
Definition finish_batch (encode : jstr → Z * Z → jstr) (k : nat) (a : attached) : attached :=
  match List.find (λ b, bool_decide (b.1 = k)) (at_reading a) with
  | None => a
  | Some (_, files) =>
    let reading := List.filter (λ b, negb (bool_decide (b.1 = k))) (at_reading a) in
    match all_urls (map (fileToDataURL encode) files) with
    | inl urls => Attached (at_refs a ++ List.filter truthy_s urls) reading (at_next a) (at_status a)
    | inr e => Attached (at_refs a) reading (at_next a) (Some (s_or e (js "не удалось прикрепить")))
    end
  end.

(** The strip (lines 869-897): hidden, or a thumbnail with its label each. *)
Definition renderRefs (chat_mode : bool) (a : attached) : option (list (jstr * jstr)) :=
  match at_refs a with
  | [] => None
  | l => if chat_mode then None
         else Some (imap (λ i src, (src, js "референс " ++ of_int (Z.of_nat i + 1))) l)
  end.

(** Files of a paste: the items of an image type that are files. *)
Definition pasted_files (items : list (jstr * option file)) : list file :=
  omap (λ it, if starts_with (js "image/") it.1 then it.2 else None) items.

(** What the user and the browser do.  Dropping on the form and pasting do
    nothing in chat mode; the file dialog and the parameter panel's field
    work in every mode. *)
Inductive aevent : Type :=
  | AFiles (files : list file)
  | ADrop (chat_mode : bool) (files : list file)
  | APaste (chat_mode : bool) (items : list (jstr * option file))
  | ADone (k : nat)
  | ARemove (i : nat)
  | AClear.

Definition astep (encode : jstr → Z * Z → jstr) (a : attached) (e : aevent) : attached :=
  match e with
  | AFiles files => addRefFiles files a
  | ADrop chat_mode files => if chat_mode then a else addRefFiles files a
  | APaste chat_mode items =>
    if chat_mode then a else
    match pasted_files items with [] => a | files => addRefFiles files a end
  | ADone k => finish_batch encode k a
  | ARemove i => remove_ref i a
  | AClear => clearRefs a
  end.
Definition no_refs : attached := Attached [] [] 0 None.

(** ** The size of the canvas *)

Lemma math_round_spec q : ∃ c, math_round (Fin q) = c ∧ (inject_Z c <= q + (1 # 2))%Q ∧
  (q + (1 # 2) < inject_Z c + 1)%Q.
Proof.
  eexists. split; [reflexivity|]. cbn [math_round]. split; [apply Qfloor_le|].
  pose proof (Qlt_floor (q + (1 # 2))) as H. rewrite inject_Z_plus in H. exact H.
Qed.

Lemma scale_small w h : 1 ≤ w → 1 ≤ h → Z.max w h ≤ 1280 → scale_of w h = Fin 1.
Proof.
  intros Hw Hh Hm. unfold scale_of. set (m := Z.max w h) in *.
  destruct (decide (m = 1280)) as [->|Hne]; [by vm_compute|].
  destruct (to_double_near (1280 # Z.to_pos m)) as (x & -> & Hx & _).
  - unfold Qle. cbn [Qnum Qden]. rewrite Z2Pos.id by lia. change (Z.pos (2 ^ 30)) with 1073741824. lia.
  - unfold Qle. cbn [Qnum Qden inject_Z]. rewrite Z2Pos.id by lia. change (2 ^ 30) with 1073741824. lia.
  - cbn [num_ltb]. rewrite (proj2 (Qle_bool_iff 1 x)); [done|].
    eapply Qle_trans; [|exact Hx]. unfold Qle, Qminus. cbn [Qnum Qden Qmult Qplus Qopp].
    rewrite ?Pos2Z.inj_mul, Z2Pos.id by lia.
    match goal with |- ?a * ?b <= ?c * ?d => idtac end. lia.
Qed.

Lemma scale_large w h : 1 ≤ w → 1 ≤ h → 1280 < Z.max w h ≤ 65535 →
  ∃ x, scale_of w h = Fin x ∧
    (1280 * (1 - (1 # 2 ^ 53)) <= x * inject_Z (Z.max w h))%Q ∧
    (x * inject_Z (Z.max w h) <= 1280 * (1 + (1 # 2 ^ 53)))%Q.
Proof.
  intros Hw Hh Hm. unfold scale_of. set (m := Z.max w h) in *.
  destruct (to_double_near (1280 # Z.to_pos m)) as (x & -> & Hl & Hu).
  - unfold Qle. cbn [Qnum Qden]. rewrite Z2Pos.id by lia. change (Z.pos (2 ^ 30)) with 1073741824. lia.
  - unfold Qle. cbn [Qnum Qden inject_Z]. rewrite Z2Pos.id by lia. change (2 ^ 30) with 1073741824. lia.
  - assert ((1280 # Z.to_pos m) * inject_Z m == 1280)%Q as Em.
    { unfold Qeq, Qmult. cbn [Qnum Qden inject_Z]. rewrite Pos2Z.inj_mul, Z2Pos.id by lia. lia. }
    assert (0 < inject_Z m)%Q as Hm0 by (unfold Qlt; cbn; lia).
    assert ((1280 * (1 - (1 # 2 ^ 53)) <= x * inject_Z m)%Q ∧
            (x * inject_Z m <= 1280 * (1 + (1 # 2 ^ 53)))%Q) as [H1 H2].
    { assert (∀ u, (1280 # Z.to_pos m) * u * inject_Z m == 1280 * u)%Q as Eu by (intros u; rewrite <- Em; ring).
      split; [rewrite <- Eu|rewrite <- (Eu (1 + (1 # 2 ^ 53))%Q)];
        by apply Qmult_le_compat_r; [|apply Qlt_le_weak]. }
    cbn [num_ltb]. destruct (Qle_bool 1 x) eqn:E; [|by exists x].
    exfalso. apply Qle_bool_iff in E.
    assert (inject_Z m <= x * inject_Z m)%Q as H3.
    { rewrite <- (Qmult_1_l (inject_Z m)) at 1. apply Qmult_le_compat_r; [done|by apply Qlt_le_weak]. }
    assert (inject_Z 1281 <= inject_Z m)%Q as H4 by (rewrite <- Zle_Qle; lia).
    pose proof (Qle_trans _ _ _ (Qle_trans _ _ _ H4 H3) H2) as H5. vm_compute in H5. by apply H5.
Qed.

Lemma scaled_one n : 1 ≤ n ≤ 65535 → scaled n (Fin 1) = n.
Proof.
  intros Hn. unfold scaled, num_mul. rewrite num_of_Z_safe by (unfold max_safe; lia).
  assert (to_double (inject_Z n * 1) = Fin (inject_Z n)) as ->.
  { unfold to_double. rewrite (Qred_complete _ (inject_Z n)) by ring.
    change (Qred (inject_Z n)) with (Qred (n # 1)). rewrite <- num_of_Z_safe by (unfold max_safe; lia).
    unfold num_of_Z, to_double. done. }
  destruct (math_round_spec (inject_Z n)) as (c & -> & H1 & H2).
  assert (c = n) as ->; [|lia].
  unfold Qle, Qlt, Qplus, inject_Z in H1, H2. cbn in H1, H2. lia.
Qed.

(** Rounded to the nearest of [1280 * n / m]. *)
Lemma scaled_near n m s :
  1 ≤ n ≤ m → 1280 < m ≤ 65535 →
  (1280 * (1 - (1 # 2 ^ 53)) <= s * inject_Z m)%Q → (s * inject_Z m <= 1280 * (1 + (1 # 2 ^ 53)))%Q →
  ∃ c, scaled n (Fin s) = Z.max 1 c ∧ 2 * Z.abs (c * m - 1280 * n) ≤ m.
Proof.
  intros Hn Hm Hl Hu. unfold scaled, num_mul. rewrite num_of_Z_safe by (unfold max_safe; lia).
  set (N := inject_Z n). set (M := inject_Z m) in *.
  assert (1 <= N)%Q as HN1 by (unfold Qle; cbn; lia).
  assert (N <= 65535)%Q as HN2 by (unfold Qle; cbn; lia).
  assert (1281 <= M)%Q as HM1 by (unfold Qle; cbn; lia).
  assert (M <= 65535)%Q as HM2 by (unfold Qle; cbn; lia).
  set (u := (1 # 2 ^ 53)%Q) in *. assert (0 < u)%Q as Hu0 by reflexivity.
  assert (u <= 1 # 1000000000000)%Q as Hu1 by (vm_compute; discriminate).
  assert (N * (1280 * (1 - u)) <= N * s * M ∧ N * s * M <= N * (1280 * (1 + u)))%Q as [P1 P2].
  { clearbody u. split; nra. }
  assert (1 # 100 <= s)%Q as Hs1 by (clearbody u; nra).
  assert (s <= 2)%Q as Hs2 by (clearbody u; nra).
  destruct (to_double_near (N * s)) as (y & -> & Yl & Yu).
  { apply Qle_trans with (1 # 100)%Q; [vm_compute; discriminate|]. clearbody u. nra. }
  { apply Qle_trans with (131070)%Q; [clearbody u; nra|vm_compute; discriminate]. }
  fold u in Yl, Yu. destruct (math_round_spec y) as (c & -> & C1 & C2).
  exists c. split; [done|].
  assert ((N * 1280 * (1 - 3 * u) <= y * M)%Q ∧ (y * M <= N * 1280 * (1 + 3 * u))%Q) as [Y1 Y2].
  { assert (N * s * (1 - u) * M <= y * M)%Q as A by (clearbody u; nra).
    assert (y * M <= N * s * (1 + u) * M)%Q as B by (clearbody u; nra).
    clearbody u. split; nra. }
  assert (inject_Z c * M <= y * M + (1 # 2) * M)%Q as D1 by (clearbody u; nra).
  assert (y * M + (1 # 2) * M <= inject_Z c * M + M)%Q as D2 by (clearbody u; nra).
  assert (N * 1280 * (3 * u) <= 1 # 1000)%Q as D3 by (clearbody u; nra).
  assert (2 * (inject_Z c * M - 1280 * N) < M + 1)%Q as E1 by (clearbody u; nra).
  assert (- (M + 1) < 2 * (inject_Z c * M - 1280 * N))%Q as E2 by (clearbody u; nra).
  clear -E1 E2. unfold N, M, inject_Z, Qlt, Qmult, Qplus, Qminus, Qopp in E1, E2. cbn in E1, E2. lia.
Qed.

(** ** Properties *)

(** C24: The picture that is sent.  A picture of at most 1280 pixels a side keeps its
    size; a larger one is scaled so that its longer side is 1280, each side to
    the nearest whole number of pixels of its share (and at least one), with
    the arithmetic of doubles: no side ever exceeds 1280 or vanishes. *)
Theorem canvas_bounds w0 h0 :
  0 ≤ w0 ≤ 65535 → 0 ≤ h0 ≤ 65535 →
  let w := or1 w0 in let h := or1 h0 in let m := Z.max w h in
  let '(cw, ch) := canvas_size w0 h0 in
  1 ≤ cw ≤ 1280 ∧ 1 ≤ ch ≤ 1280 ∧
  (m ≤ 1280 → cw = w ∧ ch = h) ∧
  (1280 < m → Z.max cw ch = 1280 ∧
     (cw = 1 ∨ 2 * Z.abs (cw * m - 1280 * w) ≤ m) ∧ (ch = 1 ∨ 2 * Z.abs (ch * m - 1280 * h) ≤ m)).
Proof.
  intros Hw0 Hh0 w h m. unfold canvas_size. fold w h. cbv zeta.
  assert (1 ≤ w ≤ 65535 ∧ 1 ≤ h ≤ 65535) as [Hw Hh].
  { unfold w, h, or1. destruct (Z.eqb_spec w0 0), (Z.eqb_spec h0 0); lia. }
  clearbody w h. destruct (Z.le_gt_cases m 1280) as [Hm|Hm].
  - rewrite scale_small by lia. rewrite !scaled_one by lia. unfold m in *. split_and!; lia.
  - destruct (scale_large w h) as (s & -> & Hl & Hu); [lia..|]. fold m in Hl, Hu.
    destruct (scaled_near w m s) as (cw & -> & Cw); [unfold m in *; lia..|done|done|].
    destruct (scaled_near h m s) as (ch & -> & Ch); [unfold m in *; lia..|done|done|].
    assert (w ≤ m ∧ h ≤ m ∧ (w = m ∨ h = m)) as (Lw & Lh & Lm) by (unfold m; lia).
    clearbody m. clear Hl Hu.
    assert (cw ≤ 1280 ∧ ch ≤ 1280) as [Bw Bh] by nia.
    assert (w = m → cw = 1280) as Ew by (intros ->; nia).
    assert (h = m → ch = 1280) as Eh by (intros ->; nia).
    split_and!; lia.
Qed.

(** *** How many images there are *)

Lemma finish_batch_refs encode k a :
  ∃ urls, at_refs (finish_batch encode k a) = at_refs a ++ urls ∧
    (length urls ≤ match List.find (λ b, bool_decide (b.1 = k)) (at_reading a) with
                   | Some b => length b.2 | None => 0 end)%nat.
Proof.
  unfold finish_batch. destruct (List.find _ _) as [[k' files]|] eqn:Ef.
  2:{ exists []. by rewrite app_nil_r. }
  cbv zeta. destruct (all_urls _) as [urls|e] eqn:Ea; cbn [at_refs].
  2:{ exists []. rewrite app_nil_r. split; [done|cbn; lia]. }
  eexists. split; [done|]. cbn [snd].
  assert (∀ l us, all_urls l = inl us → length us = length l) as Hl.
  { clear. induction l as [|[u|e] l IH]; intros us; cbn; [by intros [= <-]|destruct (all_urls l); [|done]|done].
    intros [= <-]. cbn. f_equal. by apply IH. }
  apply Hl in Ea. rewrite length_map in Ea. rewrite <- Ea. clear. 
  induction urls as [|u urls IH]; [done|]. cbn. destruct (truthy_s u); cbn; lia.
Qed.

(** A batch is started while another is being read. *)
Definition starts (e : aevent) : bool :=
  match e with AFiles _ | ADrop _ _ | APaste _ _ => true | _ => false end.
Fixpoint one_at_a_time (encode : jstr → Z * Z → jstr) (a : attached) (es : list aevent) : Prop :=
  match es with
  | [] => True
  | e :: t => (starts e = true → at_reading a = []) ∧ one_at_a_time encode (astep encode a e) t
  end.

(** With at most one batch under way, it fits into the room that is left. *)
Definition refs_ok (a : attached) : Prop :=
  match at_reading a with
  | [] => (length (at_refs a) ≤ MAX_REFS)%nat
  | [(k, files)] => (length (at_refs a) + length files ≤ MAX_REFS)%nat
  | _ => False
  end.

Lemma add_refs_ok files a : refs_ok a → at_reading a = [] → refs_ok (addRefFiles files a).
Proof.
  unfold refs_ok, addRefFiles. intros H E. rewrite E in H. 
  destruct (MAX_REFS - length (at_refs a))%nat as [|room] eqn:Er; cbn [at_reading at_refs]; rewrite E; [done|].
  cbn. rewrite length_take. lia.
Qed.

Lemma astep_refs_ok encode a e :
  refs_ok a → (starts e = true → at_reading a = []) → refs_ok (astep encode a e).
Proof.
  intros H Hs. destruct e as [files|chat files|chat items|k|i|]; cbn [astep].
  - by apply add_refs_ok; [|apply Hs].
  - destruct chat; [done|]. by apply add_refs_ok; [|apply Hs].
  - destruct chat; [done|]. destruct (pasted_files items); [done|]. by apply add_refs_ok; [|apply Hs].
  - destruct (finish_batch_refs encode k a) as (urls & E & L). unfold refs_ok in *. rewrite E.
    unfold finish_batch. destruct (at_reading a) as [|[k' files] [|]] eqn:Er; [|..|done]; cbn [List.find] in L |- *.
    + rewrite Er. by destruct urls; cbn in *; rewrite ?app_nil_r; [|lia].
    + cbn in L |- *. destruct (decide (k' = k)) as [->|Hne].
      * rewrite bool_decide_eq_true_2 in L |- * by done. cbn in L.
        cbn.
        destruct (all_urls _); cbn; rewrite length_app; lia.
      * rewrite bool_decide_eq_false_2 in L |- * by done. rewrite Er. destruct urls; cbn in L; [|lia].
        by rewrite app_nil_r.
  - unfold refs_ok in *. cbn [remove_ref at_reading at_refs].
    assert (length (take i (at_refs a) ++ drop (S i) (at_refs a)) ≤ length (at_refs a))%nat as Hl.
    { rewrite length_app, length_take, length_drop. lia. }
    destruct (at_reading a) as [|[? ?] [|]]; [lia|lia|done].
  - unfold refs_ok in *. cbn [clearRefs at_reading at_refs length].
    destruct (at_reading a) as [|[? ?] [|]]; [lia|lia|done].
Qed.

(** The limit of six images holds if the batches come one at a time: when no
    files are added while others are being read, there are never more than six,
    whatever is added, removed or cleared. *)
Theorem refs_limited encode es :
  one_at_a_time encode no_refs es → (length (at_refs (foldl (astep encode) no_refs es)) ≤ MAX_REFS)%nat.
Proof.
  assert (∀ es a, refs_ok a → one_at_a_time encode a es → refs_ok (foldl (astep encode) a es)) as H.
  { clear. induction es as [|e es IH]; intros a Ha Ho; [done|]. destruct Ho as [H1 H2]. cbn.
    apply IH; [by apply astep_refs_ok|done]. }
  intros Ho. specialize (H es no_refs ltac:(unfold refs_ok; cbn; lia) Ho). unfold refs_ok in H.
  destruct (at_reading _) as [|[? ?] [|]]; [done|lia|done].
Qed.

Lemma finish_first encode k files us refs rest n st :
  all_urls (map (fileToDataURL encode) files) = inl us → Forall (λ b, b.1 ≠ k) rest →
  finish_batch encode k (Attached refs ((k, files) :: rest) n st) =
    Attached (refs ++ List.filter truthy_s us) rest n st.
Proof.
  intros E H. unfold finish_batch. cbn [at_reading List.find List.filter fst at_refs at_next at_status].
  rewrite bool_decide_eq_true_2 by done. cbv zeta iota. rewrite E. cbn [negb]. f_equal.
  induction H as [|b l Hb _ IH]; [done|]. cbn. by rewrite bool_decide_eq_false_2, IH.
Qed.

(** C39: Otherwise it does not: the room is computed when the files are chosen, not
    when they are attached, so two batches of up to six pictures chosen one
    right after the other are all attached. *)
Theorem refs_overrun encode files1 files2 :
  (0 < length files1 ≤ MAX_REFS)%nat → (0 < length files2 ≤ MAX_REFS)%nat →
  Forall (λ f, ∃ u, fileToDataURL encode f = inl u ∧ truthy_s u = true) (files1 ++ files2) →
  length (at_refs (foldl (astep encode) no_refs [AFiles files1; AFiles files2; ADone 0; ADone 1])) =
    (length files1 + length files2)%nat.
Proof.
  intros L1 L2 [H1 H2]%Forall_app.
  assert (∀ files, Forall (λ f, ∃ u, fileToDataURL encode f = inl u ∧ truthy_s u = true) files →
    ∃ us, all_urls (map (fileToDataURL encode) files) = inl us ∧ length (List.filter truthy_s us) = length files) as Hall.
  { clear. induction 1 as [|f files (u & Eu & Ht) _ (us & Es & El)]; [by exists []|].
    exists (u :: us). cbn. by rewrite Eu, Es, Ht, <- El. }
  destruct (Hall _ H1) as (us1 & E1 & N1), (Hall _ H2) as (us2 & E2 & N2).
  assert (∀ files : list file, (length files ≤ MAX_REFS)%nat → take 6 files = files) as Ht by (intros; by apply take_ge).
  cbn [foldl astep]. unfold addRefFiles at 2. cbn [no_refs at_refs length MAX_REFS Nat.sub at_reading at_next at_status app].
  rewrite Ht by lia. unfold addRefFiles. cbn [at_refs length MAX_REFS Nat.sub at_reading at_next at_status app].
  rewrite Ht by lia. rewrite (finish_first encode 0 files1 us1) by (try done; by repeat constructor).
  rewrite (finish_first encode 1 files2 us2) by done. cbn [at_refs]. by rewrite !length_app, N1, N2.
Qed.

(** ** Some pictures *)

Definition demo_encode (d : jstr) (sz : Z * Z) : jstr := d.
Definition demo_file : file := File (js "image/png") (Some (Picture 4000 3000 (js "data:image/jpeg;base64,AA"))).

Example demo_canvas : canvas_size 4000 3000 = (1280, 960).
Proof. vm_compute. reflexivity. Qed.

Lemma canvas_bounds_witness : 1 ≤ (canvas_size 4001 7).1 ≤ 1280.
Proof.
  pose proof (canvas_bounds 4001 7 ltac:(lia) ltac:(lia)) as H. cbv zeta in H.
  destruct (canvas_size 4001 7) as [cw ch]. exact (proj1 H).
Defined.

Lemma refs_limited_witness :
  (length (at_refs (foldl (astep demo_encode) no_refs [AFiles (replicate 9 demo_file); ADone 0])) ≤ 6)%nat.
Proof.
  apply (refs_limited demo_encode [AFiles (replicate 9 demo_file); ADone 0]).
  split; [intros _; reflexivity|]. split; [|exact I]. intros H. discriminate H.
Defined.

Lemma refs_overrun_witness :
  length (at_refs (foldl (astep demo_encode) no_refs
    [AFiles (replicate 6 demo_file); AFiles (replicate 6 demo_file); ADone 0; ADone 1])) = 12%nat.
Proof.
  apply (refs_overrun demo_encode (replicate 6 demo_file) (replicate 6 demo_file)).
  - unfold MAX_REFS. cbn. lia.
  - unfold MAX_REFS. cbn. lia.
  - apply Forall_forall. intros f Hf. exists (js "data:image/jpeg;base64,AA").
    assert (f = demo_file) as -> by (apply elem_of_app in Hf as [Hf|Hf]; by apply elem_of_replicate in Hf as [? _]).
    split; vm_compute; reflexivity.
Defined.
