(* ===== verification/ChatMode.v ===== *)
(** * The playground's mode and model selects

    app.js lines 796-867: [genMode], [optionMedia], [mediaKind],
    [syncModeToModel], [filterModels] and the [change] handlers.  A select is
    its options and the selected index (or none); the chat page always has both
    selects.  What [filterModels] does to the attached images is [ChatStore]'s,
    the parameter panel it reloads is [ChatParams]'s. *)

From S2P Require Import Prelude JsString.
Open Scope nat_scope.

Record option_el := Opt { o_value : jstr; o_media : jstr; o_hidden : bool; o_disabled : bool }.

Record selects := Selects {
  model_opts : list option_el; model_sel : option nat;
  mode_opts : list (jstr * jstr);      (* value, data-path *)
  mode_sel : option nat;
}.

Definition with_model (i : option nat) (u : selects) : selects :=
  Selects (model_opts u) i (mode_opts u) (mode_sel u).
Definition with_mode (i : option nat) (u : selects) : selects :=
  Selects (model_opts u) (model_sel u) (mode_opts u) i.

(** The first index at which a test holds. *)
Fixpoint index_where {A} (p : A → bool) (l : list A) : option nat :=
  match l with
  | [] => None
  | x :: t => if p x then Some 0 else S <$> index_where p t
  end.

(** [select.value = v]: the first option of that value, else none. *)
Definition set_model_value (v : jstr) (u : selects) : selects :=
  with_model (index_where (λ o, bool_decide (o_value o = v)) (model_opts u)) u.
Definition set_mode_value (v : jstr) (u : selects) : selects :=
  with_mode (index_where (λ o, bool_decide (o.1 = v)) (mode_opts u)) u.

Definition selected_model (u : selects) : option option_el :=
  i ← model_sel u; model_opts u !! i.
Definition model_value (u : selects) : jstr :=
  match selected_model u with Some o => o_value o | None => [] end.
Definition mode_value (u : selects) : jstr :=
  match i ← mode_sel u; mode_opts u !! i with Some o => o.1 | None => [] end.

Definition genMode (u : selects) : jstr := s_or (mode_value u) (js "chat").
Definition optionMedia (u : selects) : jstr :=
  match selected_model u with Some o => o_media o | None => [] end.

Definition mediaKind (media : jstr) : jstr :=
  let v := includes (js "video") media in
  let im := includes (js "image") media in
  if v && negb im then js "video" else if im && negb v then js "image" else js "chat".

(** Whether a mode can use a model. *)
Definition mode_ok (mode media : jstr) : bool :=
  let ok := true in
  let ok := if bool_decide (mode = js "image") then includes (js "image") media else ok in
  if bool_decide (mode = js "video") then includes (js "video") media else ok.

Definition filter_option (mode : jstr) (o : option_el) : option_el :=
  if truthy_s (o_value o) then
    let ok := mode_ok mode (o_media o) in Opt (o_value o) (o_media o) (negb ok) (negb ok)
  else o.

Definition usable (mode : jstr) (o : option_el) : bool :=
  truthy_s (o_value o) && mode_ok mode (o_media o).

Definition filterModels (u : selects) : selects :=
  let mode := genMode u in
  let first := index_where (usable mode) (model_opts u) in
  let u := Selects (map (filter_option mode) (model_opts u)) (model_sel u)
                   (mode_opts u) (mode_sel u) in
  match selected_model u, first with
  | Some o, Some i => if o_hidden o then with_model (Some i) u else u
  | _, _ => u
  end.

Definition syncModeToModel (u : selects) : selects :=
  let want := mediaKind (optionMedia u) in
  let u := if negb (bool_decide (want = js "chat")) && negb (bool_decide (mode_value u = want))
           then set_mode_value want u else u in
  filterModels u.

(** The user picks option [i] of a select (an option that is not disabled). *)
Definition pick_model (i : nat) (u : selects) : selects :=
  match model_opts u !! i with
  | Some o => if o_disabled o then u else syncModeToModel (with_model (Some i) u)
  | None => u
  end.
Definition pick_mode (i : nat) (u : selects) : selects :=
  match mode_opts u !! i with
  | Some _ => filterModels (with_mode (Some i) u)
  | None => u
  end.

(** The saved model of an earlier visit (lines 796-801). *)
Definition restore_model (saved : option jstr) (u : selects) : selects :=
  match saved with
  | Some v =>
    if truthy_s v then
      match index_where (λ o, bool_decide (o_value o = v)) (model_opts u) with
      | Some i => with_model (Some i) u
      | None => u
      end
    else u
  | None => u
  end.

(** The route shown next to the selects. *)
Definition path_text (u : selects) : jstr :=
  js "без ключа · " ++ match i ← mode_sel u; mode_opts u !! i with Some o => o.2 | None => [] end.

(** ** Lemmas *)

Lemma index_where_spec {A} (p : A → bool) l i :
  index_where p l = Some i → ∃ x, l !! i = Some x ∧ p x = true.
Proof.
  revert i. induction l as [|x l IH]; intros i; [done|]. simpl. destruct (p x) eqn:E.
  - intros [= <-]. by exists x.
  - destruct (index_where p l) as [j|]; [|done]. intros [= <-]. by apply IH.
Qed.

Lemma index_where_none {A} (p : A → bool) l :
  index_where p l = None → ∀ i x, l !! i = Some x → p x = false.
Proof.
  induction l as [|x l IH]; [done|]. simpl. destruct (p x) eqn:E; [done|].
  destruct (index_where p l); [done|]. intros _ [|i] y; simpl.
  - by intros [= <-].
  - by apply IH.
Qed.

Lemma index_where_map {A} (p : A → bool) (f : A → A) l :
  (∀ x, p (f x) = p x) → index_where p (map f l) = index_where p l.
Proof. intros Hf. induction l as [|x l IH]; [done|]. simpl. by rewrite Hf, IH. Qed.

Lemma filter_option_value m o : o_value (filter_option m o) = o_value o.
Proof. unfold filter_option. by destruct (truthy_s _). Qed.
Lemma filter_option_media m o : o_media (filter_option m o) = o_media o.
Proof. unfold filter_option. by destruct (truthy_s _). Qed.

Lemma usable_filter m m' o : usable m (filter_option m' o) = usable m o.
Proof. unfold usable. by rewrite filter_option_value, filter_option_media. Qed.

Lemma filter_option_idem m o : filter_option m (filter_option m o) = filter_option m o.
Proof.
  unfold filter_option at 1. rewrite filter_option_value, filter_option_media.
  unfold filter_option. by destruct (truthy_s (o_value o)).
Qed.

(** What [filterModels] leaves alone. *)
Lemma filterModels_opts u : model_opts (filterModels u) = map (filter_option (genMode u)) (model_opts u).
Proof.
  unfold filterModels. destruct (selected_model _) as [o|]; [|done].
  destruct (index_where _ _); [|done]. by destruct (o_hidden o).
Qed.
Lemma filterModels_mode u :
  mode_opts (filterModels u) = mode_opts u ∧ mode_sel (filterModels u) = mode_sel u.
Proof.
  unfold filterModels. destruct (selected_model _) as [o|]; [|done].
  destruct (index_where _ _); [|done]. by destruct (o_hidden o).
Qed.
Lemma filterModels_genMode u : genMode (filterModels u) = genMode u.
Proof. unfold genMode, mode_value. by destruct (filterModels_mode u) as [-> ->]. Qed.

(** The selected model after filtering: the one that was selected if the mode
    can use it, else the first one it can use, if there is any. *)
Lemma filterModels_selected u o :
  selected_model u = Some o → truthy_s (o_value o) = true →
  if mode_ok (genMode u) (o_media o)
  then selected_model (filterModels u) = Some (filter_option (genMode u) o)
  else match index_where (usable (genMode u)) (model_opts u) with
       | Some i => ∃ o', model_opts u !! i = Some o' ∧ usable (genMode u) o' = true ∧
           selected_model (filterModels u) = Some (filter_option (genMode u) o')
       | None => selected_model (filterModels u) = Some (filter_option (genMode u) o)
       end.
Proof.
  intros Hs Hv. unfold filterModels, selected_model in *. cbn [model_sel model_opts] in *.
  destruct (model_sel u) as [i|]; [|done]. cbn [mbind option_bind] in *.
  set (m := genMode u).
  assert (∀ j, map (filter_option m) (model_opts u) !! j = filter_option m <$> model_opts u !! j) as Hm.
  { intros j. apply (list_lookup_fmap (filter_option m)). }
  assert (o_hidden (filter_option m o) = negb (mode_ok m (o_media o))) as Hh.
  { unfold filter_option. by rewrite Hv. }
  rewrite Hm, Hs. cbn [fmap option_fmap option_map].
  destruct (index_where (usable m) (model_opts u)) as [k|] eqn:Ek.
  - rewrite Hh. destruct (mode_ok m (o_media o)); cbn; [by rewrite Hm, Hs|].
    apply index_where_spec in Ek as (o' & Hk & Hu). exists o'. split_and!; [done|done|].
    by rewrite Hm, Hk.
  - destruct (mode_ok m (o_media o)); cbn; by rewrite Hm, Hs.
Qed.

Lemma filter_option_hidden m o :
  truthy_s (o_value o) = true →
  o_hidden (filter_option m o) = negb (mode_ok m (o_media o)) ∧
  o_disabled (filter_option m o) = negb (mode_ok m (o_media o)).
Proof. unfold filter_option. by intros ->. Qed.

Lemma filterModels_shown u i o :
  model_opts (filterModels u) !! i = Some o → truthy_s (o_value o) = true →
  o_hidden o = negb (mode_ok (genMode u) (o_media o)) ∧ o_disabled o = o_hidden o.
Proof.
  rewrite filterModels_opts. intros Ho Hv.
  apply (list_lookup_fmap_Some (filter_option (genMode u))) in Ho as (o' & -> & Ho').
  rewrite filter_option_value in Hv. rewrite filter_option_media.
  destruct (filter_option_hidden (genMode u) o' Hv) as [-> ->]. done.
Qed.

Lemma mediaKind_ok media : mediaKind media ≠ js "chat" → mode_ok (mediaKind media) media = true.
Proof.
  unfold mediaKind, mode_ok. destruct (includes (js "video") media) eqn:Ev,
    (includes (js "image") media) eqn:Ei; cbn [andb negb]; intros Hne; js_decide; try done.
Qed.

Lemma set_mode_genMode v u :
  v ∈ (mode_opts u).*1 → v ≠ [] →
  mode_value (set_mode_value v u) = v ∧ genMode (set_mode_value v u) = v.
Proof.
  intros Hv Hne. assert (mode_value (set_mode_value v u) = v) as E.
  { unfold mode_value, set_mode_value. cbn [with_mode mode_sel mode_opts].
    destruct (index_where _ (mode_opts u)) as [i|] eqn:Ei.
    - apply index_where_spec in Ei as (o & Ho & Hp%bool_decide_eq_true). cbn. by rewrite Ho.
    - exfalso. apply list_elem_of_fmap in Hv as (o & -> & Ho).
      apply list_elem_of_lookup_1 in Ho as [i Hi].
      pose proof (index_where_none _ _ Ei i o Hi) as Hp. by rewrite bool_decide_eq_false in Hp. }
  split; [done|]. unfold genMode. rewrite E. by apply s_or_nonempty.
Qed.

(** Filtering again changes nothing. *)
Lemma filterModels_idem u : filterModels (filterModels u) = filterModels u.
Proof.
  destruct (filterModels_mode u) as [E1 E2].
  assert (map (filter_option (genMode u)) (model_opts (filterModels u)) = model_opts (filterModels u)) as Em.
  { rewrite filterModels_opts, map_map. apply map_ext. intros o. apply filter_option_idem. }
  assert (index_where (usable (genMode u)) (model_opts (filterModels u)) =
          index_where (usable (genMode u)) (model_opts u)) as Ei.
  { rewrite filterModels_opts. apply index_where_map. intros o. apply usable_filter. }
  unfold filterModels at 1. rewrite filterModels_genMode, Em, Ei, E1, E2.
  assert (Selects (model_opts (filterModels u)) (model_sel (filterModels u)) (mode_opts u) (mode_sel u)
          = filterModels u) as -> by (rewrite <- E1, <- E2; by destruct (filterModels u)).
  destruct (selected_model (filterModels u)) as [o|] eqn:Es; [|done].
  destruct (index_where (usable (genMode u)) (model_opts u)) as [k|] eqn:Ek; [|done].
  destruct (o_hidden o) eqn:Eh; [|done].
  (* the selection was moved to the first usable model, or was visible *)
  revert Es Eh. clear Em Ei E1 E2. unfold filterModels. rewrite Ek.
  set (u1 := Selects (map (filter_option (genMode u)) (model_opts u)) (model_sel u) (mode_opts u) (mode_sel u)).
  destruct (selected_model u1) as [o1|] eqn:E1; [|congruence].
  destruct (o_hidden o1) eqn:Eh1; [|congruence].
  done.
Qed.

(** C31: Picking a model that makes only images or only videos switches the
    playground to that mode and keeps the model selected; afterwards exactly the
    models the mode can use are shown and can be picked. *)
Theorem pick_media_model u i o :
  model_opts u !! i = Some o → o_disabled o = false → truthy_s (o_value o) = true →
  mediaKind (o_media o) ≠ js "chat" → mediaKind (o_media o) ∈ (mode_opts u).*1 →
  let u' := pick_model i u in
  genMode u' = mediaKind (o_media o) ∧ model_sel u' = Some i ∧
  (∀ j o', model_opts u' !! j = Some o' → truthy_s (o_value o') = true →
     o_hidden o' = negb (mode_ok (mediaKind (o_media o)) (o_media o')) ∧ o_disabled o' = o_hidden o').
Proof.
  intros Ho Hd Hv Hk Hin u'. unfold u', pick_model. rewrite Ho, Hd. unfold syncModeToModel.
  set (u1 := with_model (Some i) u).
  assert (selected_model u1 = Some o) as Hs by (unfold selected_model; cbn; exact Ho).
  assert (optionMedia u1 = o_media o) as -> by (unfold optionMedia; by rewrite Hs).
  set (want := mediaKind (o_media o)) in *.
  assert (want ≠ []) as Hne.
  { unfold want, mediaKind. destruct (_ && _); [|destruct (_ && _)]; by vm_compute. }
  rewrite (bool_decide_neq want (js "chat")) by done. cbn [negb andb].
  set (u2 := if negb (bool_decide (mode_value u1 = want)) then set_mode_value want u1 else u1).
  assert (genMode u2 = want ∧ model_opts u2 = model_opts u ∧ model_sel u2 = Some i) as (Eg & E1 & E2).
  { unfold u2. destruct (decide (mode_value u1 = want)) as [E|E].
    - rewrite bool_decide_eq_true_2 by done. cbn [negb]. split_and!; [|done|done].
      unfold genMode. rewrite E. by apply s_or_nonempty.
    - rewrite bool_decide_eq_false_2 by done. cbn [negb]. split_and!; [|done|done].
      by apply (set_mode_genMode want u1). }
  split_and!.
  - by rewrite filterModels_genMode.
  - unfold filterModels. unfold selected_model. cbn [model_sel model_opts]. rewrite E2.
    cbn [mbind option_bind]. rewrite Eg, E1.
    assert (map (filter_option want) (model_opts u) !! i = Some (filter_option want o)) as ->.
    { rewrite (list_lookup_fmap (filter_option want)). by rewrite Ho. }
    destruct (index_where _ _); [|done].
    destruct (filter_option_hidden want o Hv) as [-> _].
    unfold want. rewrite mediaKind_ok by done. done.
  - intros j o' Hj Hv'. rewrite <- Eg. by apply (filterModels_shown u2 j).
Qed.

(** A mode change leaves a model selected that the mode can use: the selected
    one if it can, else the first that can; only when no model can it stays.
    Filtering is idempotent. *)
Theorem pick_mode_usable u i m o :
  mode_opts u !! i = Some m → selected_model u = Some o → truthy_s (o_value o) = true →
  let u' := pick_mode i u in
  filterModels u' = u' ∧
  (mode_ok (genMode u') (o_media o) = true →
     selected_model u' = Some (filter_option (genMode u') o)) ∧
  (∀ j o1, model_opts u !! j = Some o1 → usable (genMode u') o1 = true →
     ∃ o', selected_model u' = Some o' ∧ usable (genMode u') o' = true ∧ o_hidden o' = false).
Proof.
  intros Hm Hs Hv u'. unfold u', pick_mode. rewrite Hm. set (u1 := with_mode (Some i) u).
  rewrite filterModels_genMode. split; [apply filterModels_idem|].
  pose proof (filterModels_selected u1 o Hs Hv) as Hf. split.
  { intros Hok. by rewrite Hok in Hf. }
  intros j o1 Hj Hu.
  assert (∀ o2, usable (genMode u1) o2 = true → usable (genMode u1) (filter_option (genMode u1) o2) = true ∧
            o_hidden (filter_option (genMode u1) o2) = false) as Hus.
  { intros o2 H2. rewrite usable_filter. split; [done|]. unfold usable in H2.
    apply andb_prop in H2 as [Hv2 Hk2]. destruct (filter_option_hidden (genMode u1) o2 Hv2) as [-> _].
    by rewrite Hk2. }
  destruct (mode_ok (genMode u1) (o_media o)) eqn:Eok.
  - eexists. split; [exact Hf|]. apply Hus. unfold usable. by rewrite Hv, Eok.
  - destruct (index_where (usable (genMode u1)) (model_opts u1)) as [k|] eqn:Ek.
    + destruct Hf as (o' & Hk & Hu' & Hsel). eexists. split; [exact Hsel|]. by apply Hus.
    + pose proof (index_where_none _ _ Ek j o1 Hj). congruence.
Qed.

(** ** Witnesses *)

Definition demo_models : selects := Selects
  [Opt [] [] false false; Opt (js "chat-1") [] false false; Opt (js "draw") (js "image") false false;
   Opt (js "film") (js "video") false false] (Some 1)
  [(js "chat", js "/v1/chat"); (js "image", js "/v1/images"); (js "video", js "/v1/videos")] (Some 0).

Lemma pick_media_model_witness :
  genMode (pick_model 3 demo_models) = js "video" ∧ model_sel (pick_model 3 demo_models) = Some 3.
Proof.
  destruct (pick_media_model demo_models 3 (Opt (js "film") (js "video") false false)) as (H1 & H2 & _).
  - reflexivity.
  - reflexivity.
  - reflexivity.
  - vm_compute. discriminate.
  - vm_compute. right. right. left.
  - split; [|exact H2]. exact H1.
Defined.

Lemma pick_mode_usable_witness :
  filterModels (pick_mode 1 demo_models) = pick_mode 1 demo_models ∧
  model_value (pick_mode 1 demo_models) = js "draw".
Proof.
  destruct (pick_mode_usable demo_models 1 (js "image", js "/v1/images") (Opt (js "chat-1") [] false false))
    as (H1 & _ & _); [reflexivity..|]. split; [exact H1|reflexivity].
Defined.
