(* ===== verification/ChatStore.v ===== *)
(** * The playground's chats

    app.js lines 777-790, 1099-1461 and 1507-1619: the tabs with their
    messages, which chat is active, the generation in flight of each, what the
    log shows, and what is kept in [localStorage].

    Message arrays are shared: [messages] and the [messages] field of the
    active chat are normally the same array, which some functions extend
    through one name and read through the other.  Arrays are therefore
    addresses in a heap.  A message object is reachable through one array only
    and is kept in place.  What the tab bar, the queue panel and the history
    show is computed from the state by the functions that draw them; the log,
    whose bubbles are updated in place, is part of the state. *)

From S2P Require Import Prelude JsString JsNumber JsValue ChatSink ChatMode Html.
Open Scope nat_scope.

(** ** Data *)

Record msg := Msg {
  m_role : jstr; m_content : val; m_think : val; m_image : val; m_video : val;
  m_hadImage : val; m_pending : val;
}.

(** A message written by the user, and the placeholder for its answer. *)
Definition user_msg (text : jstr) : msg :=
  Msg (js "user") (VStr text) VUndef VUndef VUndef VUndef VUndef.
Definition generating : jstr := js "генерация…".
Definition pending_msg : msg :=
  Msg (js "assistant") (VStr generating) VUndef VUndef VUndef VUndef (VBool true).

Record chat := Chat {
  c_id : jstr; c_title : jstr; c_msgs : nat; c_model : jstr; c_mode : jstr;
  c_updated : val; c_busy : bool; c_ac : option nat; c_genKind : jstr;
}.

(** A bubble of the log: its identity, side, text, reasoning, the image or
    video it shows, and the kind, source and prompt of its action buttons. *)
Record bubble := Bubble {
  b_id : nat; b_user : bool; b_text : val; b_think : val;
  b_show : option (bool * val); b_actions : option (bool * val * val);
}.

(** A request sent: the chat, its controller, the route and the body. *)
Record request := Request {
  rq_chat : jstr; rq_ac : nat; rq_url : jstr; rq_body : list (jstr * val);
}.

Record page := Page {
  chats : list chat;
  activeId : jstr;
  messages : nat;
  heap : gmap nat (list msg);
  next_addr : nat;
  ui : selects;
  refs : list jstr;
  log : list bubble;
  next_bubble : nat;
  status : val;
  send_off : bool;               (* send disabled and hidden, stop shown, input disabled *)
  input_text : jstr;
  store : option jstr;           (* localStorage "ml-chats" *)
  last_ac : option nat;          (* the global [ac] *)
  next_ac : nat;
  aborted_acs : list nat;
  sent : list request;
  clock : Z;
}.

(** A message as [JSON.stringify] sees it; an undefined property is left out. *)
Definition msg_obj (m : msg) : val :=
  VObj [(js "role", VStr (m_role m)); (js "content", m_content m); (js "think", m_think m);
        (js "image", m_image m); (js "video", m_video m); (js "hadImage", m_hadImage m);
        (js "pending", m_pending m)].

(** Updates of one field. *)
Definition set_chats (x : list chat) (s : page) : page :=
  Page x (activeId s) (messages s) (heap s) (next_addr s) (ui s) (refs s) (log s) (next_bubble s)
    (status s) (send_off s) (input_text s) (store s) (last_ac s) (next_ac s) (aborted_acs s) (sent s) (clock s).
Definition set_active (id : jstr) (m : nat) (s : page) : page :=
  Page (chats s) id m (heap s) (next_addr s) (ui s) (refs s) (log s) (next_bubble s)
    (status s) (send_off s) (input_text s) (store s) (last_ac s) (next_ac s) (aborted_acs s) (sent s) (clock s).
Definition set_heap (h : gmap nat (list msg)) (n : nat) (s : page) : page :=
  Page (chats s) (activeId s) (messages s) h n (ui s) (refs s) (log s) (next_bubble s)
    (status s) (send_off s) (input_text s) (store s) (last_ac s) (next_ac s) (aborted_acs s) (sent s) (clock s).
Definition set_ui (u : selects) (r : list jstr) (s : page) : page :=
  Page (chats s) (activeId s) (messages s) (heap s) (next_addr s) u r (log s) (next_bubble s)
    (status s) (send_off s) (input_text s) (store s) (last_ac s) (next_ac s) (aborted_acs s) (sent s) (clock s).
Definition set_log (l : list bubble) (n : nat) (s : page) : page :=
  Page (chats s) (activeId s) (messages s) (heap s) (next_addr s) (ui s) (refs s) l n
    (status s) (send_off s) (input_text s) (store s) (last_ac s) (next_ac s) (aborted_acs s) (sent s) (clock s).
Definition set_status (v : val) (s : page) : page :=
  Page (chats s) (activeId s) (messages s) (heap s) (next_addr s) (ui s) (refs s) (log s) (next_bubble s)
    v (send_off s) (input_text s) (store s) (last_ac s) (next_ac s) (aborted_acs s) (sent s) (clock s).
Definition set_off (b : bool) (s : page) : page :=
  Page (chats s) (activeId s) (messages s) (heap s) (next_addr s) (ui s) (refs s) (log s) (next_bubble s)
    (status s) b (input_text s) (store s) (last_ac s) (next_ac s) (aborted_acs s) (sent s) (clock s).
Definition set_input (t : jstr) (s : page) : page :=
  Page (chats s) (activeId s) (messages s) (heap s) (next_addr s) (ui s) (refs s) (log s) (next_bubble s)
    (status s) (send_off s) t (store s) (last_ac s) (next_ac s) (aborted_acs s) (sent s) (clock s).
Definition set_store (t : option jstr) (s : page) : page :=
  Page (chats s) (activeId s) (messages s) (heap s) (next_addr s) (ui s) (refs s) (log s) (next_bubble s)
    (status s) (send_off s) (input_text s) t (last_ac s) (next_ac s) (aborted_acs s) (sent s) (clock s).
Definition set_acs (l : option nat) (n : nat) (a : list nat) (s : page) : page :=
  Page (chats s) (activeId s) (messages s) (heap s) (next_addr s) (ui s) (refs s) (log s) (next_bubble s)
    (status s) (send_off s) (input_text s) (store s) l n a (sent s) (clock s).
Definition add_sent (r : request) (s : page) : page :=
  Page (chats s) (activeId s) (messages s) (heap s) (next_addr s) (ui s) (refs s) (log s) (next_bubble s)
    (status s) (send_off s) (input_text s) (store s) (last_ac s) (next_ac s) (aborted_acs s) (sent s ++ [r]) (clock s).

(** ** Looking up *)

(** The messages of an array. *)
Definition arr (a : nat) (s : page) : list msg := default [] (heap s !! a).
Definition set_arr (a : nat) (l : list msg) (s : page) : page :=
  set_heap (<[a := l]> (heap s)) (next_addr s) s.
(** A new empty array. *)
Definition alloc (s : page) : nat * page :=
  (next_addr s, set_heap (<[next_addr s := []]> (heap s)) (S (next_addr s)) s).

(** [chatById] (lines 1142-1145). *)
Definition chatById (id : jstr) (s : page) : option chat :=
  List.find (λ c, bool_decide (c_id c = id)) (chats s).

(** Writing to the object [chatById] returns. *)
Fixpoint update_first (id : jstr) (f : chat → chat) (l : list chat) : list chat :=
  match l with
  | [] => []
  | c :: t => if bool_decide (c_id c = id) then f c :: t else c :: update_first id f t
  end.
Definition update_chat (id : jstr) (f : chat → chat) (s : page) : page :=
  set_chats (update_first id f (chats s)) s.

Definition is_user (m : msg) : bool := bool_decide (m_role m = js "user").
Definition is_assistant (m : msg) : bool := bool_decide (m_role m = js "assistant").

(** [chatTitle] (lines 1136-1141). *)
Definition new_title : jstr := js "Новый чат".
Fixpoint chatTitle (l : list msg) : jstr :=
  match l with
  | [] => new_title
  | m :: t => if is_user m && truthy (m_content m) then take 32 (to_str (m_content m)) else chatTitle t
  end.

(** [snapshotChat] (lines 1146-1154). *)
Definition snap (s : page) (c : chat) : chat :=
  Chat (c_id c) (chatTitle (arr (messages s) s)) (messages s) (model_value (ui s)) (genMode (ui s))
       (VNum (num_of_Z (clock s))) (c_busy c) (c_ac c) (c_genKind c).
Definition snapshotChat (s : page) : page := update_chat (activeId s) (snap s) s.

(** [setChatBusy] (lines 1155-1166), [setBusy] (1419-1421). *)
Definition chat_busy (on : bool) (c : chat) : chat :=
  Chat (c_id c) (c_title c) (c_msgs c) (c_model c) (c_mode c) (c_updated c) on (c_ac c) (c_genKind c).
Definition setChatBusy (id : jstr) (on : bool) (s : page) : page :=
  let s := update_chat id (chat_busy on) s in
  if bool_decide (id = activeId s) then set_off on s else s.
Definition setBusy (on : bool) (s : page) : page := setChatBusy (activeId s) on s.

(** ** The log *)

(** [filterModels] and [syncModeToModel] with their effect on the attached
    images: in chat mode they are dropped (lines 861-862). *)
Definition drop_refs (u : selects) (r : list jstr) : list jstr :=
  if bool_decide (genMode u = js "chat") then [] else r.
Definition page_filter (s : page) : page :=
  let u := filterModels (ui s) in set_ui u (drop_refs u (refs s)) s.
Definition page_sync (s : page) : page :=
  let u := syncModeToModel (ui s) in set_ui u (drop_refs u (refs s)) s.

(** [bubble] (lines 1395-1418): its identity and the page with it. *)
Definition add_bubble (user : bool) (text : val) (s : page) : nat * page :=
  (next_bubble s,
   set_log (log s ++ [Bubble (next_bubble s) user (v_or text (VStr [])) VUndef None None])
     (S (next_bubble s)) s).

(** The bubble [paintThread] makes of a message, with [fillMedia] (1167-1183)
    and [mediaActions] (1545-1579). *)
Definition msg_text (m : msg) : val :=
  v_or (m_content m)
    (if truthy (m_video m) then VStr (js "видео")
     else if truthy (m_hadImage m) || truthy (m_image m) then VStr (js "изображение") else VStr []).
Definition paint_msg (id : nat) (m : msg) : bubble :=
  let shown := if truthy (m_image m) then Some (false, m_image m)
               else if truthy (m_video m) then Some (true, m_video m) else None in
  let text := match shown with Some _ => VStr [] | None => msg_text m end in
  let prompt := v_or (m_content m) (VStr []) in
  let actions := if truthy (m_video m) then Some (true, m_video m, prompt)
                 else if truthy (m_image m) then Some (false, m_image m, prompt) else None in
  Bubble id (is_user m) text (if is_user m then VUndef else m_think m) shown actions.

(** [paintThread] (lines 1233-1250). *)
Definition paintThread (s : page) : page :=
  let l := arr (messages s) s in
  page_sync (set_log (imap (λ i m, paint_msg (next_bubble s + i) m) l) (next_bubble s + length l) s).

(** ** Persistence (lines 1283-1308) *)

Definition saved_row (withImage : bool) (m : msg) : val :=
  VObj ([(js "role", VStr (m_role m));
         (js "content", match m_content m with VStr t => VStr t | _ => VStr [] end);
         (js "think", v_or (m_think m) (VStr []));
         (js "hadImage", VBool (truthy (m_image m) || truthy (m_hadImage m)));
         (js "pending", VBool (truthy (m_pending m)))]
        ++ (if withImage && truthy (m_image m) then [(js "image", m_image m)] else [])
        ++ (if truthy (m_video m) then [(js "video", m_video m)] else [])).

Definition saved_chat (withImage : bool) (s : page) (c : chat) : val :=
  VObj [(js "id", VStr (c_id c)); (js "title", VStr (c_title c)); (js "model", VStr (c_model c));
        (js "mode", VStr (c_mode c)); (js "updated", c_updated c);
        (js "messages", VArr (map (saved_row withImage) (arr (c_msgs c) s)))].

Definition pack (withImage : bool) (s : page) : val :=
  VObj [(js "active", VStr (activeId s)); (js "chats", VArr (map (saved_chat withImage s) (chats s)))].

(** The browser refuses to store a text beyond its quota. *)
Definition persist (quota : jstr → bool) (s0 : page) : page :=
  let s := snapshotChat s0 in
  let full := JSON_stringify (pack true s) in
  let light := JSON_stringify (pack false s) in
  if quota full then set_store (Some full) s
  else if quota light then set_store (Some light) s else s.

(** ** The chat operations *)

Section operations.
Context (quota : jstr → bool).

(** [switchChat] (lines 1251-1266): the last chat of that id. *)
Definition find_last (id : jstr) (l : list chat) : option chat :=
  List.find (λ c, bool_decide (c_id c = id)) (reverse l).

Definition set_if (v : jstr) (f : jstr → selects → selects) (u : selects) : selects :=
  if truthy_s v then f v u else u.
Definition chat_selects (c : chat) (u : selects) : selects :=
  set_if (c_mode c) set_mode_value (set_if (c_model c) set_model_value u).

Definition show_chat (next : chat) (s : page) : page :=
  let s := set_active (c_id next) (c_msgs next) s in
  let s := page_filter (set_ui (chat_selects next (ui s)) (refs s) s) in
  let s := setBusy (c_busy next) s in
  persist quota (paintThread s).

Definition switchChat (id : jstr) (s : page) : page :=
  if bool_decide (id = activeId s) then s else
  let s := snapshotChat s in
  match find_last id (chats s) with
  | None => s
  | Some next => show_chat next s
  end.

(** [newChat] (lines 1267-1282); [id] is the id it makes up. *)
Definition newChat (id : jstr) (s : page) : page :=
  let s := snapshotChat s in
  let '(a, s) := alloc s in
  let c := Chat id new_title a (model_value (ui s)) (genMode (ui s))
                (VNum (num_of_Z (clock s))) false None [] in
  let s := set_chats (chats s ++ [c]) s in
  let '(m, s) := alloc s in
  let s := set_active id m s in
  let s := set_status (VStr []) (set_log [] (next_bubble s) s) in
  let s := setBusy false s in
  persist quota (set_ui (ui s) [] s).

(** Closing a tab (lines 1449-1463). *)
Definition abort (ac : option nat) (s : page) : page :=
  match ac with
  | Some n => set_acs (last_ac s) (next_ac s) (n :: aborted_acs s) s
  | None => s
  end.

Definition close_tab (id fresh : jstr) (s : page) : page :=
  let s := match chatById id s with Some c => abort (c_ac c) s | None => s end in
  let s := set_chats (List.filter (λ c, negb (bool_decide (c_id c = id))) (chats s)) s in
  match last (chats s) with
  | None => newChat fresh s
  | Some l => if bool_decide (activeId s = id) then switchChat (c_id l) s else persist quota s
  end.

(** The stop button (lines 1507-1511). *)
Definition stop_click (s : page) : page :=
  match c ← chatById (activeId s) s; c_ac c with
  | Some n => abort (Some n) s
  | None => abort (last_ac s) s
  end.

(** ** A generation's view of its chat (lines 1586-1619) *)

Definition last_assistant (l : list msg) : option (list msg * msg) :=
  match last l with
  | Some m => if is_assistant m then Some (take (pred (length l)) l, m) else None
  | None => None
  end.

Definition pend (text : val) (m : msg) : msg :=
  Msg (m_role m) text (m_think m) (m_image m) (m_video m) (m_hadImage m) (VBool true).

(** The last assistant bubble of the log gets the text. *)
Fixpoint set_first_text (text : val) (l : list bubble) : list bubble :=
  match l with
  | [] => []
  | b :: t => if b_user b then b :: set_first_text text t
              else Bubble (b_id b) false text (b_think b) None (b_actions b) :: t
  end.
Definition set_last_text (text : val) (l : list bubble) : list bubble :=
  reverse (set_first_text text (reverse l)).

Definition page_setPendingText (id : jstr) (text : val) (s : page) : page :=
  match chatById id s with
  | None => s
  | Some c =>
    let s := match last_assistant (arr (c_msgs c) s) with
             | Some (before, m) => set_arr (c_msgs c) (before ++ [pend text m]) s
             | None => s
             end in
    if bool_decide (id = activeId s)
    then set_status text (set_log (set_last_text text (log s)) (next_bubble s) s)
    else s
  end.

Definition merge (f : fields) (m : msg) : msg :=
  Msg (m_role m) (f_content f) (default (m_think m) (f_think f))
      (default (m_image m) (f_image f)) (default (m_video m) (f_video f)) (m_hadImage m) (VBool false).

Definition idle (c : chat) : chat :=
  Chat (c_id c) (c_title c) (c_msgs c) (c_model c) (c_mode c) (c_updated c) false None [].

Definition page_finishAssistant (id : jstr) (f : fields) (s : page) : page :=
  match chatById id s with
  | None => s
  | Some c =>
    let l := arr (c_msgs c) s in
    let s := match last_assistant l with
             | Some (before, m) => set_arr (c_msgs c) (before ++ [merge f m]) s
             | None => set_arr (c_msgs c)
                 (l ++ [merge f (Msg (js "assistant") (VStr []) VUndef VUndef VUndef VUndef VUndef)]) s
             end in
    let s := persist quota (update_chat id idle s) in
    if bool_decide (id = activeId s) then
      let m := match chatById id s with Some c => c_msgs c | None => messages s end in
      let s := paintThread (set_active (activeId s) m s) in
      set_status (VStr []) (setChatBusy id false s)
    else s
  end.

(** ** Starting a generation *)

Definition with_ac (n : nat) (kind : jstr) (c : chat) : chat :=
  Chat (c_id c) (c_title c) (c_msgs c) (c_model c) (c_mode c) (c_updated c) (c_busy c) (Some n) kind.

Definition kind_label (video : bool) : jstr := if video then js "видео" else js "изображение".
Definition ref_objects (r : list jstr) : val :=
  VArr (map (λ u, VObj [(js "type", VStr (js "image_url"));
                        (js "image_url", VObj [(js "url", VStr u)])]) r).

(** Defaults, then the attached images (lines 1747-1763). *)
Definition set_default (k : jstr) (v : val) (absent : val → bool) (kv : list (jstr * val))
    : list (jstr * val) :=
  if absent (default VUndef (assoc k kv)) then obj_set k v kv else kv.
Definition falsy (v : val) : bool := negb (truthy v).
Definition nullish_or_empty (v : val) : bool :=
  is_nullish v || match v with VStr [] => true | _ => false end.

Definition payload (video : bool) (model : jstr) (text : val) (msgs : list msg)
    (extra : list (jstr * val)) (r : list jstr) : list (jstr * val) :=
  let p := [(js "model", VStr model); (js "prompt", text);
            (js "messages", VArr (map (λ m, VObj [(js "role", VStr (m_role m));
                                                  (js "content", m_content m)])
                                   (List.filter (λ m, negb (truthy (m_pending m))) msgs)))] in
  let p := foldl (λ p e, obj_set e.1 e.2 p) p (own_entries extra) in
  let p := set_default (js "n") (VNum (num_of_Z 1)) is_nullish p in
  let p := set_default (js "size") (VStr (if video then js "720x1280" else js "1024x1024")) falsy p in
  let p := if video then set_default (js "seconds") (VStr (js "4")) nullish_or_empty p else p in
  match r with
  | [] => p
  | u :: _ =>
    obj_set (js "input_references") (ref_objects r)
      (obj_set (js "input_images") (VArr (map VStr r)) (obj_set (js "input_image") (VStr u) p))
  end.

(** [runMedia] up to its request (lines 1736-1769); [extra] are the values of
    the parameter panel. *)
Definition runMedia (video : bool) (text : val) (id : jstr) (extra : list (jstr * val))
    (s : page) : page :=
  match chatById id s with
  | None => s
  | Some _ =>
    let s := setChatBusy id true s in
    let s := if bool_decide (id = activeId s) then set_status (VStr generating) s else s in
    let n := next_ac s in
    let s := update_chat id (with_ac n (kind_label video)) (set_acs (last_ac s) (S n) (aborted_acs s) s) in
    let active := bool_decide (id = activeId s) in
    let c_model_now := match chatById id s with Some c => c_model c | None => [] end in
    let model := if active then model_value (ui s) else s_or c_model_now (model_value (ui s)) in
    let msgs := match chatById id s with Some c => arr (c_msgs c) s | None => [] end in
    add_sent (Request id n (if video then js "/admin/videos" else js "/admin/images")
      (payload video model text msgs extra (if active then refs s else []))) s
  end.

(** "Once more" on a media bubble (lines 1562-1575): the last answer is taken
    back, the log drawn without it, and a new pending answer appended... *)
Definition drop_answer (c : chat) (s : page) : page :=
  match last_assistant (arr (c_msgs c) s) with
  | Some (before, _) => set_arr (c_msgs c) before s
  | None => s
  end.
Definition new_answer (c : chat) (s : page) : page :=
  let s := paintThread (set_active (activeId s) (c_msgs c) s) in
  let '(_, s) := add_bubble false (VStr generating) s in
  set_arr (c_msgs c) (arr (c_msgs c) s ++ [pending_msg]) s.
(** ...and the request is sent. *)
Definition regenerate (video : bool) (prompt : val) (extra : list (jstr * val)) (s : page) : page :=
  match chatById (activeId s) s with
  | None => s
  | Some c =>
    if c_busy c then s
    else runMedia video prompt (activeId s) extra (persist quota (new_answer c (drop_answer c s)))
  end.

(** The submit handler up to its request (lines 1795-1851).  [extra] are the
    values of the parameter panel, [need_img] whether its schema requires an
    image, [chat_body] the temperature and token limit of a chat request.
    The result is the page and, for a chat, its id and the bubble that the
    stream writes to. *)
Definition is_media (mode : jstr) : bool :=
  bool_decide (mode = js "image") || bool_decide (mode = js "video").

Definition submit (extra chat_body : list (jstr * val)) (need_img : bool) (s : page)
    : page * option (jstr * nat * nat) :=
  let model := model_value (ui s) in
  let text := trim (input_text s) in
  if negb (truthy_s model) then (s, None) else
  let mode := genMode (ui s) in
  let mk := mediaKind (optionMedia (ui s)) in
  let '(mode, s) :=
    if negb (bool_decide (mk = js "chat")) && bool_decide (mode = js "chat")
    then (mk, page_filter (set_ui (set_mode_value mk (ui s)) (refs s) s))
    else (mode, s) in
  let shot := refs s in
  let none := match shot with [] => true | _ => false end in
  if negb (truthy_s text) && negb (negb none && is_media mode) then (s, None) else
  if is_media mode && need_img && none
  then (set_status (VStr (js "нужен референс (input_image)")) s, None) else
  let text := s_or text (js "по референсам") in
  let s := set_input [] s in
  let id := activeId s in
  let s := set_arr (messages s) (arr (messages s) s ++ [user_msg text]) s in
  let s := set_arr (messages s) (arr (messages s) s ++ [pending_msg]) s in
  let s := persist quota s in
  let '(_, s) := add_bubble true (VStr text) s in
  let '(b, s) := add_bubble false (VStr generating) s in
  if is_media mode then
    let s := runMedia (bool_decide (mode = js "video")) (VStr text) id extra s in
    (set_ui (ui s) [] s, None)
  else
    let s := set_status (VStr generating) (setChatBusy id true s) in
    let n := next_ac s in
    let s := update_chat id (with_ac n (js "чат")) (set_acs (Some n) (S n) (aborted_acs s) s) in
    let msgs := List.filter (λ m, negb (truthy (m_pending m))) (arr (messages s) s) in
    (add_sent (Request id n (js "/admin/chat")
      ([(js "model", VStr model); (js "stream", VBool true)] ++ chat_body ++
       [(js "messages", VArr (map msg_obj msgs))])) s,
     Some (id, n, b)).

(** What one piece of a chat stream shows (lines 1887-1896): the bubble made
    at submission, if it is still in the log, or the chat's pending message. *)
Definition set_bubble (b : nat) (text think : val) (l : list bubble) : list bubble :=
  map (λ x, if bool_decide (b_id x = b)
            then Bubble b (b_user x) text think None (b_actions x) else x) l.
Definition stream_update (id : jstr) (b : nat) (acc think : val) (s : page) : page :=
  if bool_decide (id = activeId s)
  then set_log (set_bubble b acc think (log s)) (next_bubble s) s
  else page_setPendingText id (v_or acc (VStr generating)) s.
End operations.
