(* ===== verification/ChatInv.v ===== *)
(** * The playground's chats: steps and their invariant

    The events of the chat page as a step function over [ChatStore.page], the
    invariant that ties the tabs to the shared arrays and to the controls, and
    the interface [ChatSink] a generation relies on. *)

From S2P Require Import Prelude JsString JsNumber JsValue ChatSink ChatMode ChatStore.
Open Scope nat_scope.

(** ** Steps *)

Inductive cevent : Type :=
  | ENew (fresh : jstr)
  | ESwitch (id : jstr)
  | EClose (id fresh : jstr)
  | EStop
  | EType (text : jstr)
  | EAttach (r : list jstr)
  | ESubmit (extra body : list (jstr * val)) (need_img : bool)
  | ERegenerate (video : bool) (prompt : val) (extra : list (jstr * val))
  | EPending (id : jstr) (text : val)
  | EFinish (id : jstr) (f : fields)
  | EStream (id : jstr) (b : nat) (acc think : val)
  | EPickModel (i : nat)
  | EPickMode (i : nat).

(** A disabled send button and input keep a busy chat from submitting. *)
Definition cstep (quota : jstr → bool) (s : page) (e : cevent) : page :=
  match e with
  | ENew fresh => newChat quota fresh s
  | ESwitch id => switchChat quota id s
  | EClose id fresh => close_tab quota id fresh s
  | EStop => stop_click s
  | EType text => if send_off s then s else set_input text s
  | EAttach r => set_ui (ui s) r s
  | ESubmit extra body need => if send_off s then s else (submit quota extra body need s).1
  | ERegenerate v p extra => regenerate quota v p extra s
  | EPending id text => page_setPendingText id text s
  | EFinish id f => page_finishAssistant quota id f s
  | EStream id b acc think => stream_update id b acc think s
  | EPickModel i => let u := pick_model i (ui s) in set_ui u (drop_refs u (refs s)) s
  | EPickMode i => let u := pick_mode i (ui s) in set_ui u (drop_refs u (refs s)) s
  end.

(** ** The invariant

    What ties the parts of the state together: the id, array, busy flag and
    controller of each tab, the active tab, the next address, the controls. *)
Record core := Core { k_id : jstr; k_msgs : nat; k_busy : bool; k_ac : option nat }.
Definition core_of (c : chat) : core := Core (c_id c) (c_msgs c) (c_busy c) (c_ac c).
Definition cores (s : page) : list core := map core_of (chats s).

Record skeleton := Skeleton {
  sk_cores : list core; sk_active : jstr; sk_messages : nat; sk_next : nat; sk_off : bool;
}.
Definition skel (s : page) : skeleton :=
  Skeleton (cores s) (activeId s) (messages s) (next_addr s) (send_off s).

(** Ids and arrays are not shared between tabs, and a chat is busy exactly when
    it has a controller... *)
Record tabs_ok (l : list core) (next : nat) : Prop := TabsOk {
  ids_distinct : NoDup (map k_id l);
  arrays_distinct : NoDup (map k_msgs l);
  arrays_allocated : ∀ c, c ∈ l → k_msgs c < next;
  busy_owned : ∀ c, c ∈ l → (k_busy c = true ↔ is_Some (k_ac c));
}.
(** ...the active tab exists, its array is [messages] and the controls show its
    busy flag. *)
Record skel_ok (k : skeleton) : Prop := SkelOk {
  skel_tabs : tabs_ok (sk_cores k) (sk_next k);
  active_shown : ∃ c, c ∈ sk_cores k ∧ k_id c = sk_active k ∧ k_msgs c = sk_messages k ∧
                      k_busy c = sk_off k;
}.
Definition page_ok (s : page) : Prop := skel_ok (skel s).

Definition upd_cores (id : jstr) (g : core → core) (l : list core) : list core :=
  map (λ k, if bool_decide (k_id k = id) then g k else k) l.

(** ** How the operations move the skeleton *)

Lemma map_id_in {A} (f : A → A) l : (∀ x, x ∈ l → f x = x) → map f l = l.
Proof.
  induction l as [|x l IH]; intros H; [done|]. simpl. rewrite (H x) by (apply elem_of_cons; by left). f_equal.
  apply IH. intros y Hy. apply H, elem_of_cons. by right.
Qed.

Lemma update_first_cores id f g l :
  NoDup (map k_id (map core_of l)) → (∀ c, c_id c = id → core_of (f c) = g (core_of c)) →
  map core_of (update_first id f l) = upd_cores id g (map core_of l).
Proof.
  intros Hnd Hf. induction l as [|c l IH]; [done|]. simpl in Hnd. apply NoDup_cons in Hnd as [Hc Hnd].
  simpl. case_bool_decide as E; simpl.
  - rewrite Hf by done. f_equal. symmetry. apply map_id_in. intros k Hk.
    case_bool_decide as Ek; [|done]. exfalso. apply Hc. apply list_elem_of_In, in_map_iff.
    exists k. split; [by rewrite Ek|by apply list_elem_of_In].
  - f_equal. by apply IH.
Qed.

Lemma cores_update id f g s :
  NoDup (map k_id (cores s)) → (∀ c, c_id c = id → core_of (f c) = g (core_of c)) →
  cores (update_chat id f s) = upd_cores id g (cores s).
Proof. apply update_first_cores. Qed.

Lemma upd_cores_ids id g l : (∀ k, k_id (g k) = k_id k) → map k_id (upd_cores id g l) = map k_id l.
Proof.
  intros Hg. unfold upd_cores. rewrite map_map. apply map_ext. intros k.
  destruct (bool_decide _); [apply Hg|done].
Qed.

Lemma upd_cores_id id g l : (∀ k, k ∈ l → k_id k = id → g k = k) → upd_cores id g l = l.
Proof. intros H. apply map_id_in. intros k Hk. case_bool_decide; auto. Qed.

Lemma upd_cores_upd id g h l :
  (∀ k, k_id (g k) = k_id k) → upd_cores id h (upd_cores id g l) = upd_cores id (λ k, h (g k)) l.
Proof.
  intros Hg. unfold upd_cores. rewrite map_map. apply map_ext. intros k.
  destruct (decide (k_id k = id)) as [E|E].
  - rewrite (bool_decide_eq_true_2 (k_id k = id)) by done.
    by rewrite bool_decide_eq_true_2 by (by rewrite Hg).
  - rewrite (bool_decide_eq_false_2 (k_id k = id)) by done.
    by rewrite bool_decide_eq_false_2.
Qed.

Lemma elem_upd id g l k :
  k ∈ upd_cores id g l → ∃ k0, k0 ∈ l ∧ k = (if bool_decide (k_id k0 = id) then g k0 else k0).
Proof.
  unfold upd_cores. intros Hk%list_elem_of_In. apply in_map_iff in Hk as (k0 & <- & H0).
  exists k0. by rewrite list_elem_of_In.
Qed.

(** The active tab, as the invariant gives it, is unique. *)
Lemma core_unique l k k' :
  NoDup (map k_id l) → k ∈ l → k' ∈ l → k_id k = k_id k' → k = k'.
Proof.
  intros Hnd Hk Hk' E. induction l as [|x l IH]; [by apply elem_of_nil in Hk|].
  simpl in Hnd. apply NoDup_cons in Hnd as [Hx Hnd].
  assert (∀ y, y ∈ l → k_id y ≠ k_id x) as Hne.
  { intros y Hy Ey. apply Hx. rewrite <- Ey. apply list_elem_of_In, in_map. by apply list_elem_of_In. }
  apply elem_of_cons in Hk as [-> |Hk], Hk' as [-> |Hk']; try done.
  - by destruct (Hne k' Hk').
  - by destruct (Hne k Hk).
  - by apply IH.
Qed.

(** A snapshot gives the active tab the array [messages] and changes nothing
    else of the skeleton... *)
Definition take_messages (m : nat) (k : core) : core := Core (k_id k) m (k_busy k) (k_ac k).

Lemma snapshot_skel s :
  NoDup (map k_id (cores s)) →
  skel (snapshotChat s) = Skeleton (upd_cores (activeId s) (take_messages (messages s)) (cores s))
                            (activeId s) (messages s) (next_addr s) (send_off s).
Proof.
  intros H. unfold skel. change (activeId (snapshotChat s)) with (activeId s). f_equal.
  by apply cores_update.
Qed.

(** ...so it changes nothing at all in a consistent page. *)
Lemma page_ids s : page_ok s → NoDup (map k_id (cores s)).
Proof. intros [[H _ _ _] _]. exact H. Qed.

(** The active tab, if there, has the array [messages]. *)
Definition aligned (s : page) : Prop :=
  NoDup (map k_id (cores s)) ∧ ∀ k, k ∈ cores s → k_id k = activeId s → k_msgs k = messages s.

Lemma page_ok_aligned s : page_ok s → aligned s.
Proof.
  intros H. split; [by apply page_ids|]. intros k Hk Ek.
  destruct (active_shown _ H) as (k' & Hk' & E1 & E2 & _).
  by rewrite (core_unique (cores s) k k') by (first [by apply page_ids|by rewrite E1|done]).
Qed.

Lemma aligned_snapshot s : aligned s → skel (snapshotChat s) = skel s.
Proof.
  intros [Hnd Ha]. rewrite snapshot_skel by done. unfold skel. f_equal. apply upd_cores_id.
  intros k Hk Ek. unfold take_messages. rewrite <- (Ha k Hk Ek). by destruct k.
Qed.

Lemma snapshot_same s : page_ok s → skel (snapshotChat s) = skel s.
Proof. intros H. by apply aligned_snapshot, page_ok_aligned. Qed.

Lemma persist_skel quota s : skel (persist quota s) = skel (snapshotChat s).
Proof. unfold persist. destruct (quota _); [done|]. by destruct (quota _). Qed.
Lemma persist_aligned quota s : aligned s → skel (persist quota s) = skel s.
Proof. intros H. rewrite persist_skel. by apply aligned_snapshot. Qed.
Lemma persist_same quota s : page_ok s → skel (persist quota s) = skel s.
Proof. intros H. by apply persist_aligned, page_ok_aligned. Qed.

Lemma page_filter_skel s : skel (page_filter s) = skel s.
Proof. done. Qed.
Lemma paintThread_skel s : skel (paintThread s) = skel s.
Proof. done. Qed.
Lemma add_bubble_skel u t s : skel (add_bubble u t s).2 = skel s.
Proof. done. Qed.
Lemma set_arr_skel a l s : skel (set_arr a l s) = skel s.
Proof. done. Qed.

(** Writing the busy flag, or the controller. *)
Definition core_busy (on : bool) (k : core) : core := Core (k_id k) (k_msgs k) on (k_ac k).

Lemma setChatBusy_skel id on s :
  NoDup (map k_id (cores s)) →
  skel (setChatBusy id on s) =
    Skeleton (upd_cores id (core_busy on) (cores s)) (activeId s) (messages s) (next_addr s)
      (if bool_decide (id = activeId s) then on else send_off s).
Proof.
  intros H. unfold setChatBusy.
  assert (cores (update_chat id (chat_busy on) s) = upd_cores id (core_busy on) (cores s)) as E
    by by apply cores_update.
  change (activeId (update_chat id (chat_busy on) s)) with (activeId s).
  unfold skel. destruct (bool_decide _); cbn; unfold cores in E |- *; cbn in E |- *; by rewrite E.
Qed.

(** ** Consistency is kept *)

Lemma skel_select l n c :
  tabs_ok l n → c ∈ l → skel_ok (Skeleton l (k_id c) (k_msgs c) n (k_busy c)).
Proof. intros H Hc. split; [done|by exists c]. Qed.

Lemma tabs_add l next id m n :
  tabs_ok l next → id ∉ map k_id l → next ≤ m → m < n → tabs_ok (l ++ [Core id m false None]) n.
Proof.
  intros [H1 H2 H3 H5] Hid Hm Hn. split; cbn.
  - rewrite map_app. apply NoDup_app. split_and!; [done| |apply NoDup_singleton].
    intros x Hx ->%list_elem_of_singleton. done.
  - rewrite map_app. apply NoDup_app. split_and!; [done| |apply NoDup_singleton].
    intros x Hx ->%list_elem_of_singleton. apply list_elem_of_In, in_map_iff in Hx as (c & Ec & Hc).
    apply list_elem_of_In, H3 in Hc. cbn in Ec. lia.
  - intros c [Hc| ->%list_elem_of_singleton]%elem_of_app; cbn; [|done]. specialize (H3 _ Hc). lia.
  - intros c [Hc| ->%list_elem_of_singleton]%elem_of_app; [by apply H5|]. cbn. split; [done|by intros []].
Qed.

Lemma tabs_more l n m : tabs_ok l n → n ≤ m → tabs_ok l m.
Proof. intros [H1 H2 H3 H5] Hm. split; [done..| |done]. intros c Hc. specialize (H3 _ Hc). lia. Qed.

(** Starting or ending the generation of a chat. *)
Definition own (b : bool) (a : option nat) (k : core) : core := Core (k_id k) (k_msgs k) b a.

Lemma skel_own k id b a :
  skel_ok k → (b = true ↔ is_Some a) →
  skel_ok (Skeleton (upd_cores id (own b a) (sk_cores k)) (sk_active k) (sk_messages k) (sk_next k)
             (if bool_decide (id = sk_active k) then b else sk_off k)).
Proof.
  intros [[H1 H2 H3 H5] (c & Hc & E1 & E2 & E3)] Hb. split; cbn; [split|].
  - by rewrite upd_cores_ids.
  - assert (map k_msgs (upd_cores id (own b a) (sk_cores k)) = map k_msgs (sk_cores k)) as ->; [|done].
    unfold upd_cores. rewrite map_map. apply map_ext. intros x. by destruct (bool_decide _).
  - intros x (x0 & Hx & ->)%elem_upd. specialize (H3 _ Hx). by destruct (bool_decide _).
  - intros x (x0 & Hx & ->)%elem_upd. destruct (bool_decide _); [done|by apply H5].
  - exists (if bool_decide (k_id c = id) then own b a c else c). split.
    { apply list_elem_of_In, in_map_iff. exists c. split; [done|by apply list_elem_of_In]. }
    rewrite E1. destruct (decide (id = sk_active k)) as [->|Hne].
    + by rewrite !bool_decide_eq_true_2.
    + rewrite !bool_decide_eq_false_2 by congruence. done.
Qed.

Lemma tabs_remove l n x :
  tabs_ok l n → tabs_ok (List.filter (λ c, negb (bool_decide (k_id c = x))) l) n.
Proof.
  intros [H1 H2 H3 H5].
  assert (∀ A (f : core → A) (l : list core), NoDup (map f l) →
    NoDup (map f (List.filter (λ c, negb (bool_decide (k_id c = x))) l))) as Hf.
  { intros A f k. induction k as [|c k IH]; [done|]. simpl. intros [Hc Hnd]%NoDup_cons.
    destruct (negb _); [|by apply IH]. simpl. apply NoDup_cons. split; [|by apply IH].
    rewrite list_elem_of_In, in_map_iff. intros (y & Ey & Hy). apply Hc, list_elem_of_In, in_map_iff.
    exists y. split; [done|]. apply filter_In in Hy as [Hy _]. done. }
  split; [by apply Hf|by apply Hf| |]; intros c [Hc _]%list_elem_of_In%filter_In;
    apply list_elem_of_In in Hc; auto.
Qed.

(** *** Showing a tab *)

Lemma core_elem c s : c ∈ chats s → core_of c ∈ cores s.
Proof. intros H. apply list_elem_of_In, in_map. by apply list_elem_of_In. Qed.

Lemma show_chat_ok quota next s :
  tabs_ok (cores s) (next_addr s) → next ∈ chats s →
  page_ok (show_chat quota next s) ∧
  skel (show_chat quota next s) =
    Skeleton (cores s) (c_id next) (c_msgs next) (next_addr s) (c_busy next).
Proof.
  intros Ht Hin. unfold show_chat.
  set (s1 := page_filter _). set (s2 := paintThread _).
  assert (skel s2 = Skeleton (cores s) (c_id next) (c_msgs next) (next_addr s) (c_busy next)) as E2.
  { change (skel s2) with (skel (setBusy (c_busy next) s1)). unfold setBusy.
    rewrite setChatBusy_skel by apply Ht. change (activeId s1) with (c_id next).
    rewrite bool_decide_eq_true_2 by done.
    change (cores s1) with (cores s). unfold s1 at 1. cbn [messages next_addr].
    f_equal. apply upd_cores_id. intros k Hk Ek.
    rewrite (core_unique (cores s) k (core_of next)); [done|apply Ht|done|by apply core_elem|done]. }
  assert (page_ok s2) as Hok.
  { unfold page_ok. rewrite E2. apply (skel_select _ _ (core_of next)); [done|by apply core_elem]. }
  rewrite persist_same by done. split; [|done]. unfold page_ok. by rewrite persist_same.
Qed.

Lemma find_last_elem id s c : find_last id (chats s) = Some c → c ∈ chats s ∧ c_id c = id.
Proof.
  unfold find_last. intros [Hin Hb]%List.find_some. apply bool_decide_eq_true in Hb.
  split; [|done]. apply list_elem_of_In in Hin. by rewrite elem_of_reverse in Hin.
Qed.

Lemma snapshot_tabs s :
  cores (snapshotChat s) = cores s → ∀ n, tabs_ok (cores s) n → tabs_ok (cores (snapshotChat s)) n.
Proof. by intros ->. Qed.

Lemma switchChat_ok quota id s : page_ok s → page_ok (switchChat quota id s).
Proof.
  intros H. unfold switchChat. destruct (bool_decide _); [done|].
  pose proof (snapshot_same s H) as E. assert (page_ok (snapshotChat s)) as H' by (unfold page_ok; by rewrite E).
  destruct (find_last id _) as [next|] eqn:Ef; [|done].
  apply find_last_elem in Ef as [Hin _]. apply show_chat_ok; [apply H'|done].
Qed.

(** A page whose active tab is missing or consistent. *)
Definition settled (s : page) : Prop :=
  tabs_ok (cores s) (next_addr s) ∧ cores (snapshotChat s) = cores s.

Lemma page_ok_settled s : page_ok s → settled s.
Proof. intros H. split; [apply H|]. by injection (snapshot_same s H). Qed.

Lemma absent_settled s :
  tabs_ok (cores s) (next_addr s) → activeId s ∉ map k_id (cores s) → settled s.
Proof.
  intros H Ha. split; [done|]. pose proof (snapshot_skel s (ids_distinct _ _ H)) as E.
  injection E as ->. apply upd_cores_id. intros k Hk Ek. exfalso. apply Ha.
  rewrite <- Ek. apply list_elem_of_In, in_map. by apply list_elem_of_In.
Qed.

Lemma newChat_ok quota id s :
  settled s → id ∉ map k_id (cores s) →
  page_ok (newChat quota id s) ∧
  cores (newChat quota id s) = cores s ++ [Core id (S (next_addr s)) false None].
Proof.
  intros [Ht Es] Hid. unfold newChat. cbn [alloc].
  assert (next_addr (snapshotChat s) = next_addr s) as Es1 by done.
  set (s1 := snapshotChat s) in *. clearbody s1. set (n := next_addr s1).
  match goal with |- context [setBusy false ?x] => set (s2 := x) end.
  assert (cores s2 = cores s ++ [Core id n false None]) as Ec.
  { unfold cores at 1. cbn. rewrite map_app. change (map core_of (chats s1)) with (cores s1). by rewrite Es. }
    assert (activeId s2 = id ∧ messages s2 = S n ∧ next_addr s2 = S (S n)) as (Ea & Em & Ex) by done.
  clearbody s2. assert (n = next_addr s) as En by done. clearbody n. clear Es Es1 s1.
  assert (tabs_ok (cores s2) (S n)) as Ht2 by (rewrite Ec; apply (tabs_add _ n); [by subst n|done|lia|lia]).
  set (s3 := set_ui _ _ _). unfold page_ok. rewrite persist_skel.
  pose proof (persist_skel quota s3) as Ep.
  assert (skel s3 = Skeleton (cores s2) id (S n) (S (S n)) false) as E3.
  { change (skel s3) with (skel (setBusy false s2)). unfold setBusy.
    rewrite setChatBusy_skel by apply Ht2. rewrite Ea, Em, Ex. rewrite bool_decide_eq_true_2 by done.
    f_equal. apply upd_cores_id. intros k Hk Ek.
    rewrite (core_unique (cores s2) k (Core id n false None)); [done|apply Ht2|done| |done].
    rewrite Ec. apply elem_of_app. right. by apply list_elem_of_singleton. }
  clearbody s3. injection E3 as Ec3 Ea3 Em3 Ex3 Eo3.
  rewrite snapshot_skel in * by (rewrite Ec3; apply Ht2). rewrite Ec3, Ea3, Em3, Ex3, Eo3 in *.
  assert (upd_cores id (take_messages (S n)) (cores s2) = cores s ++ [Core id (S n) false None]) as Eu.
  { rewrite Ec. unfold upd_cores. rewrite map_app. f_equal.
    - apply map_id_in. intros k Hk. case_bool_decide as Ek; [|done]. exfalso. apply Hid.
      rewrite <- Ek. apply list_elem_of_In, in_map. by apply list_elem_of_In.
    - cbn. by rewrite bool_decide_eq_true_2. }
  rewrite Eu in *. split; [|rewrite <- En; by injection Ep].
  apply (skel_select _ _ (Core id (S n) false None)).
  - apply (tabs_add _ (next_addr s)); [done|done|lia|lia].
  - apply elem_of_app. right. by apply list_elem_of_singleton.
Qed.

Lemma cores_filter id l :
  map core_of (List.filter (λ c, negb (bool_decide (c_id c = id))) l) =
  List.filter (λ k, negb (bool_decide (k_id k = id))) (map core_of l).
Proof.
  induction l as [|c l IH]; [done|]. simpl. destruct (negb _); [|done]. simpl. by rewrite IH.
Qed.

Lemma close_tab_ok quota id fresh s :
  page_ok s → fresh ∉ map k_id (cores s) →
  page_ok (close_tab quota id fresh s) ∧
  (id ≠ fresh → id ∉ map k_id (cores (close_tab quota id fresh s))).
Proof.
  intros H Hf. unfold close_tab.
  set (s1 := match chatById id s with Some c => abort (c_ac c) s | None => s end).
  assert (skel s1 = skel s) as E1.
  { unfold s1. destruct (chatById id s) as [c|]; [|done]. by destruct (c_ac c). }
  set (s2 := set_chats _ s1).
  set (l := List.filter (λ k, negb (bool_decide (k_id k = id))) (cores s)).
  assert (skel s2 = Skeleton l (activeId s) (messages s) (next_addr s) (send_off s)) as E2.
  { injection E1 as Ec Ea Em En Eo. unfold skel, s2.
    change (cores (set_chats ?x s1)) with (map core_of x). rewrite cores_filter.
    change (map core_of (chats s1)) with (cores s1). unfold l. by rewrite Ec, <- Ea, <- Em, <- En, <- Eo. }
  clearbody s2. clear E1 s1. injection E2 as Ec Ea Em En Eo.
  assert (tabs_ok (cores s2) (next_addr s2)) as Ht by (rewrite Ec, En; apply tabs_remove, H).
  assert (∀ x, x ∉ map k_id (cores s) → x ∉ map k_id (cores s2)) as Hsub.
  { intros x Hx Hx2. apply Hx. rewrite Ec in Hx2. apply list_elem_of_In, in_map_iff in Hx2 as (k & Ek & Hk).
    apply list_elem_of_In, in_map_iff. exists k. split; [done|]. by apply filter_In in Hk as [? _]. }
  assert (id ∉ map k_id (cores s2)) as Hgone.
  { rewrite Ec. intros (k & Ek & Hk)%list_elem_of_In%in_map_iff. apply filter_In in Hk as [_ Hk].
    by rewrite Ek, bool_decide_eq_true_2 in Hk. }
  destruct (last (chats s2)) as [lst|] eqn:El.
  - assert (lst ∈ chats s2) as Hl by (by apply last_Some_elem_of).
    destruct (decide (activeId s2 = id)) as [Eid|Nid].
    + rewrite bool_decide_eq_true_2 by done.
      assert (settled s2) as [_ Es] by (apply absent_settled; [done|by rewrite Eid]).
      unfold switchChat. rewrite bool_decide_eq_false_2.
      2: { intros Heq. apply Hgone. rewrite <- Eid, <- Heq. apply list_elem_of_In, in_map_iff.
           exists (core_of lst). split; [done|]. by apply list_elem_of_In, core_elem. }
      destruct (find_last _ _) as [next|] eqn:Ef.
      * apply find_last_elem in Ef as [Hin _].
        destruct (show_chat_ok quota next (snapshotChat s2)) as [Hok Ek]; [by rewrite Es|done|].
        split; [done|]. intros _. assert (cores (show_chat quota next (snapshotChat s2)) = cores s2) as ->; [|done].
        rewrite <- Es. by injection Ek.
      * exfalso. unfold find_last in Ef.
        assert (core_of lst ∈ cores (snapshotChat s2)) as Hl' by (rewrite Es; by apply core_elem).
        apply list_elem_of_In, in_map_iff in Hl' as (c & Ecc & Hc).
        apply (List.find_none _ _) with (x := c) in Ef.
        -- assert (c_id c = c_id lst) as Eq by (injection Ecc; done).
           by rewrite bool_decide_eq_true_2 in Ef.
        -- apply list_elem_of_In. apply elem_of_reverse. by apply list_elem_of_In.
    + rewrite bool_decide_eq_false_2 by done.
      assert (page_ok s2) as Hok; [|split; [unfold page_ok; by rewrite persist_same|intros _]].
      2: { assert (cores (persist quota s2) = cores s2) as ->; [|done].
           by injection (persist_same quota s2 Hok). }
      split; [done|]. cbn [sk_cores skel sk_active sk_messages sk_off]. rewrite Ec, Em, Eo.
      destruct (active_shown _ H) as (k & Hk & E1 & E2 & E3). exists k. cbn in E1, E2, E3.
      split_and!; [|by rewrite Ea|done|done]. apply list_elem_of_In, filter_In.
      split; [by apply list_elem_of_In|]. rewrite bool_decide_eq_false_2; [done|]. congruence.
  - assert (chats s2 = []) as E0 by by apply last_None.
    assert (cores s2 = []) as E0' by (unfold cores; by rewrite E0).
    destruct (newChat_ok quota fresh s2) as [Hok Ek].
    { apply absent_settled; [done|]. rewrite E0'. by intros ?%elem_of_nil. }
    { by apply Hsub. }
    split; [done|]. intros Hne. rewrite Ek, E0'. by intros ?%list_elem_of_singleton.
Qed.

(** *** A generation *)

Lemma chatById_elem id s c : chatById id s = Some c → c ∈ chats s ∧ c_id c = id.
Proof.
  unfold chatById. intros [Hin Hb]%List.find_some. apply bool_decide_eq_true in Hb.
  split; [|done]. by apply list_elem_of_In.
Qed.

Lemma setPendingText_skel id text s : skel (page_setPendingText id text s) = skel s.
Proof.
  unfold page_setPendingText. destruct (chatById id s) as [c|]; [|done].
  destruct (last_assistant _) as [[before m]|]; by destruct (bool_decide _).
Qed.

Lemma own_aligned s s' id b a :
  aligned s → cores s' = upd_cores id (own b a) (cores s) → activeId s' = activeId s →
  messages s' = messages s → aligned s'.
Proof.
  intros [Hnd Ha] Ec Ea Em. split; rewrite Ec; [by rewrite upd_cores_ids|].
  rewrite Ea, Em. intros k (k0 & Hk & ->)%elem_upd Ek.
  destruct (bool_decide _); cbn in Ek |- *; by apply Ha.
Qed.

Lemma finishAssistant_skel quota id f s :
  page_ok s → chatById id s ≠ None →
  skel (page_finishAssistant quota id f s) =
    Skeleton (upd_cores id (own false None) (cores s)) (activeId s) (messages s) (next_addr s)
      (if bool_decide (id = activeId s) then false else send_off s).
Proof.
  intros H Hc. unfold page_finishAssistant.
  destruct (chatById id s) as [c|] eqn:Ec; [clear Hc|done].
  match goal with |- context [update_chat id idle ?x] => set (s1 := x) end.
  assert (skel s1 = skel s) as E1 by (unfold s1; by destruct (last_assistant _) as [[? ?]|]).
  clearbody s1. injection E1 as Ec1 Ea1 Em1 En1 Eo1. set (s2 := update_chat id idle s1).
  assert (cores s2 = upd_cores id (own false None) (cores s)) as Ec2.
  { rewrite <- Ec1. apply cores_update; [rewrite Ec1; by apply page_ids|done]. }
  assert (activeId s2 = activeId s ∧ messages s2 = messages s ∧ next_addr s2 = next_addr s ∧
          send_off s2 = send_off s) as (Ea2 & Em2 & En2 & Eo2) by (unfold s2; cbn; by rewrite Ea1, Em1, En1, Eo1).
  clearbody s2. clear Ec1 Ea1 Em1 En1 Eo1 s1.
  assert (aligned s2) as Hal by (apply (own_aligned s s2 id false None); [by apply page_ok_aligned|done..]).
  pose proof (persist_aligned quota s2 Hal) as E3. set (s3 := persist quota s2) in *. clearbody s3.
  injection E3 as Ec3 Ea3 Em3 En3 Eo3.
  assert (bool_decide (id = activeId s3) = bool_decide (id = activeId s)) as -> by (by rewrite Ea3, Ea2).
  case_bool_decide as Eid.
  - set (m := match chatById id s3 with Some c => c_msgs c | None => messages s3 end).
    assert (m = messages s) as Hm.
    { unfold m. destruct (chatById id s3) as [c3|] eqn:Ec3'; [|by rewrite Em3, Em2].
      apply chatById_elem in Ec3' as [Hin Eid3].
      destruct Hal as [_ Ha]. rewrite Ec3 in Ha || rewrite <- Ec3 in Ha. rewrite <- Em2.
      change (c_msgs c3) with (k_msgs (core_of c3)). apply Ha; [by apply core_elem|].
      cbn. by rewrite Eid3, Ea2. }
    set (s4 := paintThread _).
    assert (skel s4 = Skeleton (cores s3) (activeId s3) m (next_addr s3) (send_off s3)) as E4 by done.
    clearbody s4. injection E4 as Ec4 Ea4 Em4 En4 Eo4.
    change (skel (set_status ?v ?x)) with (skel x).
    rewrite setChatBusy_skel by (rewrite Ec4, Ec3; apply Hal).
    rewrite Ec4, Ea4, Em4, En4, Ec3, Ea3, En3, Hm, Ea2, En2, Ec2, bool_decide_eq_true_2 by done.
    f_equal. by rewrite upd_cores_upd.
  - unfold skel. by rewrite Ec3, Ea3, Em3, En3, Eo3, Ec2, Ea2, Em2, En2, Eo2.
Qed.

Lemma finishAssistant_ok quota id f s : page_ok s → page_ok (page_finishAssistant quota id f s).
Proof.
  intros H. destruct (chatById id s) as [c|] eqn:Ec.
  - unfold page_ok. rewrite finishAssistant_skel by (first [done|congruence]).
    by apply (skel_own (skel s)); [done|split; [done|by intros []]].
  - unfold page_finishAssistant. by rewrite Ec.
Qed.

(** Starting: the busy flag, then the controller. *)
Definition started (id : jstr) (s : page) : skeleton :=
  Skeleton (upd_cores id (own true (Some (next_ac s))) (cores s)) (activeId s) (messages s)
    (next_addr s) (if bool_decide (id = activeId s) then true else send_off s).

Lemma start_skel id kind l a t s :
  NoDup (map k_id (cores s)) →
  skel (update_chat id (with_ac (next_ac s) kind)
         (set_acs l a t (setChatBusy id true s))) = started id s.
Proof.
  intros Hnd. pose proof (setChatBusy_skel id true s Hnd) as E.
  set (s1 := setChatBusy id true s) in *. clearbody s1. injection E as Ec Ea Em En Eo.
  unfold started, skel. rewrite <- Eo, <- Ea, <- Em, <- En.
  change (activeId (update_chat ?i ?f (set_acs l a t s1))) with (activeId s1). f_equal.
  rewrite (cores_update id _ (λ k, Core (k_id k) (k_msgs k) (k_busy k) (Some (next_ac s)))).
  - change (cores (set_acs l a t s1)) with (cores s1). rewrite Ec. by rewrite upd_cores_upd.
  - change (cores (set_acs l a t s1)) with (cores s1). rewrite Ec. by rewrite upd_cores_ids.
  - done.
Qed.

Lemma started_ok id s : page_ok s → skel_ok (started id s).
Proof. intros H. by apply (skel_own (skel s)). Qed.

Lemma started_same id s s' : skel s' = skel s → next_ac s' = next_ac s → started id s' = started id s.
Proof. intros E En. injection E as Ec Ea Em Ex Eo. unfold started. by rewrite Ec, Ea, Em, Ex, Eo, En. Qed.

Lemma runMedia_skel v text id extra s :
  NoDup (map k_id (cores s)) →
  skel (runMedia v text id extra s) = match chatById id s with Some _ => started id s | None => skel s end.
Proof.
  intros Hnd. unfold runMedia. destruct (chatById id s) as [c|]; [|done].
  change (skel (add_sent ?r ?x)) with (skel x).
  assert (∀ n, next_ac (setChatBusy id true n) = next_ac n) as Hn.
  { intros n. unfold setChatBusy. by destruct (bool_decide _). }
  rewrite <- (start_skel id (kind_label v) (last_ac (setChatBusy id true s)) (S (next_ac s))
                (aborted_acs (setChatBusy id true s)) s Hnd).
  destruct (bool_decide _); cbn [set_status next_ac last_ac aborted_acs]; by rewrite Hn.
Qed.

Lemma runMedia_ok v text id extra s : page_ok s → page_ok (runMedia v text id extra s).
Proof.
  intros H. unfold page_ok. rewrite runMedia_skel by by apply page_ids.
  destruct (chatById id s); [by apply started_ok|done].
Qed.

Lemma page_ok_skel s s' : skel s' = skel s → page_ok s → page_ok s'.
Proof. unfold page_ok. by intros ->. Qed.

Lemma persist_ok quota s : page_ok s → page_ok (persist quota s).
Proof. intros H. apply (page_ok_skel s); [by apply persist_same|done]. Qed.

Lemma drop_answer_skel c s : skel (drop_answer c s) = skel s.
Proof. unfold drop_answer. by destruct (last_assistant _) as [[? ?]|]. Qed.

Lemma new_answer_skel c s :
  skel (new_answer c s) = Skeleton (cores s) (activeId s) (c_msgs c) (next_addr s) (send_off s).
Proof. done. Qed.

Lemma regenerate_ok quota v p extra s : page_ok s → page_ok (regenerate quota v p extra s).
Proof.
  intros H. unfold regenerate. destruct (chatById (activeId s) s) as [c|] eqn:Ec; [|done].
  destruct (c_busy c); [done|]. apply chatById_elem in Ec as [Hin Eid].
  assert (c_msgs c = messages s) as Em.
  { apply (proj2 (page_ok_aligned s H) (core_of c)); [by apply core_elem|done]. }
  apply runMedia_ok, persist_ok. apply (page_ok_skel s); [|done].
  rewrite new_answer_skel. pose proof (drop_answer_skel c s) as E. injection E as E1 E2 E3 E4 E5.
  unfold skel. by rewrite E1, E2, E4, E5, Em.
Qed.

Lemma submit_ok quota extra body need s : page_ok s → page_ok (submit quota extra body need s).1.
Proof.
  intros H. unfold submit. destruct (negb (truthy_s (model_value (ui s)))); [done|].
  set (p := if negb _ && _ then (_, _) else _).
  assert (skel p.2 = skel s) as E by (unfold p; by destruct (_ && _)).
  destruct p as [mode s1]. cbn [snd] in E.
  assert (page_ok s1) as H1 by by apply (page_ok_skel s).
  generalize (model_value (ui s)), (trim (input_text s)). intros model text0. clear E H s.
  destruct (_ && _); [done|]. destruct (_ && _); [done|].
  set (text := s_or _ _). set (id := activeId s1).
  match goal with |- context [persist quota ?x] => set (s2 := x) end.
  assert (page_ok (persist quota s2)) as H2 by (apply persist_ok; by apply (page_ok_skel s1)).
  set (s3 := persist quota s2) in *. clearbody s3. cbn [add_bubble].
  match goal with |- context [runMedia _ _ _ _ ?x] => set (s4 := x) end.
  assert (page_ok s4) as H4 by by apply (page_ok_skel s3).
  clearbody s4. destruct (is_media mode); cbn [fst].
  - match goal with |- page_ok (set_ui _ _ ?x) => apply (page_ok_skel x); [done|] end.
    by apply runMedia_ok.
  - match goal with |- page_ok (add_sent _ (update_chat _ _ (set_acs ?l ?a ?t _))) =>
      pose proof (start_skel id (js "чат") l a t s4 (page_ids _ H4)) as E end.
    assert (next_ac (setChatBusy id true s4) = next_ac s4) as Hn.
    { unfold setChatBusy. by destruct (bool_decide _). }
    rewrite <- Hn in E at 1. unfold page_ok.
    match goal with |- skel_ok ?x => assert (x = started id s4) as -> by (rewrite <- E; done) end.
    by apply started_ok.
Qed.

(** The ids a step makes up are new. *)
Definition fresh_event (s : page) (e : cevent) : Prop :=
  match e with
  | ENew id | EClose _ id => id ∉ map c_id (chats s)
  | _ => True
  end.

Lemma cores_ids s : map k_id (cores s) = map c_id (chats s).
Proof. unfold cores. by rewrite map_map. Qed.

Lemma cstep_ok quota s e : page_ok s → fresh_event s e → page_ok (cstep quota s e).
Proof.
  intros H Hf. destruct e; cbn [cstep fresh_event] in *.
  - apply (newChat_ok quota fresh s); [by apply page_ok_settled|by rewrite cores_ids].
  - by apply switchChat_ok.
  - apply (close_tab_ok quota id fresh s); [done|by rewrite cores_ids].
  - unfold stop_click. destruct (_ ≫= _); [done|]. by destruct (last_ac s).
  - by destruct (send_off s).
  - done.
  - destruct (send_off s); [done|by apply submit_ok].
  - by apply regenerate_ok.
  - apply (page_ok_skel s); [apply setPendingText_skel|done].
  - by apply finishAssistant_ok.
  - unfold stream_update. destruct (bool_decide _); [done|].
    apply (page_ok_skel s); [apply setPendingText_skel|done].
  - done.
  - done.
Qed.

(** Runs: every event's fresh id is new when it happens. *)
Fixpoint crun (quota : jstr → bool) (s : page) (es : list cevent) : page :=
  match es with [] => s | e :: t => crun quota (cstep quota s e) t end.
Fixpoint fresh_run (quota : jstr → bool) (s : page) (es : list cevent) : Prop :=
  match es with [] => True | e :: t => fresh_event s e ∧ fresh_run quota (cstep quota s e) t end.

Lemma crun_ok quota es s : page_ok s → fresh_run quota s es → page_ok (crun quota s es).
Proof.
  revert s. induction es as [|e es IH]; intros s H Hf; [done|]. destruct Hf as [He Hf].
  apply IH; [by apply cstep_ok|done].
Qed.

(** ** The interface of a generation *)

Definition page_view (id : jstr) (s : page) : option (list msg * bool * option nat * jstr) :=
  match chatById id s with
  | Some c => Some (arr (c_msgs c) s, c_busy c, c_ac c, c_genKind c)
  | None => None
  end.

#[export] Instance page_sink (quota : jstr → bool) : ChatSink page := {
  setPendingText := page_setPendingText;
  finishAssistant := page_finishAssistant quota;
  has_chat id s := chatById id s ≠ None;
  is_busy id s := match chatById id s with Some c => c_busy c | None => false end;
  view := page_view;
}.

Lemma chatById_update_ne id id' f s :
  id ≠ id' → (∀ c, c_id (f c) = c_id c) → chatById id' (update_chat id f s) = chatById id' s.
Proof.
  intros Hne Hf. unfold chatById, update_chat. cbn [chats set_chats].
  induction (chats s) as [|c l IH]; [done|]. simpl. destruct (decide (c_id c = id)) as [E|E].
  - rewrite (bool_decide_eq_true_2 (c_id c = id)) by done. simpl.
    rewrite Hf. by rewrite bool_decide_eq_false_2 by congruence.
  - rewrite (bool_decide_eq_false_2 (c_id c = id)) by done. simpl. by rewrite IH.
Qed.

Lemma chatById_update_eq id f s :
  (∀ c, c_id (f c) = c_id c) → chatById id (update_chat id f s) = f <$> chatById id s.
Proof.
  intros Hf. unfold chatById, update_chat. cbn [chats set_chats].
  induction (chats s) as [|c l IH]; [done|]. simpl. destruct (decide (c_id c = id)) as [E|E].
  - rewrite (bool_decide_eq_true_2 (c_id c = id)) by done. simpl.
    by rewrite Hf, bool_decide_eq_true_2.
  - rewrite (bool_decide_eq_false_2 (c_id c = id)) by done. simpl.
    by rewrite bool_decide_eq_false_2.
Qed.

(** A view depends on the tabs and on the arrays only. *)
Lemma view_same id s s' : chats s' = chats s → heap s' = heap s → page_view id s' = page_view id s.
Proof. unfold page_view, chatById, arr. by intros -> ->. Qed.

Lemma view_update_ne id id' f s :
  id ≠ id' → (∀ c, c_id (f c) = c_id c) → page_view id' (update_chat id f s) = page_view id' s.
Proof. intros Hne Hf. unfold page_view. by rewrite chatById_update_ne. Qed.

Lemma view_snapshot id s : aligned s → page_view id (snapshotChat s) = page_view id s.
Proof.
  intros [_ Ha]. unfold page_view, snapshotChat. destruct (decide (activeId s = id)) as [<-|Hne].
  - rewrite chatById_update_eq by done. destruct (chatById (activeId s) s) as [c|] eqn:Ec; [|done].
    cbn. apply chatById_elem in Ec as [Hin Eid].
    assert (c_msgs c = messages s) as -> by (apply (Ha (core_of c)); [by apply core_elem|done]).
    done.
  - by rewrite chatById_update_ne.
Qed.

Lemma view_persist quota id s : aligned s → page_view id (persist quota s) = page_view id s.
Proof.
  intros H. rewrite <- (view_snapshot id s H). unfold persist.
  destruct (quota _); [by apply view_same|]. destruct (quota _); [by apply view_same|done].
Qed.

(** Different tabs have different arrays. *)
Lemma arrays_differ s id id' c c' :
  page_ok s → chatById id s = Some c → chatById id' s = Some c' → id ≠ id' → c_msgs c ≠ c_msgs c'.
Proof.
  intros H Hc Hc' Hne E. apply chatById_elem in Hc as [Hin Eid], Hc' as [Hin' Eid'].
  pose proof (arrays_distinct _ _ (skel_tabs _ H)) as Hnd. change (sk_cores (skel s)) with (cores s) in Hnd.
  unfold cores in Hnd. rewrite map_map in Hnd. cbn in Hnd.
  assert (∀ l : list chat, NoDup (map (λ x, c_msgs x) l) → c ∈ l → c' ∈ l → c = c') as Hu.
  { clear -E. induction l as [|x l IH]; [by intros _ ?%elem_of_nil|]. simpl.
    intros [Hx Hl]%NoDup_cons H1 H2.
    assert (∀ y, y ∈ l → c_msgs y ≠ c_msgs x) as Hd.
    { intros y Hy Ey. apply Hx. rewrite <- Ey. apply list_elem_of_In, in_map_iff.
      exists y. split; [done|by apply list_elem_of_In]. }
    apply elem_of_cons in H1 as [-> |H1], H2 as [-> |H2]; try done.
    - by destruct (Hd c' H2).
    - by destruct (Hd c H1).
    - by apply IH. }
  rewrite (Hu (chats s)) in Eid by done. congruence.
Qed.

Lemma view_set_arr id id' c l s :
  page_ok s → chatById id s = Some c → id ≠ id' → page_view id' (set_arr (c_msgs c) l s) = page_view id' s.
Proof.
  intros H Hc Hne. unfold page_view. change (chatById id' (set_arr (c_msgs c) l s)) with (chatById id' s).
  destruct (chatById id' s) as [c'|] eqn:Ec'; [|done].
  assert (arr (c_msgs c') (set_arr (c_msgs c) l s) = arr (c_msgs c') s) as ->; [|done].
  unfold arr, set_arr. cbn. by rewrite lookup_insert_ne by by eapply (arrays_differ s id id').
Qed.

Lemma chats_setPendingText id text s : chats (page_setPendingText id text s) = chats s.
Proof.
  unfold page_setPendingText. destruct (chatById id s) as [c|]; [|done].
  destruct (last_assistant _) as [[before m]|]; by destruct (bool_decide _).
Qed.

Lemma view_setPendingText id id' text s :
  page_ok s → id ≠ id' → page_view id' (page_setPendingText id text s) = page_view id' s.
Proof.
  intros H Hne. unfold page_setPendingText. destruct (chatById id s) as [c|] eqn:Ec; [|done].
  destruct (last_assistant _) as [[before m]|].
  - rewrite <- (view_set_arr id id' c (before ++ [pend text m]) s) by done.
    destruct (bool_decide _); by apply view_same.
  - destruct (bool_decide _); by apply view_same.
Qed.

Lemma view_finishAssistant quota id id' f s :
  page_ok s → id ≠ id' → page_view id' (page_finishAssistant quota id f s) = page_view id' s.
Proof.
  intros H Hne. unfold page_finishAssistant. destruct (chatById id s) as [c|] eqn:Ec; [|done].
  match goal with |- context [update_chat id idle ?x] => set (s1 := x) end.
  assert (page_view id' s1 = page_view id' s) as E1.
  { unfold s1. destruct (last_assistant _) as [[? ?]|]; by apply (view_set_arr id). }
  assert (skel s1 = skel s) as K1 by (unfold s1; by destruct (last_assistant _) as [[? ?]|]).
  clearbody s1. assert (page_ok s1) as H1 by by apply (page_ok_skel s).
  assert (aligned (update_chat id idle s1)) as Hal.
  { apply (own_aligned s1 _ id false None); [by apply page_ok_aligned| |done..].
    apply cores_update; [by apply page_ids|done]. }
  pose proof (view_persist quota id' _ Hal) as E2. rewrite view_update_ne in E2 by done.
  set (s2 := persist quota _) in *. clearbody s2. rewrite <- E1, <- E2.
  destruct (bool_decide _); [|done].
  match goal with |- page_view id' (set_status _ (setChatBusy id false ?x)) = _ =>
    trans (page_view id' (setChatBusy id false x)); [by apply view_same|];
    trans (page_view id' x); [|by apply view_same];
    unfold setChatBusy; destruct (bool_decide _) end.
  - match goal with |- page_view id' (set_off _ ?x) = _ =>
      trans (page_view id' x); [by apply view_same|] end. by apply view_update_ne.
  - by apply view_update_ne.
Qed.

(** The busy flag, read off the skeleton. *)
Definition busy_in (id : jstr) (l : list core) : bool :=
  match List.find (λ k, bool_decide (k_id k = id)) l with Some k => k_busy k | None => false end.

Lemma is_busy_cores quota id s : is_busy (ChatSink:=page_sink quota) id s = busy_in id (cores s).
Proof.
  cbn. unfold busy_in, chatById, cores. induction (chats s) as [|c l IH]; [done|]. simpl.
  destruct (bool_decide _); done.
Qed.

Lemma busy_own id b a l : busy_in id (upd_cores id (own b a) l) = match List.find (λ k, bool_decide (k_id k = id)) l with Some _ => b | None => false end.
Proof.
  unfold busy_in. induction l as [|k l IH]; [done|]. simpl.
  destruct (bool_decide (k_id k = id)) eqn:E; simpl; by rewrite E.
Qed.

#[export] Instance page_sink_laws quota : ChatSinkLaws (H:=page_sink quota) page page_ok.
Proof.
  split.
  - intros id t s H. apply (page_ok_skel s); [apply setPendingText_skel|done].
  - intros id f s H. by apply finishAssistant_ok.
  - intros id t s H Hc. cbn in *. unfold chatById. by rewrite chats_setPendingText.
  - intros id t s H. cbn. unfold chatById. by rewrite chats_setPendingText.
  - intros id f s H Hc. rewrite is_busy_cores.
    assert (cores (page_finishAssistant quota id f s) = upd_cores id (own false None) (cores s)) as E.
    { pose proof (finishAssistant_skel quota id f s H Hc) as E. by injection E. }
    cbn [finishAssistant page_sink]. rewrite E, busy_own. by destruct (List.find _ _).
  - intros id t s id' H Hne. by apply view_setPendingText.
  - intros id f s id' H Hne. by apply view_finishAssistant.
Qed.

(** What a finish makes of its own chat. *)
Definition finished (f : fields) (l : list msg) : list msg :=
  match last_assistant l with
  | Some (before, m) => before ++ [merge f m]
  | None => l ++ [merge f (Msg (js "assistant") (VStr []) VUndef VUndef VUndef VUndef VUndef)]
  end.

Lemma view_finish_own quota id f s c :
  page_ok s → chatById id s = Some c →
  page_view id (page_finishAssistant quota id f s) = Some (finished f (arr (c_msgs c) s), false, None, []).
Proof.
  intros H Ec. unfold page_finishAssistant. rewrite Ec.
  match goal with |- context [update_chat id idle ?x] => set (s1 := x) end.
  assert (s1 = set_arr (c_msgs c) (finished f (arr (c_msgs c) s)) s) as Es1.
  { unfold s1, finished. by destruct (last_assistant _) as [[? ?]|]. }
  clearbody s1. subst s1. set (s1 := set_arr _ _ s).
  assert (page_ok s1) as H1 by by apply (page_ok_skel s).
  assert (page_view id (update_chat id idle s1) = Some (finished f (arr (c_msgs c) s), false, None, [])) as E1.
  { unfold page_view. rewrite chatById_update_eq by done. change (chatById id s1) with (chatById id s).
    rewrite Ec. cbn. unfold arr at 1, s1, set_arr. cbn. by rewrite lookup_insert_eq. }
  assert (aligned (update_chat id idle s1)) as Hal.
  { apply (own_aligned s1 _ id false None); [by apply page_ok_aligned| |done..].
    apply cores_update; [by apply page_ids|done]. }
  rewrite <- (view_persist quota id _ Hal) in E1. set (s2 := persist quota _) in *. clearbody s2.
  destruct (bool_decide _); [|done].
  match goal with |- page_view id (set_status _ (setChatBusy id false ?x)) = _ =>
    trans (page_view id (setChatBusy id false x)); [by apply view_same|];
    assert (page_view id x = page_view id s2) as Ex by (by apply view_same); revert Ex; generalize x end.
  intros x Ex. rewrite E1 in Ex. revert Ex. unfold page_view, setChatBusy.
  destruct (bool_decide _); change (chatById id (set_off ?b ?y)) with (chatById id y);
    rewrite chatById_update_eq by done; destruct (chatById id x) as [c'|]; try done; cbn [fmap option_fmap option_map];
    intros [= F1 _ F3 F4]; rewrite <- F1, <- F3, <- F4; done.
Qed.
