(* ===== verification/ChatControls.v ===== *)
(** * The playground's controls

    app.js lines 1114-1135, 1167-1183, 1426-1470, 1507-1544: where a click on
    the tab bar or the queue panel goes, the panel's switch and what the
    browser keeps of it, the key that sends, the log that follows its end, the
    pictures of a bubble, and the download of a result. *)

From S2P Require Import Prelude JsString JsNumber JsValue ChatStore ChatInv.
Open Scope Z_scope.

(** ** Clicks on the tab bar and the queue panel *)

(** What a click hits: the element's own [data-close], whether it is the button
    for a new chat, and the [data-id] of the tab it lies in. *)
Record tab_target := TabTarget { tt_close : option jstr; tt_new : bool; tt_tab : option jstr }.

Definition tabs_click (quota : jstr → bool) (fresh : jstr) (t : tab_target) (s : page) : page :=
  match tt_close t with
  | Some (c :: id) => close_tab quota (c :: id) fresh s
  | _ =>
    if tt_new t then newChat quota fresh s
    else match tt_tab t with
         | Some (c :: id) => switchChat quota (c :: id) s
         | _ => s
         end
  end.
(** The [data-chat] of the list item a click lies in. *)
Definition queue_click (quota : jstr → bool) (li : option jstr) (s : page) : page :=
  match li with Some (c :: id) => switchChat quota (c :: id) s | _ => s end.

(** A key in the prompt: whether the form is submitted and the key swallowed. *)
Definition sends (key : jstr) (shift : bool) : bool := bool_decide (key = js "Enter") && negb shift.

(** ** The switch of the queue panel *)

Record q_panel := QPanel { qp_hidden : bool; qp_is_open : bool; qp_expanded : jstr }.
(** The panel and what is stored under [ml-chat-q] afterwards; [writable] is
    false when the storage refuses. *)
Definition setQOpen (writable : bool) (open : bool) (kept : option jstr) : q_panel * option jstr :=
  (QPanel (negb open) open (if open then js "true" else js "false"),
   if writable then Some (if open then js "1" else js "0") else kept).
Definition q_toggle (writable : bool) (st : q_panel * option jstr) : q_panel * option jstr :=
  setQOpen writable (qp_hidden st.1) st.2.
Definition q_start (writable : bool) (kept : option jstr) : q_panel * option jstr :=
  setQOpen writable (bool_decide (kept = Some (js "1"))) kept.

(** ** The log and its end *)

(** Heights in pixels; the browser keeps [scrollTop] between 0 and what there
    is to scroll. *)
Record scroller := Scroller { s_height : Z; s_client : Z; s_top : Z; s_pin : bool }.
Definition scroll_max (l : scroller) : Z := Z.max 0 (s_height l - s_client l).
Definition nearBottom (l : scroller) : bool := s_height l - s_top l - s_client l <? 96.
Definition stickBottom (force : bool) (l : scroller) : scroller :=
  if force || s_pin l
  then Scroller (s_height l) (s_client l) (Z.min (s_height l) (scroll_max l)) (s_pin l) else l.
(** The user scrolls; a piece of text makes the log higher and calls
    [stickBottom]. *)
Definition user_scroll (top : Z) (l : scroller) : scroller :=
  let l := Scroller (s_height l) (s_client l) (Z.max 0 (Z.min top (scroll_max l))) (s_pin l) in
  Scroller (s_height l) (s_client l) (s_top l) (nearBottom l).
Definition grow (h : Z) (l : scroller) : scroller :=
  stickBottom false (Scroller (s_height l + h) (s_client l) (s_top l) (s_pin l)).

(** ** Pictures in a bubble *)

Inductive body := BText (t : val) | BImage (src : val) (alt : val) | BVideo (src : val).
Definition fillMedia (b : body) (m : msg) : body :=
  if truthy (m_image m) then BImage (m_image m) (v_or (m_content m) (VStr []))
  else if truthy (m_video m) then BVideo (m_video m) else b.
(** The row of attached images added below the text. *)
Definition appendRefsToBubble (urls : list jstr) : option (list (jstr * jstr)) :=
  match urls with [] => None | _ => Some (map (λ u, (u, js "референс")) urls) end.

(** ** Downloading a result *)

Inductive dl_effect :=
  | DClick (href name : jstr)        (* a link clicked and removed *)
  | DFetch (url : jstr)
  | DRevoke (href : jstr) (after : Z)
  | DStatus (text : jstr).
(** How the fetch of the file ends: a status (and the object URL of the body),
    or a rejection with its message. *)
Inductive dl_answer := DlStatus (status : Z) (href : jstr) | DlFailed (message : jstr).

Definition media_name (video : bool) (now : Z) : jstr :=
  js "mikrollm-" ++ (if video then js "video" else js "image") ++ js "-" ++ of_int now ++
  if video then js ".mp4" else js ".png".
Definition downloadURL (url name : jstr) (answer : dl_answer) : list dl_effect :=
  if starts_with (js "data:") url then [DClick url name] else
  DFetch url ::
  match answer with
  | DlStatus st href =>
    if (200 <=? st) && (st <? 300) then [DClick href name; DRevoke href 4000]
    else [DStatus (js "download " ++ of_int st)]
  | DlFailed m => [DStatus (s_or m (js "не удалось скачать"))]
  end.

(** ** Proofs *)

(** Every click is one of the events the chats' invariant is about, or does
    nothing. *)
Lemma tabs_click_event quota fresh t s :
  tabs_click quota fresh t s = s ∨ ∃ e, tabs_click quota fresh t s = cstep quota s e.
Proof.
  unfold tabs_click. destruct (tt_close t) as [[|c id]|].
  2: { right. by exists (EClose (c :: id) fresh). }
  all: destruct (tt_new t); [right; by exists (ENew fresh)|];
    destruct (tt_tab t) as [[|d id']|]; [by left|right; by exists (ESwitch (d :: id'))|by left].
Qed.
Lemma queue_click_event quota li s :
  queue_click quota li s = s ∨ ∃ e, queue_click quota li s = cstep quota s e.
Proof. destruct li as [[|c id]|]; [by left|right; by exists (ESwitch (c :: id))|by left]. Qed.

(** The log follows its end only for a reader who is there: a reader within
    96 pixels of the end is kept at the end by every piece of text, however
    many come; one who has scrolled further up is never moved. *)
Lemma log_follows_reader top hs l :
  0 <= s_client l <= s_height l → Forall (λ h, 0 <= h) hs →
  let l1 := user_scroll top l in
  let l2 := foldl (λ l h, grow h l) l1 hs in
  if nearBottom l1 then hs ≠ [] → s_top l2 = s_height l2 - s_client l2
  else s_top l2 = s_top l1.
Proof.
  intros Hl Hh. cbv zeta. set (l1 := user_scroll top l).
  assert (Hpin : s_pin l1 = nearBottom l1) by done.
  assert (Hc : s_client l1 = s_client l) by done. assert (He : s_height l1 = s_height l) by done.
  rewrite <- Hpin. clearbody l1. rewrite <- Hc, <- He in Hl. clear Hpin Hc He l top.
  destruct (s_pin l1) eqn:Hp.
  - assert (H : ∀ hs l, 0 <= s_client l <= s_height l → s_pin l = true →
      s_top l = s_height l - s_client l → Forall (λ h, 0 <= h) hs →
      let l2 := foldl (λ l h, grow h l) l hs in s_top l2 = s_height l2 - s_client l2).
    { clear. induction hs as [|h hs IH]; intros l Hl Hp Ht Hh; [done|]. apply Forall_cons in Hh as [Hh Hhs].
      apply IH; [..|done]; unfold grow, stickBottom; cbn; rewrite Hp; cbn; unfold scroll_max; cbn; try done; lia. }
    intros Hne. destruct hs as [|h hs]; [done|]. apply Forall_cons in Hh as [Hh Hhs]. cbn [foldl].
    apply H; [..|done]; unfold grow, stickBottom; cbn; rewrite Hp; cbn; unfold scroll_max; cbn; try done; lia.
  - clear Hh Hl. revert l1 Hp. induction hs as [|h hs IH]; intros l1 Hp; [done|]. cbn [foldl].
    assert (Hg : grow h l1 = Scroller (s_height l1 + h) (s_client l1) (s_top l1) (s_pin l1))
      by (unfold grow, stickBottom; cbn; by rewrite Hp).
    rewrite IH; by rewrite Hg.
Qed.

(** The switch of the queue panel survives a reload when the storage can be
    written; the panel, its button and its accessible state agree. *)
Lemma q_panel_kept n kept :
  let st := Nat.iter n (q_toggle true) (q_start true kept) in
  q_start true st.2 = st ∧ qp_hidden st.1 = negb (qp_is_open st.1).
Proof.
  assert (H : ∀ st, (∃ o k, st = setQOpen true o k) → q_start true st.2 = st ∧ qp_hidden st.1 = negb (qp_is_open st.1)).
  { intros st (o & k & ->). destruct o; vm_compute; done. }
  apply H. destruct n as [|n]; cbn; unfold q_start, q_toggle; eauto.
Qed.

Definition is_fetch (e : dl_effect) : bool := match e with DFetch _ => true | _ => false end.
Definition saves (name : jstr) (e : dl_effect) : bool :=
  match e with DClick _ n => bool_decide (n = name) | _ => false end.
Definition is_message (e : dl_effect) : bool := match e with DStatus _ => true | _ => false end.
Definition answer_ok (a : dl_answer) : bool :=
  match a with DlStatus st _ => (200 <=? st) && (st <? 300) | DlFailed _ => false end.

(** A download asks the server only for what is not in the page already, and
    ends either in one saved file or in a message. *)
Lemma download_ends url name answer :
  let l := downloadURL url name answer in
  let inline := starts_with (js "data:") url in
  existsb is_fetch l = negb inline ∧
  length (List.filter (saves name) l) = (if inline || answer_ok answer then 1 else 0)%nat ∧
  existsb is_message l = negb (inline || answer_ok answer).
Proof.
  cbv zeta. unfold downloadURL. generalize (starts_with (js "data:") url). intros [].
  - cbn. by rewrite bool_decide_true.
  - destruct answer as [st href|m]; cbn; [|done].
    destruct ((200 <=? st) && (st <? 300)); cbn; [|done]. by rewrite bool_decide_true.
Qed.
