(* ===== verification/ChatProps.v ===== *)
(** * The playground's chats: what the operations guarantee

    Properties of [ChatStore]'s operations on consistent pages, and the two
    places where the log and the store go out of step. *)

From S2P Require Import Prelude JsString JsNumber JsValue ChatSink MediaPoll ChatMode ChatStore ChatInv.
Open Scope nat_scope.

(** The page before [restore]: no chat yet. *)
Definition blank_page (u : selects) (stored : option jstr) : page :=
  Page [] [] 0 ∅ 1 u [] [] 0 (VStr []) false [] stored None 0 [] [] 0%Z.

Lemma blank_settled u stored : settled (blank_page u stored).
Proof.
  apply absent_settled; [|by intros ?%elem_of_nil]. split; cbn.
  - constructor.
  - constructor.
  - by intros c ?%elem_of_nil.
  - by intros c ?%elem_of_nil.
Qed.

(** C2: The tabs stay consistent.  Whatever the user and the generations do, in any
    order, after every sequence of events the tab ids are distinct, no two tabs
    share a message array, a chat is busy exactly when it has a controller, and
    the active tab exists, its messages are the array [messages] and the controls
    show its busy flag. *)
Theorem chats_stay_consistent quota u stored first es :
  let s := newChat quota first (blank_page u stored) in
  fresh_run quota s es → page_ok (crun quota s es).
Proof.
  intros s Hf. apply crun_ok; [|done]. apply newChat_ok; [apply blank_settled|by intros ?%elem_of_nil].
Qed.


(** ** Closing *)

Lemma chatById_cores id s : chatById id s = None ↔ id ∉ map k_id (cores s).
Proof.
  unfold chatById, cores. rewrite map_map. induction (chats s) as [|c l IH].
  - simpl. split; [by intros _ ?%elem_of_nil|done].
  - simpl. destruct (decide (c_id c = id)) as [E|E].
    + rewrite bool_decide_eq_true_2 by done. split; [done|]. intros Hn. destruct Hn.
      apply elem_of_cons. by left.
    + rewrite bool_decide_eq_false_2 by done. rewrite IH, elem_of_cons. cbn. naive_solver.
Qed.

Lemma persist_cores quota s : aligned s → cores (persist quota s) = cores s.
Proof. intros H. by injection (persist_aligned quota s H). Qed.

Lemma aborted_persist quota s : aborted_acs (persist quota s) = aborted_acs s.
Proof. unfold persist. destruct (quota _); [done|]. by destruct (quota _). Qed.

Lemma aborted_setBusy on s : aborted_acs (setBusy on s) = aborted_acs s.
Proof. unfold setBusy, setChatBusy. by destruct (bool_decide _). Qed.

Lemma aborted_show quota c s : aborted_acs (show_chat quota c s) = aborted_acs s.
Proof.
  unfold show_chat. rewrite aborted_persist.
  change (aborted_acs (paintThread ?x)) with (aborted_acs x). by rewrite aborted_setBusy.
Qed.

Lemma aborted_close quota id fresh s c n :
  chatById id s = Some c → c_ac c = Some n → n ∈ aborted_acs (close_tab quota id fresh s).
Proof.
  intros Hc Hn. unfold close_tab. rewrite Hc, Hn.
  set (s2 := set_chats _ _). assert (n ∈ aborted_acs s2) as H2 by (apply elem_of_cons; by left).
  clearbody s2. destruct (last (chats s2)) as [l|].
  - destruct (bool_decide _); [|by rewrite aborted_persist].
    unfold switchChat. destruct (bool_decide _); [done|].
    destruct (find_last _ _); [|done]. by rewrite aborted_show.
  - unfold newChat. cbn [alloc]. rewrite aborted_persist.
    change (aborted_acs (set_ui ?u ?r ?x)) with (aborted_acs x). by rewrite aborted_setBusy.
Qed.


(** C21: Closing a tab ends its generation for good: its controller is aborted, the
    tab is gone, and whatever the generation still does changes nothing. *)
Theorem close_ends_generation quota id fresh s c n :
  page_ok s → fresh ∉ map c_id (chats s) → chatById id s = Some c → c_ac c = Some n →
  let s' := close_tab quota id fresh s in
  n ∈ aborted_acs s' ∧ page_ok s' ∧ chatById id s' = None ∧
  ∀ l, run_effects (H:=page_sink quota) id l s' = s'.
Proof.
  intros H Hf Hc Hn s'. rewrite <- cores_ids in Hf.
  destruct (close_tab_ok quota id fresh s H Hf) as [Hok Hid].
  assert (chatById id s' = None) as Hgone.
  { apply chatById_cores, Hid. intros ->. apply chatById_cores in Hf. congruence. }
  split_and!; [by eapply aborted_close|done|done|].
  intros l. induction l as [|e l IH]; [done|].
  assert (run_effect (H:=page_sink quota) id s' e = s') as E.
  { destruct e; cbn; [done| |].
    - unfold page_setPendingText. by rewrite Hgone.
    - unfold page_finishAssistant. by rewrite Hgone. }
  unfold run_effects. cbn. rewrite E. exact IH.
Qed.

(** ** What [persist] and [snapshotChat] leave alone *)

Lemma persist_store quota s : ∃ t, persist quota s = set_store t (snapshotChat s).
Proof.
  unfold persist. destruct (quota _); [by eexists|]. destruct (quota _); [by eexists|].
  exists (store (snapshotChat s)). by destruct s.
Qed.

Ltac persisted := match goal with |- context [persist ?q ?s] =>
  let t := fresh "t" in let E := fresh "E" in destruct (persist_store q s) as [t E]; rewrite E; clear E end.

(** The active tab of a consistent page. *)
Lemma active_chat s :
  page_ok s → ∃ c, chatById (activeId s) s = Some c ∧ c_msgs c = messages s ∧ c_busy c = send_off s.
Proof.
  intros H. destruct (active_shown _ H) as (k & Hk & E1 & E2 & E3).
  destruct (chatById (activeId s) s) as [c|] eqn:Ec.
  - exists c. split; [done|]. apply chatById_elem in Ec as [Hin Eid].
    assert (core_of c = k) as Ek.
    { apply (core_unique (cores s)); [by apply page_ids|by apply core_elem|done|].
      cbn in E1. by rewrite E1. }
    by rewrite <- Ek in E2, E3.
  - exfalso. apply chatById_cores in Ec. apply Ec. cbn in E1. rewrite <- E1.
    apply list_elem_of_In, in_map. by apply list_elem_of_In.
Qed.

(** A chat and its core. *)
Lemma chat_of_core s k :
  page_ok s → k ∈ cores s → ∃ c, chatById (k_id k) s = Some c ∧ core_of c = k.
Proof.
  intros H Hk. destruct (chatById (k_id k) s) as [c|] eqn:Ec.
  - exists c. split; [done|]. apply chatById_elem in Ec as [Hin Eid].
    apply (core_unique (cores s)); [by apply page_ids|by apply core_elem|done|done].
  - exfalso. apply chatById_cores in Ec. apply Ec.
    apply list_elem_of_In, in_map. by apply list_elem_of_In.
Qed.

(** ** Sending a message *)

Lemma arr_set_arr a l s : arr a (set_arr a l s) = l.
Proof. unfold arr, set_arr. cbn. by rewrite lookup_insert_eq. Qed.

(** The two messages appended to the active chat's array, and stored. *)
Definition pushed (text : jstr) (s : page) : page :=
  let s := set_input [] s in
  let s := set_arr (messages s) (arr (messages s) s ++ [user_msg text]) s in
  set_arr (messages s) (arr (messages s) s ++ [pending_msg]) s.

Lemma push_spec quota text s :
  page_ok s →
  let s2 := persist quota (pushed text s) in
  ∃ c, chatById (activeId s) s2 = Some c ∧ c_msgs c = messages s ∧
    activeId s2 = activeId s ∧ messages s2 = messages s ∧ next_ac s2 = next_ac s ∧
    next_bubble s2 = next_bubble s ∧ sent s2 = sent s ∧ input_text s2 = [] ∧
    arr (messages s) s2 = arr (messages s) s ++ [user_msg text; pending_msg].
Proof.
  intros H. cbv zeta.
  assert (page_ok (pushed text s)) as H1 by by apply (page_ok_skel s).
  assert (arr (messages s) (pushed text s) = arr (messages s) s ++ [user_msg text; pending_msg]) as Ea.
  { unfold pushed. cbv zeta. change (messages (set_arr ?a ?l ?x)) with (messages x).
    change (messages (set_input [] s)) with (messages s). rewrite arr_set_arr, arr_set_arr.
    by rewrite <- app_assoc. }
  pose proof (persist_ok quota _ H1) as H2.
  destruct (persist_store quota (pushed text s)) as [t Ep]. rewrite Ep in *.
  destruct (active_chat _ H2) as (c & Ec & Em & _). exists c. split_and!; try done.
Qed.

(** The start of an answer for chat [id], which is shown. *)
Definition begun (id : jstr) (s : page) : page :=
  let s := set_status (VStr generating) (setChatBusy id true s) in
  update_chat id (with_ac (next_ac s) (js "чат")) (set_acs (Some (next_ac s)) (S (next_ac s)) (aborted_acs s) s).

Lemma next_ac_busy v id on s : next_ac (set_status v (setChatBusy id on s)) = next_ac s.
Proof. unfold setChatBusy. by destruct (bool_decide _). Qed.

Lemma begun_spec s c :
  chatById (activeId s) s = Some c →
  let s' := begun (activeId s) s in
  chatById (activeId s) s' = Some (with_ac (next_ac s) (js "чат") (chat_busy true c)) ∧
  messages s' = messages s ∧ arr (messages s) s' = arr (messages s) s ∧ sent s' = sent s ∧
  send_off s' = true ∧ input_text s' = input_text s ∧ next_ac s' = S (next_ac s).
Proof.
  intros Hc. unfold begun, setChatBusy.
  change (activeId (update_chat (activeId s) (chat_busy true) s)) with (activeId s).
  rewrite bool_decide_eq_true_2 by done. cbv zeta. split_and!; try done.
  set (s4 := set_status _ _).
  assert (chatById (activeId s) s4 = Some (chat_busy true c)) as E.
  { change (chatById (activeId s) s4) with
      (chatById (activeId s) (update_chat (activeId s) (chat_busy true) s)).
    rewrite chatById_update_eq by done. by rewrite Hc. }
  rewrite chatById_update_eq by done.
  change (chatById (activeId s) (set_acs ?l ?a ?b s4)) with (chatById (activeId s) s4). by rewrite E.
Qed.

(** C20: Sending in chat mode: the user's text (trimmed) and a pending answer are
    appended to the active chat and to nothing else, the input is emptied, the
    chat becomes busy with a fresh controller, and exactly one request is sent:
    the model and all messages of the chat that are not pending, the new one
    last. *)
Theorem submit_chat quota extra body need s :
  page_ok s → truthy_s (model_value (ui s)) = true → genMode (ui s) = js "chat" →
  mediaKind (optionMedia (ui s)) = js "chat" → truthy_s (trim (input_text s)) = true →
  let text := trim (input_text s) in
  let s' := (submit quota extra body need s).1 in
  ∃ c, (submit quota extra body need s).2 = Some (activeId s, next_ac s, S (next_bubble s)) ∧
    chatById (activeId s) s' = Some c ∧ c_busy c = true ∧ c_ac c = Some (next_ac s) ∧
    send_off s' = true ∧ input_text s' = [] ∧
    arr (c_msgs c) s' = arr (messages s) s ++ [user_msg text; pending_msg] ∧
    sent s' = sent s ++ [Request (activeId s) (next_ac s) (js "/admin/chat")
      ([(js "model", VStr (model_value (ui s))); (js "stream", VBool true)] ++ body ++
       [(js "messages", VArr (map msg_obj
          (List.filter (λ m, negb (truthy (m_pending m))) (arr (messages s) s) ++ [user_msg text])))])].
Proof.
  intros H Hm Hg Hk Ht text s'. unfold s'. clear s'. unfold submit.
  rewrite Hm, Hk, Hg. fold text in Ht |- *. rewrite Ht. js_decide. cbn [negb andb].
  unfold is_media. js_decide. cbn [orb andb]. rewrite s_or_nonempty by by apply truthy_s_spec.
  destruct (push_spec quota text s H) as (c & Ec & Em & E1 & E2 & E3 & E4 & E5 & E6 & E7).
  match goal with |- context [persist quota ?x] => change x with (pushed text s) end.
  set (s2 := persist quota (pushed text s)) in *. clearbody s2.
  change (activeId (set_input [] s)) with (activeId s). cbn [add_bubble fst snd].
  match goal with |- context [setChatBusy _ true ?x] => set (s3 := x) end.
  destruct (begun_spec s3 c) as (K1 & K2 & K3 & K4 & K5 & K6 & K7); [by cbn; rewrite E1|].
  change (activeId s3) with (activeId s2) in *. change (messages s3) with (messages s2) in *.
  change (next_ac s3) with (next_ac s2) in *. rewrite E1, E2, E3 in *.
  match goal with |- context [update_chat (activeId s) (with_ac ?n ?k) ?x] =>
    change (update_chat (activeId s) (with_ac n k) x) with (begun (activeId s) s3) end.
  exists (with_ac (next_ac s) (js "чат") (chat_busy true c)).
  split_and!; [|exact K1|done|done|exact K5|exact (eq_trans K6 E6)| |].
  - cbn [snd next_bubble set_log]. rewrite next_ac_busy, E4. change (next_ac s3) with (next_ac s2). by rewrite E3.
  - cbn [c_msgs with_ac chat_busy]. rewrite Em. exact (eq_trans K3 E7).
  - cbn [sent add_sent]. rewrite K4, K2. change (sent s3) with (sent s2). rewrite E5.
    rewrite K3. change (arr (messages s) s3) with (arr (messages s) s2). rewrite E7.
    rewrite next_ac_busy. change (next_ac s3) with (next_ac s2). by rewrite E3, List.filter_app.
Qed.

(** ** The log and the messages out of step *)

Lemma assoc_set_default k k' v absent kv :
  k ≠ k' → assoc k (set_default k' v absent kv) = assoc k kv.
Proof.
  intros Hne. unfold set_default. destruct (absent _); [|done].
  rewrite assoc_obj_set. by rewrite bool_decide_eq_false_2.
Qed.

Lemma payload_prompt v model text msgs extra r :
  js "prompt" ∉ map fst extra → assoc (js "prompt") (payload v model text msgs extra r) = Some text.
Proof.
  intros Hx. unfold payload.
  set (p0 := [(js "model", VStr model); (js "prompt", text); _]).
  assert (∀ (l p : list (jstr * val)), (∀ e, e ∈ l → e.1 ≠ js "prompt") →
    assoc (js "prompt") (foldl (λ p e, obj_set e.1 e.2 p) p l) = assoc (js "prompt") p) as Hfold.
  { induction l as [|e l IH]; intros p He; [done|]. cbn [foldl]. rewrite IH.
    - rewrite assoc_obj_set. rewrite bool_decide_eq_false_2; [done|].
      intros E. apply (He e); [apply elem_of_cons; by left|done].
    - intros e' He'. apply He, elem_of_cons. by right. }
  set (p1 := foldl _ p0 _).
  assert (assoc (js "prompt") p1 = Some text) as E1.
  { unfold p1. rewrite Hfold; [by vm_compute|]. intros e He%own_entries_elem Ee. apply Hx.
    rewrite <- Ee. apply list_elem_of_In, in_map. by apply list_elem_of_In. }
  clearbody p1.
  assert (∀ k (a : val) p, js "prompt" ≠ k → assoc (js "prompt") (obj_set k a p) = assoc (js "prompt") p) as Hset.
  { intros k a p Hne. rewrite assoc_obj_set. by rewrite bool_decide_eq_false_2. }
  assert (∀ k1 v1 a1 k2 v2 a2 b k3 v3 a3, js "prompt" ≠ k1 → js "prompt" ≠ k2 → js "prompt" ≠ k3 →
    assoc (js "prompt") (if b : bool then set_default k3 v3 a3 (set_default k2 v2 a2 (set_default k1 v1 a1 p1))
     else set_default k2 v2 a2 (set_default k1 v1 a1 p1)) = Some text) as E2.
  { intros. destruct b; rewrite !assoc_set_default by done; done. }
  destruct r as [|u r].
  - apply E2; by vm_compute.
  - rewrite !Hset by by vm_compute. apply E2; by vm_compute.
Qed.

Lemma last_assistant_snoc before m :
  is_assistant m = true → last_assistant (before ++ [m]) = Some (before, m).
Proof.
  intros Hm. unfold last_assistant. rewrite last_snoc, Hm. do 2 f_equal.
  rewrite length_app. cbn. rewrite Nat.add_1_r. cbn. by rewrite take_app_length.
Qed.

(** A finish in the active chat: the message is merged, the log drawn from it. *)
Lemma finish_active quota s before m f :
  page_ok s → arr (messages s) s = before ++ [m] → is_assistant m = true →
  let s' := page_finishAssistant quota (activeId s) f s in
  page_ok s' ∧ activeId s' = activeId s ∧ send_off s' = false ∧ sent s' = sent s ∧
  arr (messages s') s' = before ++ [merge f m] ∧
  log s' = imap (λ i x, paint_msg (next_bubble s + i) x) (before ++ [merge f m]).
Proof.
  intros H Harr Hm s'. pose proof (finishAssistant_ok quota (activeId s) f s H) as H'.
  destruct (active_chat s H) as (c & Ec & Em & _).
  assert (chatById (activeId s) s ≠ None) as Hne by congruence.
  pose proof (finishAssistant_skel quota (activeId s) f s H Hne) as Ek.
  rewrite bool_decide_eq_true_2 in Ek by done. injection Ek as _ E1 E2 _ E3.
  fold s' in H', E1, E2, E3. revert E2.
  assert (∃ x, s' = set_status (VStr []) (setChatBusy (activeId s) false (paintThread x)) ∧
    heap x = <[messages s := before ++ [merge f m]]> (heap s) ∧ next_bubble x = next_bubble s ∧
    sent x = sent s) as (x & Ex & Hh & Hb & Hs).
  { unfold s', page_finishAssistant. rewrite Ec, Em, Harr, last_assistant_snoc by done.
    match goal with |- context [persist quota ?x] =>
      destruct (persist_store quota x) as [t ->]; set (s2 := x) end.
    change (activeId (set_store t (snapshotChat s2))) with (activeId s).
    rewrite bool_decide_eq_true_2 by done. by eexists. }
  intros E2. split_and!; [done|done|done|..]; clearbody s'; subst s'.
  - rewrite <- Hs. unfold setChatBusy. by destruct (bool_decide _).
  - rewrite E2. unfold arr. assert (∀ y, heap (set_status (VStr []) (setChatBusy (activeId s) false y)) = heap y) as ->.
    { intros y. unfold setChatBusy. by destruct (bool_decide _). }
    change (heap (paintThread x)) with (heap x). rewrite Hh. by rewrite lookup_insert_eq.
  - assert (messages x = messages s) as E4.
    { rewrite <- E2. unfold setChatBusy. by destruct (bool_decide _). }
    assert (∀ y, log (set_status (VStr []) (setChatBusy (activeId s) false y)) = log y) as ->.
    { intros y. unfold setChatBusy. by destruct (bool_decide _). }
    cbn [paintThread page_sync set_ui log set_log]. rewrite E4, Hb. unfold arr.
    rewrite Hh. by rewrite lookup_insert_eq.
Qed.

Lemma runMedia_sent v text id extra s c :
  chatById id s = Some c →
  ∃ n model msgs r, sent (runMedia v text id extra s) =
    sent s ++ [Request id n (if v then js "/admin/videos" else js "/admin/images")
                 (payload v model text msgs extra r)].
Proof.
  intros Hc. unfold runMedia. rewrite Hc. eexists _, _, _, _. cbn [sent add_sent]. f_equal.
  unfold setChatBusy. by repeat destruct (bool_decide _).
Qed.

Definition image_caption : jstr := js "Изображение сгенерировано.".

Lemma chatById_store id t s : chatById id (set_store t s) = chatById id s.
Proof. done. Qed.
Lemma chatById_snapshot s : chatById (activeId s) (snapshotChat s) = snap s <$> chatById (activeId s) s.
Proof. by apply chatById_update_eq. Qed.
Lemma chatById_chats id s s' : chats s = chats s' → chatById id s = chatById id s'.
Proof. unfold chatById. by intros ->. Qed.

(** A click on "once more" in an idle chat sends one request with that prompt. *)
Lemma regenerate_request quota v prompt extra s :
  page_ok s → send_off s = false →
  ∃ n model msgs r, sent (regenerate quota v prompt extra s) =
    sent s ++ [Request (activeId s) n (if v then js "/admin/videos" else js "/admin/images")
                 (payload v model prompt msgs extra r)].
Proof.
  intros H Eo. destruct (active_chat s H) as (c & Ec & Emc & Ebc).
  unfold regenerate. rewrite Ec, Ebc, Eo.
  assert (chats (new_answer c (drop_answer c s)) = chats s ∧
          activeId (new_answer c (drop_answer c s)) = activeId s ∧
          sent (new_answer c (drop_answer c s)) = sent s) as (F1 & F2 & F3).
  { unfold drop_answer. by destruct (last_assistant _) as [[? ?]|]. }
  set (s4 := new_answer c (drop_answer c s)) in *. clearbody s4.
  destruct (persist_store quota s4) as [t ->].
  assert (chatById (activeId s) (set_store t (snapshotChat s4)) = Some (snap s4 c)) as Ec3.
  { rewrite chatById_store, <- F2, chatById_snapshot, F2, (chatById_chats _ s4 s F1). by rewrite Ec. }
  destruct (runMedia_sent v prompt (activeId s) extra _ _ Ec3) as (n & model & msgs & r & ->).
  exists n, model, msgs, r. change (sent (set_store t (snapshotChat s4))) with (sent s4). by rewrite F3.
Qed.

Lemma regenerate_caption cap quota s before m src extra :
  page_ok s → arr (messages s) s = before ++ [m] → is_assistant m = true → is_user m = false →
  truthy (m_video m) = false → truthy src = true → truthy cap = true → js "prompt" ∉ map fst extra →
  let s' := page_finishAssistant quota (activeId s)
              (Fields cap None (Some src) None) s in
  ∃ b prompt rq, last (log s') = Some b ∧ b_actions b = Some (false, src, prompt) ∧
    sent (regenerate quota false prompt extra s') = sent s ++ [rq] ∧
    rq_url rq = (if false then js "/admin/videos" else js "/admin/images") ∧ assoc (js "prompt") (rq_body rq) = Some cap.
Proof.
  intros H Harr Has Hus Hv Hsrc Hcap Hx s'.
  destruct (finish_active quota s before m (Fields cap None (Some src) None) H Harr Has)
    as (H' & Ea & Eo & Es & Em & El). fold s' in H', Ea, Eo, Es, Em, El. clearbody s'.
  set (m' := merge _ m) in *.
  exists (paint_msg (next_bubble s + length before) m'), cap.
  destruct (regenerate_request quota false cap extra s' H' Eo) as (n & model & msgs & r & Hsent).
  eexists. split_and!.
  - rewrite El, imap_app. cbn. by rewrite last_snoc, Nat.add_0_r.
  - assert (m_image m' = src ∧ m_video m' = m_video m ∧ m_content m' = cap)
      as (F1 & F2 & F3) by done.
    unfold paint_msg. cbn [b_actions]. unfold v_or. by rewrite F1, F2, F3, Hv, Hsrc, Hcap.
  - rewrite Hsent, Es. done.
  - done.
  - cbn [rq_body]. by apply payload_prompt.
Qed.

(** C33: "Once more" does not repeat the user's prompt.  When a generated image
    arrives in the active chat, the log is drawn again and the button under the
    image is given the caption of the message, so a click asks the server for an
    image of the caption text. *)
Theorem regenerate_sends_caption quota s before m src extra :
  page_ok s → arr (messages s) s = before ++ [m] → is_assistant m = true → is_user m = false →
  truthy (m_video m) = false → truthy src = true → js "prompt" ∉ map fst extra →
  let s' := page_finishAssistant quota (activeId s)
              (Fields (VStr image_caption) None (Some src) None) s in
  ∃ b prompt rq, last (log s') = Some b ∧ b_actions b = Some (false, src, prompt) ∧
    sent (regenerate quota false prompt extra s') = sent s ++ [rq] ∧
    rq_url rq = js "/admin/images" ∧ assoc (js "prompt") (rq_body rq) = Some (VStr image_caption).
Proof.
  intros H Harr Has Hus Hv Hsrc Hx.
  apply (regenerate_caption (VStr image_caption) quota s before m src extra H Harr Has Hus Hv Hsrc); [|exact Hx].
  vm_compute. reflexivity.
Qed.

(** *** A stream whose bubble is gone *)

Lemma log_persist quota s : log (persist quota s) = log s.
Proof. by destruct (persist_store quota s) as [t ->]. Qed.
Lemma next_bubble_persist quota s : next_bubble (persist quota s) = next_bubble s.
Proof. by destruct (persist_store quota s) as [t ->]. Qed.
Lemma active_persist quota s : activeId (persist quota s) = activeId s.
Proof. by destruct (persist_store quota s) as [t ->]. Qed.
Lemma next_bubble_setBusy on s : next_bubble (setBusy on s) = next_bubble s.
Proof. unfold setBusy, setChatBusy. by destruct (bool_decide _). Qed.
Lemma active_setBusy on s : activeId (setBusy on s) = activeId s.
Proof. unfold setBusy, setChatBusy. by destruct (bool_decide _). Qed.
Lemma next_bubble_paint s : next_bubble (paintThread s) = next_bubble s + length (arr (messages s) s).
Proof. done. Qed.
Lemma active_paint s : activeId (paintThread s) = activeId s.
Proof. done. Qed.
Lemma log_paint s :
  log (paintThread s) = imap (λ i m, paint_msg (next_bubble s + i) m) (arr (messages s) s).
Proof. done. Qed.
Lemma next_bubble_filter s : next_bubble (page_filter s) = next_bubble s.
Proof. done. Qed.

Lemma active_show quota c s : activeId (show_chat quota c s) = c_id c.
Proof. unfold show_chat. by rewrite active_persist, active_paint, active_setBusy. Qed.

Lemma next_bubble_show quota c s : next_bubble s ≤ next_bubble (show_chat quota c s).
Proof.
  unfold show_chat. rewrite next_bubble_persist, next_bubble_paint, next_bubble_setBusy, next_bubble_filter.
  cbn [next_bubble set_ui set_active]. lia.
Qed.

Lemma log_show quota c s b : b ∈ log (show_chat quota c s) → next_bubble s ≤ b_id b.
Proof.
  unfold show_chat. rewrite log_persist, log_paint, next_bubble_setBusy, next_bubble_filter.
  cbn [next_bubble set_ui set_active]. intros (i & m & -> & _)%elem_of_lookup_imap.
  unfold paint_msg. cbn [b_id]. lia.
Qed.

Lemma set_bubble_absent b text think l :
  (∀ x, x ∈ l → b_id x ≠ b) → set_bubble b text think l = l.
Proof. intros H. apply map_id_in. intros x Hx. by rewrite bool_decide_eq_false_2 by by apply H. Qed.

(** C34: A stream is lost to the eye by looking away.  After the user has switched to
    another chat and back, the bubble the stream was given at submission is no
    longer in the log, and the pieces that arrive while its chat is shown change
    nothing: neither the log nor the pending message, until the end. *)
Theorem stream_lost_after_switch quota s other co c b acc think :
  page_ok s → find_last other (chats (snapshotChat s)) = Some co → other ≠ activeId s →
  let s1 := switchChat quota other s in
  find_last (activeId s) (chats (snapshotChat s1)) = Some c →
  b < next_bubble s →
  let s2 := switchChat quota (activeId s) s1 in
  activeId s2 = activeId s ∧ stream_update (activeId s) b acc think s2 = s2.
Proof.
  intros H Ho Hne s1 Hc Hb s2.
  assert (s1 = show_chat quota co (snapshotChat s)) as E1.
  { unfold s1, switchChat. by rewrite bool_decide_eq_false_2, Ho by done. }
  assert (activeId s1 = other) as Ea1.
  { rewrite E1. apply find_last_elem in Ho as [_ Eo]. by rewrite active_show. }
  assert (s2 = show_chat quota c (snapshotChat s1)) as E2.
  { unfold s2, switchChat. by rewrite bool_decide_eq_false_2, Hc by congruence. }
  assert (activeId s2 = activeId s) as Ea2.
  { rewrite E2. apply find_last_elem in Hc as [_ Eo]. by rewrite active_show. }
  split; [done|]. unfold stream_update. rewrite bool_decide_eq_true_2 by done.
  rewrite set_bubble_absent; [by destruct s2|].
  intros x Hx Eb. rewrite E2 in Hx. apply log_show in Hx.
  change (next_bubble (snapshotChat s1)) with (next_bubble s1) in Hx.
  pose proof (next_bubble_show quota co (snapshotChat s)) as Hn. rewrite <- E1 in Hn.
  change (next_bubble (snapshotChat s)) with (next_bubble s) in Hn. lia.
Qed.

(** ** Witnesses *)

Definition any_quota : jstr → bool := λ _, true.
Definition demo_start : page := newChat any_quota (js "c1") (blank_page demo_models None).

Lemma demo_start_ok : page_ok demo_start.
Proof. apply newChat_ok; [apply blank_settled|by intros ?%elem_of_nil]. Qed.

(** "hello" sent in chat c1, then a second tab, c2, is opened. *)
Definition demo_send : list cevent := [EType (js "hello"); ESubmit [] [] false].
Definition demo_two : list cevent := demo_send ++ [ENew (js "c2")].
Definition demo_sent : page := crun any_quota demo_start demo_send.
Definition demo_tabs : page := crun any_quota demo_start demo_two.

Lemma demo_send_fresh : fresh_run any_quota demo_start demo_send.
Proof. by repeat split. Qed.
Lemma demo_two_fresh : fresh_run any_quota demo_start demo_two.
Proof.
  split; [done|]. split; [done|]. split; [|done]. cbn [fresh_event].
  apply (bool_decide_unpack _). vm_compute. exact I.
Qed.
Lemma demo_sent_ok : page_ok demo_sent.
Proof. apply crun_ok; [apply demo_start_ok|apply demo_send_fresh]. Qed.
Lemma demo_tabs_ok : page_ok demo_tabs.
Proof. apply crun_ok; [apply demo_start_ok|apply demo_two_fresh]. Qed.

Lemma chats_stay_consistent_witness : page_ok demo_tabs.
Proof. apply (chats_stay_consistent any_quota demo_models None (js "c1")). exact demo_two_fresh. Defined.


Lemma close_ends_generation_witness :
  0 ∈ aborted_acs (close_tab any_quota (js "c1") (js "c3") demo_tabs) ∧
  chatById (js "c1") (close_tab any_quota (js "c1") (js "c3") demo_tabs) = None.
Proof.
  destruct (chatById (js "c1") demo_tabs) as [c|] eqn:Ec; [|vm_compute in Ec; discriminate].
  destruct (close_ends_generation any_quota (js "c1") (js "c3") demo_tabs c 0) as (H1 & _ & H2 & _).
  - exact demo_tabs_ok.
  - apply (bool_decide_unpack _). vm_compute. exact I.
  - exact Ec.
  - vm_compute in Ec. injection Ec as <-. reflexivity.
  - split; [exact H1|exact H2].
Defined.

Definition demo_typed : page := crun any_quota demo_start [EType (js " hello ")].

Lemma submit_chat_witness :
  ∃ c, chatById (js "c1") (submit any_quota [] [] false demo_typed).1 = Some c ∧ c_busy c = true.
Proof.
  destruct (submit_chat any_quota [] [] false demo_typed) as (c & _ & H1 & H2 & _).
  - apply crun_ok; [apply demo_start_ok|by repeat split].
  - vm_compute. reflexivity.
  - vm_compute. reflexivity.
  - vm_compute. reflexivity.
  - vm_compute. reflexivity.
  - exists c. split; [exact H1|exact H2].
Defined.

Lemma regenerate_sends_caption_witness :
  ∃ rq, last (sent (regenerate any_quota false (VStr image_caption) []
    (page_finishAssistant any_quota (activeId demo_sent)
       (Fields (VStr image_caption) None (Some (VStr (js "/i.png"))) None) demo_sent))) = Some rq ∧
  rq_url rq = js "/admin/images".
Proof.
  destruct (regenerate_sends_caption any_quota demo_sent [user_msg (js "hello")] pending_msg
              (VStr (js "/i.png")) []) as (b & p & rq & H1 & H2 & H3 & H4 & H5).
  - exact demo_sent_ok.
  - vm_compute. reflexivity.
  - vm_compute. reflexivity.
  - vm_compute. reflexivity.
  - vm_compute. reflexivity.
  - vm_compute. reflexivity.
  - intros Hx. by apply elem_of_nil in Hx.
  - exists rq. split; [|exact H4].
    assert (p = VStr image_caption) as Ep.
    { vm_compute in H1. injection H1 as <-. vm_compute in H2. injection H2 as <-. vm_compute. reflexivity. }
    rewrite Ep in H3. rewrite H3. apply last_snoc.
Defined.

Lemma stream_lost_after_switch_witness :
  stream_update (js "c1") 1 (VStr (js "hi")) VUndef
    (switchChat any_quota (js "c1") (switchChat any_quota (js "c2") (crun any_quota demo_tabs [ESwitch (js "c1")]))) =
  switchChat any_quota (js "c1") (switchChat any_quota (js "c2") (crun any_quota demo_tabs [ESwitch (js "c1")])).
Proof.
  set (s := crun any_quota demo_tabs [ESwitch (js "c1")]).
  destruct (find_last (js "c2") (chats (snapshotChat s))) as [co|] eqn:Eo; [|vm_compute in Eo; discriminate].
  destruct (find_last (js "c1") (chats (snapshotChat (switchChat any_quota (js "c2") s)))) as [c|] eqn:Ec;
    [|vm_compute in Ec; discriminate].
  assert (activeId s = js "c1") as Ea by (vm_compute; reflexivity).
  destruct (stream_lost_after_switch any_quota s (js "c2") co c 1 (VStr (js "hi")) VUndef) as [_ H].
  - apply (crun_ok any_quota [ESwitch (js "c1")]); [exact demo_tabs_ok|by split].
  - exact Eo.
  - vm_compute. discriminate.
  - rewrite Ea. exact Ec.
  - vm_compute. lia.
  - rewrite Ea in H. exact H.
Defined.

Lemma generation_leaves_chat_idle_witness :
  ∃ l, generation (H:=AsciiCyrillicFold) (quiet_net 2 job_done None) GVideo (js "film")
         (FResp true (Some (VObj [(js "id", VStr (js "v1"))]))) [] 0%Z = Some l ∧
    is_busy (ChatSink:=page_sink any_quota) (js "c1")
      (run_effects (H:=page_sink any_quota) (js "c1") l demo_tabs) = false.
Proof.
  destruct (generation_leaves_chat_idle (H:=AsciiCyrillicFold) (H0:=page_sink any_quota)
    (good:=page_ok) (quiet_net 2 job_done None) GVideo (js "film")
    (FResp true (Some (VObj [(js "id", VStr (js "v1"))]))) [] 0%Z (js "c1") demo_tabs) as (l & H1 & H2 & _).
  - apply quiet_ok.
  - exact demo_tabs_ok.
  - intros E. vm_compute in E. discriminate.
  - exists l. split; [exact H1|exact H2].
Defined.
