(* ===== verification/ChatPanels.v ===== *)
(** * The playground's panels: tab bar, queue, history

    app.js lines 1184-1232 and 1309-1353: [renderTabs], [renderChatQueue],
    [renderHist] and [historyForAPI].  The panels are functions of the page;
    the code calls them again after every change of it. *)

From S2P Require Import Prelude JsString JsNumber JsValue Html ChatSink ChatMode ChatStore ChatInv ChatProps.
Open Scope nat_scope.

(** [escHtml] of any value. *)
Definition esc_val (v : val) : jstr := escHtml (if is_nullish v then [] else to_str v).

(** ** The tab bar (lines 1184-1193) *)

Definition tab_html (s : page) (c : chat) : jstr :=
  html "<button type='button' class='chat-tab" ++
  (if bool_decide (c_id c = activeId s) then js " active" else []) ++
  (if c_busy c then js " is-busy" else []) ++ html "' data-id='" ++ c_id c ++ html "'>" ++
  html "<span>" ++ escHtml (s_or (c_title c) new_title) ++ html "</span>" ++
  html "<span class='chat-tab-x' data-close='" ++ c_id c ++ html "' title='закрыть'>×</span></button>".

Definition tab_new : jstr :=
  html "<button type='button' class='chat-tab-new' id='chat-tab-new' title='Новый чат'>+</button>".
Definition renderTabs (s : page) : jstr := concat (map (tab_html s) (chats s)) ++ tab_new.

(** ** The queue panel (lines 1194-1232) *)

(** Letters the regular expressions of the code match without case: Cyrillic
    letters and the variant forms that share their capitals. *)
Definition cyr_fold (c : Z) : Z :=
  (if (1040 <=? c) && (c <=? 1071) then c + 32
   else if c =? 7296 then 1074 else if c =? 7297 then 1076 else if c =? 7298 then 1086
   else if c =? 7299 then 1089 else if (c =? 7300) || (c =? 7301) then 1090
   else if c =? 7302 then 1098 else c)%Z.
Definition mentions (word : jstr) (v : val) : bool :=
  includes word (map cyr_fold (to_str (v_or v (VStr [])))).

Record queued := Queued { qd_id : jstr; qd_kind : jstr; qd_prompt : jstr; qd_status : val }.

Definition last_prompt (l : list msg) : jstr :=
  foldl (λ p m, if is_user m && truthy (m_content m) then to_str (m_content m) else p) [] l.

Definition guess_kind (last : option msg) : jstr :=
  match last with
  | None => js "чат"
  | Some m =>
    if truthy (m_video m) || mentions (js "видео") (m_content m) then js "видео"
    else if truthy (m_image m) || mentions (js "изображ") (m_content m) then js "изображение"
    else js "чат"
  end.

Definition is_pending (c : chat) (l : list msg) : bool :=
  c_busy c || match last l with Some m => truthy (m_pending m) | None => false end.

Definition queued_of (s : page) (c : chat) : option queued :=
  let l := arr (c_msgs c) s in
  if is_pending c l then
    Some (Queued (c_id c)
      (match c_genKind c with [] => guess_kind (last l) | k => k end)
      (s_or (last_prompt l) (s_or (c_title c) (js "генерация")))
      (match last l with
       | Some m => if truthy (m_pending m) && truthy (m_content m) then m_content m else VStr (js "идёт")
       | None => VStr (js "идёт")
       end))
  else None.
Definition queue_jobs (s : page) : list queued := omap (queued_of s) (chats s).

Definition queued_html (j : queued) : jstr :=
  html "<li data-chat='" ++ qd_id j ++ html "'><span class='pill'>" ++ escHtml (qd_kind j) ++
  html "</span><span class='q-prev'>" ++ escHtml (qd_prompt j) ++
  html "</span><span class='muted'>" ++ esc_val (qd_status j) ++ html "</span></li>".

(** The number on the button ([None] when it is hidden) and the list. *)
Definition queue_badge (s : page) : option jstr :=
  match queue_jobs s with [] => None | l => Some (of_int (Z.of_nat (length l))) end.
Definition renderChatQueue (s : page) : jstr :=
  match queue_jobs s with
  | [] => html "<p class='muted'>Сейчас ничего не генерируется.</p>"
  | l => html "<ul class='chat-q-jobs'>" ++ concat (map queued_html l) ++ html "</ul>"
  end.

(** ** The history (lines 1309-1339) *)

Record history := History {
  h_task : option jstr;              (* hidden, or its text *)
  h_empty : bool;                    (* the note that there is nothing *)
  h_items : list (jstr * bool);      (* the text of each line, and is-task *)
  h_placeholder : jstr;
}.

Definition first_task (l : list msg) : jstr :=
  foldl (λ f m, if is_user m && negb (truthy_s f) then to_str (v_or (m_content m) (VStr [])) else f) [] l.

(** [t.slice(0, 80)] in a concatenation: strings and arrays have a [slice]. *)
Definition slice80 (v : val) : option jstr :=
  match v with
  | VStr t => Some (take 80 t)
  | VArr l => Some (to_str (VArr (take 80 l)))
  | _ => None
  end.

Definition hist_text (m : msg) : val :=
  if truthy (m_video m) then VStr (js "видео")
  else if truthy (m_hadImage m) || truthy (m_image m) then VStr (js "изображение")
  else if truthy (m_pending m) then v_or (m_content m) (VStr generating)
  else match m_content m with VStr t => VStr t | _ => VStr (js "(медиа)") end.

Definition hist_item (i : nat) (m : msg) : option (jstr * bool) :=
  t ← slice80 (hist_text m);
  Some ((if is_user m then js "Вы: " else js "Модель: ") ++ t, bool_decide (i = 0) && is_user m).

(** [None] for the TypeError of a pending content that cannot be sliced. *)
Definition renderHist (s : page) : option history :=
  let l := arr (messages s) s in
  items ← mapM id (imap hist_item l);
  let first := first_task l in
  Some (History (if truthy_s first then Some (js "Задача: " ++ first) else None)
    (match l with [] => true | _ => false end) items
    (match l with
     | [] => js "Напишите сообщение… Enter — отправить"
     | _ => js "Правка к этой генерации…"
     end)).

(** ** [historyForAPI] (lines 1340-1353), which nothing calls *)
Definition history_entry (m : msg) : val :=
  if is_assistant m && truthy (m_image m)
  then VObj [(js "role", VStr (js "assistant"));
             (js "content", VArr
               [VObj [(js "type", VStr (js "text"));
                      (js "text", v_or (m_content m) (VStr (js "Generated image.")))];
                VObj [(js "type", VStr (js "image_url"));
                      (js "image_url", VObj [(js "url", m_image m)])]])]
  else VObj [(js "role", VStr (m_role m)); (js "content", m_content m)].
Definition historyForAPI (s : page) : val := VArr (map history_entry (arr (messages s) s)).

(** ** What the panels show *)

(** A tab's ids are written as they are; those the page makes up hold no markup. *)
Definition ids_plain (s : page) : Prop := Forall (λ c, markup_free (c_id c)) (chats s).

Definition tab_tags : list jstr :=
  map js ["button type= class= data-id="; "span"; "/span"; "span class= data-close= title=";
          "/span"; "/button"]%string.

Lemma tab_fragment s c :
  markup_free (c_id c) → fragment (tab_html s c) tab_tags (s_or (c_title c) new_title ++ js "×").
Proof.
  intros Hid. unfold tab_html, fragment. set (b := bool_decide _).
  eapply piece_eq; [pieces|vm_compute; reflexivity|]. rewrite ?app_nil_r. reflexivity.
Qed.

Lemma queued_fragment j :
  markup_free (qd_id j) →
  fragment (queued_html j)
    (map js ["li data-chat="; "span class="; "/span"; "span class="; "/span"; "span class="; "/span"; "/li"]%string)
    (qd_kind j ++ qd_prompt j ++ (if is_nullish (qd_status j) then [] else to_str (qd_status j))).
Proof.
  intros Hid. unfold queued_html, esc_val, fragment.
  eapply piece_eq; [pieces|vm_compute; reflexivity|]. rewrite ?app_nil_r. reflexivity.
Qed.

(** *** Who is in the queue panel *)

Definition in_queue (id : jstr) (s : page) : bool :=
  match page_view id s with
  | Some (l, busy, _, _) => busy || match last l with Some m => truthy (m_pending m) | None => false end
  | None => false
  end.

Lemma queued_id s c q : queued_of s c = Some q → qd_id q = c_id c.
Proof. unfold queued_of. destruct (is_pending _ _); [|done]. by intros [= <-]. Qed.

Lemma chatById_in s c : NoDup (map k_id (cores s)) → c ∈ chats s → chatById (c_id c) s = Some c.
Proof.
  rewrite cores_ids. unfold chatById. induction (chats s) as [|x l IH]; [by intros _ ?%elem_of_nil|].
  cbn. intros [Hx Hnd]%NoDup_cons [-> |Hc]%elem_of_cons; [by rewrite bool_decide_eq_true_2|].
  rewrite bool_decide_eq_false_2; [by apply IH|]. intros E. apply Hx. rewrite E.
  apply list_elem_of_In, in_map. by apply list_elem_of_In.
Qed.

Lemma queue_jobs_ids id s :
  NoDup (map k_id (cores s)) → id ∈ map qd_id (queue_jobs s) ↔ in_queue id s = true.
Proof.
  intros Hnd. unfold queue_jobs, in_queue, page_view. split.
  - intros (q & <- & (c & Hc & Hq)%list_elem_of_In%list_elem_of_omap)%list_elem_of_In%in_map_iff.
    rewrite (queued_id _ _ _ Hq), (chatById_in s c) by done.
    unfold queued_of in Hq. by destruct (is_pending c (arr (c_msgs c) s)) eqn:E.
  - destruct (chatById id s) as [c|] eqn:Ec; [|done]. apply chatById_elem in Ec as [Hin <-].
    intros Hp. assert (∃ q, queued_of s c = Some q) as [q Hq].
    { unfold queued_of, is_pending. rewrite Hp. by eexists. }
    apply list_elem_of_In, in_map_iff. exists q. split; [by eapply queued_id|].
    apply list_elem_of_In, list_elem_of_omap. by exists c.
Qed.

(** ** Properties *)

(** The tab bar holds one button per chat, in order, and one to open a new
    chat; whatever the titles hold, these are all its tags, and its text is the
    titles, as they are, with their closing crosses. *)
Theorem tab_bar_safe s :
  ids_plain s →
  tags (renderTabs s) =
    concat (map (λ _, tab_tags) (chats s)) ++
    map js ["button type= class= id= title="; "/button"]%string ∧
  shown_text (renderTabs s) =
    concat (map (λ c, s_or (c_title c) new_title ++ js "×") (chats s)) ++ js "+".
Proof.
  intros H. apply fragment_spec. unfold renderTabs. eapply (piece_app _ _ MText); [|piece_fix].
  apply (fragment_concat (tab_html s) (λ _, tab_tags)).
  intros c Hc. apply tab_fragment. unfold ids_plain in H. rewrite Forall_forall in H. by apply H.
Qed.

Lemma last_finished f l : ∃ m, last (finished f l) = Some m ∧ m_pending m = VBool false.
Proof.
  unfold finished. destruct (last_assistant l) as [[b m]|]; eexists; (split; [apply last_snoc|done]).
Qed.

(** C29: The queue panel follows the generations: a busy chat is listed; when its
    generation finishes it is listed no longer, and nothing else about who is
    listed changes. *)
Theorem queue_panel_follows quota id f s c :
  page_ok s → chatById id s = Some c →
  let listed s := map qd_id (queue_jobs s) in
  let s' := page_finishAssistant quota id f s in
  (c_busy c = true → id ∈ listed s) ∧ id ∉ listed s' ∧
  (∀ id', id' ≠ id → id' ∈ listed s' ↔ id' ∈ listed s).
Proof.
  intros H Hc listed s'. assert (page_ok s') as H' by by apply finishAssistant_ok.
  assert (∀ i, i ∈ listed s ↔ in_queue i s = true) as E by (intros i; by apply queue_jobs_ids, page_ids).
  assert (∀ i, i ∈ listed s' ↔ in_queue i s' = true) as E' by (intros i; by apply queue_jobs_ids, page_ids).
  rewrite E, E'. split_and!.
  - intros Hb. unfold in_queue, page_view. by rewrite Hc, Hb.
  - unfold in_queue, s'. rewrite (view_finish_own quota id f s c) by done.
    destruct (last_finished f (arr (c_msgs c) s)) as (m & -> & ->). done.
  - intros id' Hne. rewrite E, E'. unfold in_queue, s'. by rewrite view_finishAssistant.
Qed.

(** The history names every message, in order. *)
Lemma history_lines s h :
  renderHist s = Some h → length (h_items h) = length (arr (messages s) s).
Proof.
  unfold renderHist. destruct (mapM id _) as [items|] eqn:E; [|done]. intros [= <-]. cbn.
  apply mapM_Some_1, Forall2_length in E. by rewrite <- E, length_imap.
Qed.

(** ** Two tabs, the first one generating *)

Lemma demo_ids_plain : ids_plain demo_tabs.
Proof. unfold ids_plain. apply (bool_decide_unpack _). vm_compute. exact I. Qed.

Lemma tab_bar_safe_witness : shown_text (renderTabs demo_tabs) = js "hello×Новый чат×+".
Proof. rewrite (proj2 (tab_bar_safe demo_tabs demo_ids_plain)). vm_compute. reflexivity. Defined.

Lemma queue_panel_follows_witness :
  js "c1" ∈ map qd_id (queue_jobs demo_tabs) ∧
  js "c1" ∉ map qd_id (queue_jobs
    (page_finishAssistant any_quota (js "c1") (text_fields (js "hi")) demo_tabs)).
Proof.
  destruct (chatById (js "c1") demo_tabs) as [c|] eqn:Ec; [|vm_compute in Ec; discriminate].
  destruct (queue_panel_follows any_quota (js "c1") (text_fields (js "hi")) demo_tabs c) as (H1 & H2 & _).
  - exact demo_tabs_ok.
  - exact Ec.
  - split; [apply H1|exact H2]. vm_compute in Ec. injection Ec as <-. reflexivity.
Defined.

(** An id with markup in it would become markup of the page. *)
Example tab_id_unescaped :
  js "b" ∈ tags (renderTabs (newChat any_quota (html "'><b>") (blank_page demo_models None))).
Proof. apply (bool_decide_unpack _). vm_compute. exact I. Qed.
