(* ===== verification/ChatSave.v ===== *)
(** * The playground's chats: reading them back

    app.js lines 1354-1393: [restore], which runs once when the page starts.  It
    reads what [persist] wrote ([ChatStore.pack]), or the single thread an older
    version left in [sessionStorage], or opens a first chat.  Stored text that
    is no JSON opens a first chat too; JSON of another shape than the two the
    code ever wrote is not modelled ([read_bag] and [read_thread] are [None]). *)

From S2P Require Import Prelude JsString JsNumber JsValue JsJson Html ChatSink ChatMode ChatStore ChatInv ChatProps ChatPanels.
Open Scope nat_scope.

(** ** Objects of the stored shape *)

Definition member_of (k : string) (kv : list (jstr * val)) : val := default VUndef (assoc (js k) kv).
Definition as_str (v : val) : option jstr := match v with VStr s => Some s | _ => None end.

Definition read_msg (v : val) : option msg :=
  match v with
  | VObj kv =>
    role ← as_str (member_of "role" kv);
    Some (Msg role (member_of "content" kv) (member_of "think" kv) (member_of "image" kv)
            (member_of "video" kv) (member_of "hadImage" kv) (member_of "pending" kv))
  | _ => None
  end.

(** [x.messages || []]. *)
Definition read_msgs (v : val) : option (list msg) :=
  if truthy v then match v with VArr l => mapM read_msg l | _ => None end else Some [].

(** A stored chat: no busy flag, no controller, no kind. *)
Record loaded := Loaded {
  ld_id : jstr; ld_title : jstr; ld_msgs : list msg; ld_model : jstr; ld_mode : jstr; ld_updated : val;
}.
Definition read_chat (v : val) : option loaded :=
  match v with
  | VObj kv =>
    id ← as_str (member_of "id" kv); title ← as_str (member_of "title" kv);
    model ← as_str (member_of "model" kv); mode ← as_str (member_of "mode" kv);
    msgs ← read_msgs (member_of "messages" kv);
    Some (Loaded id title msgs model mode (member_of "updated" kv))
  | _ => None
  end.

(** [bag.chats || []] and [bag.active]. *)
Definition read_bag (v : val) : option (jstr * list loaded) :=
  match v with
  | VObj kv =>
    active ← (if truthy (member_of "active" kv) then as_str (member_of "active" kv) else Some []);
    l ← (if truthy (member_of "chats" kv)
         then match member_of "chats" kv with VArr l => mapM read_chat l | _ => None end
         else Some []);
    Some (active, l)
  | _ => None
  end.

(** The single thread of the older version: its messages, model and mode; a
    model or mode that is missing counts as empty. *)
Definition str_or_empty (v : val) : option jstr := if truthy v then as_str v else Some [].
Definition read_thread (v : val) : option (list msg * jstr * jstr) :=
  match v with
  | VObj kv =>
    msgs ← read_msgs (member_of "messages" kv);
    model ← str_or_empty (member_of "model" kv); mode ← str_or_empty (member_of "mode" kv);
    Some (msgs, model, mode)
  | _ => None
  end.

(** ** [restore] *)

(** Each chat gets an array of its own. *)
Definition load_chat (c : loaded) (s : page) : page :=
  let '(a, s) := alloc s in
  set_chats (chats s ++ [Chat (ld_id c) (ld_title c) a (ld_model c) (ld_mode c) (ld_updated c) false None []])
    (set_arr a (ld_msgs c) s).
Definition load_chats (l : list loaded) (s : page) : page := foldl (λ s c, load_chat c s) s l.

(** Showing a chat without storing: lines 1383-1389. *)
Definition open_chat (c : chat) (s : page) : page :=
  let s := set_active (c_id c) (c_msgs c) s in
  paintThread (page_filter (set_ui (chat_selects c (ui s)) (refs s) s)).

Definition restore_bag (quota : jstr → bool) (fresh active : jstr) (l : list loaded) (s : page) : page :=
  match l with
  | [] => newChat quota fresh (set_chats [] (set_active active (messages s) s))
  | first :: _ =>
    let s := load_chats l (set_chats [] s) in
    let wanted := s_or active (ld_id first) in
    match find_last wanted (chats s), chats s with
    | Some c, _ => open_chat c s
    | None, c :: _ => open_chat c s
    | None, [] => s
    end
  end.

(** The thread becomes chat "c0"; its model is kept but not selected. *)
Definition restore_thread (msgs : list msg) (model mode : jstr) (s : page) : page :=
  let s := load_chat (Loaded (js "c0") (chatTitle msgs) msgs model mode
                        (VNum (num_of_Z (clock s)))) (set_chats [] s) in
  match chats s with
  | c :: _ =>
    let s := set_active (c_id c) (c_msgs c) s in
    paintThread (page_filter (set_ui (set_if mode set_mode_value (ui s)) (refs s) s))
  | [] => s
  end.

(** [thread] is [sessionStorage]'s text, [fresh] the id a new chat would get;
    [None] for stored JSON of another shape. *)
Definition restore (quota : jstr → bool) (thread : option jstr) (fresh : jstr) (s : page) : option page :=
  match default [] (store s) with
  | [] =>
    match default [] thread with
    | [] => Some (newChat quota fresh s)
    | t =>
      match JSON_parse t with
      | None => Some (newChat quota fresh s)
      | Some data => '(msgs, model, mode) ← read_thread data; Some (restore_thread msgs model mode s)
      end
    end
  | raw =>
    match JSON_parse raw with
    | None => Some (newChat quota fresh s)
    | Some bag => '(active, l) ← read_bag bag; Some (restore_bag quota fresh active l s)
    end
  end.

(** The start of the page: lines 1913-1914. *)
Definition start_chats (quota : jstr → bool) (thread : option jstr) (fresh : jstr) (s : page) : option page :=
  page_sync <$> restore quota thread fresh s.

(** ** What is stored *)

Definition stored_msg (withImage : bool) (m : msg) : msg :=
  Msg (m_role m) (match m_content m with VStr t => VStr t | _ => VStr [] end)
    (v_or (m_think m) (VStr []))
    (if withImage && truthy (m_image m) then m_image m else VUndef)
    (if truthy (m_video m) then m_video m else VUndef)
    (VBool (truthy (m_image m) || truthy (m_hadImage m))) (VBool (truthy (m_pending m))).

(** A chat with its messages in place of their address. *)
Definition describe (s : page) (c : chat) : loaded :=
  Loaded (c_id c) (c_title c) (arr (c_msgs c) s) (c_model c) (c_mode c) (c_updated c).
Definition stored_chat (withImage : bool) (s : page) (c : chat) : loaded :=
  Loaded (c_id c) (c_title c) (map (stored_msg withImage) (arr (c_msgs c) s))
    (c_model c) (c_mode c) (c_updated c).

Lemma read_saved_row w m : read_msg (saved_row w m) = Some (stored_msg w m).
Proof.
  unfold saved_row, stored_msg, read_msg, member_of.
  destruct (w && truthy (m_image m)), (truthy (m_video m)); reflexivity.
Qed.

Lemma mapM_total {A B C} (f : A → B) (g : B → option C) (h : A → C) (l : list A) :
  (∀ x, g (f x) = Some (h x)) → mapM g (map f l) = Some (map h l).
Proof. intros H. induction l as [|x l IH]; [done|]. cbn. rewrite H. cbn. by rewrite IH. Qed.

Lemma read_saved_chat w s c : read_chat (saved_chat w s c) = Some (stored_chat w s c).
Proof.
  unfold saved_chat, read_chat, stored_chat.
  match goal with |- context [member_of "id" ?kv] =>
    assert (member_of "id" kv = VStr (c_id c)) as -> by reflexivity;
    assert (member_of "title" kv = VStr (c_title c)) as -> by reflexivity;
    assert (member_of "model" kv = VStr (c_model c)) as -> by reflexivity;
    assert (member_of "mode" kv = VStr (c_mode c)) as -> by reflexivity;
    assert (member_of "updated" kv = c_updated c) as -> by reflexivity;
    assert (member_of "messages" kv = VArr (map (saved_row w) (arr (c_msgs c) s))) as -> by reflexivity
  end.
  cbn [as_str mbind option_bind]. unfold read_msgs. cbn [truthy].
  by rewrite (mapM_total _ _ (stored_msg w)) by apply read_saved_row.
Qed.

Lemma read_pack w s :
  read_bag (pack w s) = Some (activeId s, map (stored_chat w s) (chats s)).
Proof.
  unfold pack, read_bag.
  match goal with |- context [member_of "active" ?kv] =>
    assert (member_of "active" kv = VStr (activeId s)) as -> by reflexivity;
    assert (member_of "chats" kv = VArr (map (saved_chat w s) (chats s))) as -> by reflexivity
  end.
  cbn [truthy as_str]. rewrite (mapM_total _ _ (stored_chat w s)) by apply read_saved_chat.
  by destruct (activeId s).
Qed.

#[export] Instance wf_unit_dec c : Decision (wf_unit c).
Proof. unfold wf_unit. apply _. Defined.

(** *** Values JSON keeps *)

Definition keeps (v : val) : Prop := truthy v = true → wf_json v.
Record msg_keeps (m : msg) : Prop := MsgKeeps {
  mk_role : wf_str (m_role m);
  mk_content : ∀ t, m_content m = VStr t → wf_str t;
  mk_think : keeps (m_think m);
  mk_image : keeps (m_image m);
  mk_video : keeps (m_video m);
}.
Record chat_keeps (s : page) (c : chat) : Prop := ChatKeeps {
  ck_id : wf_str (c_id c); ck_title : wf_str (c_title c); ck_model : wf_str (c_model c);
  ck_mode : wf_str (c_mode c); ck_updated : wf_json (c_updated c);
  ck_msgs : Forall msg_keeps (arr (c_msgs c) s);
}.
Definition page_keeps (s : page) : Prop :=
  wf_str (activeId s) ∧ Forall (chat_keeps s) (chats s).

(** An object with fixed keys. *)
Lemma wf_fixed kv :
  bool_decide (NoDup kv.*1 ∧ Forall wf_str kv.*1 ∧ Forall (λ k, array_index k = None) kv.*1) = true →
  Forall wf_json kv.*2 → wf_json (VObj kv).
Proof. intros (H1 & H2 & H3)%bool_decide_eq_true H. by apply wf_obj. Qed.

Lemma keeps_or v : keeps v → wf_json (v_or v (VStr [])).
Proof. unfold keeps, v_or. destruct (truthy v); [auto|]. intros _. by apply wf_string. Qed.

Lemma wf_saved_row w m : msg_keeps m → wf_json (saved_row w m).
Proof.
  intros [H1 H2 H3 H4 H5]. unfold saved_row.
  assert (wf_json (match m_content m with VStr t => VStr t | _ => VStr [] end)) as Hc.
  { destruct (m_content m); try (by apply wf_string). apply wf_string. by apply H2. }
  apply wf_fixed.
  { destruct (w && truthy (m_image m)), (truthy (m_video m)); vm_compute; reflexivity. }
  rewrite !fmap_app. apply Forall_app. split.
  { repeat (apply Forall_cons; split); [by apply wf_string|done|by apply keeps_or|apply wf_bool..|done]. }
  apply Forall_app. split.
  - destruct w; [|done]. unfold keeps in H4. destruct (truthy (m_image m)) eqn:E; [|done].
    apply Forall_singleton. cbn. by apply H4.
  - unfold keeps in H5. destruct (truthy (m_video m)) eqn:E; [|done].
    apply Forall_singleton. cbn. by apply H5.
Qed.

Lemma wf_map {A} (f : A → val) l : Forall (λ x, wf_json (f x)) l → wf_json (VArr (map f l)).
Proof. intros H. apply wf_arr. by apply Forall_fmap. Qed.

Lemma wf_pack w s : page_keeps s → wf_json (pack w s).
Proof.
  intros [Ha Hc]. unfold pack. apply wf_fixed; [vm_compute; reflexivity|].
  repeat (apply Forall_cons; split); [by apply wf_string| |done].
  apply wf_map. eapply Forall_impl; [exact Hc|]. intros c [H1 H2 H3 H4 H5 H6].
  unfold saved_chat. apply wf_fixed; [vm_compute; reflexivity|].
  repeat (apply Forall_cons; split); [by apply wf_string..|done| |done].
  apply wf_map. eapply Forall_impl; [exact H6|]. apply wf_saved_row.
Qed.

(** ** What is read back *)

Definition arrays_below (s : page) : Prop := Forall (λ c, c_msgs c < next_addr s) (chats s).

Lemma load_chats_cons c l s : load_chats (c :: l) s = load_chats l (load_chat c s).
Proof. done. Qed.

Lemma load_chat_spec c s :
  arrays_below s →
  let s' := load_chat c s in
  arrays_below s' ∧ next_addr s' = S (next_addr s) ∧ send_off s' = send_off s ∧
  cores s' = cores s ++ [Core (ld_id c) (next_addr s) false None] ∧
  map (describe s') (chats s') = map (describe s) (chats s) ++ [c].
Proof.
  intros H s'. unfold arrays_below in *. split_and!; [|done|done| |].
  - unfold s', load_chat. cbn. apply Forall_app. split; [|apply Forall_singleton; cbn; lia].
    eapply Forall_impl; [exact H|]. cbn. lia.
  - unfold cores, s', load_chat. cbn. by rewrite map_app.
  - unfold s', load_chat. cbn [alloc chats set_chats set_arr set_heap]. rewrite map_app. f_equal.
    + apply map_ext_in. intros x Hx%list_elem_of_In. rewrite Forall_forall in H. specialize (H x Hx).
      unfold describe. f_equal. unfold arr. cbn. by rewrite !lookup_insert_ne by lia.
    + cbn. f_equal. destruct c. unfold describe, arr. cbn. by rewrite lookup_insert_eq.
Qed.

Lemma load_chats_spec l s :
  arrays_below s → tabs_ok (cores s) (next_addr s) → NoDup (map k_id (cores s) ++ map ld_id l) →
  let s' := load_chats l s in
  tabs_ok (cores s') (next_addr s') ∧ send_off s' = send_off s ∧
  map c_busy (chats s') = map c_busy (chats s) ++ map (λ _, false) l ∧
  map (describe s') (chats s') = map (describe s) (chats s) ++ l.
Proof.
  revert s. induction l as [|c l IH]; intros s Hb Ht Hnd.
  { cbn. by rewrite !app_nil_r. }
  destruct (load_chat_spec c s Hb) as (B & N & O & C & D). rewrite load_chats_cons.
  destruct (IH (load_chat c s)) as (T & O' & U & D').
  - done.
  - rewrite C, N. apply (tabs_add _ (next_addr s)); [done| |lia|lia].
    apply NoDup_app in Hnd as (_ & Hd & _). intros Hin. apply (Hd _ Hin), elem_of_cons. by left.
  - rewrite C, map_app, <- app_assoc. exact Hnd.
  - split_and!; [done|by rewrite O', O| |].
    + rewrite U. unfold load_chat. cbn. rewrite map_app, <- app_assoc. done.
    + by rewrite D', D, <- app_assoc.
Qed.

(** Showing a loaded chat. *)
Lemma open_chat_ok c s :
  tabs_ok (cores s) (next_addr s) → c ∈ chats s → c_busy c = send_off s →
  page_ok (open_chat c s) ∧ activeId (open_chat c s) = c_id c ∧
  chats (open_chat c s) = chats s ∧ heap (open_chat c s) = heap s.
Proof.
  intros Ht Hc Hb. split_and!; [|done..]. unfold page_ok.
  change (skel (open_chat c s)) with (Skeleton (cores s) (c_id c) (c_msgs c) (next_addr s) (send_off s)).
  rewrite <- Hb. apply (skel_select _ _ (core_of c)); [done|by apply core_elem].
Qed.

Lemma describe_same s s' : heap s' = heap s → describe s' = describe s.
Proof. intros H. unfold describe, arr. by rewrite H. Qed.

Lemma find_last_some (id : jstr) l : id ∈ map c_id l → ∃ c, find_last id l = Some c ∧ c ∈ l ∧ c_id c = id.
Proof.
  intros (c & Ec & Hc)%list_elem_of_In%in_map_iff. unfold find_last.
  destruct (List.find (λ c, bool_decide (c_id c = id)) (reverse l)) as [x|] eqn:E.
  - exists x. split; [done|]. apply List.find_some in E as [Hx Hb]. apply bool_decide_eq_true in Hb.
    split; [|done]. apply list_elem_of_In in Hx. by rewrite elem_of_reverse in Hx.
  - exfalso. apply (List.find_none _ _) with (x := c) in E.
    + by rewrite bool_decide_eq_true_2 in E.
    + apply list_elem_of_In, elem_of_reverse. by apply list_elem_of_In.
Qed.

(** A stored list of chats with distinct ids, one of them active. *)
Lemma restore_bag_spec quota fresh active l u stored :
  NoDup (map ld_id l) → active ∈ map ld_id l → truthy_s active = true →
  let s' := restore_bag quota fresh active l (blank_page u stored) in
  page_ok s' ∧ activeId s' = active ∧ map (describe s') (chats s') = l ∧
  Forall (λ c, c_busy c = false) (chats s') ∧ sent s' = [] ∧ last_ac s' = None.
Proof.
  intros Hnd Ha Hact. destruct l as [|first l0]; [by apply elem_of_nil in Ha|].
  cbv zeta. unfold restore_bag.
  change (set_chats [] (blank_page u stored)) with (blank_page u stored).
  destruct (load_chats_spec (first :: l0) (blank_page u stored)) as (T & O & U & D);
    [by constructor|apply blank_settled|exact Hnd|].
  assert (sent (load_chats (first :: l0) (blank_page u stored)) = [] ∧
          last_ac (load_chats (first :: l0) (blank_page u stored)) = None) as [S0 L0].
  { assert (∀ k s, sent (load_chats k s) = sent s ∧ last_ac (load_chats k s) = last_ac s) as H;
      [|by apply H].
    induction k as [|c k IH]; intros s; [done|]. rewrite load_chats_cons. by destruct (IH (load_chat c s)) as [-> ->]. }
  set (s := load_chats (first :: l0) (blank_page u stored)) in *. clearbody s. cbn [map app chats blank_page] in U, D.
  assert (map c_id (chats s) = map ld_id (first :: l0)) as Ei.
  { rewrite <- D, map_map. by apply map_ext. }
  assert (s_or active (ld_id first) = active) as -> by by destruct active.
  destruct (find_last_some active (chats s)) as (c & -> & Hc & Eid); [by rewrite Ei|].
  assert (Forall (λ c, c_busy c = false) (chats s)) as Hidle.
  { apply Forall_forall. intros x Hx. apply list_elem_of_In, (in_map c_busy) in Hx. rewrite U in Hx.
    destruct Hx as [<- |Hx]; [done|]. by apply in_map_iff in Hx as (y & <- & _). }
  destruct (open_chat_ok c s) as (P & A & C & Hp); [done|done| |].
  { rewrite O. rewrite Forall_forall in Hidle. by apply Hidle. }
  split_and!; [done|by rewrite A| |by rewrite C|done|done].
  by rewrite C, (describe_same _ _ Hp).
Qed.

(** *** A page stored and read back *)

Lemma persist_text quota s w :
  (if w : bool then quota (JSON_stringify (pack true (snapshotChat s))) = true
   else quota (JSON_stringify (pack true (snapshotChat s))) = false ∧
        quota (JSON_stringify (pack false (snapshotChat s))) = true) →
  store (persist quota s) = Some (JSON_stringify (pack w (snapshotChat s))).
Proof. unfold persist. destruct w; [by intros ->|by intros [-> ->]]. Qed.

Lemma stringify_obj_nonempty kv : JSON_stringify (VObj kv) ≠ [].
Proof. done. Qed.

Lemma reload_spec quota u thread fresh s w :
  page_ok s → truthy_s (activeId s) = true → page_keeps (snapshotChat s) →
  (if w : bool then quota (JSON_stringify (pack true (snapshotChat s))) = true
   else quota (JSON_stringify (pack true (snapshotChat s))) = false ∧
        quota (JSON_stringify (pack false (snapshotChat s))) = true) →
  ∃ s', restore quota thread fresh (blank_page u (store (persist quota s))) = Some s' ∧
    page_ok s' ∧ activeId s' = activeId s ∧
    map (describe s') (chats s') = map (stored_chat w (snapshotChat s)) (chats (snapshotChat s)) ∧
    Forall (λ c, c_busy c = false) (chats s') ∧ sent s' = [] ∧ last_ac s' = None.
Proof.
  intros H Hact Hk Hq. pose proof (wf_pack w _ Hk) as Hwf.
  pose proof (JSON_round_trip _ Hwf) as Hj. pose proof (read_pack w (snapshotChat s)) as Hr.
  rewrite (persist_text quota s w Hq). unfold restore. cbn [store blank_page default].
  assert (JSON_stringify (pack w (snapshotChat s)) ≠ []) as Hne by apply stringify_obj_nonempty.
  clear Hwf Hq. set (text := JSON_stringify (pack w _)) in *. clearbody text.
  destruct text as [|ch text]; [done|]. cbn [from_option id]. rewrite Hj. clear Hj Hne.
  cbn [mbind option_bind]. rewrite Hr. cbn [mbind option_bind]. eexists. split; [reflexivity|].
  assert (map ld_id (map (stored_chat w (snapshotChat s)) (chats (snapshotChat s))) = map k_id (cores s)) as Ei.
  { rewrite map_map. assert (cores (snapshotChat s) = cores s) as <- by by injection (snapshot_same s H).
    by rewrite cores_ids. }
  apply restore_bag_spec; [rewrite Ei; by apply page_ids| |done].
  rewrite Ei. destruct (active_shown _ H) as (k & Hk' & E & _). change (activeId (snapshotChat s)) with (activeId s).
  cbn in E. rewrite <- E. apply list_elem_of_In, in_map. by apply list_elem_of_In.
Qed.

(** Storing what was read back stores the same again. *)
Lemma stored_msg_idem w m : stored_msg w (stored_msg w m) = stored_msg w m.
Proof.
  unfold stored_msg at 1 3. cbn [m_role m_content m_think m_image m_video m_hadImage m_pending stored_msg].
  assert (∀ v, v_or (v_or v (VStr [])) (VStr []) = v_or v (VStr [])) as ->.
  { intros v. unfold v_or. by destruct (truthy v) eqn:E; rewrite ?E. }
  destruct (m_content m), w, (truthy (m_image m)) eqn:Ei, (truthy (m_video m)) eqn:Ev; cbn;
    rewrite ?Ei, ?Ev; done.
Qed.

Lemma read_back_chat s s' w id c :
  map (describe s') (chats s') = map (stored_chat w s) (chats s) → NoDup (map k_id (cores s')) →
  chatById id s = Some c →
  ∃ c', chatById id s' = Some c' ∧ arr (c_msgs c') s' = map (stored_msg w) (arr (c_msgs c) s).
Proof.
  intros E Hnd [Hc Ei]%chatById_elem. subst id.
  assert (stored_chat w s c ∈ map (describe s') (chats s')) as Hin.
  { rewrite E. apply list_elem_of_In, in_map. by apply list_elem_of_In. }
  apply list_elem_of_In, in_map_iff in Hin as (c' & Ec & Hc'). apply list_elem_of_In in Hc'.
  injection Ec as E1 _ E3 _ _ _. exists c'. rewrite <- E1. split; [by apply chatById_in|done].
Qed.

(** ** Properties *)

(** Whether the whole text or only the one without images fits. *)
Definition stored_with (quota : jstr → bool) (w : bool) (s : page) : Prop :=
  if w then quota (JSON_stringify (pack true (snapshotChat s))) = true
  else quota (JSON_stringify (pack true (snapshotChat s))) = false ∧
       quota (JSON_stringify (pack false (snapshotChat s))) = true.

(** C9: Reloading the page brings the chats back: ids, titles, models, modes and
    messages in order, the same tab active; of a message the text, the
    reasoning, the video and (if all fitted into the storage) the image are
    kept, and that there was one in any case.  The page is consistent, nothing
    is busy and nothing is sent. *)
Theorem reload_restores quota u thread fresh s w :
  page_ok s → truthy_s (activeId s) = true → page_keeps (snapshotChat s) → stored_with quota w s →
  ∃ s', restore quota thread fresh (blank_page u (store (persist quota s))) = Some s' ∧
    page_ok s' ∧ activeId s' = activeId s ∧
    map (describe s') (chats s') = map (stored_chat w (snapshotChat s)) (chats (snapshotChat s)) ∧
    Forall (λ c, c_busy c = false) (chats s') ∧ sent s' = [].
Proof.
  intros H Ha Hk Hq. destruct (reload_spec quota u thread fresh s w H Ha Hk Hq)
    as (s' & E & P & A & D & B & S & _). by exists s'.
Qed.

(** A generation interrupted by a reload is listed for ever: its message is
    stored as pending, so after the reload the queue panel lists the chat,
    although nothing is busy, nothing was sent, and the stop button does
    nothing. *)
Theorem reload_leaves_phantom quota u thread fresh s w id c m :
  page_ok s → truthy_s (activeId s) = true → page_keeps (snapshotChat s) → stored_with quota w s →
  chatById id s = Some c → last (arr (c_msgs c) s) = Some m → truthy (m_pending m) = true →
  ∃ s', restore quota thread fresh (blank_page u (store (persist quota s))) = Some s' ∧
    id ∈ map qd_id (queue_jobs s') ∧ Forall (λ c, c_busy c = false) (chats s') ∧
    sent s' = [] ∧ stop_click s' = s'.
Proof.
  intros H Ha Hk Hq Hc Hl Hp. destruct (reload_spec quota u thread fresh s w H Ha Hk Hq)
    as (s' & E & P & A & D & B & S & L).
  exists s'. split; [done|].
  pose proof (view_snapshot id s (page_ok_aligned s H)) as Hv. unfold page_view in Hv. rewrite Hc in Hv.
  destruct (chatById id (snapshotChat s)) as [c1|] eqn:Ec1; [|done]. injection Hv as Earr _ _ _.
  destruct (read_back_chat (snapshotChat s) s' w id c1) as (c' & Ec' & Earr'); [done|by apply page_ids|done|].
  split_and!; [|done|done|].
  - apply queue_jobs_ids; [by apply page_ids|]. unfold in_queue, page_view.
    rewrite Ec', Earr', Earr. change (map ?f ?l) with (f <$> l). rewrite fmap_last, Hl. cbn.
    rewrite Hp. apply orb_true_r.
  - unfold stop_click. rewrite L. destruct (chatById (activeId s') s') as [a|] eqn:Ea; [|done].
    apply chatById_elem in Ea as [Hin _]. rewrite Forall_forall in B. pose proof (B a Hin) as Hb.
    pose proof (busy_owned _ _ (skel_tabs _ P) (core_of a) (core_elem _ _ Hin)) as Ho. cbn in Ho.
    cbn. destruct (c_ac a) as [n|]; [|done]. exfalso. rewrite Hb in Ho. by destruct Ho as [_ Ho]; discriminate Ho.
Qed.

(** ** A reload while the first of two tabs generates *)

(** A check that decides [page_keeps] on pages whose values are simple. *)
Definition wf_strb (t : jstr) : bool := forallb (λ c, (0 <=? c) && (c <? 65536))%Z t.
Definition simple_value (v : val) : bool :=
  match v with
  | VNull | VBool _ => true
  | VStr t => wf_strb t
  | VNum (Fin q) => bool_decide (Fin q = num_of_Z (QArith_base.Qnum q)) &&
                    (Z.abs (QArith_base.Qnum q) <=? max_safe)%Z
  | _ => false
  end.
Definition keepsb (v : val) : bool := negb (truthy v) || simple_value v.
Definition msg_keepsb (m : msg) : bool :=
  wf_strb (m_role m) && match m_content m with VStr t => wf_strb t | _ => true end &&
  keepsb (m_think m) && keepsb (m_image m) && keepsb (m_video m).
Definition chat_keepsb (s : page) (c : chat) : bool :=
  wf_strb (c_id c) && wf_strb (c_title c) && wf_strb (c_model c) && wf_strb (c_mode c) &&
  simple_value (c_updated c) && forallb msg_keepsb (arr (c_msgs c) s).
Definition page_keepsb (s : page) : bool :=
  wf_strb (activeId s) && forallb (chat_keepsb s) (chats s).

Lemma wf_strb_true t : wf_strb t = true → wf_str t.
Proof.
  unfold wf_strb. rewrite forallb_forall. intros H. apply Forall_forall. intros c Hc%list_elem_of_In%H.
  unfold wf_unit. lia.
Qed.
Lemma simple_value_true v : simple_value v = true → wf_json v.
Proof.
  destruct v as [| |b|[| |q]|t| |]; try done; cbn [simple_value]; intros H; try by constructor.
  - apply andb_true_iff in H as [H1%bool_decide_eq_true H2]. rewrite H1. apply wf_num. lia.
  - by apply wf_string, wf_strb_true.
Qed.
Lemma keepsb_true v : keepsb v = true → keeps v.
Proof. unfold keepsb, keeps. intros H Ht. rewrite Ht in H. by apply simple_value_true. Qed.

Lemma page_keepsb_true s : page_keepsb s = true → page_keeps s.
Proof.
  intros [Ha Hc]%andb_true_iff. split; [by apply wf_strb_true|].
  apply Forall_forall. intros c Hin. rewrite forallb_forall in Hc. apply list_elem_of_In, Hc in Hin.
  unfold chat_keepsb in Hin. rewrite !andb_true_iff in Hin.
  destruct Hin as [[[[[H1 H2] H3] H4] H5] H6].
  split; [by apply wf_strb_true..|by apply simple_value_true|].
  apply Forall_forall. intros m Hm. rewrite forallb_forall in H6. apply list_elem_of_In, H6 in Hm.
  unfold msg_keepsb in Hm. rewrite !andb_true_iff in Hm. destruct Hm as [[[[G1 G2] G3] G4] G5].
  split; [by apply wf_strb_true| |by apply keepsb_true..].
  intros t Et. rewrite Et in G2. by apply wf_strb_true.
Qed.

Lemma demo_keeps : page_keeps (snapshotChat demo_tabs).
Proof. apply page_keepsb_true. vm_compute. reflexivity. Qed.

Lemma reload_restores_witness :
  ∃ s', restore any_quota None (js "c9") (blank_page demo_models (store (persist any_quota demo_tabs))) = Some s' ∧
    map ld_title (map (describe s') (chats s')) = [js "hello"; js "Новый чат"].
Proof.
  destruct (reload_restores any_quota demo_models None (js "c9") demo_tabs true) as (s' & E & _ & _ & D & _).
  - exact demo_tabs_ok.
  - vm_compute. reflexivity.
  - exact demo_keeps.
  - reflexivity.
  - exists s'. split; [exact E|]. rewrite D. vm_compute. reflexivity.
Defined.

Lemma reload_leaves_phantom_witness :
  ∃ s', restore any_quota None (js "c9") (blank_page demo_models (store (persist any_quota demo_tabs))) = Some s' ∧
    js "c1" ∈ map qd_id (queue_jobs s') ∧ stop_click s' = s'.
Proof.
  destruct (chatById (js "c1") demo_tabs) as [c|] eqn:Ec; [|vm_compute in Ec; discriminate].
  destruct (reload_leaves_phantom any_quota demo_models None (js "c9") demo_tabs true (js "c1") c pending_msg)
    as (s' & E & Q & _ & _ & St).
  - exact demo_tabs_ok.
  - vm_compute. reflexivity.
  - exact demo_keeps.
  - reflexivity.
  - exact Ec.
  - vm_compute in Ec. injection Ec as <-. vm_compute. reflexivity.
  - reflexivity.
  - exists s'. split; [exact E|]. split; [exact Q|exact St].
Defined.
