(* ===== verification/MediaRequest.v ===== *)
(** * From the parameter panel to the request

    What [ChatStore.runMedia] sends of the values [ChatParams.collectExtraParams]
    reads (app.js lines 1746-1760): the two components composed. *)

From S2P Require Import Prelude JsString JsNumber JsValue ChatSink ChatMode ChatStore ChatInv ChatProps ChatParams.
Open Scope nat_scope.

(** ** Objects as maps *)

(** [Object.keys(extra).forEach(k => payload[k] = extra[k])]. *)
Lemma assoc_merge {A} k (p l : list (jstr * A)) :
  NoDup l.*1 →
  assoc k (foldl (λ p e, obj_set e.1 e.2 p) p l) =
    match assoc k l with Some v => Some v | None => assoc k p end.
Proof.
  revert p. induction l as [|[k' a] l IH]; intros p Hnd; [done|].
  cbn in Hnd. apply NoDup_cons in Hnd as [Hk Hnd]. cbn [foldl]. rewrite IH by done. cbn.
  destruct (bool_decide_reflect (k = k')) as [->|Hne].
  - rewrite (proj2 (assoc_None k' l)) by done. rewrite assoc_obj_set. by rewrite bool_decide_true.
  - destruct (assoc k l); [done|]. rewrite assoc_obj_set. by rewrite bool_decide_false.
Qed.

Lemma assoc_set_default_same k v absent kv :
  assoc k (set_default k v absent kv) =
    if absent (default VUndef (assoc k kv)) then Some v else assoc k kv.
Proof.
  unfold set_default. destruct (absent _); [|done]. rewrite assoc_obj_set. by rewrite bool_decide_true.
Qed.

(** ** The request of a generation in the chat shown *)

Definition media_url (video : bool) : jstr := if video then js "/admin/videos" else js "/admin/images".

Lemma runMedia_active video text extra s c :
  chatById (activeId s) s = Some c →
  ∃ n msgs, sent (runMedia video text (activeId s) extra s) = sent s ++
    [Request (activeId s) n (media_url video) (payload video (model_value (ui s)) text msgs extra (refs s))].
Proof.
  intros Hc. unfold runMedia. rewrite Hc. unfold setChatBusy.
  change (activeId (update_chat (activeId s) (chat_busy true) s)) with (activeId s).
  rewrite (bool_decide_eq_true_2 (activeId s = activeId s)) by done. cbv zeta.
  change (activeId (set_off true (update_chat (activeId s) (chat_busy true) s))) with (activeId s).
  rewrite (bool_decide_eq_true_2 (activeId s = activeId s)) by done.
  match goal with |- context [bool_decide (activeId s = activeId ?x)] =>
    change (activeId x) with (activeId s) end.
  rewrite (bool_decide_eq_true_2 (activeId s = activeId s)) by done.
  eexists _, _. reflexivity.
Qed.

(** The panel's part of a request, before the attached images. *)
Definition image_keys : list jstr := map js ["input_image"; "input_images"; "input_references"]%string.

Lemma image_keys_set k r (p : list (jstr * val)) :
  k ∉ image_keys →
  assoc k (match r with
           | [] => p
           | u :: _ => obj_set (js "input_references") (ref_objects r)
                         (obj_set (js "input_images") (VArr (map VStr r)) (obj_set (js "input_image") (VStr u) p))
           end) = assoc k p.
Proof.
  intros Hk. destruct r as [|u r]; [done|]. rewrite !assoc_obj_set.
  unfold image_keys in Hk. cbn [map] in Hk.
  rewrite !bool_decide_eq_false_2; [done|intros ->; apply Hk..]; [left|right; left|right; right; left].
Qed.

(** A value the panel gives is defined: no default replaces it but that of a
    size that is zero or false. *)
Lemma collected_defined rows name v :
  (name, v) ∈ collectExtraParams rows → nullish_or_empty v = false.
Proof.
  intros (r & _ & _ & Ht%row_value_typed)%collect_elem. unfold typed_value in Ht.
  destruct (rw_field r); [done|..]; try (by subst v);
    (destruct (is_integer_type _); [by destruct Ht as (z & ->)|]);
    (destruct (is_float_type _); [by destruct Ht as (x & -> & _)|]);
    destruct Ht as ([|c t] & -> & Hn & _); done.
Qed.

(** The three defaults (lines 1751-1753). *)
Definition with_defaults (video : bool) (p : list (jstr * val)) : list (jstr * val) :=
  let p := set_default (js "n") (VNum (num_of_Z 1)) is_nullish p in
  let p := set_default (js "size") (VStr (if video then js "720x1280" else js "1024x1024")) falsy p in
  if video then set_default (js "seconds") (VStr (js "4")) nullish_or_empty p else p.

Definition own_fields (model : jstr) (text : val) (msgs : list msg) : list (jstr * val) :=
  [(js "model", VStr model); (js "prompt", text);
   (js "messages", VArr (map (λ m, VObj [(js "role", VStr (m_role m)); (js "content", m_content m)])
                          (List.filter (λ m, negb (truthy (m_pending m))) msgs)))].
Definition merged (model : jstr) (text : val) (msgs : list msg) (extra : list (jstr * val)) : list (jstr * val) :=
  foldl (λ p e, obj_set e.1 e.2 p) (own_fields model text msgs) (own_entries extra).

Lemma payload_outside k video model text msgs extra r :
  k ∉ image_keys →
  assoc k (payload video model text msgs extra r) = assoc k (with_defaults video (merged model text msgs extra)).
Proof. intros Hk. apply (image_keys_set k r (with_defaults video (merged model text msgs extra)) Hk). Qed.

Lemma merged_lookup k model text msgs extra :
  NoDup extra.*1 →
  assoc k (merged model text msgs extra) =
    match assoc k extra with Some v => Some v | None => assoc k (own_fields model text msgs) end.
Proof.
  intros Hnd. unfold merged. rewrite assoc_merge by (by rewrite own_entries_perm).
  rewrite (assoc_perm k (own_entries extra) extra); [done|by rewrite own_entries_perm|apply own_entries_perm].
Qed.

Lemma set_default_keeps k k' v absent p w :
  assoc k p = Some w → (k = k' → absent w = false) → assoc k (set_default k' v absent p) = Some w.
Proof.
  intros Hk Ha. destruct (decide (k = k')) as [->|Hne].
  - rewrite assoc_set_default_same, Hk. cbn. by rewrite Ha.
  - by rewrite assoc_set_default.
Qed.

Lemma defaults_keep k video p w :
  assoc k p = Some w → nullish_or_empty w = false → (k = js "size" → truthy w = true) →
  assoc k (with_defaults video p) = Some w.
Proof.
  intros Hk Hn Hs. unfold with_defaults. cbv zeta.
  assert (H2 : assoc k (set_default (js "size") (VStr (if video then js "720x1280" else js "1024x1024")) falsy
            (set_default (js "n") (VNum (num_of_Z 1)) is_nullish p)) = Some w).
  { apply set_default_keeps; [apply set_default_keeps; [done|]|].
    - intros _. unfold nullish_or_empty in Hn. by destruct (is_nullish w).
    - intros E. unfold falsy. by rewrite Hs. }
  destruct video; [|done]. by apply set_default_keeps.
Qed.

(** ** Properties *)

(** C17: What the panel gives reaches the request.  Whatever the user puts into the
    fields rendered for a schema, the request of a generation in the chat that
    is shown carries the selected model and the prompt, one image or video, a
    size, every collected value under its name (a size that is zero or false
    apart, and the attached images replacing image fields), and the attached
    images. *)
Theorem panel_reaches_request builtin E sc rows video text s c :
  map row_shape rows = map row_shape (render_rows builtin E sc) →
  chatById (activeId s) s = Some c →
  let extra := collectExtraParams rows in
  ∃ n body, sent (runMedia video text (activeId s) extra s) = sent s ++ [Request (activeId s) n (media_url video) body] ∧
    assoc (js "model") body = Some (VStr (model_value (ui s))) ∧
    assoc (js "prompt") body = Some text ∧
    assoc (js "n") body = Some (VNum (num_of_Z 1)) ∧
    (∀ name v, (name, v) ∈ extra → name ∉ image_keys → (name = js "size" → truthy v = true) →
       assoc name body = Some v) ∧
    (∀ u r, refs s = u :: r → assoc (js "input_image") body = Some (VStr u) ∧
       assoc (js "input_images") body = Some (VArr (map VStr (refs s)))).
Proof.
  intros Hs Hc extra. destruct (runMedia_active video text extra s c Hc) as (n & msgs & He).
  eexists n, _. split; [exact He|]. clear He.
  pose proof (collect_NoDup rows) as Hnd. fold extra in Hnd.
  assert (Hskip : ∀ k, skipParam k = true → assoc k extra = None) by (intros k; by eapply collect_no_skip).
  assert (Hother : ∀ k, k ∉ image_keys → k ≠ js "n" → k ≠ js "size" → k ≠ js "seconds" →
    assoc k extra = None →
    assoc k (payload video (model_value (ui s)) text msgs extra (refs s)) =
      assoc k (own_fields (model_value (ui s)) text msgs)).
  { intros k Hk H1 H2 H3 Hx. rewrite payload_outside by done. unfold with_defaults. cbv zeta.
    destruct video; rewrite !assoc_set_default by done; rewrite merged_lookup by done; by rewrite Hx. }
  split_and!.
  - rewrite Hother; [by vm_compute|..|apply Hskip; by vm_compute]; apply (bool_decide_unpack _); vm_compute; exact I.
  - rewrite Hother; [by vm_compute|..|apply Hskip; by vm_compute]; apply (bool_decide_unpack _); vm_compute; exact I.
  - rewrite payload_outside by (apply (bool_decide_unpack _); vm_compute; exact I).
    unfold with_defaults. cbv zeta.
    assert (Hn : assoc (js "n") (set_default (js "n") (VNum (num_of_Z 1)) is_nullish
              (merged (model_value (ui s)) text msgs extra)) = Some (VNum (num_of_Z 1))).
    { rewrite assoc_set_default_same, merged_lookup by done. rewrite Hskip by (by vm_compute). by vm_compute. }
    destruct video; rewrite !assoc_set_default by (apply (bool_decide_unpack _); vm_compute; exact I); exact Hn.
  - intros name v Hin Hk Hsize. rewrite payload_outside by done.
    apply defaults_keep; [|by eapply collected_defined|done].
    rewrite merged_lookup by done. by rewrite (proj2 (assoc_elem_iff name v extra Hnd) Hin).
  - intros u r Hr. rewrite Hr. unfold payload. cbv zeta. rewrite !assoc_obj_set.
    split; js_decide; done.
Qed.

(** ** Witness *)

Lemma panel_reaches_request_witness : ∃ n body,
  sent (runMedia false (VStr (js "a cat")) (activeId demo_start)
          (collectExtraParams (render_rows id demo_env demo_schema)) demo_start) =
    sent demo_start ++ [Request (activeId demo_start) n (js "/admin/images") body] ∧
  assoc (js "prompt") body = Some (VStr (js "a cat")) ∧
  assoc (js "style") body = Some (VStr (js "anime")).
Proof.
  destruct (panel_reaches_request id demo_env demo_schema (render_rows id demo_env demo_schema) false
    (VStr (js "a cat")) demo_start
    (Chat (js "c1") new_title 2 (model_value (ui demo_start)) (genMode (ui demo_start))
       (VNum (num_of_Z 0)) false None [])) as (n & body & H1 & _ & H3 & _ & H5 & _).
  - reflexivity.
  - vm_compute. reflexivity.
  - exists n, body. split_and!; [exact H1|exact H3|].
    apply H5; [|apply (bool_decide_unpack _); vm_compute; exact I|vm_compute; discriminate].
    apply assoc_elem. vm_compute. reflexivity.
Defined.
