(* ===== verification/DialogJobs.v ===== *)
(** * From the catalog dialog to the job code

    The buttons [ModelDialog.host_line] draws carry [data-ollama], [data-id] and
    [data-name]; the click handler of [Jobs] serves them (app.js lines 538-562
    and 2088-2137): the two components composed. *)

From S2P Require Import Prelude JsString JsNumber JsValue JsJson ModelDialog Jobs.
Open Scope Z_scope.

(** The element a line's button is for the job code: no [data-name-from]. *)
Definition button_of (a : act) : option obtn :=
  match a with
  | ABtn text _ action id name => Some (OBtn action id name None false text)
  | AMark _ _ => None
  end.
Definition dialog_buttons (m : mdialog) : list obtn := omap button_of (concat (map r_acts (m_hosts m))).

(** The page while the dialog is open: the dialog's buttons beside its own. *)
Definition with_dialog (m : mdialog) (st : jpage) : jpage := with_btns (p_btns st ++ dialog_buttons m) st.

(** What a host may be asked for. *)
Definition asks (h : host) (action : jstr) : Prop :=
  h_canLoad h = true ∧ action = (if h_loaded h then js "unload" else js "load") ∨
  h_canDelete h = true ∧ action = js "delete".

Definition host_url (h : host) (action : jstr) : jstr :=
  js "/admin/ollama/" ++ of_int (h_id h) ++ js "/" ++ action.

(** ** Proofs *)

Lemma typed_buttons name h b :
  b ∈ omap button_of (typed_acts name h) ↔
  h_id h ≠ 0 ∧ ∃ action, asks h action ∧ ob_action b = action ∧ ob_id b = of_int (h_id h) ∧
    ob_name b = name ∧ ob_from b = None ∧ ob_disabled b = false ∧
    ob_text b = (if bool_decide (action = js "delete") then js "Удалить с диска"
                 else if h_loaded h then js "Выгрузить из RAM" else js "В RAM").
Proof.
  assert (Hm : omap button_of (typed_acts name h) =
    (if h_canLoad h && negb (h_id h =? 0) then
       [OBtn (if h_loaded h then js "unload" else js "load") (of_int (h_id h)) name None false
          (if h_loaded h then js "Выгрузить из RAM" else js "В RAM")] else []) ++
    (if h_canDelete h && negb (h_id h =? 0)
     then [OBtn (js "delete") (of_int (h_id h)) name None false (js "Удалить с диска")] else [])).
  { unfold typed_acts. destruct (h_canLoad h), (h_canDelete h), (h_id h =? 0), (h_loaded h), (h_hub h), (h_online h);
      reflexivity. }
  rewrite Hm. clear Hm. unfold asks. destruct b as [ba bi bn bf bd bt].
  cbn [ob_action ob_id ob_name ob_from ob_disabled ob_text]. rewrite elem_of_app.
  assert (Hne : js "unload" ≠ js "delete" ∧ js "load" ≠ js "delete") by (vm_compute; split; discriminate).
  destruct Hne as [Hu Hl]. set (a := if h_loaded h then js "unload" else js "load").
  assert (Ha : a ≠ js "delete") by (unfold a; by destruct (h_loaded h)). clearbody a.
  clear Hu Hl. generalize dependent (js "delete"). intros del Ha.
  destruct (Z.eqb_spec (h_id h) 0) as [E|E]; cbn [negb]; [rewrite !andb_false_r|rewrite !andb_true_r]; split.
  - intros [H|H]; by apply elem_of_nil in H.
  - by intros [? _].
  - intros [H|H]; (split; [done|]).
    + destruct (h_canLoad h); [|by apply elem_of_nil in H]. apply list_elem_of_singleton in H as [= -> -> -> -> -> ->].
      exists a. rewrite bool_decide_false by done. split_and!; try done. by left.
    + destruct (h_canDelete h); [|by apply elem_of_nil in H]. apply list_elem_of_singleton in H as [= -> -> -> -> -> ->].
      exists del. rewrite bool_decide_true by done. split_and!; try done. by right.
  - intros (_ & x & [[H1 ->]|[H1 ->]] & -> & -> & -> & -> & -> & ->); rewrite H1; [left|right];
      apply list_elem_of_singleton; [by rewrite bool_decide_false|by rewrite bool_decide_true].
Qed.

Lemma row_buttons_elem name hs b :
  b ∈ omap button_of (concat (map r_acts (map (typed_row name) hs))) ↔
  ∃ h, h ∈ hs ∧ b ∈ omap button_of (typed_acts name h).
Proof.
  induction hs as [|h hs IH]; cbn [map concat].
  - split; [intros H; by apply elem_of_nil in H|intros (h & H & _); by apply elem_of_nil in H].
  - rewrite omap_app, elem_of_app, IH. split.
    + intros [H|(x & Hx & Hb)]; [exists h; split; [by left|done]|exists x; split; [by right|done]].
    + intros (x & [->|Hx]%elem_of_cons & Hb); [by left|right; by exists x].
Qed.

(** A click on a button of the dialog, confirmed: its request is sent. *)
Lemma dialog_click m st b :
  b ∈ dialog_buttons m → ob_disabled b = false → ob_from b = None → ob_id b ≠ [] → ob_name b ≠ [] →
  ∃ i, p_btns (with_dialog m st) !! i = Some b ∧
    posts (ollama_click i true (with_dialog m st)) = posts st ++ [PBtn i (ob_text b) (post_url b) (ob_name b)].
Proof.
  intros [i Hi]%list_elem_of_lookup_1 Hd Hf Hid Hn. exists (length (p_btns st) + i)%nat.
  assert (Hb : p_btns (with_dialog m st) !! (length (p_btns st) + i)%nat = Some b).
  { cbn. rewrite lookup_app_r by lia. by rewrite Nat.add_comm, Nat.add_sub. }
  split; [done|]. unfold ollama_click. rewrite Hb, Hd. unfold btn_name. rewrite Hf.
  rewrite (proj2 (truthy_s_spec _) Hid), (proj2 (truthy_s_spec _) Hn). done.
Qed.

Lemma of_int_nonempty z : of_int z ≠ [].
Proof. unfold of_int. destruct (z <? 0); [done|apply nat_digits_nonempty]. Qed.

(** C18: the dialog's buttons do what the hosts allow, and all of it: for each host
    with an id and each thing it allows (load or unload, delete) there is a
    button whose confirmed click posts exactly that, for that host and the
    model shown; and every button is one of these. *)
Theorem dialog_buttons_post d hs m st :
  hosts_text (d_hosts d) hs → open_model d = Some m → d_name d ≠ [] →
  (∀ h action, h ∈ hs → h_id h ≠ 0 → asks h action →
     ∃ i text, posts (ollama_click i true (with_dialog m st)) =
       posts st ++ [PBtn i text (host_url h action) (d_name d)]) ∧
  (∀ b, b ∈ dialog_buttons m → ∃ h action, h ∈ hs ∧ h_id h ≠ 0 ∧ asks h action ∧
     post_url b = host_url h action ∧ btn_name b = d_name d).
Proof.
  intros Ht Hm Hn. rewrite (open_model_typed d hs Ht) in Hm. injection Hm as <-.
  assert (He : ∀ b, b ∈ dialog_buttons (opened d hs) ↔ _) by (intros b; apply row_buttons_elem).
  split.
  - intros h action Hh Hid Ha.
    set (b := OBtn action (of_int (h_id h)) (d_name d) None false
      (if bool_decide (action = js "delete") then js "Удалить с диска"
       else if h_loaded h then js "Выгрузить из RAM" else js "В RAM")).
    destruct (dialog_click (opened d hs) st b) as (i & _ & Hp);
      [|done|done|apply of_int_nonempty|done|by eexists i, _].
    apply He. exists h. split; [done|]. apply typed_buttons. split; [done|]. by exists action.
  - intros b (h & Hh & (Hid & action & Ha & E1 & E2 & E3 & E4 & _)%typed_buttons)%He.
    exists h, action. split_and!; [done|done|done| |].
    + unfold post_url, host_url. by rewrite E1, E2.
    + unfold btn_name. by rewrite E4.
Qed.

(** ** Witness *)

Definition no_jobs : jpage :=
  JPage 0 false 0 [] 1 0 [] None None None None [] false [] 0.

Lemma dialog_buttons_post_witness : ∃ m i text,
  open_model (demo_model demo_hosts_text) = Some m ∧
  posts (ollama_click i true (with_dialog m no_jobs)) =
    [PBtn i text (host_url (Host 3 (js "mac-82") (js "82") true (js "ollama") (js "Ollama") true true
                              false false false (js "R&D")) (js "unload")) (js "qwen3")].
Proof.
  pose proof (open_model_typed (demo_model demo_hosts_text) demo_hosts demo_hosts_parse) as Hm.
  destruct (dialog_buttons_post (demo_model demo_hosts_text) demo_hosts _ no_jobs demo_hosts_parse Hm) as [H _].
  - vm_compute. discriminate.
  - destruct (H (Host 3 (js "mac-82") (js "82") true (js "ollama") (js "Ollama") true true
                   false false false (js "R&D")) (js "unload")) as (i & text & Hp).
    + left.
    + discriminate.
    + left. split; reflexivity.
    + eexists _, i, text. split; [exact Hm|exact Hp].
Defined.
